(* ===== verification/_CoqProject ===== *)
-Q . S2P
Prelude.v
Wire.v
Protocol.v
Builder.v
Checksum.v
SendPacket.v
Parser.v
RoundTrip.v
LabelMgr.v
WheelTimer.v
DList.v
WheelLists.v
WheelRace.v
WheelLife.v
WheelSync.v
Timers.v
Timing.v
StateDb.v
Interfaces.v
State.v
Messages.v
StateMachine.v
Hello.v
Invariant.v
Signalling.v
Rules.v
SendRules.v
Lifecycle.v
Handlers.v
HandlersResv.v
Operations.v
Commands.v
HelloRules.v
Shutdown.v
RsvpIf.v
Scan.v
Printf.v
Netlink.v
Display.v
Testbed.v
Daemon.v
PipeRules.v
Behaviour.v
Accepted.v
AcceptedPath.v
Network.v
DisplayRules.v
Cli.v
CliRules.v
NetlinkRules.v
HalTimer.v
Log.v
EventLoop.v
UnitTests.v
FlowTests.v
