(* ===== verification/Prelude.v ===== *)
(** * RSVP-TE daemon: verification development

    A model in Rocq of the RSVP-TE signalling daemon of this repository (C,
    under src/): a router that sets up MPLS label switched paths with PATH and
    RESV messages (RFC 2205, RFC 3209), protects them with bypass tunnels (RFC
    4090), watches its neighbours with Hello messages, and programs the Linux
    forwarding table over netlink.  Below, pi/, pd/ and common/ are
    directories of src/src/, and wheel_timer/ is one of src/.

    ** The program

    One thread runs the event loop of pi/rsvp_dispatcher.c.  A packet of the raw
    socket goes through the parser (pi/rsvp_parser.c) to [rsvp_handle_message];
    an expired timer comes out of the pipe of pi/rsvp_timers.c and runs its
    callback; a line of the terminal is a command of pi/rsvp_cli.c.  All three
    work on the state blocks of pi/rsvp_state_db.c (path, reservation and
    blockade blocks in hash tables, with pointers to each other) by the
    functions of pi/rsvp_state_machine.c and pi/rsvp_hello.c, which take labels
    from pi/label_mgr.c, start timers, build messages with pi/rsvp_builder.c
    and send them with [rsvp_send_packet], and ask the host for routes,
    addresses and forwarding entries through pd/hal_netlink_linux.c.  The timer
    wheel (wheel_timer/wheel_timer.c) has its own tick and worker threads,
    which touch only the wheel, the registry of active timers and the pipe.

    ** The files

    Bytes and messages:
    - Prelude: record update, tactics, lists and integers.
    - Wire, Protocol: bytes, byte order, packed structures
      (common/rsvp_protocol.h, common/rsvp_error.h).  A structure is a record
      with a [Wire] instance; loads outside a buffer are [None].
    - Builder, Checksum (pi/rsvp_builder.c): the output buffer, one definition
      per [rsvp_builder_add_*], the checksum loops and the finalization.
    - SendPacket ([rsvp_send_packet] of pi/rsvp_dispatcher.c): the IP header.
    - Parser (pi/rsvp_parser.c): [rsvp_parse_packet] with its object loop.
    - RoundTrip, Signalling: from builder to parser, for any objects and for
      the PATH and RESV that the daemon sends.

    Resources:
    - LabelMgr (pi/label_mgr.c): the bitmap of labels.
    - WheelTimer (wheel_timer/wheel_timer.c): the hierarchical wheel, its tick
      and its worker steps, on lists.
    - DList, WheelLists, WheelRace (wheel_timer/list.h, wheel_timer.c): the
      doubly linked lists in memory, the wheel again with the pointer operations
      of the source, and what these do when a timer is armed again while it
      waits in the batch of a worker.
    - WheelLife: the creation of the wheel with its error paths, and its
      destruction as the steps of its threads.
    - WheelSync: [timer_del_sync] against any number of workers, as steps that
      interleave at the locks.
    - Timers (pi/rsvp_timers.c): [rsvp_timer_init], timers, registry and pipe,
      with the steps of the threads interleaved.
    - Timing: the lifetime and the jittered refresh interval, in the single
      precision arithmetic of the source.

    The state machine:
    - StateDb (pi/rsvp_state.h, pi/rsvp_state_db.c): blocks and hash tables.
    - Interfaces: the classes by which the state machine uses timers
      ([TimerSys], [TimerLaws]), labels ([LabelSys], [LabelLaws]: a label is
      given whenever one is free) and the host ([Env], [EnvLaws]), and what
      [main] needs to start them ([TimerInit], [LabelInit]), with the
      instances for Timers and LabelMgr.
    - State: the state record, the monad [M] of state and failure, its
      weakest precondition [wp], creation and deletion of blocks.
    - Messages, StateMachine (pi/rsvp_state_machine.c), Hello (pi/rsvp_hello.c
      and the dispatch of messages): every handler, timer callback and command,
      whole, one definition for each C function or, where a function is long,
      for each role in it.
    - Invariant, Rules, SendRules, Lifecycle, Handlers, HandlersResv,
      Operations, Commands, HelloRules, Shutdown: the invariant [Inv] and a
      [wp] rule for each operation.
    - Daemon (src/main.c): events, start, shutdown and the reachable states.
    - PipeRules: the loop of [rsvp_timer_handle_exp] over the pipe.
    - Behaviour: what single operations change.
    - Accepted, AcceptedPath: what an accepted RESV or PATH and the set-up of a
      tunnel do, for each role of the router, in partial-correctness style
      ([after]) on top of the safety rules.
    - Network: several routers, each a run of the daemon on a host of its own;
      the packet that one sends is the one that the next receives.
    - Testbed: a concrete host, for examples and witnesses.

    Around it:
    - RsvpIf (pi/rsvp_if.c): the interface table, bandwidths in binary64.
    - Scan, Printf: the conversions of [sscanf] and [printf] that are used.
    - Display, DisplayRules: the dump functions of the state database, the
      state machine, the neighbours, the interfaces and the routes.
    - Cli, CliRules (pi/rsvp_cli.c): the commands with their replies, and their
      reduction to events of the daemon.
    - Netlink, NetlinkRules (pd/hal_netlink_linux.c): requests, the walks over
      replies, the address and route caches.
    - HalTimer (pd/hal_timer_linux.c), Log (common/rsvp_log.c): the timerfd,
      which the daemon does not use, and the optional logger.
    - EventLoop (pi/rsvp_dispatcher.c, src/main.c): the start of the labels,
      the timers and the sockets, the poll loop and [main], over all of the
      above.
    - UnitTests, FlowTests (src/tests/): the test programs of the repository, a
      definition for each test, run on the model.

    ** What is shown

    A C function whose model returns [None] has read or written outside an
    object, used freed memory, corrupted a list, converted a float out of range,
    or run out of the fuel of a loop; so a theorem that it returns [Some]
    excludes all of these.

    - Whole program (EventLoop): for any results of [poll] and of the reads,
      every round of the loop is handled to the end, and [main] fails exactly
      when the timers or the sockets cannot be set up, and else runs until a
      signal and gives everything back but entries for unlabelled packets.
    - Whole daemon (Daemon): every event completes in every reachable state
      and leads to a reachable state; blocks, timers and labels are consistent
      in all of them; no installed label outlives its reservation; the
      shutdown releases everything but entries of label 0.  The same for every line of the terminal
      (CliRules), and for the route cache of the netlink layer (NetlinkRules).
    - Several routers (Network): after a tunnel is set up from the ingress to
      the egress and back, the entries that the routers have installed carry
      unlabelled packets from the ingress to the egress, hop by hop, to the
      label that the egress holds, if the ends of every link number it alike.
      The forwarding table of a host is a parameter there, of which only is
      used that the last request holds.
    - Single operations (Behaviour, Accepted, AcceptedPath): the block, the
      forwarding entry and the message that an accepted PATH or RESV leads to,
      which fails for want of a label only when all of them are held;
      removal of a path by timeout, command or PathTear; the switch of exactly
      the protected paths when an interface fails; Hello messages; rejected
      messages change nothing.
    - Messages: the parser is safe on every input and accepts what it should;
      what is built is parsed back; a PATH or RESV is understood by the next
      daemon; the checksum is the one of RFC 1071 and detects single bit
      errors.
    - Resources: the label allocator refines a set of labels; the wheel fires
      in time, and the wheel in memory refines the wheel of lists; its creation
      loses nothing on any error path and its destruction ends under every
      schedule; [timer_del_sync] returns when no worker runs the callback,
      unless the node is armed again meanwhile; a timer stopped while it is
      active stays silent under any interleaving; the loop
      over the pipe ends and empties it; a hash table is a finite map; the
      lifetime survives the loss of refreshes.
    - Displays: the show commands list every block once, as it is.
    - Interfaces of the host: the walks over netlink buffers that are not
      filled to their last 12 bytes end inside them;
      requests hold the intended attributes; the caches are maps.
    - Tests: every assertion of the unit tests holds of the model; the lemmas
      of FlowTests list the verdicts of the functional tests, where some
      expectations of the test programs are wrong.
    - Where the code does not do what it means to, a theorem says what it does
      (dangling pointers to bypass tunnels, overflow of the lifetime, swapped
      netlink attributes, stale route entries, a short buffer of the command
      line, the header checksum with Router Alert, timers armed again in a
      worker's batch, [timer_del_sync] before the callback or beside a second
      one, lines lost at a hang-up, a descriptor taken for the terminal, two addresses printed from
      one static buffer, entries that name an interface by the number of the
      neighbour, an egress without an entry for its label).

    ** Assumptions

    [event_ok] restricts the events of Daemon, those before a reachable state
    and those in it: received refresh periods and bandwidths are in the range
    of the float conversions, no teardown hits a bypass tunnel that may be in
    use, and the first expiration of the pipe is not a stale one.  The first
    two are the defects above; without them the theorems would be false.  Daemon and EventLoop look at the timers between
    two steps of the wheel's threads, when no expiration is on its way through a
    worker; the operations inside that window are Timers and WheelRace.
    [fd_ok] asks of a round of the event loop what [event_ok] asks of its
    events, and that a line of the terminal does not overflow the buffer of the
    neighbour's address, and that the last 12 bytes of a netlink buffer are
    unused.  What a single theorem assumes beyond this its comment says.
    [EnvLaws] says what the host's calls return: an
    interface index is an [int], [rand] is in its range and not zero for ever,
    [calloc] gives fresh memory.  [Env] gives every call its number, so that a
    host may change its answers over time, fail to allocate, or lose the socket.

    ** Machine arithmetic, bounds and fuel

    Integers are [Z] with the wrap-around of their width written out where the
    code can reach it; the host is little endian.  Floats are bit patterns where
    they are copied and exact scaled integers or [SpecFloat] numbers where
    they are computed with.  Fuel: the object loop of the parser and the loops
    over subobjects and attributes take at least one byte of the rest each
    round, so the length of the input is enough; the fold of the checksum needs
    two rounds for any 32-bit sum and has three; the cyclic search of the label
    allocator visits each label at most once; a cascade of the wheel goes over
    five levels; the walks over linked lists have the number of list heads in
    memory; the loop over the timer pipe has the number of its messages; the
    loops that empty a hash bucket take its length; the draws
    of [rand] are bounded by [env_rand_fuel].  That each fuel is enough is part
    of the theorems, since they prove results and not only facts about them.

    ** Not modelled

    - The system calls themselves: what [poll], the reads, the sockets and
      thread creation give is the input of EventLoop, Netlink and WheelLife (for the start of
      the daemon the creation of the wheel just succeeds or fails), and
      a signal is an input of the loop.
    - Log calls inside the other parts: with them only the text of the log would
      change.
    - In WheelLife and WheelSync the threads interleave at their locks and
      waits; what they do to the lists there is WheelTimer and WheelLists.
    - IPv6 objects: the parser has fields for them that nothing fills.
    - The kernel behind netlink, and [getifaddrs].
    - One test of src/tests/test_hello.c, which counts the calls of a stub for
      [rsvp_frr_trigger]. *)

From stdpp Require Import base numbers list option gmap.
From Stdlib Require Export ZifyNat.

#[global] Open Scope Z_scope.

#[global] Arguments Nat.leb : simpl never.
#[global] Arguments Nat.ltb : simpl never.
#[global] Arguments Z.leb : simpl never.
#[global] Arguments Z.ltb : simpl never.
#[global] Arguments Nat.div : simpl never.
#[global] Arguments Nat.modulo : simpl never.
#[global] Arguments Z.mul : simpl never.
#[global] Arguments Z.add : simpl never.
#[global] Arguments Z.sub : simpl never.
#[global] Arguments Z.pow : simpl never.
#[global] Arguments Z.div : simpl never.
#[global] Arguments Z.modulo : simpl never.
#[global] Arguments Z.land : simpl never.
#[global] Arguments Z.lor : simpl never.
#[global] Arguments Z.shiftl : simpl never.
#[global] Arguments Z.shiftr : simpl never.
#[global] Arguments Z.of_nat : simpl never.

(** ** Record update

    [r <| f := v |>] and [r <| f ::= g |>] update one field of a record whose
    type has a [Settable] instance (the record rebuilt from its own
    projections). *)

Class Settable (R : Type) := remake : R → R.
Class Setter {R E : Type} (proj : R → E) := set_field : (E → E) → R → R.
Arguments set_field {R E} proj {_} _ _ /.

Ltac build_setter :=
  match goal with
  | |- @Setter ?R ?E ?proj =>
      let f := fresh "f" in
      let r := fresh "r" in
      exact (fun (f : E → E) (r : R) =>
        ltac:(let b := eval hnf in (remake r) in
              match b with
              | context C [proj r] =>
                  let b' := context C [f (proj r)] in exact b'
              end))
  end.

#[export] Hint Extern 1 (Setter _) => build_setter : typeclass_instances.

Declare Scope record_scope.
Notation "r <| f := v |>" := (set_field f (λ _, v) r)
  (at level 12, left associativity, f at next level, v at level 200,
   format "r  <| f  :=  v |>") : record_scope.
Notation "r <| f ::= g |>" := (set_field f g r)
  (at level 12, left associativity, f at next level, g at level 200,
   format "r  <| f  ::=  g |>") : record_scope.
#[global] Open Scope record_scope.

(** ** Tactics *)

(** Splits the hypotheses made by option binds and by record equalities. *)
Ltac inv_opt :=
  repeat match goal with
  | H : mbind _ _ = Some _ |- _ => apply bind_Some in H as (? & ? & ?)
  | H : Some _ = Some _ |- _ => injection H as H
  | H : None = Some _ |- _ => discriminate H
  | H : Some _ = None |- _ => discriminate H
  | H : (_, _) = (_, _) |- _ => injection H as ? ?
  end; subst.

(** Case analysis on the condition of the first innermost conditional of the
    goal, or of a hypothesis. *)
Ltac case_if :=
  match goal with
  | |- context [if ?b then _ else _] =>
      lazymatch b with context [if _ then _ else _] => fail | _ => idtac end;
      let E := fresh "E" in destruct b eqn:E
  end.

Ltac case_if_in H :=
  match type of H with
  | context [if ?b then _ else _] =>
      lazymatch b with context [if _ then _ else _] => fail | _ => idtac end;
      let E := fresh "E" in destruct b eqn:E
  end.

(** Turns boolean comparisons of the context into propositions for [lia]. *)
Ltac bools :=
  repeat match goal with
  | H : (_ && _)%bool = true |- _ => apply andb_prop in H as [? ?]
  | H : (_ || _)%bool = false |- _ => apply orb_false_elim in H as [? ?]
  | H : negb _ = true |- _ => apply negb_true_iff in H
  | H : negb _ = false |- _ => apply negb_false_iff in H
  | H : (_ =? _) = true |- _ => apply Z.eqb_eq in H
  | H : (_ =? _) = false |- _ => apply Z.eqb_neq in H
  | H : (_ <? _) = true |- _ => apply Z.ltb_lt in H
  | H : (_ <? _) = false |- _ => apply Z.ltb_ge in H
  | H : (_ <=? _) = true |- _ => apply Z.leb_le in H
  | H : (_ <=? _) = false |- _ => apply Z.leb_gt in H
  | H : (_ =? _)%nat = true |- _ => apply Nat.eqb_eq in H
  | H : (_ =? _)%nat = false |- _ => apply Nat.eqb_neq in H
  | H : (_ <? _)%nat = true |- _ => apply Nat.ltb_lt in H
  | H : (_ <? _)%nat = false |- _ => apply Nat.ltb_ge in H
  | H : (_ <=? _)%nat = true |- _ => apply Nat.leb_le in H
  | H : (_ <=? _)%nat = false |- _ => apply Nat.leb_gt in H
  | H : bool_decide _ = true |- _ => apply bool_decide_eq_true in H
  | H : bool_decide _ = false |- _ => apply bool_decide_eq_false in H
  end.

Ltac blia := bools; lia.

(** [lia] with division and remainder, over [nat] and [Z]. *)
Ltac dlia := zify; Z.to_euclidean_division_equations; lia.

(** Addresses of heap objects. *)
Definition loc := positive.

(** ** Lists *)

(** [overwrite m o bs] is the buffer [m] after [memcpy(m + o, bs, |bs|)]; a
    copy that does not fit makes the result longer than [m]. *)
Definition overwrite {A} (m : list A) (o : nat) (bs : list A) : list A :=
  take o m ++ bs ++ drop (o + length bs) m.

Section overwrite.
Context {A : Type}.
Implicit Types m bs : list A.

Lemma length_overwrite m o bs :
  (o + length bs <= length m)%nat → length (overwrite m o bs) = length m.
Proof.
  intros. unfold overwrite.
  rewrite !length_app, length_take, length_drop. lia.
Qed.

(** An overflowing copy is visible: the buffer would grow. *)
Lemma length_overwrite_overflow m o bs :
  (o <= length m < o + length bs)%nat →
  length (overwrite m o bs) = (o + length bs)%nat.
Proof.
  intros. unfold overwrite.
  rewrite !length_app, length_take, length_drop. lia.
Qed.

Lemma take_overwrite_le m o bs n :
  (n <= o)%nat → (o <= length m)%nat → take n (overwrite m o bs) = take n m.
Proof.
  intros. unfold overwrite. rewrite take_app_le by (rewrite length_take; lia).
  rewrite take_take. f_equal. lia.
Qed.

Lemma drop_overwrite_ge m o bs n :
  (o + length bs <= n)%nat → (o + length bs <= length m)%nat →
  drop n (overwrite m o bs) = drop n m.
Proof.
  intros. unfold overwrite.
  rewrite drop_app_ge by (rewrite length_take; lia).
  rewrite drop_app_ge by (rewrite length_take; lia).
  rewrite drop_drop. f_equal. rewrite length_take. lia.
Qed.

(** A copy at the end of a prefix. *)
Lemma overwrite_app_r pre m bs :
  overwrite (pre ++ m) (length pre) bs = pre ++ bs ++ drop (length bs) m.
Proof.
  unfold overwrite. rewrite take_app_length. do 2 f_equal.
  rewrite <- drop_drop. by rewrite drop_app_length.
Qed.

(** A copy inside a prefix. *)
Lemma overwrite_app_l pre m o bs :
  (o + length bs <= length pre)%nat →
  overwrite (pre ++ m) o bs = overwrite pre o bs ++ m.
Proof.
  intros. unfold overwrite.
  rewrite take_app_le, drop_app_le by lia. by rewrite !app_assoc.
Qed.

Lemma Forall_overwrite (P : A → Prop) m o bs :
  Forall P m → Forall P bs → Forall P (overwrite m o bs).
Proof.
  intros. unfold overwrite.
  rewrite !Forall_app. auto using Forall_take, Forall_drop.
Qed.

Lemma overwrite_mid m o bs :
  (o <= length m)%nat →
  take (length bs) (drop o (overwrite m o bs)) = bs.
Proof.
  intros. unfold overwrite.
  rewrite drop_app_length' by (rewrite length_take; lia).
  by rewrite take_app_length.
Qed.
End overwrite.

(** Splitting a list at two points. *)
Lemma take_drop_split {A} (l : list A) (i n : nat) :
  l = take i l ++ take n (drop i l) ++ drop (i + n) l.
Proof. rewrite <- drop_drop, take_drop, take_drop. done. Qed.

Create HintDb rsvp.

