(* ===== verification/Wire.v ===== *)
(** * Bytes, byte order and the packed structures of rsvp_protocol.h

    A buffer is a list of bytes (each a [Z] in [0, 256)); a pointer into it
    is an offset.  Loads return [None] when they would touch a byte outside
    the buffer.  The host is little endian, as the Linux hosts the daemon runs
    on: a multi-byte field is stored as the wire holds it and [ntohs]/[ntohl]
    swap it.  A packed C struct is described by the widths of its fields in
    order ([Wire]); loading and storing are then generic, with one set of
    laws. *)

From stdpp Require Import base numbers list option.
From S2P Require Import Prelude.

(** ** Bytes *)

Definition is_byte (b : Z) : Prop := 0 ≤ b < 256.
Definition bytes_ok (m : list Z) : Prop := Forall is_byte m.

(** Splits [bytes_ok] of an explicit list into bounds of its bytes. *)
Ltac bytes_inv H :=
  unfold bytes_ok in H;
  repeat match type of H with
  | Forall _ (_ :: _) =>
      let Hx := fresh "Hbyte" in let Ht := fresh in
      pose proof (Forall_inv H) as Hx; pose proof (Forall_inv_tail H) as Ht;
      clear H; rename Ht into H; red in Hx
  end;
  fold bytes_ok in H.

(** The little-endian value of a list of bytes, and the [n] low bytes of a
    value. *)
Fixpoint le_value (bs : list Z) : Z :=
  match bs with
  | [] => 0
  | b :: bs' => b + 256 * le_value bs'
  end.

Fixpoint le_bytes (n : nat) (v : Z) : list Z :=
  match n with
  | O => []
  | S n' => v mod 256 :: le_bytes n' (v / 256)
  end.

(** A load of [n] bytes at offset [o]. *)
Definition load (n : nat) (m : list Z) (o : nat) : option Z :=
  if (o + n <=? length m)%nat then Some (le_value (take n (drop o m))) else None.

(** ** Byte order (ntohs, ntohl and their inverses are the same swaps) *)

Definition ntohs (x : Z) : Z :=
  Z.lor (Z.shiftl (Z.land x 255) 8) (Z.land (Z.shiftr x 8) 255).
Definition htons (x : Z) : Z := ntohs (x mod 65536).

Definition ntohl (x : Z) : Z :=
  Z.lor (Z.shiftl (Z.land x 255) 24)
  (Z.lor (Z.shiftl (Z.land (Z.shiftr x 8) 255) 16)
  (Z.lor (Z.shiftl (Z.land (Z.shiftr x 16) 255) 8)
         (Z.land (Z.shiftr x 24) 255))).
Definition htonl (x : Z) : Z := ntohl (x mod 4294967296).

Lemma lor_shiftl_add x y n :
  0 ≤ n → 0 ≤ y < 2 ^ n → Z.lor (Z.shiftl x n) y = x * 2 ^ n + y.
Proof.
  intros Hn Hy. rewrite Z.shiftl_mul_pow2 by done.
  rewrite <- Z.add_lor_land.
  assert (Z.land (x * 2 ^ n) y = 0) as ->; [|lia].
  rewrite <- Z.shiftl_mul_pow2 by done.
  apply Z.bits_inj'. intros i Hi. rewrite Z.land_spec, Z.bits_0.
  destruct (decide (i < n)).
  - by rewrite Z.shiftl_spec_low.
  - apply andb_false_intro2.
    destruct (decide (y = 0)) as [->|]; [apply Z.bits_0|].
    apply Z.bits_above_log2; [lia|].
    apply Z.log2_lt_pow2; [lia|].
    apply Z.lt_le_trans with (2 ^ n); [lia|]. apply Z.pow_le_mono_r; lia.
Qed.

Lemma land_255 x : Z.land x 255 = x mod 256.
Proof. change 255 with (Z.ones 8). by rewrite Z.land_ones. Qed.

Lemma ntohs_arith x : ntohs x = x mod 256 * 256 + x / 256 mod 256.
Proof.
  unfold ntohs. rewrite !land_255, Z.shiftr_div_pow2 by lia.
  apply lor_shiftl_add; [lia|]. apply Z.mod_pos_bound; lia.
Qed.

Lemma ntohl_arith x :
  ntohl x = x mod 256 * 16777216 + x / 256 mod 256 * 65536
            + x / 65536 mod 256 * 256 + x / 16777216 mod 256.
Proof.
  unfold ntohl. rewrite !land_255, !Z.shiftr_div_pow2 by lia.
  change (2 ^ 8) with 256. change (2 ^ 16) with 65536.
  change (2 ^ 24) with 16777216.
  pose proof (Z.mod_pos_bound (x / 256) 256).
  pose proof (Z.mod_pos_bound (x / 65536) 256).
  pose proof (Z.mod_pos_bound (x / 16777216) 256).
  rewrite (lor_shiftl_add (x / 65536 mod 256)) by lia.
  rewrite (lor_shiftl_add (x / 256 mod 256)) by lia.
  rewrite lor_shiftl_add by lia. lia.
Qed.

Lemma ntohs_bound x : 0 ≤ ntohs x < 65536.
Proof.
  rewrite ntohs_arith.
  pose proof (Z.mod_pos_bound x 256). pose proof (Z.mod_pos_bound (x / 256) 256). lia.
Qed.

Lemma ntohl_bound x : 0 ≤ ntohl x < 4294967296.
Proof.
  rewrite ntohl_arith.
  pose proof (Z.mod_pos_bound x 256). pose proof (Z.mod_pos_bound (x / 256) 256).
  pose proof (Z.mod_pos_bound (x / 65536) 256).
  pose proof (Z.mod_pos_bound (x / 16777216) 256). lia.
Qed.

Lemma ntohs_bytes a b : is_byte a → is_byte b → ntohs (a + 256 * b) = 256 * a + b.
Proof. unfold is_byte. intros. rewrite ntohs_arith. Z.to_euclidean_division_equations; lia. Qed.

Lemma ntohs_involutive x : 0 ≤ x < 65536 → ntohs (ntohs x) = x.
Proof.
  intros. rewrite (ntohs_arith x), Z.add_comm, (Z.mul_comm _ 256), ntohs_bytes;
    unfold is_byte; Z.to_euclidean_division_equations; lia.
Qed.

Lemma ntohl_involutive x : 0 ≤ x < 4294967296 → ntohl (ntohl x) = x.
Proof.
  intros Hx.
  assert (∃ a b c d, x = a + 256 * b + 65536 * c + 16777216 * d
    ∧ is_byte a ∧ is_byte b ∧ is_byte c ∧ is_byte d) as (a & b & c & d & -> & ? & ? & ? & ?).
  { exists (x mod 256), (x / 256 mod 256), (x / 65536 mod 256), (x / 16777216).
    unfold is_byte. Z.to_euclidean_division_equations; lia. }
  unfold is_byte in *.
  assert (∀ a b c d, is_byte a → is_byte b → is_byte c → is_byte d →
    ntohl (a + 256 * b + 65536 * c + 16777216 * d)
    = d + 256 * c + 65536 * b + 16777216 * a) as Hsw.
  { clear. unfold is_byte. intros. rewrite ntohl_arith.
    assert ((a + 256 * b + 65536 * c + 16777216 * d) mod 256 = a) as ->
      by (Z.to_euclidean_division_equations; lia).
    assert ((a + 256 * b + 65536 * c + 16777216 * d) / 256 = b + 256 * c + 65536 * d) as ->
      by (Z.to_euclidean_division_equations; lia).
    assert ((a + 256 * b + 65536 * c + 16777216 * d) / 65536 = c + 256 * d) as ->
      by (Z.to_euclidean_division_equations; lia).
    assert ((a + 256 * b + 65536 * c + 16777216 * d) / 16777216 = d) as ->
      by (Z.to_euclidean_division_equations; lia).
    Z.to_euclidean_division_equations; lia. }
  rewrite !Hsw; unfold is_byte; lia.
Qed.

Lemma htons_ntohs x : 0 ≤ x < 65536 → ntohs (htons x) = x.
Proof. intros. unfold htons. rewrite Z.mod_small by lia. by apply ntohs_involutive. Qed.
Lemma htonl_ntohl x : 0 ≤ x < 4294967296 → ntohl (htonl x) = x.
Proof. intros. unfold htonl. rewrite Z.mod_small by lia. by apply ntohl_involutive. Qed.
Lemma ntohs_htons x : 0 ≤ x < 65536 → htons (ntohs x) = x.
Proof.
  intros. unfold htons. rewrite Z.mod_small by apply ntohs_bound.
  by apply ntohs_involutive.
Qed.
Lemma htons_bound x : 0 ≤ htons x < 65536.
Proof. apply ntohs_bound. Qed.
Lemma htonl_bound x : 0 ≤ htonl x < 4294967296.
Proof. apply ntohl_bound. Qed.
#[export] Hint Resolve ntohs_bound ntohl_bound htons_bound htonl_bound : rsvp.

(** ** Loads and stores of scalars *)

Lemma length_le_bytes n v : length (le_bytes n v) = n.
Proof. revert v. induction n; intros; simpl; auto. Qed.

Lemma le_bytes_ok n v : bytes_ok (le_bytes n v).
Proof.
  revert v. induction n as [|n IH]; intros v; [constructor|].
  constructor; [|apply IH]. unfold is_byte. apply Z.mod_pos_bound. lia.
Qed.

Lemma le_value_bytes n v : le_value (le_bytes n v) = v mod 256 ^ Z.of_nat n.
Proof.
  revert v. induction n as [|n IH]; intros v; simpl.
  - change (256 ^ 0) with 1. by rewrite Z.mod_1_r.
  - rewrite IH. rewrite Nat2Z.inj_succ, Z.pow_succ_r by lia.
    rewrite Z.rem_mul_r by lia. lia.
Qed.

Lemma le_value_bound bs :
  bytes_ok bs → 0 ≤ le_value bs < 256 ^ Z.of_nat (length bs).
Proof.
  induction 1 as [|b bs Hb Hbs IH]; simpl.
  - change (256 ^ 0) with 1. lia.
  - unfold is_byte in Hb. rewrite Nat2Z.inj_succ, Z.pow_succ_r by lia. lia.
Qed.

Lemma le_bytes_value bs : bytes_ok bs → le_bytes (length bs) (le_value bs) = bs.
Proof.
  induction 1 as [|b bs Hb Hbs IH]; simpl; [done|].
  unfold is_byte in Hb.
  rewrite (Z.mul_comm 256), Z.mod_add, Z.mod_small by lia.
  rewrite Z.div_add, Z.div_small, Z.add_0_l, IH by lia. done.
Qed.

Lemma load_is_Some n m o : (o + n <= length m)%nat → is_Some (load n m o).
Proof. intros. unfold load. rewrite (proj2 (Nat.leb_le _ _)); eauto. Qed.

Lemma load_Some_inv n m o v :
  load n m o = Some v → (o + n <= length m)%nat ∧ v = le_value (take n (drop o m)).
Proof. unfold load. case_if; intros; inv_opt; bools; auto. Qed.

Lemma load_bound n m o v :
  bytes_ok m → load n m o = Some v → 0 ≤ v < 256 ^ Z.of_nat n.
Proof.
  intros Hm [? ->]%load_Some_inv.
  assert (length (take n (drop o m)) = n) as Hl
    by (rewrite length_take, length_drop; lia).
  pose proof (le_value_bound (take n (drop o m))) as Hb. rewrite Hl in Hb.
  apply Hb. by apply Forall_take, Forall_drop.
Qed.

Lemma load_le_bytes n v pre post :
  0 ≤ v < 256 ^ Z.of_nat n →
  load n (pre ++ le_bytes n v ++ post) (length pre) = Some v.
Proof.
  intros. unfold load. rewrite !length_app, length_le_bytes.
  rewrite (proj2 (Nat.leb_le _ _)) by lia.
  rewrite drop_app_length, take_app_length' by by rewrite length_le_bytes.
  rewrite le_value_bytes. by rewrite Z.mod_small.
Qed.

(** A load only depends on the bytes it covers. *)
Lemma load_app_shift n pre m o : load n (pre ++ m) (length pre + o) = load n m o.
Proof.
  unfold load. rewrite length_app.
  replace (length pre + o + n <=? length pre + length m)%nat
    with (o + n <=? length m)%nat.
  - rewrite <- drop_drop, drop_app_length. done.
  - apply eq_true_iff_eq. rewrite !Nat.leb_le. lia.
Qed.

Lemma load_app_left n m post o :
  (o + n <= length m)%nat → load n (m ++ post) o = load n m o.
Proof.
  intros. unfold load. rewrite length_app.
  rewrite !(proj2 (Nat.leb_le _ _)) by lia.
  rewrite drop_app_le by lia. rewrite take_app_le by (rewrite length_drop; lia). done.
Qed.

(** ** Packed structures *)

Fixpoint load_fields (ws : list nat) (m : list Z) (o : nat) : option (list Z) :=
  match ws with
  | [] => Some []
  | w :: ws' =>
      v ← load w m o;
      vs ← load_fields ws' m (o + w);
      Some (v :: vs)
  end.

Fixpoint store_fields (ws : list nat) (vs : list Z) : list Z :=
  match ws, vs with
  | w :: ws', v :: vs' => le_bytes w v ++ store_fields ws' vs'
  | _, _ => []
  end.

Definition fields_ok (ws : list nat) (vs : list Z) : Prop :=
  Forall2 (λ w v, 0 ≤ v < 256 ^ Z.of_nat w) ws vs.

(** The layout of a packed struct: the widths of its fields in order, and the
    correspondence of its values with lists of field values. *)
Class Wire (T : Type) := {
  widths : list nat;
  to_fields : T → list Z;
  of_fields : list Z → option T;
}.
Arguments widths T {_}.

(** What a layout promises. *)
Class WireLaws (T : Type) `{Wire T} := {
  of_to_fields : ∀ t : T, of_fields (to_fields t) = Some t;
  to_of_fields : ∀ vs, length vs = length (widths T) →
    ∃ t : T, of_fields vs = Some t ∧ to_fields t = vs;
}.

Definition sizeof (T : Type) `{Wire T} : nat := sum_list (widths T).
Definition load_struct (T : Type) `{Wire T} (m : list Z) (o : nat) : option T :=
  load_fields (widths T) m o ≫= of_fields.
Definition store_struct {T : Type} `{Wire T} (t : T) : list Z :=
  store_fields (widths T) (to_fields t).
Definition struct_ok {T : Type} `{Wire T} (t : T) : Prop :=
  fields_ok (widths T) (to_fields t).

Lemma load_fields_is_Some ws m o :
  (o + sum_list ws <= length m)%nat → is_Some (load_fields ws m o).
Proof.
  revert o. induction ws as [|w ws IH]; simpl; intros o Ho; [eauto|].
  destruct (load_is_Some w m o) as [v ->]; [lia|]. simpl.
  destruct (IH (o + w)%nat) as [vs ->]; [lia|]. simpl. eauto.
Qed.

Lemma load_fields_length ws m o vs :
  load_fields ws m o = Some vs → length vs = length ws.
Proof.
  revert o vs. induction ws as [|w ws IH]; simpl; intros; inv_opt; [done|].
  simpl. f_equal. eauto.
Qed.

Lemma load_fields_in_bounds ws m o vs :
  load_fields ws m o = Some vs → ws ≠ [] → (o + sum_list ws <= length m)%nat.
Proof.
  revert o vs. induction ws as [|w ws IH]; simpl; intros o vs H Hne; [done|].
  inv_opt. destruct ws as [|w' ws].
  - apply load_Some_inv in H as [? ?]. simpl. lia.
  - assert (o + w + sum_list (w' :: ws) <= length m)%nat by (eapply IH; eauto).
    simpl in *. lia.
Qed.

Lemma load_fields_ok ws m o vs :
  bytes_ok m → load_fields ws m o = Some vs → fields_ok ws vs.
Proof.
  intros Hm. revert o vs. induction ws as [|w ws IH]; simpl; intros; inv_opt.
  - constructor.
  - constructor; [by eapply load_bound|]. eapply IH; eauto.
Qed.

Lemma length_store_fields ws vs :
  length vs = length ws → length (store_fields ws vs) = sum_list ws.
Proof.
  revert vs. induction ws as [|w ws IH]; intros [|v vs]; simpl; intros; try done.
  rewrite length_app, length_le_bytes, IH; lia.
Qed.

Lemma store_fields_ok ws vs : bytes_ok (store_fields ws vs).
Proof.
  revert vs. induction ws as [|w ws IH]; intros [|v vs]; simpl; try constructor.
  apply Forall_app; split; [apply le_bytes_ok|apply IH].
Qed.

Lemma load_store_fields ws vs pre post :
  fields_ok ws vs →
  load_fields ws (pre ++ store_fields ws vs ++ post) (length pre) = Some vs.
Proof.
  intros H. revert pre. induction H as [|w v ws vs Hv _ IH]; intros pre; simpl; [done|].
  rewrite <- app_assoc, load_le_bytes by done. simpl.
  replace (length pre + w)%nat with (length (pre ++ le_bytes w v))
    by (rewrite length_app, length_le_bytes; lia).
  rewrite app_assoc, IH. done.
Qed.

Lemma store_load_fields ws m o vs :
  bytes_ok m → load_fields ws m o = Some vs →
  store_fields ws vs = take (sum_list ws) (drop o m).
Proof.
  intros Hm. revert o vs. induction ws as [|w ws IH]; simpl; intros; inv_opt; [done|].
  simpl. erewrite (IH (o + w)%nat) by eauto.
  apply load_Some_inv in H as [? ->].
  assert (length (take w (drop o m)) = w) as Hl
    by (rewrite length_take, length_drop; lia).
  rewrite <- Hl at 1. rewrite le_bytes_value by by apply Forall_take, Forall_drop.
  rewrite <- drop_drop. apply take_take_drop.
Qed.

Lemma load_fields_app_shift ws pre m o :
  load_fields ws (pre ++ m) (length pre + o) = load_fields ws m o.
Proof.
  revert o. induction ws as [|w ws IH]; intros o; simpl; [done|].
  rewrite load_app_shift, <- Nat.add_assoc, IH. done.
Qed.

Section struct_laws.
Context {T : Type} `{HW : Wire T} `{!WireLaws T}.
Implicit Types t : T.

Lemma length_to_fields t : struct_ok t → length (to_fields t) = length (widths T).
Proof. intros H%Forall2_length. done. Qed.

Lemma length_store_struct t : struct_ok t → length (store_struct t) = sizeof T.
Proof. intros. apply length_store_fields. by apply length_to_fields. Qed.

Lemma store_struct_bytes_ok t : bytes_ok (store_struct t).
Proof. apply store_fields_ok. Qed.

Lemma load_struct_is_Some m o :
  (o + sizeof T <= length m)%nat → is_Some (load_struct T m o).
Proof.
  intros H. unfold load_struct.
  destruct (load_fields_is_Some (widths T) m o H) as [vs Hvs]. rewrite Hvs. simpl.
  destruct (to_of_fields (T := T) vs) as (t & -> & _); [|eauto].
  by eapply load_fields_length.
Qed.

Lemma load_struct_ok m o t :
  bytes_ok m → load_struct T m o = Some t → struct_ok t.
Proof.
  unfold load_struct, struct_ok. intros Hm H. inv_opt.
  destruct (to_of_fields (T := T) x) as (t' & Ht' & <-); [by eapply load_fields_length|].
  simplify_eq. by eapply load_fields_ok.
Qed.

Lemma load_store_struct t pre post :
  struct_ok t → load_struct T (pre ++ store_struct t ++ post) (length pre) = Some t.
Proof.
  intros H. unfold load_struct, store_struct.
  rewrite load_store_fields by done. apply of_to_fields.
Qed.

Lemma store_load_struct m o t :
  bytes_ok m → load_struct T m o = Some t →
  store_struct t = take (sizeof T) (drop o m).
Proof.
  unfold load_struct, store_struct. intros Hm H. inv_opt.
  destruct (to_of_fields (T := T) x) as (t' & Ht' & Hf); [by eapply load_fields_length|].
  simplify_eq. by eapply store_load_fields.
Qed.

Lemma load_struct_app_shift pre m o :
  load_struct T (pre ++ m) (length pre + o) = load_struct T m o.
Proof. unfold load_struct. by rewrite load_fields_app_shift. Qed.
End struct_laws.

#[export] Hint Resolve load_struct_is_Some : rsvp.

(** Discharges the laws of a layout whose [of_fields] is a list pattern. *)
Ltac solve_wire_laws :=
  constructor;
  [ by intros []
  | intros vs Hvs; simpl in Hvs;
    repeat (destruct vs as [|? vs]; [discriminate Hvs|injection Hvs as Hvs]);
    destruct vs; [|discriminate Hvs]; eexists; split; reflexivity ].
