(* ===== verification/Protocol.v ===== *)
(** * Protocol constants and wire structures

    The constants of src/common/rsvp_protocol.h, the error codes of
    src/common/rsvp_error.h and one record per packed structure, with its
    layout.  Multi-byte fields hold the value a little-endian host reads from
    the wire bytes, so [ntohs]/[ntohl] apply to them exactly where the code
    applies them. *)

From stdpp Require Import base numbers list option.
From S2P Require Import Prelude Wire.

(** ** Error codes (rsvp_error.h) *)

Inductive rsvp_error_t :=
  | RSVP_SUCCESS
  | RSVP_ERR_MALFORMED_OBJ
  | RSVP_ERR_MEM_ALLOC
  | RSVP_ERR_INVALID_PARAM
  | RSVP_ERR_NOT_FOUND
  | RSVP_ERR_TIMEOUT
  | RSVP_ERR_SYS
  | RSVP_ERR_BUFFER_TOO_SMALL
  | RSVP_ERR_CHECKSUM
  | RSVP_ERR_SEND_FAILED
  | RSVP_ERR_UNKNOWN_CLASS
  | RSVP_ERR_NO_ROUTE
  | RSVP_ERR_FRR_NOT_CONFIGURED
  | RSVP_ERR_ALREADY_EXISTS.

#[export] Instance rsvp_error_t_eq_dec : EqDecision rsvp_error_t.
Proof. solve_decision. Defined.

(** The integer value of an error code. *)
Definition error_code (e : rsvp_error_t) : Z :=
  match e with
  | RSVP_SUCCESS => 0
  | RSVP_ERR_MALFORMED_OBJ => -1
  | RSVP_ERR_MEM_ALLOC => -2
  | RSVP_ERR_INVALID_PARAM => -3
  | RSVP_ERR_NOT_FOUND => -4
  | RSVP_ERR_TIMEOUT => -5
  | RSVP_ERR_SYS => -6
  | RSVP_ERR_BUFFER_TOO_SMALL => -7
  | RSVP_ERR_CHECKSUM => -8
  | RSVP_ERR_SEND_FAILED => -9
  | RSVP_ERR_UNKNOWN_CLASS => -10
  | RSVP_ERR_NO_ROUTE => -11
  | RSVP_ERR_FRR_NOT_CONFIGURED => -12
  | RSVP_ERR_ALREADY_EXISTS => -13
  end.

(** ** Constants (rsvp_protocol.h) *)

Definition RSVP_MSG_PATH : Z := 1.
Definition RSVP_MSG_RESV : Z := 2.
Definition RSVP_MSG_PATHERR : Z := 3.
Definition RSVP_MSG_RESVERR : Z := 4.
Definition RSVP_MSG_PATHTEAR : Z := 5.
Definition RSVP_MSG_RESVTEAR : Z := 6.
Definition RSVP_MSG_RESVCONF : Z := 7.
Definition RSVP_MSG_SREFRESH : Z := 15.
Definition RSVP_MSG_HELLO : Z := 20.
Definition RSVP_CLASS_SESSION : Z := 1.
Definition RSVP_CLASS_HOP : Z := 3.
Definition RSVP_CLASS_INTEGRITY : Z := 4.
Definition RSVP_CLASS_TIME_VALUES : Z := 5.
Definition RSVP_CLASS_ERROR_SPEC : Z := 6.
Definition RSVP_CLASS_SCOPE : Z := 7.
Definition RSVP_CLASS_STYLE : Z := 8.
Definition RSVP_CLASS_FLOWSPEC : Z := 9.
Definition RSVP_CLASS_FILTER_SPEC : Z := 10.
Definition RSVP_CLASS_SENDER_TEMPLATE : Z := 11.
Definition RSVP_CLASS_SENDER_TSPEC : Z := 12.
Definition RSVP_CLASS_ADSPEC : Z := 13.
Definition RSVP_CLASS_LABEL : Z := 16.
Definition RSVP_CLASS_LABEL_REQUEST : Z := 19.
Definition RSVP_CLASS_EXPLICIT_ROUTE : Z := 20.
Definition RSVP_CLASS_RECORD_ROUTE : Z := 21.
Definition RSVP_CLASS_SESSION_ATTRIB : Z := 207.
Definition RSVP_CLASS_HELLO : Z := 22.
Definition RSVP_HELLO_CTYPE_REQUEST : Z := 1.
Definition RSVP_HELLO_CTYPE_ACK : Z := 2.
Definition RSVP_CLASS_FAST_REROUTE : Z := 205.
Definition RSVP_CLASS_DETOUR : Z := 63.
Definition RSVP_ERO_IPV4 : Z := 1.
Definition RSVP_ERO_LOOSE : Z := 128.
Definition RSVP_SESSATTR_LOCAL_PROT_DESIRED : Z := 1.
Definition RSVP_SESSATTR_LABEL_RECORDING : Z := 2.
Definition RSVP_SESSATTR_SE_STYLE : Z := 4.
Definition RSVP_SESSATTR_LOCAL_PROT_IN_USE : Z := 8.
Definition RSVP_SESSATTR_NODE_PROTECTION : Z := 16.
Definition RSVP_SESSATTR_BW_PROTECTION : Z := 32.
Definition RSVP_FRR_FLAG_ONE_TO_ONE : Z := 1.
Definition RSVP_FRR_FLAG_FACILITY : Z := 2.
Definition RSVP_VERSION : Z := 1.
Definition RSVP_STYLE_FF : Z := 10.
Definition RSVP_STYLE_SE : Z := 18.
Definition RSVP_PROTO_ERR_NONE : Z := 0.
Definition RSVP_PROTO_ERR_ADMISSION_CONTROL : Z := 1.
Definition RSVP_PROTO_ERR_POLICY_CONTROL : Z := 2.
Definition RSVP_PROTO_ERR_NO_PATH_STATE : Z := 3.
Definition RSVP_PROTO_ERR_NO_RESV_STATE : Z := 4.
Definition RSVP_PROTO_ERR_CONF_PREEMPT : Z := 5.
Definition RSVP_PROTO_ERR_UNKNOWN_CLASS : Z := 6.
Definition RSVP_PROTO_ERR_UNKNOWN_C_TYPE : Z := 7.
Definition RSVP_PROTO_ERR_ADMISSION_CONTROL_FAILURE : Z := 11.
Definition RSVP_PROTO_ERR_TRAFFIC_CONTROL_ERROR : Z := 12.
Definition RSVP_PROTO_ERR_UNKNOWN_OBJECT_CLASS : Z := 13.
Definition RSVP_PROTO_ERR_UNKNOWN_OBJECT_C_TYPE : Z := 14.
Definition RSVP_PROTO_ERR_API_ERROR : Z := 20.
Definition RSVP_PROTO_ERR_TRAFFIC_CONTROL_SYSTEM_ERROR : Z := 21.
Definition RSVP_PROTO_ERR_RSVP_SYSTEM_ERROR : Z := 22.
Definition RSVP_PROTO_ERR_ROUTING_PROBLEM : Z := 24.

(** [RSVP_ALIGN(len)]: [(len + 3) & ~3]. *)
Definition RSVP_ALIGN (len : nat) : nat :=
  Z.to_nat (Z.land (Z.of_nat len + 3) (Z.lnot 3)).

Lemma RSVP_ALIGN_arith len : RSVP_ALIGN len = ((len + 3) / 4 * 4)%nat.
Proof.
  unfold RSVP_ALIGN. change (Z.lnot 3) with (Z.lnot (Z.ones 2)).
  rewrite <- Z.ldiff_land, Z.ldiff_ones_r, Z.shiftl_mul_pow2, Z.shiftr_div_pow2 by lia.
  change (2 ^ 2) with 4. apply Nat2Z.inj. rewrite Z2Nat.id by (Z.to_euclidean_division_equations; lia).
  rewrite Nat2Z.inj_mul, Nat2Z.inj_div, Nat2Z.inj_add. done.
Qed.

(** ** Structures *)

(** ERO/RRO IPv4 subobject. *)
Record rsvp_ero_ipv4_subobj := mk_rsvp_ero_ipv4_subobj {
  subobj_type : Z;
  subobj_length : Z;
  subobj_addr : Z;
  subobj_prefix_len : Z;
  subobj_res : Z;
}.
#[export] Instance rsvp_ero_ipv4_subobj_settable : Settable rsvp_ero_ipv4_subobj :=
  λ r, mk_rsvp_ero_ipv4_subobj (subobj_type r) (subobj_length r) (subobj_addr r) (subobj_prefix_len r) (subobj_res r).
#[export] Instance rsvp_ero_ipv4_subobj_eq_dec : EqDecision rsvp_ero_ipv4_subobj.
Proof. solve_decision. Defined.
#[export] Instance rsvp_ero_ipv4_subobj_wire : Wire rsvp_ero_ipv4_subobj := {
  widths := [1; 1; 4; 1; 1]%nat;
  to_fields r := [subobj_type r; subobj_length r; subobj_addr r; subobj_prefix_len r; subobj_res r];
  of_fields vs :=
    match vs with
    | [x0; x1; x2; x3; x4] => Some (mk_rsvp_ero_ipv4_subobj x0 x1 x2 x3 x4)
    | _ => None
    end;
}.
#[export] Instance rsvp_ero_ipv4_subobj_wire_laws : WireLaws rsvp_ero_ipv4_subobj.
Proof. solve_wire_laws. Qed.

(** Common header. *)
Record rsvp_common_hdr := mk_rsvp_common_hdr {
  hdr_ver_flags : Z;
  hdr_msg_type : Z;
  hdr_checksum : Z;
  hdr_ttl : Z;
  hdr_reserved : Z;
  hdr_length : Z;
}.
#[export] Instance rsvp_common_hdr_settable : Settable rsvp_common_hdr :=
  λ r, mk_rsvp_common_hdr (hdr_ver_flags r) (hdr_msg_type r) (hdr_checksum r) (hdr_ttl r) (hdr_reserved r) (hdr_length r).
#[export] Instance rsvp_common_hdr_eq_dec : EqDecision rsvp_common_hdr.
Proof. solve_decision. Defined.
#[export] Instance rsvp_common_hdr_wire : Wire rsvp_common_hdr := {
  widths := [1; 1; 2; 1; 1; 2]%nat;
  to_fields r := [hdr_ver_flags r; hdr_msg_type r; hdr_checksum r; hdr_ttl r; hdr_reserved r; hdr_length r];
  of_fields vs :=
    match vs with
    | [x0; x1; x2; x3; x4; x5] => Some (mk_rsvp_common_hdr x0 x1 x2 x3 x4 x5)
    | _ => None
    end;
}.
#[export] Instance rsvp_common_hdr_wire_laws : WireLaws rsvp_common_hdr.
Proof. solve_wire_laws. Qed.

(** Object header. *)
Record rsvp_obj_hdr := mk_rsvp_obj_hdr {
  obj_length : Z;
  obj_class_num : Z;
  obj_c_type : Z;
}.
#[export] Instance rsvp_obj_hdr_settable : Settable rsvp_obj_hdr :=
  λ r, mk_rsvp_obj_hdr (obj_length r) (obj_class_num r) (obj_c_type r).
#[export] Instance rsvp_obj_hdr_eq_dec : EqDecision rsvp_obj_hdr.
Proof. solve_decision. Defined.
#[export] Instance rsvp_obj_hdr_wire : Wire rsvp_obj_hdr := {
  widths := [2; 1; 1]%nat;
  to_fields r := [obj_length r; obj_class_num r; obj_c_type r];
  of_fields vs :=
    match vs with
    | [x0; x1; x2] => Some (mk_rsvp_obj_hdr x0 x1 x2)
    | _ => None
    end;
}.
#[export] Instance rsvp_obj_hdr_wire_laws : WireLaws rsvp_obj_hdr.
Proof. solve_wire_laws. Qed.

(** TIME_VALUES. *)
Record rsvp_time_values := mk_rsvp_time_values {
  tv_refresh_ms : Z;
}.
#[export] Instance rsvp_time_values_settable : Settable rsvp_time_values :=
  λ r, mk_rsvp_time_values (tv_refresh_ms r).
#[export] Instance rsvp_time_values_eq_dec : EqDecision rsvp_time_values.
Proof. solve_decision. Defined.
#[export] Instance rsvp_time_values_wire : Wire rsvp_time_values := {
  widths := [4]%nat;
  to_fields r := [tv_refresh_ms r];
  of_fields vs :=
    match vs with
    | [x0] => Some (mk_rsvp_time_values x0)
    | _ => None
    end;
}.
#[export] Instance rsvp_time_values_wire_laws : WireLaws rsvp_time_values.
Proof. solve_wire_laws. Qed.

(** ERROR_SPEC. *)
Record rsvp_error_spec_ipv4 := mk_rsvp_error_spec_ipv4 {
  es_error_node : Z;
  es_flags : Z;
  es_error_code : Z;
  es_error_value : Z;
}.
#[export] Instance rsvp_error_spec_ipv4_settable : Settable rsvp_error_spec_ipv4 :=
  λ r, mk_rsvp_error_spec_ipv4 (es_error_node r) (es_flags r) (es_error_code r) (es_error_value r).
#[export] Instance rsvp_error_spec_ipv4_eq_dec : EqDecision rsvp_error_spec_ipv4.
Proof. solve_decision. Defined.
#[export] Instance rsvp_error_spec_ipv4_wire : Wire rsvp_error_spec_ipv4 := {
  widths := [4; 1; 1; 2]%nat;
  to_fields r := [es_error_node r; es_flags r; es_error_code r; es_error_value r];
  of_fields vs :=
    match vs with
    | [x0; x1; x2; x3] => Some (mk_rsvp_error_spec_ipv4 x0 x1 x2 x3)
    | _ => None
    end;
}.
#[export] Instance rsvp_error_spec_ipv4_wire_laws : WireLaws rsvp_error_spec_ipv4.
Proof. solve_wire_laws. Qed.

(** LABEL_REQUEST. *)
Record rsvp_label_request := mk_rsvp_label_request {
  lreq_reserved : Z;
  lreq_l3pid : Z;
}.
#[export] Instance rsvp_label_request_settable : Settable rsvp_label_request :=
  λ r, mk_rsvp_label_request (lreq_reserved r) (lreq_l3pid r).
#[export] Instance rsvp_label_request_eq_dec : EqDecision rsvp_label_request.
Proof. solve_decision. Defined.
#[export] Instance rsvp_label_request_wire : Wire rsvp_label_request := {
  widths := [2; 2]%nat;
  to_fields r := [lreq_reserved r; lreq_l3pid r];
  of_fields vs :=
    match vs with
    | [x0; x1] => Some (mk_rsvp_label_request x0 x1)
    | _ => None
    end;
}.
#[export] Instance rsvp_label_request_wire_laws : WireLaws rsvp_label_request.
Proof. solve_wire_laws. Qed.

(** SESSION, LSP_TUNNEL_IPv4. *)
Record rsvp_session_ipv4 := mk_rsvp_session_ipv4 {
  sess_dest_addr : Z;
  sess_reserved : Z;
  sess_tunnel_id : Z;
  sess_extended_tunnel_id : Z;
}.
#[export] Instance rsvp_session_ipv4_settable : Settable rsvp_session_ipv4 :=
  λ r, mk_rsvp_session_ipv4 (sess_dest_addr r) (sess_reserved r) (sess_tunnel_id r) (sess_extended_tunnel_id r).
#[export] Instance rsvp_session_ipv4_eq_dec : EqDecision rsvp_session_ipv4.
Proof. solve_decision. Defined.
#[export] Instance rsvp_session_ipv4_wire : Wire rsvp_session_ipv4 := {
  widths := [4; 2; 2; 4]%nat;
  to_fields r := [sess_dest_addr r; sess_reserved r; sess_tunnel_id r; sess_extended_tunnel_id r];
  of_fields vs :=
    match vs with
    | [x0; x1; x2; x3] => Some (mk_rsvp_session_ipv4 x0 x1 x2 x3)
    | _ => None
    end;
}.
#[export] Instance rsvp_session_ipv4_wire_laws : WireLaws rsvp_session_ipv4.
Proof. solve_wire_laws. Qed.

(** RSVP_HOP. *)
Record rsvp_hop_ipv4 := mk_rsvp_hop_ipv4 {
  hop_neighbor_addr : Z;
  hop_logical_interface : Z;
}.
#[export] Instance rsvp_hop_ipv4_settable : Settable rsvp_hop_ipv4 :=
  λ r, mk_rsvp_hop_ipv4 (hop_neighbor_addr r) (hop_logical_interface r).
#[export] Instance rsvp_hop_ipv4_eq_dec : EqDecision rsvp_hop_ipv4.
Proof. solve_decision. Defined.
#[export] Instance rsvp_hop_ipv4_wire : Wire rsvp_hop_ipv4 := {
  widths := [4; 4]%nat;
  to_fields r := [hop_neighbor_addr r; hop_logical_interface r];
  of_fields vs :=
    match vs with
    | [x0; x1] => Some (mk_rsvp_hop_ipv4 x0 x1)
    | _ => None
    end;
}.
#[export] Instance rsvp_hop_ipv4_wire_laws : WireLaws rsvp_hop_ipv4.
Proof. solve_wire_laws. Qed.

(** INTEGRITY, the part before the digest. *)
Record rsvp_integrity := mk_rsvp_integrity {
  intg_flags : Z;
  intg_reserved : Z;
  intg_key_id : Z;
  intg_sequence_number : Z;
}.
#[export] Instance rsvp_integrity_settable : Settable rsvp_integrity :=
  λ r, mk_rsvp_integrity (intg_flags r) (intg_reserved r) (intg_key_id r) (intg_sequence_number r).
#[export] Instance rsvp_integrity_eq_dec : EqDecision rsvp_integrity.
Proof. solve_decision. Defined.
#[export] Instance rsvp_integrity_wire : Wire rsvp_integrity := {
  widths := [1; 1; 6; 8]%nat;
  to_fields r := [intg_flags r; intg_reserved r; intg_key_id r; intg_sequence_number r];
  of_fields vs :=
    match vs with
    | [x0; x1; x2; x3] => Some (mk_rsvp_integrity x0 x1 x2 x3)
    | _ => None
    end;
}.
#[export] Instance rsvp_integrity_wire_laws : WireLaws rsvp_integrity.
Proof. solve_wire_laws. Qed.

(** SENDER_TEMPLATE and FILTER_SPEC. *)
Record rsvp_sender_ipv4 := mk_rsvp_sender_ipv4 {
  snd_source_addr : Z;
  snd_reserved : Z;
  snd_lsp_id : Z;
}.
#[export] Instance rsvp_sender_ipv4_settable : Settable rsvp_sender_ipv4 :=
  λ r, mk_rsvp_sender_ipv4 (snd_source_addr r) (snd_reserved r) (snd_lsp_id r).
#[export] Instance rsvp_sender_ipv4_eq_dec : EqDecision rsvp_sender_ipv4.
Proof. solve_decision. Defined.
#[export] Instance rsvp_sender_ipv4_wire : Wire rsvp_sender_ipv4 := {
  widths := [4; 2; 2]%nat;
  to_fields r := [snd_source_addr r; snd_reserved r; snd_lsp_id r];
  of_fields vs :=
    match vs with
    | [x0; x1; x2] => Some (mk_rsvp_sender_ipv4 x0 x1 x2)
    | _ => None
    end;
}.
#[export] Instance rsvp_sender_ipv4_wire_laws : WireLaws rsvp_sender_ipv4.
Proof. solve_wire_laws. Qed.

(** SENDER_TSPEC and FLOWSPEC; the float fields hold IEEE 754 bit patterns. *)
Record rsvp_sender_tspec := mk_rsvp_sender_tspec {
  ts_version : Z;
  ts_reserved : Z;
  ts_length : Z;
  ts_service_hdr : Z;
  ts_reserved2 : Z;
  ts_svc_length : Z;
  ts_param_id : Z;
  ts_flags : Z;
  ts_param_length : Z;
  ts_token_bucket_rate : Z;
  ts_token_bucket_size : Z;
  ts_peak_data_rate : Z;
  ts_min_policed_unit : Z;
  ts_max_packet_size : Z;
}.
#[export] Instance rsvp_sender_tspec_settable : Settable rsvp_sender_tspec :=
  λ r, mk_rsvp_sender_tspec (ts_version r) (ts_reserved r) (ts_length r) (ts_service_hdr r) (ts_reserved2 r) (ts_svc_length r) (ts_param_id r) (ts_flags r) (ts_param_length r) (ts_token_bucket_rate r) (ts_token_bucket_size r) (ts_peak_data_rate r) (ts_min_policed_unit r) (ts_max_packet_size r).
#[export] Instance rsvp_sender_tspec_eq_dec : EqDecision rsvp_sender_tspec.
Proof. solve_decision. Defined.
#[export] Instance rsvp_sender_tspec_wire : Wire rsvp_sender_tspec := {
  widths := [1; 1; 2; 1; 1; 2; 1; 1; 2; 4; 4; 4; 4; 4]%nat;
  to_fields r := [ts_version r; ts_reserved r; ts_length r; ts_service_hdr r; ts_reserved2 r; ts_svc_length r; ts_param_id r; ts_flags r; ts_param_length r; ts_token_bucket_rate r; ts_token_bucket_size r; ts_peak_data_rate r; ts_min_policed_unit r; ts_max_packet_size r];
  of_fields vs :=
    match vs with
    | [x0; x1; x2; x3; x4; x5; x6; x7; x8; x9; x10; x11; x12; x13] => Some (mk_rsvp_sender_tspec x0 x1 x2 x3 x4 x5 x6 x7 x8 x9 x10 x11 x12 x13)
    | _ => None
    end;
}.
#[export] Instance rsvp_sender_tspec_wire_laws : WireLaws rsvp_sender_tspec.
Proof. solve_wire_laws. Qed.

(** STYLE. *)
Record rsvp_style := mk_rsvp_style {
  sty_style : Z;
}.
#[export] Instance rsvp_style_settable : Settable rsvp_style :=
  λ r, mk_rsvp_style (sty_style r).
#[export] Instance rsvp_style_eq_dec : EqDecision rsvp_style.
Proof. solve_decision. Defined.
#[export] Instance rsvp_style_wire : Wire rsvp_style := {
  widths := [4]%nat;
  to_fields r := [sty_style r];
  of_fields vs :=
    match vs with
    | [x0] => Some (mk_rsvp_style x0)
    | _ => None
    end;
}.
#[export] Instance rsvp_style_wire_laws : WireLaws rsvp_style.
Proof. solve_wire_laws. Qed.

(** ADSPEC, the part before the parameter list. *)
Record rsvp_adspec := mk_rsvp_adspec {
  ads_version : Z;
  ads_reserved : Z;
  ads_length : Z;
}.
#[export] Instance rsvp_adspec_settable : Settable rsvp_adspec :=
  λ r, mk_rsvp_adspec (ads_version r) (ads_reserved r) (ads_length r).
#[export] Instance rsvp_adspec_eq_dec : EqDecision rsvp_adspec.
Proof. solve_decision. Defined.
#[export] Instance rsvp_adspec_wire : Wire rsvp_adspec := {
  widths := [1; 1; 2]%nat;
  to_fields r := [ads_version r; ads_reserved r; ads_length r];
  of_fields vs :=
    match vs with
    | [x0; x1; x2] => Some (mk_rsvp_adspec x0 x1 x2)
    | _ => None
    end;
}.
#[export] Instance rsvp_adspec_wire_laws : WireLaws rsvp_adspec.
Proof. solve_wire_laws. Qed.

(** LABEL. *)
Record rsvp_label_ipv4 := mk_rsvp_label_ipv4 {
  lbl_label : Z;
}.
#[export] Instance rsvp_label_ipv4_settable : Settable rsvp_label_ipv4 :=
  λ r, mk_rsvp_label_ipv4 (lbl_label r).
#[export] Instance rsvp_label_ipv4_eq_dec : EqDecision rsvp_label_ipv4.
Proof. solve_decision. Defined.
#[export] Instance rsvp_label_ipv4_wire : Wire rsvp_label_ipv4 := {
  widths := [4]%nat;
  to_fields r := [lbl_label r];
  of_fields vs :=
    match vs with
    | [x0] => Some (mk_rsvp_label_ipv4 x0)
    | _ => None
    end;
}.
#[export] Instance rsvp_label_ipv4_wire_laws : WireLaws rsvp_label_ipv4.
Proof. solve_wire_laws. Qed.

(** FAST_REROUTE. *)
Record rsvp_fast_reroute := mk_rsvp_fast_reroute {
  frr_setup_prio : Z;
  frr_holding_prio : Z;
  frr_hop_limit : Z;
  frr_flags : Z;
  frr_bandwidth : Z;
  frr_include_any : Z;
  frr_exclude_any : Z;
  frr_include_all : Z;
}.
#[export] Instance rsvp_fast_reroute_settable : Settable rsvp_fast_reroute :=
  λ r, mk_rsvp_fast_reroute (frr_setup_prio r) (frr_holding_prio r) (frr_hop_limit r) (frr_flags r) (frr_bandwidth r) (frr_include_any r) (frr_exclude_any r) (frr_include_all r).
#[export] Instance rsvp_fast_reroute_eq_dec : EqDecision rsvp_fast_reroute.
Proof. solve_decision. Defined.
#[export] Instance rsvp_fast_reroute_wire : Wire rsvp_fast_reroute := {
  widths := [1; 1; 1; 1; 4; 4; 4; 4]%nat;
  to_fields r := [frr_setup_prio r; frr_holding_prio r; frr_hop_limit r; frr_flags r; frr_bandwidth r; frr_include_any r; frr_exclude_any r; frr_include_all r];
  of_fields vs :=
    match vs with
    | [x0; x1; x2; x3; x4; x5; x6; x7] => Some (mk_rsvp_fast_reroute x0 x1 x2 x3 x4 x5 x6 x7)
    | _ => None
    end;
}.
#[export] Instance rsvp_fast_reroute_wire_laws : WireLaws rsvp_fast_reroute.
Proof. solve_wire_laws. Qed.

(** DETOUR. *)
Record rsvp_detour_ipv4 := mk_rsvp_detour_ipv4 {
  det_plr_id : Z;
  det_avoid_node_id : Z;
}.
#[export] Instance rsvp_detour_ipv4_settable : Settable rsvp_detour_ipv4 :=
  λ r, mk_rsvp_detour_ipv4 (det_plr_id r) (det_avoid_node_id r).
#[export] Instance rsvp_detour_ipv4_eq_dec : EqDecision rsvp_detour_ipv4.
Proof. solve_decision. Defined.
#[export] Instance rsvp_detour_ipv4_wire : Wire rsvp_detour_ipv4 := {
  widths := [4; 4]%nat;
  to_fields r := [det_plr_id r; det_avoid_node_id r];
  of_fields vs :=
    match vs with
    | [x0; x1] => Some (mk_rsvp_detour_ipv4 x0 x1)
    | _ => None
    end;
}.
#[export] Instance rsvp_detour_ipv4_wire_laws : WireLaws rsvp_detour_ipv4.
Proof. solve_wire_laws. Qed.

(** SESSION_ATTRIBUTE (C-Type 7), the part before the name. *)
Record rsvp_session_attribute := mk_rsvp_session_attribute {
  sa_setup_prio : Z;
  sa_holding_prio : Z;
  sa_flags : Z;
  sa_name_length : Z;
}.
#[export] Instance rsvp_session_attribute_settable : Settable rsvp_session_attribute :=
  λ r, mk_rsvp_session_attribute (sa_setup_prio r) (sa_holding_prio r) (sa_flags r) (sa_name_length r).
#[export] Instance rsvp_session_attribute_eq_dec : EqDecision rsvp_session_attribute.
Proof. solve_decision. Defined.
#[export] Instance rsvp_session_attribute_wire : Wire rsvp_session_attribute := {
  widths := [1; 1; 1; 1]%nat;
  to_fields r := [sa_setup_prio r; sa_holding_prio r; sa_flags r; sa_name_length r];
  of_fields vs :=
    match vs with
    | [x0; x1; x2; x3] => Some (mk_rsvp_session_attribute x0 x1 x2 x3)
    | _ => None
    end;
}.
#[export] Instance rsvp_session_attribute_wire_laws : WireLaws rsvp_session_attribute.
Proof. solve_wire_laws. Qed.

(** HELLO. *)
Record rsvp_hello_obj := mk_rsvp_hello_obj {
  hello_src_instance : Z;
  hello_dst_instance : Z;
}.
#[export] Instance rsvp_hello_obj_settable : Settable rsvp_hello_obj :=
  λ r, mk_rsvp_hello_obj (hello_src_instance r) (hello_dst_instance r).
#[export] Instance rsvp_hello_obj_eq_dec : EqDecision rsvp_hello_obj.
Proof. solve_decision. Defined.
#[export] Instance rsvp_hello_obj_wire : Wire rsvp_hello_obj := {
  widths := [4; 4]%nat;
  to_fields r := [hello_src_instance r; hello_dst_instance r];
  of_fields vs :=
    match vs with
    | [x0; x1] => Some (mk_rsvp_hello_obj x0 x1)
    | _ => None
    end;
}.
#[export] Instance rsvp_hello_obj_wire_laws : WireLaws rsvp_hello_obj.
Proof. solve_wire_laws. Qed.

(** ** The path key (src/pi/rsvp_state.h)

    [memcmp] on two keys compares every field, the reserved ones included. *)
Record rsvp_path_key := mk_rsvp_path_key {
  key_session : rsvp_session_ipv4;
  key_sender : rsvp_sender_ipv4;
}.
#[export] Instance rsvp_path_key_settable : Settable rsvp_path_key :=
  λ k, mk_rsvp_path_key (key_session k) (key_sender k).
#[export] Instance rsvp_path_key_eq_dec : EqDecision rsvp_path_key.
Proof. solve_decision. Defined.

Definition zero_session : rsvp_session_ipv4 := mk_rsvp_session_ipv4 0 0 0 0.
Definition zero_sender : rsvp_sender_ipv4 := mk_rsvp_sender_ipv4 0 0 0.
Definition zero_key : rsvp_path_key := mk_rsvp_path_key zero_session zero_sender.

(** [sizeof(struct iphdr)], of netinet/ip.h. *)
Definition sizeof_iphdr : nat := 20.
