(* ===== verification/Builder.v ===== *)
(** * The message builder (src/pi/rsvp_builder.c)

    A builder holds the output buffer, its size and the write offset; the
    header pointer is the start of the buffer.  Every [rsvp_builder_add_*]
    returns the C return code with the builder after the call. *)

From stdpp Require Import base numbers list option.
From S2P Require Import Prelude Wire Protocol.

Record rsvp_builder := mk_rsvp_builder {
  b_buffer : list Z;
  b_size : nat;
  b_offset : nat;
}.
#[export] Instance rsvp_builder_settable : Settable rsvp_builder :=
  λ b, mk_rsvp_builder (b_buffer b) (b_size b) (b_offset b).

(** [b->hdr->field = v]: stores into the common header at the start of the
    buffer. *)
Definition hdr_store (b : rsvp_builder) (o : nat) (bs : list Z) : rsvp_builder :=
  b <| b_buffer ::= λ m, overwrite m o bs |>.

Definition hdr_set_ttl (b : rsvp_builder) (ttl : Z) : rsvp_builder :=
  hdr_store b 4 (le_bytes 1 ttl).

(** [memset(buffer, 0, size)] on a buffer of [size] bytes, then the header. *)
Definition rsvp_builder_init (size : nat) (msg_type : Z) : rsvp_builder :=
  let b := mk_rsvp_builder (replicate size 0) size (sizeof rsvp_common_hdr) in
  let b := hdr_store b 0 (le_bytes 1 (Z.shiftl RSVP_VERSION 4)) in
  let b := hdr_store b 1 (le_bytes 1 msg_type) in
  hdr_set_ttl b 255.

Definition rsvp_builder_add_obj (b : rsvp_builder) (class_num c_type : Z)
    (data : list Z) : Z * rsvp_builder :=
  let obj_total_len := (sizeof rsvp_obj_hdr + length data)%nat in
  let aligned_len := RSVP_ALIGN obj_total_len in
  if (b_size b <? b_offset b + aligned_len)%nat then (-1, b)
  else
    let obj_hdr := mk_rsvp_obj_hdr (htons (Z.of_nat obj_total_len)) class_num c_type in
    let buf := overwrite (b_buffer b) (b_offset b) (store_struct obj_hdr) in
    let buf := overwrite buf (b_offset b + sizeof rsvp_obj_hdr) data in
    (0, b <| b_buffer := buf |> <| b_offset ::= λ o, (o + aligned_len)%nat |>).

(** ** Object helpers *)

(** Addresses are [s_addr] values; IPv6 addresses are their 16 bytes. *)
Definition rsvp_builder_add_session_ipv4 (b : rsvp_builder) (dest tunnel_id ext_tunnel_id : Z) :=
  rsvp_builder_add_obj b RSVP_CLASS_SESSION 7
    (store_struct (mk_rsvp_session_ipv4 dest 0 (htons tunnel_id) ext_tunnel_id)).

Definition rsvp_builder_add_session_ipv6 (b : rsvp_builder) (dest : list Z) (tunnel_id : Z)
    (ext_tunnel_id : list Z) :=
  rsvp_builder_add_obj b RSVP_CLASS_SESSION 8
    (dest ++ le_bytes 2 0 ++ le_bytes 2 (htons tunnel_id) ++ ext_tunnel_id).

(** [name] is a C string: the bytes before its terminator, or NULL. *)
Definition rsvp_builder_add_session_attribute_ex (b : rsvp_builder) (name : option (list Z))
    (setup_prio holding_prio flags : Z) :=
  let name_bytes := default [] name in
  let name_len := if (255 <? length name_bytes)%nat then 255%nat else length name_bytes in
  rsvp_builder_add_obj b RSVP_CLASS_SESSION_ATTRIB 7
    (store_struct (mk_rsvp_session_attribute setup_prio holding_prio flags (Z.of_nat name_len))
     ++ take name_len name_bytes).

Definition rsvp_builder_add_session_attribute (b : rsvp_builder) (name : option (list Z)) :=
  rsvp_builder_add_session_attribute_ex b name 0 0 RSVP_SESSATTR_SE_STYLE.

(** A float is its IEEE 754 bit pattern, so these are byte swaps. *)
Definition rsvp_float_to_net (value : Z) : Z := htonl value.
Definition rsvp_net_to_float (net_value : Z) : Z := ntohl net_value.

Definition rsvp_builder_add_fast_reroute (b : rsvp_builder)
    (setup_prio holding_prio hop_limit flags bandwidth : Z) :=
  rsvp_builder_add_obj b RSVP_CLASS_FAST_REROUTE 1
    (store_struct (mk_rsvp_fast_reroute setup_prio holding_prio hop_limit flags
                     (rsvp_float_to_net bandwidth) 0 0 0)).

Definition rsvp_builder_add_detour (b : rsvp_builder) (plr_id avoid_node_id : Z) :=
  rsvp_builder_add_obj b RSVP_CLASS_DETOUR 7
    (store_struct (mk_rsvp_detour_ipv4 plr_id avoid_node_id)).

Definition rsvp_builder_add_hop_ipv4 (b : rsvp_builder) (neighbor logical_intf : Z) :=
  rsvp_builder_add_obj b RSVP_CLASS_HOP 1
    (store_struct (mk_rsvp_hop_ipv4 neighbor (htonl logical_intf))).

Definition rsvp_builder_add_hop_ipv6 (b : rsvp_builder) (neighbor : list Z) (logical_intf : Z) :=
  rsvp_builder_add_obj b RSVP_CLASS_HOP 2 (neighbor ++ le_bytes 4 (htonl logical_intf)).

Definition rsvp_builder_add_label_ipv4 (b : rsvp_builder) (label : Z) :=
  rsvp_builder_add_obj b RSVP_CLASS_LABEL 1 (store_struct (mk_rsvp_label_ipv4 (htonl label))).

Definition rsvp_builder_add_label_request (b : rsvp_builder) (l3pid : Z) :=
  rsvp_builder_add_obj b RSVP_CLASS_LABEL_REQUEST 1
    (store_struct (mk_rsvp_label_request 0 (htons l3pid))).

Definition rsvp_builder_add_style (b : rsvp_builder) (style_val : Z) :=
  rsvp_builder_add_obj b RSVP_CLASS_STYLE 1 (store_struct (mk_rsvp_style (htonl style_val))).

Definition rsvp_builder_add_time_values (b : rsvp_builder) (refresh_ms : Z) :=
  rsvp_builder_add_obj b RSVP_CLASS_TIME_VALUES 1
    (store_struct (mk_rsvp_time_values (htonl refresh_ms))).

(** The conversion to network order that TSPEC and FLOWSPEC share. *)
Definition tspec_hton (tspec : rsvp_sender_tspec) : rsvp_sender_tspec :=
  tspec
    <| ts_length := htons (Z.of_nat (sizeof rsvp_sender_tspec / 4 - 1)) |>
    <| ts_svc_length := htons (ts_svc_length tspec) |>
    <| ts_param_length := htons (ts_param_length tspec) |>
    <| ts_token_bucket_rate := rsvp_float_to_net (ts_token_bucket_rate tspec) |>
    <| ts_token_bucket_size := rsvp_float_to_net (ts_token_bucket_size tspec) |>
    <| ts_peak_data_rate := rsvp_float_to_net (ts_peak_data_rate tspec) |>
    <| ts_min_policed_unit := htonl (ts_min_policed_unit tspec) |>
    <| ts_max_packet_size := htonl (ts_max_packet_size tspec) |>.

Definition rsvp_builder_add_tspec (b : rsvp_builder) (tspec : rsvp_sender_tspec) :=
  rsvp_builder_add_obj b RSVP_CLASS_SENDER_TSPEC 2 (store_struct (tspec_hton tspec)).

Definition rsvp_builder_add_flowspec (b : rsvp_builder) (tspec : rsvp_sender_tspec) :=
  rsvp_builder_add_obj b RSVP_CLASS_FLOWSPEC 2 (store_struct (tspec_hton tspec)).

(** [adspec] points at the start of the memory [mem]; [None] is the read past
    its end that the copied length can ask for. *)
Definition rsvp_builder_add_adspec (b : rsvp_builder) (mem : list Z) : option (Z * rsvp_builder) :=
  adspec ← load_struct rsvp_adspec mem 0;
  let body_len := (sizeof rsvp_adspec + Z.to_nat ((ntohs (ads_length adspec) + 1) * 4)
                   - sizeof rsvp_adspec)%nat in
  let data_len := (sizeof rsvp_adspec + body_len)%nat in
  let aligned_len := RSVP_ALIGN (sizeof rsvp_obj_hdr + data_len) in
  if (b_size b <? b_offset b + aligned_len)%nat then Some (-1, b)
  else if (data_len <=? length mem)%nat then
    Some (rsvp_builder_add_obj b RSVP_CLASS_ADSPEC 2 (take data_len mem))
  else None.

Definition rsvp_builder_add_hello (b : rsvp_builder) (src_instance dst_instance c_type : Z) :=
  rsvp_builder_add_obj b RSVP_CLASS_HELLO c_type
    (store_struct (mk_rsvp_hello_obj (htonl src_instance) (htonl dst_instance))).

Definition rsvp_builder_add_ero (b : rsvp_builder) (ero_list : list rsvp_ero_ipv4_subobj) :=
  if (length ero_list =? 0)%nat then (error_code RSVP_ERR_INVALID_PARAM, b)
  else rsvp_builder_add_obj b RSVP_CLASS_EXPLICIT_ROUTE 1 (mjoin (store_struct <$> ero_list)).

Definition rsvp_builder_add_rro (b : rsvp_builder) (rro_list : list rsvp_ero_ipv4_subobj) :=
  if (length rro_list =? 0)%nat then (error_code RSVP_ERR_INVALID_PARAM, b)
  else rsvp_builder_add_obj b RSVP_CLASS_RECORD_ROUTE 1 (mjoin (store_struct <$> rro_list)).

(** The result is a [size_t], so the failure code of [add_obj] wraps. *)
Definition rsvp_builder_add_integrity (b : rsvp_builder) (flags : Z) (key_id : list Z)
    (sequence_number : Z) (digest : list Z) : Z * rsvp_builder :=
  let obj_len := (sizeof rsvp_integrity + length digest)%nat in
  if (256 <? obj_len)%nat then (0, b)
  else
    let '(rc, b') := rsvp_builder_add_obj b RSVP_CLASS_INTEGRITY 1
      (le_bytes 1 flags ++ le_bytes 1 0 ++ key_id ++ rev (le_bytes 8 sequence_number) ++ digest) in
    (rc mod 2 ^ 64, b').

(** ** Checksum *)

(** The loop of 16-bit loads: [sum += ntohs( *ptr++)] in a [uint32_t], with the
    left-over byte added as the high byte of a last word. *)
Fixpoint checksum_add (sum : Z) (bs : list Z) : Z :=
  match bs with
  | x :: y :: bs' => checksum_add ((sum + ntohs (x + 256 * y)) mod 2 ^ 32) bs'
  | [x] => (sum + Z.shiftl x 8) mod 2 ^ 32
  | [] => sum
  end.

(** [while (sum >> 16) sum = (sum & 0xffff) + (sum >> 16);] *)
Fixpoint checksum_fold (fuel : nat) (sum : Z) : Z :=
  match fuel with
  | O => sum
  | S fuel =>
      if Z.shiftr sum 16 =? 0 then sum
      else checksum_fold fuel (Z.land sum 65535 + Z.shiftr sum 16)
  end.

(** Two rounds bring any 32-bit sum below 2^16. *)
Definition fold_fuel : nat := 3.

Definition checksum_complement (sum : Z) : Z := htons (Z.lnot sum mod 65536).

(** The checksum of the first [len] bytes, as stored in the header field. *)
Definition rsvp_checksum (buf : list Z) (len : nat) : Z :=
  checksum_complement (checksum_fold fold_fuel (checksum_add 0 (take len buf))).

Definition rsvp_checksum_verify (buf : list Z) (len : nat) : Z :=
  if (len <? 4)%nat then -1
  else
    let sum := checksum_add 0 (take 2 buf) in
    let sum := checksum_add sum (take (len - 4) (drop 4 buf)) in
    let computed := checksum_complement (checksum_fold fold_fuel sum) in
    if default 0 (load 2 buf 2) =? computed then 0 else -1.

(** The message length with the builder, length and checksum filled in. *)
Definition rsvp_builder_finalize (b : rsvp_builder) : nat * rsvp_builder :=
  let b := hdr_store b 6 (le_bytes 2 (htons (Z.of_nat (b_offset b)))) in
  let b := hdr_store b 2 (le_bytes 2 0) in
  let b := hdr_store b 2 (le_bytes 2 (rsvp_checksum (b_buffer b) (b_offset b))) in
  (b_offset b, b).

(** ** The buffer as header, objects and unused zero bytes *)

Record builder_wf (b : rsvp_builder) : Prop := {
  bwf_length : length (b_buffer b) = b_size b;
  bwf_offset : (sizeof rsvp_common_hdr <= b_offset b <= b_size b)%nat;
  bwf_aligned : (b_offset b mod 4 = 0)%nat;
  bwf_zero : drop (b_offset b) (b_buffer b) = replicate (b_size b - b_offset b) 0;
  bwf_bytes : bytes_ok (b_buffer b);
}.

(** The message so far: header and objects. *)
Definition written (b : rsvp_builder) : list Z := take (b_offset b) (b_buffer b).

(** What one object looks like on the wire: its header with the true length,
    its data, and zero padding to a multiple of four. *)
Definition encode_obj (class_num c_type : Z) (data : list Z) : list Z :=
  let n := (sizeof rsvp_obj_hdr + length data)%nat in
  store_struct (mk_rsvp_obj_hdr (htons (Z.of_nat n)) class_num c_type)
  ++ data ++ replicate (RSVP_ALIGN n - n) 0.

Lemma RSVP_ALIGN_ge n : (n <= RSVP_ALIGN n)%nat.
Proof. rewrite RSVP_ALIGN_arith. dlia. Qed.
Lemma RSVP_ALIGN_lt n : (RSVP_ALIGN n < n + 4)%nat.
Proof. rewrite RSVP_ALIGN_arith. dlia. Qed.
Lemma RSVP_ALIGN_mod n : (RSVP_ALIGN n mod 4 = 0)%nat.
Proof. rewrite RSVP_ALIGN_arith. apply Nat.Div0.mod_mul. Qed.
Lemma RSVP_ALIGN_id n : (n mod 4 = 0)%nat → RSVP_ALIGN n = n.
Proof. intros. rewrite RSVP_ALIGN_arith. dlia. Qed.
#[export] Hint Resolve RSVP_ALIGN_ge RSVP_ALIGN_lt RSVP_ALIGN_mod : rsvp.

Lemma length_obj_hdr l c t : length (store_struct (mk_rsvp_obj_hdr l c t)) = 4%nat.
Proof. reflexivity. Qed.

Lemma length_encode_obj c t data :
  length (encode_obj c t data) = RSVP_ALIGN (sizeof rsvp_obj_hdr + length data).
Proof.
  unfold encode_obj. pose proof (RSVP_ALIGN_ge (sizeof rsvp_obj_hdr + length data)).
  rewrite !length_app, length_obj_hdr, length_replicate.
  change (sizeof rsvp_obj_hdr) with 4%nat in *. lia.
Qed.

Lemma encode_obj_bytes c t data : bytes_ok data → bytes_ok (encode_obj c t data).
Proof.
  intros. unfold encode_obj, bytes_ok. rewrite !Forall_app. split_and!; [|done|].
  - apply store_struct_bytes_ok.
  - apply Forall_replicate. unfold is_byte. lia.
Qed.

Lemma written_app b :
  b_buffer b = written b ++ drop (b_offset b) (b_buffer b).
Proof. symmetry. apply take_drop. Qed.

Lemma length_written b : builder_wf b → length (written b) = b_offset b.
Proof. intros []. unfold written. rewrite length_take. lia. Qed.

Lemma written_bytes b : builder_wf b → bytes_ok (written b).
Proof. intros []. by apply Forall_take. Qed.

(** The eight header bytes a builder starts with. *)
Definition init_header (msg_type : Z) : list Z :=
  [16; msg_type mod 256; 0; 0; 255; 0; 0; 0].

Lemma rsvp_builder_init_buffer size msg_type :
  (sizeof rsvp_common_hdr <= size)%nat →
  b_buffer (rsvp_builder_init size msg_type)
  = init_header msg_type ++ replicate (size - 8) 0.
Proof.
  change (sizeof rsvp_common_hdr) with 8%nat. intros Hs.
  do 8 (destruct size as [|size]; [lia|]). simpl. by rewrite Nat.sub_0_r.
Qed.

Lemma init_header_bytes msg_type : bytes_ok (init_header msg_type).
Proof. repeat constructor; try lia; apply Z.mod_pos_bound; lia. Qed.

Lemma replicate_zero_bytes n : bytes_ok (replicate n 0).
Proof. apply Forall_replicate. unfold is_byte. lia. Qed.
#[export] Hint Resolve init_header_bytes replicate_zero_bytes encode_obj_bytes
  store_struct_bytes_ok le_bytes_ok : rsvp.

Lemma rsvp_builder_init_wf size msg_type :
  (sizeof rsvp_common_hdr <= size)%nat → builder_wf (rsvp_builder_init size msg_type).
Proof.
  intros Hs. pose proof (rsvp_builder_init_buffer size msg_type Hs) as Hb.
  change (sizeof rsvp_common_hdr) with 8%nat in *.
  split; rewrite ?Hb; simpl (b_size _); simpl (b_offset _).
  - rewrite length_app, length_replicate. simpl. lia.
  - change (sizeof rsvp_common_hdr) with 8%nat. lia.
  - done.
  - done.
  - apply Forall_app; split; [apply init_header_bytes|apply replicate_zero_bytes].
Qed.

(** The state after a successful [add_obj]: everything already written is
    kept, the encoded object follows, and the builder stays well formed. *)
Lemma rsvp_builder_add_obj_ok b c t data :
  builder_wf b → bytes_ok data →
  (b_offset b + RSVP_ALIGN (sizeof rsvp_obj_hdr + length data) <= b_size b)%nat →
  ∃ b', rsvp_builder_add_obj b c t data = (0, b')
    ∧ builder_wf b' ∧ b_size b' = b_size b
    ∧ written b' = written b ++ encode_obj c t data.
Proof.
  intros Hwf Hd Hfit. pose proof (length_written b Hwf) as Hlw.
  destruct Hwf as [Hl Ho Ha Hz Hb].
  set (n := (sizeof rsvp_obj_hdr + length data)%nat) in *.
  pose proof (RSVP_ALIGN_ge n) as Hge. pose proof (RSVP_ALIGN_mod n) as Hmod.
  unfold rsvp_builder_add_obj. fold n.
  rewrite (proj2 (Nat.ltb_ge _ _)) by lia. eexists. split; [reflexivity|].
  assert (overwrite (overwrite (b_buffer b) (b_offset b)
            (store_struct (mk_rsvp_obj_hdr (htons (Z.of_nat n)) c t)))
            (b_offset b + sizeof rsvp_obj_hdr) data
          = (written b ++ encode_obj c t data)
            ++ replicate (b_size b - (b_offset b + RSVP_ALIGN n)) 0) as Hbuf.
  { rewrite (written_app b), Hz.
    set (h := store_struct (mk_rsvp_obj_hdr (htons (Z.of_nat n)) c t)).
    set (k := (b_size b - b_offset b)%nat).
    assert (overwrite (written b ++ replicate k 0) (b_offset b) h
            = (written b ++ h) ++ replicate (k - 4) 0) as ->.
    { rewrite <- Hlw, overwrite_app_r, drop_replicate, app_assoc. done. }
    assert ((b_offset b + sizeof rsvp_obj_hdr)%nat = length (written b ++ h)) as ->
      by (rewrite length_app, Hlw; done).
    rewrite overwrite_app_r, drop_replicate.
    unfold encode_obj. fold n h. rewrite <- !app_assoc. do 3 f_equal.
    rewrite <- replicate_add. f_equal. subst n k.
    change (sizeof rsvp_obj_hdr) with 4%nat in *. lia. }
  assert (length (written b ++ encode_obj c t data) = (b_offset b + RSVP_ALIGN n)%nat) as Hlen
    by (rewrite length_app, length_encode_obj, Hlw; done).
  assert (written (b <| b_buffer := (written b ++ encode_obj c t data)
            ++ replicate (b_size b - (b_offset b + RSVP_ALIGN n)) 0 |>
            <| b_offset ::= λ o, (o + RSVP_ALIGN n)%nat |>)
          = written b ++ encode_obj c t data) as Hw
    by (unfold written at 1; simpl; rewrite <- Hlen, take_app_length; done).
  assert ((b_offset b + RSVP_ALIGN n) mod 4 = 0)%nat as Hmod4 by lia.
  rewrite Hbuf. split; [|split; [done|exact Hw]].
  split; simpl.
  - rewrite length_app, Hlen, length_replicate. lia.
  - change (sizeof rsvp_common_hdr) with 8%nat in *. lia.
  - exact Hmod4.
  - rewrite <- Hlen, drop_app_length. done.
  - unfold bytes_ok in *. rewrite !Forall_app. split_and!.
    + by apply Forall_take.
    + by apply encode_obj_bytes.
    + apply Forall_replicate. unfold is_byte. lia.
Qed.

Lemma rsvp_builder_add_obj_full b c t data :
  (b_size b < b_offset b + RSVP_ALIGN (sizeof rsvp_obj_hdr + length data))%nat →
  rsvp_builder_add_obj b c t data = (-1, b).
Proof.
  intros. unfold rsvp_builder_add_obj. by rewrite (proj2 (Nat.ltb_lt _ _)) by lia.
Qed.
