(* ===== verification/Checksum.v ===== *)
(** * The RSVP checksum and the finalized message

    The checksum loops of src/pi/rsvp_builder.c against their arithmetic
    meaning (a ones' complement sum of big-endian 16-bit words), and the
    message [rsvp_builder_finalize] leaves in the buffer. *)

From stdpp Require Import base numbers list option.
From S2P Require Import Prelude Wire Protocol Builder.

(** ** Sums of big-endian words *)

Fixpoint word_sum (bs : list Z) : Z :=
  match bs with
  | x :: y :: bs' => 256 * x + y + word_sum bs'
  | [x] => 256 * x
  | [] => 0
  end.

Lemma list_pair_ind {A} (P : list A → Prop) :
  P [] → (∀ x, P [x]) → (∀ x y l, P l → P (x :: y :: l)) → ∀ l, P l.
Proof.
  intros H0 H1 H2. fix IH 1. intros [|x [|y l]]; [done|apply H1|]. apply H2, IH.
Qed.

Lemma word_sum_nonneg bs : bytes_ok bs → 0 ≤ word_sum bs.
Proof.
  induction bs as [|x|x y bs IH] using list_pair_ind; simpl; [lia|..];
    intros Hb; bytes_inv Hb; [lia|].
  pose proof (IH Hb). lia.
Qed.

Lemma word_sum_bound bs :
  bytes_ok bs → word_sum bs ≤ 65535 * ((Z.of_nat (length bs) + 1) / 2).
Proof.
  induction bs as [|x|x y bs IH] using list_pair_ind; simpl; [lia|..];
    intros Hb; bytes_inv Hb; [lia|].
  pose proof (IH Hb). lia.
Qed.

Lemma word_sum_app a b :
  (length a mod 2 = 0)%nat → word_sum (a ++ b) = word_sum a + word_sum b.
Proof.
  induction a as [|x|x y a IH] using list_pair_ind; simpl; intros Ha; [done|lia|].
  rewrite IH by lia. lia.
Qed.

(** The 32-bit accumulator does not wrap while the sum fits it. *)
Lemma checksum_add_sum s bs :
  bytes_ok bs → 0 ≤ s → s + word_sum bs < 2 ^ 32 →
  checksum_add s bs = s + word_sum bs.
Proof.
  revert s. induction bs as [|x|x y bs IH] using list_pair_ind; intros s Hb Hs Hlt;
    simpl in *; [lia|..]; bytes_inv Hb.
  - rewrite Z.shiftl_mul_pow2 by lia. rewrite Z.mod_small; lia.
  - pose proof (word_sum_nonneg bs Hb). rewrite ntohs_bytes by done.
    rewrite Z.mod_small by lia.
    rewrite IH; [lia|done|lia|lia].
Qed.

(** ** Folding the carries *)

(** Ones' complement reduction: the representative of [s] modulo 65535 in
    [1, 65535], and zero only for zero. *)
Definition ones_reduce (s : Z) : Z := if s =? 0 then 0 else 1 + (s - 1) mod 65535.

Lemma ones_reduce_small s : 0 ≤ s < 65536 → ones_reduce s = s.
Proof. unfold ones_reduce. intros. case_if; bools; [lia|]. rewrite Z.mod_small; lia. Qed.

Lemma ones_reduce_bound s : 0 ≤ ones_reduce s < 65536.
Proof. unfold ones_reduce. case_if; [lia|]. pose proof (Z.mod_pos_bound (s - 1) 65535). lia. Qed.

Lemma ones_reduce_step s :
  65536 ≤ s → ones_reduce (s mod 65536 + s / 65536) = ones_reduce s.
Proof.
  intros Hs. unfold ones_reduce.
  rewrite (proj2 (Z.eqb_neq s 0)) by lia.
  rewrite (proj2 (Z.eqb_neq _ 0)) by lia.
  replace (s - 1) with (s mod 65536 + s / 65536 - 1 + s / 65536 * 65535) by lia.
  by rewrite Z.mod_add.
Qed.

Lemma ones_reduce_inj s t :
  0 ≤ s → 0 ≤ t → ones_reduce s = ones_reduce t → s mod 65535 = t mod 65535.
Proof. unfold ones_reduce. intros Hs Ht H. repeat case_if_in H; bools; subst; lia. Qed.

(** The folding loop stops within its fuel and computes the reduction. *)
Lemma checksum_fold_reduce s :
  0 ≤ s < 2 ^ 32 → checksum_fold fold_fuel s = ones_reduce s.
Proof.
  intros Hs.
  assert (∀ f x, 0 ≤ x < 65536 → checksum_fold f x = ones_reduce x) as Hsmall.
  { intros f x Hx. rewrite ones_reduce_small by done. destruct f; simpl; [done|].
    rewrite Z.shiftr_div_pow2, (Z.div_small x) by lia. done. }
  assert (∀ f x, 65536 ≤ x →
    checksum_fold (S f) x = checksum_fold f (x mod 65536 + x / 65536)) as Hbig.
  { intros f x Hx. simpl. rewrite Z.shiftr_div_pow2 by lia.
    change (2 ^ 16) with 65536. change 65535 with (Z.ones 16).
    rewrite Z.land_ones by lia. change (2 ^ 16) with 65536.
    rewrite (proj2 (Z.eqb_neq _ 0)) by lia. done. }
  unfold fold_fuel.
  destruct (Z_lt_le_dec s 65536); [apply Hsmall; lia|].
  rewrite Hbig, <- ones_reduce_step by lia.
  set (s1 := s mod 65536 + s / 65536). assert (0 ≤ s1 < 131071) by lia.
  destruct (Z_lt_le_dec s1 65536); [apply Hsmall; lia|].
  rewrite Hbig, <- ones_reduce_step by lia. apply Hsmall. lia.
Qed.

(** The longest input whose sum cannot wrap a [uint32_t]. *)
Definition sum_limit : Z := 131072.

Lemma checksum_fold_add bs :
  bytes_ok bs → Z.of_nat (length bs) ≤ sum_limit →
  checksum_fold fold_fuel (checksum_add 0 bs) = ones_reduce (word_sum bs).
Proof.
  intros Hb Hl. unfold sum_limit in Hl.
  pose proof (word_sum_nonneg bs Hb). pose proof (word_sum_bound bs Hb).
  assert (word_sum bs < 2 ^ 32) by lia.
  rewrite checksum_add_sum by first [done|lia]. apply checksum_fold_reduce. lia.
Qed.

Lemma rsvp_checksum_eq m :
  bytes_ok m → Z.of_nat (length m) ≤ sum_limit →
  rsvp_checksum m (length m) = checksum_complement (ones_reduce (word_sum m)).
Proof.
  intros. unfold rsvp_checksum. rewrite firstn_all.
  by rewrite checksum_fold_add.
Qed.

Lemma checksum_complement_inj s t :
  0 ≤ s < 65536 → 0 ≤ t < 65536 → checksum_complement s = checksum_complement t → s = t.
Proof.
  unfold checksum_complement. intros Hs Ht H%(f_equal ntohs).
  rewrite !htons_ntohs in H by (apply Z.mod_pos_bound; lia).
  unfold Z.lnot in H. lia.
Qed.

(** ** Verification *)

(** The sum verification takes: every word but the checksum field. *)
Definition verify_sum (m : list Z) : Z := word_sum (take 2 m) + word_sum (drop 4 m).

Lemma rsvp_checksum_verify_eq m :
  bytes_ok m → (4 <= length m)%nat → Z.of_nat (length m) ≤ sum_limit →
  rsvp_checksum_verify m (length m)
  = if default 0 (load 2 m 2) =? checksum_complement (ones_reduce (verify_sum m))
    then 0 else -1.
Proof.
  intros Hm Hl Hlim. unfold rsvp_checksum_verify, sum_limit in *.
  rewrite (proj2 (Nat.ltb_ge _ _)) by lia.
  rewrite (take_ge (drop 4 m)) by (rewrite length_drop; lia).
  assert (bytes_ok (take 2 m)) as H2 by by apply Forall_take.
  assert (bytes_ok (drop 4 m)) as H4 by by apply Forall_drop.
  pose proof (word_sum_nonneg _ H2). pose proof (word_sum_bound _ H2) as B2.
  pose proof (word_sum_nonneg _ H4). pose proof (word_sum_bound _ H4) as B4.
  rewrite length_take in B2. rewrite length_drop in B4.
  rewrite (checksum_add_sum 0), Z.add_0_l by first [done|lia].
  rewrite checksum_add_sum by first [done|lia].
  rewrite checksum_fold_reduce by lia. done.
Qed.

(** ** Single-bit errors *)

(** The message with bit [k] of byte [i] inverted. *)
Definition flip_bit (i : nat) (k : Z) (m : list Z) : list Z := alter (λ b, Z.lxor b (2 ^ k)) i m.

Lemma lxor_bit_cases b k :
  is_byte b → 0 ≤ k < 8 →
  is_byte (Z.lxor b (2 ^ k))
  ∧ (Z.lxor b (2 ^ k) = b + 2 ^ k ∨ Z.lxor b (2 ^ k) = b - 2 ^ k).
Proof.
  assert (forallb (λ b, forallb (λ k,
    let x := Z.lxor b (2 ^ k) in
    (0 <=? x) && (x <? 256) && ((x =? b + 2 ^ k) || (x =? b - 2 ^ k)))%bool
    (Z.of_nat <$> seq 0 8)) (Z.of_nat <$> seq 0 256) = true) as Hall by by vm_compute.
  intros Hb Hk. unfold is_byte in *. rewrite forallb_forall in Hall.
  specialize (Hall b). rewrite forallb_forall in Hall.
  assert (∀ x n, 0 ≤ x < Z.of_nat n → In x (Z.of_nat <$> seq 0 n)) as Hin.
  { intros x n ?. apply in_map_iff. exists (Z.to_nat x).
    rewrite in_seq. lia. }
  specialize (Hall (Hin b 256%nat ltac:(lia)) k (Hin k 8%nat ltac:(lia))).
  simpl in Hall. bools. apply orb_prop in H0 as [?|?]; bools; lia.
Qed.

Lemma word_sum_alter f i m b :
  m !! i = Some b →
  word_sum (alter f i m) = word_sum m + (f b - b) * (if Nat.even i then 256 else 1).
Proof.
  revert i. induction m as [|x|x y m IH] using list_pair_ind; intros i Hi; [done|..].
  - destruct i as [|[]]; simpl in *; simplify_eq. lia.
  - destruct i as [|[|i]]; simpl in Hi; simplify_eq; simpl; [lia|lia|].
    change (list_alter f i m) with (alter f i m). rewrite (IH i) by done. lia.
Qed.

Lemma flip_bit_bytes i k m : bytes_ok m → 0 ≤ k < 8 → bytes_ok (flip_bit i k m).
Proof.
  intros Hm Hk. apply Forall_alter; [done|]. intros b Hi _.
  apply lxor_bit_cases; [|done]. by eapply Forall_lookup_1.
Qed.

(** A one-bit change outside the checksum field changes the sum by a power of
    two below 2^16, which is never a multiple of 65535. *)
Lemma verify_sum_flip i k m b :
  bytes_ok m → m !! i = Some b → i ≠ 2%nat → i ≠ 3%nat → 0 ≤ k < 8 →
  verify_sum (flip_bit i k m) mod 65535 ≠ verify_sum m mod 65535.
Proof.
  intros Hm Hi H2 H3 Hk.
  assert (is_byte b) as Hb by by eapply Forall_lookup_1.
  assert (∃ d, verify_sum (flip_bit i k m) = verify_sum m + d
    ∧ (∃ w, (w = 1 ∨ w = 256) ∧ d = (Z.lxor b (2 ^ k) - b) * w)) as (d & -> & w & Hw & Hd).
  { unfold verify_sum, flip_bit. set (f := λ b, Z.lxor b (2 ^ k)).
    destruct (decide (i < 2)%nat).
    - rewrite take_alter_lt, drop_alter_lt by lia.
      erewrite word_sum_alter by (rewrite lookup_take_lt by lia; eassumption).
      set (w := if Nat.even i then 256 else 1).
      exists ((f b - b) * w). split; [ring|]. exists w.
      split; [subst w; destruct (Nat.even i); auto|done].
    - rewrite take_alter_ge by lia. rewrite drop_alter_ge by lia.
      erewrite word_sum_alter
        by (rewrite lookup_drop; replace (4 + (i - 4))%nat with i by lia; eassumption).
      set (w := if Nat.even (i - 4) then 256 else 1).
      exists ((f b - b) * w). split; [ring|]. exists w.
      split; [subst w; destruct (Nat.even (i - 4)); auto|done]. }
  destruct (lxor_bit_cases b k Hb Hk) as [_ Hx].
  assert (k = 0 ∨ k = 1 ∨ k = 2 ∨ k = 3 ∨ k = 4 ∨ k = 5 ∨ k = 6 ∨ k = 7) as Hks by lia.
  assert (∃ p, (p = 1 ∨ p = 2 ∨ p = 4 ∨ p = 8 ∨ p = 16 ∨ p = 32 ∨ p = 64 ∨ p = 128)
    ∧ (d = p * w ∨ d = - p * w)) as (p & Hp & Hdp).
  { exists (2 ^ k). split; [by repeat destruct Hks as [->|Hks]; subst; auto 10|].
    destruct Hx as [Hx|Hx]; rewrite Hx in Hd; [left|right]; lia. }
  assert (d mod 65535 ≠ 0) as Hdm
    by (clear - Hw Hp Hdp; destruct Hw as [-> | ->];
        repeat destruct Hp as [->|Hp]; subst; destruct Hdp as [-> | ->]; vm_compute; done).
  intros Heq. apply Hdm.
  replace d with (verify_sum m + d - verify_sum m) by lia.
  rewrite Zminus_mod, Heq, Z.sub_diag. done.
Qed.

Lemma length_flip_bit i k m : length (flip_bit i k m) = length m.
Proof. apply length_alter. Qed.

(** The checksum field and the rest of the message, for a one-bit change. *)
Lemma flip_bit_field i k m b :
  bytes_ok m → (4 <= length m)%nat → m !! i = Some b → 0 ≤ k < 8 →
  (i = 2%nat ∨ i = 3%nat) →
  load 2 (flip_bit i k m) 2 ≠ load 2 m 2 ∧ verify_sum (flip_bit i k m) = verify_sum m.
Proof.
  intros Hm Hl Hi Hk Hc.
  assert (is_byte b) as Hb by by eapply Forall_lookup_1.
  destruct (lxor_bit_cases b k Hb Hk) as [_ Hx].
  assert (0 < 2 ^ k) by (apply Z.pow_pos_nonneg; lia).
  do 4 (destruct m as [|? m]; [simpl in Hl; lia|]).
  assert (∀ w x y z l, load 2 (w :: x :: y :: z :: l) 2 = Some (y + 256 * (z + 256 * 0)))
    as Hload by done.
  destruct Hc as [-> | ->]; simpl in Hi; simplify_eq; unfold flip_bit;
    cbn [alter list_alter]; rewrite !Hload; (split; [|done]);
    intros Heq; injection Heq as Heq; lia.
Qed.

Lemma flip_bit_other i k m :
  i ≠ 2%nat → i ≠ 3%nat → load 2 (flip_bit i k m) 2 = load 2 m 2.
Proof.
  intros. unfold load. rewrite length_flip_bit. unfold flip_bit. do 3 f_equal.
  destruct (decide (i < 2)%nat).
  - by rewrite drop_alter_lt.
  - rewrite drop_alter_ge, take_alter_ge by lia. done.
Qed.

(** ** The finalized message *)

(** A message: common header and objects, with the length and the checksum of
    the whole. *)
Definition encode_message (vf ty ttl rsv : Z) (objs : list Z) : list Z :=
  let len := (sizeof rsvp_common_hdr + length objs)%nat in
  let hdr ck := store_struct (mk_rsvp_common_hdr vf ty ck ttl rsv (htons (Z.of_nat len))) in
  hdr (rsvp_checksum (hdr 0 ++ objs) len) ++ objs.

Lemma sizeof_common_hdr : sizeof rsvp_common_hdr = 8%nat.
Proof. done. Qed.

Lemma length_common_hdr a b c d e f :
  length (store_struct (mk_rsvp_common_hdr a b c d e f)) = 8%nat.
Proof. reflexivity. Qed.

Lemma length_encode_message vf ty ttl rsv objs :
  length (encode_message vf ty ttl rsv objs) = (8 + length objs)%nat.
Proof. unfold encode_message. by rewrite length_app, length_common_hdr. Qed.

Lemma encode_message_bytes vf ty ttl rsv objs :
  bytes_ok objs → bytes_ok (encode_message vf ty ttl rsv objs).
Proof. intros. apply Forall_app; split; [apply store_struct_bytes_ok|done]. Qed.

Lemma hdr_store_spec b o bs :
  builder_wf b → (o + length bs <= sizeof rsvp_common_hdr)%nat → bytes_ok bs →
  builder_wf (hdr_store b o bs) ∧ written (hdr_store b o bs) = overwrite (written b) o bs
  ∧ b_offset (hdr_store b o bs) = b_offset b ∧ b_size (hdr_store b o bs) = b_size b.
Proof.
  intros Hwf Hle Hbs. pose proof (length_written b Hwf) as Hlw.
  destruct Hwf as [Hl Ho Ha Hz Hb].
  assert (overwrite (b_buffer b) o bs
          = overwrite (written b) o bs ++ drop (b_offset b) (b_buffer b)) as Hov
    by (rewrite (written_app b) at 1; apply overwrite_app_l; lia).
  assert (length (overwrite (written b) o bs) = b_offset b) as Hlo
    by (rewrite length_overwrite; lia).
  split_and!; [split|..]; simpl; try done.
  - rewrite length_overwrite; lia.
  - rewrite Hov, drop_app_length' by done. done.
  - by apply Forall_overwrite.
  - unfold written at 1. simpl. rewrite Hov, take_app_length'; done.
Qed.

Lemma overwrite_hdr_length a b c d e f x objs :
  overwrite (store_struct (mk_rsvp_common_hdr a b c d e f) ++ objs) 6 (le_bytes 2 x)
  = store_struct (mk_rsvp_common_hdr a b c d e x) ++ objs.
Proof. rewrite overwrite_app_l; [reflexivity|simpl; lia]. Qed.

Lemma overwrite_hdr_checksum a b c d e f x objs :
  overwrite (store_struct (mk_rsvp_common_hdr a b c d e f) ++ objs) 2 (le_bytes 2 x)
  = store_struct (mk_rsvp_common_hdr a b x d e f) ++ objs.
Proof. rewrite overwrite_app_l; [reflexivity|simpl; lia]. Qed.

Lemma overwrite_hdr_ttl a b c d e f x objs :
  overwrite (store_struct (mk_rsvp_common_hdr a b c d e f) ++ objs) 4 (le_bytes 1 x)
  = store_struct (mk_rsvp_common_hdr a b c x e f) ++ objs.
Proof. rewrite overwrite_app_l; [reflexivity|simpl; lia]. Qed.

(** What [finalize] returns: the number of bytes written and the encoded
    message in front of the untouched rest of the buffer. *)
Lemma rsvp_builder_finalize_eq b vf ty ck ttl rsv l objs :
  builder_wf b →
  written b = store_struct (mk_rsvp_common_hdr vf ty ck ttl rsv l) ++ objs →
  ∃ b', rsvp_builder_finalize b = ((8 + length objs)%nat, b')
    ∧ builder_wf b' ∧ written b' = encode_message vf ty ttl rsv objs.
Proof.
  intros Hwf Hw. pose proof (length_written b Hwf) as Hlw.
  rewrite Hw, length_app, length_common_hdr in Hlw.
  set (x := htons (Z.of_nat (b_offset b))).
  destruct (hdr_store_spec b 6 (le_bytes 2 x)) as (W1 & E1 & O1 & _);
    [done|rewrite length_le_bytes, sizeof_common_hdr; lia|apply le_bytes_ok|].
  rewrite Hw, overwrite_hdr_length in E1.
  set (b1 := hdr_store b 6 (le_bytes 2 x)) in *.
  destruct (hdr_store_spec b1 2 (le_bytes 2 0)) as (W2 & E2 & O2 & _);
    [done|rewrite length_le_bytes, sizeof_common_hdr; lia|apply le_bytes_ok|].
  rewrite E1, overwrite_hdr_checksum in E2.
  set (b2 := hdr_store b1 2 (le_bytes 2 0)) in *.
  destruct (hdr_store_spec b2 2 (le_bytes 2 (rsvp_checksum (b_buffer b2) (b_offset b2))))
    as (W3 & E3 & O3 & _); [done|rewrite length_le_bytes, sizeof_common_hdr; lia|apply le_bytes_ok|].
  rewrite E2, overwrite_hdr_checksum in E3.
  assert (b_offset b2 = (8 + length objs)%nat) as Ho2 by lia.
  eexists. split; [|split; [exact W3|]].
  - unfold rsvp_builder_finalize. fold x b1 b2.
    f_equal. rewrite O3. exact Ho2.
  - rewrite E3. unfold encode_message. change (sizeof rsvp_common_hdr) with 8%nat.
    replace (htons (Z.of_nat (8 + length objs))) with x by (subst x; by rewrite Hlw).
    unfold rsvp_checksum at 1. change (take (b_offset b2) (b_buffer b2)) with (written b2).
    rewrite E2. unfold rsvp_checksum. rewrite firstn_all2; [done|].
    rewrite length_app, length_common_hdr. lia.
Qed.

Lemma rsvp_checksum_verify_take m n :
  (n <= length m)%nat → rsvp_checksum_verify m n = rsvp_checksum_verify (take n m) n.
Proof.
  intros Hn. unfold rsvp_checksum_verify. case_if; [done|]. bools.
  rewrite take_take, Nat.min_l by lia. rewrite skipn_firstn_comm, take_take, Nat.min_id.
  do 2 f_equal. unfold load. rewrite length_take, Nat.min_l by lia.
  rewrite !(proj2 (Nat.leb_le _ _)) by lia.
  rewrite skipn_firstn_comm, take_take, Nat.min_l by lia. done.
Qed.

Lemma verify_sum_header a b c d e f objs :
  verify_sum (store_struct (mk_rsvp_common_hdr a b c d e f) ++ objs)
  = word_sum (store_struct (mk_rsvp_common_hdr a b 0 d e f) ++ objs).
Proof.
  unfold verify_sum. cbn.
  change (0 mod 256) with 0. change (0 / 256 mod 256) with 0. lia.
Qed.

Lemma encode_message_verifies vf ty ttl rsv objs :
  bytes_ok objs → Z.of_nat (8 + length objs) ≤ sum_limit →
  rsvp_checksum_verify (encode_message vf ty ttl rsv objs) (8 + length objs) = 0.
Proof.
  intros Hb Hl. rewrite <- (length_encode_message vf ty ttl rsv) at 1.
  rewrite rsvp_checksum_verify_eq; [|by apply encode_message_bytes|..];
    rewrite ?length_encode_message; [|lia..].
  unfold encode_message. rewrite sizeof_common_hdr.
  set (len := htons (Z.of_nat (8 + length objs))).
  set (ck := rsvp_checksum _ _).
  assert (0 ≤ ck < 65536) as Hck by apply htons_bound.
  change (load 2 _ 2)
    with (load 2 (le_bytes 1 vf ++ le_bytes 1 ty ++ le_bytes 2 ck ++ le_bytes 1 ttl
                  ++ le_bytes 1 rsv ++ le_bytes 2 len ++ objs) 2).
  rewrite app_assoc, (load_le_bytes 2 ck (le_bytes 1 vf ++ le_bytes 1 ty)) by done.
  simpl default. rewrite verify_sum_header.
  subst ck. set (m0 := store_struct _ ++ objs).
  assert (length m0 = (8 + length objs)%nat) as Hm0
    by (subst m0; rewrite length_app, length_common_hdr; done).
  rewrite <- Hm0 at 1. rewrite rsvp_checksum_eq, Z.eqb_refl; [done| |lia].
  apply Forall_app; split; [apply store_struct_bytes_ok|done].
Qed.

(** ** The Internet checksum as RFC 1071 defines it *)

Fixpoint be_words (bs : list Z) : list Z :=
  match bs with
  | x :: y :: bs' => (256 * x + y) :: be_words bs'
  | [x] => [256 * x]
  | [] => []
  end.

(** Ones' complement addition of 16-bit words: the carry comes around. *)
Definition ones_add (a b : Z) : Z := if 65535 <? a + b then a + b - 65535 else a + b.

(** In network order, as the field holds it. *)
Definition rfc1071_checksum (bs : list Z) : Z := htons (65535 - foldr ones_add 0 (be_words bs)).

Lemma ones_add_reduce a s :
  0 ≤ a < 65536 → 0 ≤ s → ones_add a (ones_reduce s) = ones_reduce (a + s).
Proof.
  intros Ha Hs. unfold ones_add, ones_reduce.
  destruct (s =? 0) eqn:E1, (a + s =? 0) eqn:E2, (65535 <? _) eqn:E3; bools;
    Z.to_euclidean_division_equations; lia.
Qed.

Lemma ones_sum_words bs :
  bytes_ok bs → foldr ones_add 0 (be_words bs) = ones_reduce (word_sum bs).
Proof.
  induction bs as [|x|x y bs IH] using list_pair_ind; intros Hb; [done|..];
    bytes_inv Hb; cbn [be_words word_sum foldr].
  - change 0 with (ones_reduce 0) at 1. rewrite ones_add_reduce by lia. f_equal. lia.
  - rewrite IH by done. apply ones_add_reduce; [lia|]. by apply word_sum_nonneg.
Qed.

(** ** Properties *)

(** [rsvp_builder_finalize] turns whatever the builder holds into a message
    with the same objects and header fields, its own length and a checksum that
    [rsvp_checksum_verify] accepts; the builder reports exactly the bytes
    written and the buffer keeps its size. *)
Theorem finalize_verifies b n b' vf ty ck ttl rsv l objs :
  builder_wf b → Z.of_nat (b_offset b) < 65536 →
  written b = store_struct (mk_rsvp_common_hdr vf ty ck ttl rsv l) ++ objs →
  rsvp_builder_finalize b = (n, b') →
  n = b_offset b
  ∧ written b' = encode_message vf ty ttl rsv objs
  ∧ rsvp_checksum_verify (b_buffer b') n = 0
  ∧ ntohs (default 0 (load 2 (b_buffer b') 6)) = Z.of_nat n
  ∧ length (b_buffer b') = b_size b'.
Proof.
  intros Hwf Hlt Hw Hf.
  destruct (rsvp_builder_finalize_eq b vf ty ck ttl rsv l objs Hwf Hw) as (b2 & E & W & M).
  rewrite E in Hf. injection Hf as <- <-.
  pose proof (length_written b Hwf) as Hl1. rewrite Hw, length_app, length_common_hdr in Hl1.
  split; [lia|]. split; [done|].
  pose proof (length_written b2 W) as Hl2. rewrite M, length_encode_message in Hl2.
  assert (bytes_ok objs) as Hb.
  { pose proof (written_bytes b Hwf) as Hb. rewrite Hw in Hb.
    by apply Forall_app in Hb as [_ ?]. }
  assert (8 + length objs <= length (b_buffer b2))%nat as Hlen by (destruct W; lia).
  split_and!; [..|by destruct W].
  - rewrite rsvp_checksum_verify_take by done. rewrite Hl2 at 1.
    change (take _ _) with (written b2). rewrite M.
    apply encode_message_verifies; [done|]. unfold sum_limit. lia.
  - rewrite (written_app b2), M. unfold encode_message. rewrite sizeof_common_hdr.
    set (ck' := rsvp_checksum _ _). set (x := htons _).
    change (load 2 _ 6) with (load 2 ((le_bytes 1 vf ++ le_bytes 1 ty ++ le_bytes 2 ck'
      ++ le_bytes 1 ttl ++ le_bytes 1 rsv) ++ le_bytes 2 x
      ++ (objs ++ drop (b_offset b2) (b_buffer b2))) 6).
    change 6%nat with (length (le_bytes 1 vf ++ le_bytes 1 ty ++ le_bytes 2 ck'
      ++ le_bytes 1 ttl ++ le_bytes 1 rsv)).
    rewrite load_le_bytes by apply htons_bound. simpl. subst x. apply htons_ntohs. lia.
Qed.

(** C20: the checksum detects every single-bit error: inverting any one bit of a
    message that verifies (the checksum field included) makes verification
    fail. *)
Theorem single_bit_error_detected m i k :
  bytes_ok m → (4 <= length m)%nat → Z.of_nat (length m) ≤ sum_limit →
  (i < length m)%nat → 0 ≤ k < 8 →
  rsvp_checksum_verify m (length m) = 0 →
  rsvp_checksum_verify (flip_bit i k m) (length m) = -1.
Proof.
  intros Hm H4 Hlim Hi Hk Hv.
  destruct (lookup_lt_is_Some_2 m i Hi) as [b Hb].
  rewrite rsvp_checksum_verify_eq in Hv by done.
  case_if_in Hv; [bools|done].
  assert (bytes_ok (flip_bit i k m)) as Hm' by by apply flip_bit_bytes.
  rewrite <- (length_flip_bit i k m).
  rewrite rsvp_checksum_verify_eq by (by rewrite ?length_flip_bit).
  assert (0 ≤ verify_sum m ∧ 0 ≤ verify_sum (flip_bit i k m)) as [Hs Hs'].
  { split; apply Z.add_nonneg_nonneg; apply word_sum_nonneg;
      first [apply Forall_take|apply Forall_drop]; done. }
  destruct (decide (i = 2 ∨ i = 3)%nat) as [Hc|Hc].
  - destruct (flip_bit_field i k m b) as [Hne Heq]; [done..|].
    rewrite Heq, <- E. rewrite (proj2 (Z.eqb_neq _ _)); [done|].
    intros Hd. apply Hne. destruct (load_is_Some 2 m 2) as [x Hx]; [lia|].
    destruct (load_is_Some 2 (flip_bit i k m) 2) as [y Hy];
      [rewrite length_flip_bit; lia|].
    rewrite Hx, Hy in *. simpl in Hd. by rewrite Hd.
  - rewrite flip_bit_other, E by lia. rewrite (proj2 (Z.eqb_neq _ _)); [done|].
    intros Hd%checksum_complement_inj; [|apply ones_reduce_bound..].
    apply ones_reduce_inj in Hd; [|done..].
    by eapply (verify_sum_flip i k m b); eauto.
Qed.

(** C19: the loops over bytes with a 32-bit accumulator and a folding loop
    compute the Internet checksum of RFC 1071, the complement of the sum of
    the 16-bit words with end-around carry, on any bytes up to 128 KiB, odd
    lengths included; and verification compares the field with the checksum of
    the message in which that field is zero. *)
Theorem checksum_is_rfc1071 m :
  bytes_ok m → (4 <= length m)%nat → Z.of_nat (length m) ≤ sum_limit →
  rsvp_checksum m (length m) = rfc1071_checksum m
  ∧ rsvp_checksum_verify m (length m)
    = if default 0 (load 2 m 2) =? rfc1071_checksum (take 2 m ++ [0; 0] ++ drop 4 m)
      then 0 else -1.
Proof.
  intros Hm Hl Hlim.
  assert (∀ bs, bytes_ok bs →
    rfc1071_checksum bs = checksum_complement (ones_reduce (word_sum bs))) as Href.
  { intros bs Hb. unfold rfc1071_checksum, checksum_complement. rewrite ones_sum_words by done.
    pose proof (ones_reduce_bound (word_sum bs)). unfold Z.lnot. f_equal. lia. }
  split; [by rewrite rsvp_checksum_eq, Href|].
  rewrite rsvp_checksum_verify_eq by done. rewrite Href; [|].
  - rewrite word_sum_app by (rewrite length_take; dlia). unfold verify_sum.
    change ([0; 0] ++ drop 4 m) with (0 :: 0 :: drop 4 m). cbn [word_sum].
    do 4 f_equal.
  - apply Forall_app; split; [by apply Forall_take|].
    repeat (apply Forall_cons_2; [unfold is_byte; lia|]). by apply Forall_drop.
Qed.

(** ** Witnesses *)

Lemma finalize_verifies_witness :
  ∃ n b', rsvp_builder_finalize (rsvp_builder_init 16 RSVP_MSG_PATH) = (n, b')
    ∧ n = 8%nat ∧ rsvp_checksum_verify (b_buffer b') n = 0.
Proof.
  destruct (rsvp_builder_finalize (rsvp_builder_init 16 RSVP_MSG_PATH)) as [n b'] eqn:E.
  exists n, b'. split; [done|].
  destruct (finalize_verifies (rsvp_builder_init 16 RSVP_MSG_PATH) n b' 16 1 0 255 0 0 [])
    as (-> & _ & H & _); [|done|reflexivity|exact E|done].
  apply rsvp_builder_init_wf. rewrite sizeof_common_hdr. lia.
Defined.

(** An empty Hello message: 16 20 ... 8, with its checksum. *)
Lemma single_bit_error_detected_witness :
  rsvp_checksum_verify [16; 20; 240; 226; 255; 0; 0; 8] 8 = 0
  ∧ rsvp_checksum_verify (flip_bit 3 5 [16; 20; 240; 226; 255; 0; 0; 8]) 8 = -1.
Proof.
  assert (rsvp_checksum_verify [16; 20; 240; 226; 255; 0; 0; 8] 8 = 0) as Hv
    by (vm_compute; reflexivity).
  split; [exact Hv|].
  apply (single_bit_error_detected [16; 20; 240; 226; 255; 0; 0; 8] 3 5).
  - repeat constructor; lia.
  - simpl. lia.
  - vm_compute. discriminate.
  - simpl. lia.
  - lia.
  - exact Hv.
Defined.

(** Three bytes and a checksum field; the last byte is padded with zero. *)
Lemma checksum_is_rfc1071_witness :
  rsvp_checksum [16; 1; 0; 0; 255] 5 = rfc1071_checksum [16; 1; 0; 0; 255]
  ∧ ntohs (rfc1071_checksum [16; 1; 0; 0; 255]) = 61693.
Proof.
  split; [|reflexivity].
  apply (checksum_is_rfc1071 [16; 1; 0; 0; 255]).
  - repeat (apply Forall_cons_2; [unfold is_byte; lia|]). constructor.
  - simpl. lia.
  - vm_compute. discriminate.
Defined.
