(* ===== verification/SendPacket.v ===== *)
(** * IP encapsulation (rsvp_send_packet of src/pi/rsvp_dispatcher.c)

    The packet handed to [sendto] on the raw socket: the IP header the daemon
    writes itself (IP_HDRINCL), the Router Alert option if asked for, and the
    RSVP message. *)

From stdpp Require Import base numbers list option.
From S2P Require Import Prelude Wire Protocol Builder Checksum.

Definition RSVP_PROTOCOL : Z := 46.
Definition MAX_RSVP_PACKET_SIZE : nat := Z.to_nat 4096.

(** The bytes of [struct iphdr]: the bit fields ihl and version share the first
    byte. *)
Definition ip_header (ihl total_len ttl check saddr daddr : Z) : list Z :=
  le_bytes 1 (Z.lor (Z.shiftl 4 4) ihl) ++ le_bytes 1 0 ++ le_bytes 2 (htons total_len)
  ++ le_bytes 2 (htons 54321) ++ le_bytes 2 0 ++ le_bytes 1 ttl ++ le_bytes 1 RSVP_PROTOCOL
  ++ le_bytes 2 check ++ le_bytes 4 saddr ++ le_bytes 4 daddr.

(** [sock_open]: the raw socket was created; [sendto_ok]: the system call takes
    the packet.  The result is the return code with the packet sent; [None] is
    a read outside [buffer]. *)
Definition rsvp_send_packet (sock_open sendto_ok : bool) (src dest : Z) (buffer : list Z)
    (len : nat) (use_rao : bool) : option (rsvp_error_t * option (list Z)) :=
  let optlen : nat := if use_rao then 4%nat else 0%nat in
  let total_len := (sizeof_iphdr + optlen + len)%nat in
  if (MAX_RSVP_PACKET_SIZE <? total_len)%nat then Some (RSVP_ERR_BUFFER_TOO_SMALL, None)
  else if negb sock_open then Some (RSVP_ERR_SYS, None)
  else
    ttl ← (if (sizeof rsvp_common_hdr <=? len)%nat then load 1 buffer 4 else Some 255);
    if (length buffer <? len)%nat then None
    else
      let packet := replicate total_len 0 in
      let ihl := (5 + optlen / 4)%nat in
      let packet := overwrite packet 0
        (ip_header (Z.of_nat ihl) (Z.of_nat total_len) ttl 0 src dest) in
      let check := rsvp_checksum packet (ihl * 4) in
      let packet := overwrite packet 10 (le_bytes 2 check) in
      let packet := if use_rao then overwrite packet sizeof_iphdr [148; 4; 0; 0] else packet in
      let packet := overwrite packet (ihl * 4) (take len buffer) in
      Some (if sendto_ok then RSVP_SUCCESS else RSVP_ERR_SEND_FAILED, Some packet).

(** ** The packet *)

Lemma length_ip_header a b c d e f : length (ip_header a b c d e f) = 20%nat.
Proof. reflexivity. Qed.

Lemma ip_header_bytes a b c d e f : bytes_ok (ip_header a b c d e f).
Proof. unfold ip_header, bytes_ok. rewrite !Forall_app. split_and!; apply le_bytes_ok. Qed.

Lemma overwrite_ip_check ihl tl ttl ck sa da x rest :
  overwrite (ip_header ihl tl ttl ck sa da ++ rest) 10 (le_bytes 2 x)
  = ip_header ihl tl ttl x sa da ++ rest.
Proof. reflexivity. Qed.

Definition rao_option (use_rao : bool) : list Z := if use_rao then [148; 4; 0; 0] else [].

(** What is sent: header, option, message.  The header checksum covers the
    option bytes as zeros. *)
Definition ip_packet (src dest ttl : Z) (msg : list Z) (use_rao : bool) : list Z :=
  let optlen := length (rao_option use_rao) in
  let ihl := Z.of_nat (5 + optlen / 4) in
  let total := Z.of_nat (20 + optlen + length msg) in
  let check := rsvp_checksum (ip_header ihl total ttl 0 src dest ++ replicate optlen 0)
                 (20 + optlen) in
  ip_header ihl total ttl check src dest ++ rao_option use_rao ++ msg.

Lemma rsvp_checksum_app a b n : n = length a → rsvp_checksum (a ++ b) n = rsvp_checksum a n.
Proof. intros ->. unfold rsvp_checksum. by rewrite take_app_length, take_ge by lia. Qed.

Lemma length_rao_option b : length (rao_option b) = if b then 4%nat else 0%nat.
Proof. by destruct b. Qed.

Lemma rsvp_send_packet_spec ok src dest buffer len use_rao ttl :
  (8 <= len <= length buffer)%nat → load 1 buffer 4 = Some ttl →
  (20 + length (rao_option use_rao) + len <= MAX_RSVP_PACKET_SIZE)%nat →
  rsvp_send_packet true ok src dest buffer len use_rao
  = Some (if ok then RSVP_SUCCESS else RSVP_ERR_SEND_FAILED,
          Some (ip_packet src dest ttl (take len buffer) use_rao)).
Proof.
  intros Hlen Httl Hmax. unfold rsvp_send_packet.
  rewrite length_rao_option in Hmax.
  assert ((if use_rao then 4 else 0)%nat = length (rao_option use_rao)) as -> by by destruct use_rao.
  set (optlen := length (rao_option use_rao)) in *. rewrite <- length_rao_option in Hmax.
  fold optlen in Hmax. unfold sizeof_iphdr.
  rewrite (proj2 (Nat.ltb_ge _ _)) by lia. change (sizeof rsvp_common_hdr) with 8%nat.
  rewrite (proj2 (Nat.leb_le _ _)) by lia. rewrite Httl. cbn [negb mbind option_bind].
  rewrite (proj2 (Nat.ltb_ge _ _)) by lia.
  set (ihl := Z.of_nat (5 + optlen / 4)).
  assert (Z.of_nat (20 + optlen + len) = Z.of_nat (20 + optlen + length (take len buffer)))
    as -> by (rewrite length_take; lia).
  unfold ip_packet. fold optlen. fold ihl.
  set (total := Z.of_nat (20 + optlen + length (take len buffer))).
  assert (overwrite (replicate (20 + optlen + len) 0) 0 (ip_header ihl total ttl 0 src dest)
          = ip_header ihl total ttl 0 src dest ++ replicate optlen 0 ++ replicate len 0) as ->.
  { unfold overwrite. rewrite take_0, length_ip_header, drop_replicate, app_nil_l.
    rewrite <- replicate_add. do 2 f_equal. clear. lia. }
  assert ((5 + optlen / 4) * 4 = 20 + optlen)%nat as ->
    by (subst optlen; by destruct use_rao).
  rewrite (app_assoc _ (replicate optlen 0)), rsvp_checksum_app
    by (rewrite length_app, length_ip_header, length_replicate; lia).
  set (check := rsvp_checksum _ _). rewrite <- app_assoc, overwrite_ip_check.
  set (h := ip_header ihl total ttl check src dest).
  assert ((if use_rao then overwrite (h ++ replicate optlen 0 ++ replicate len 0) 20 [148; 4; 0; 0]
           else h ++ replicate optlen 0 ++ replicate len 0)
          = (h ++ rao_option use_rao) ++ replicate len 0) as ->.
  { subst optlen. destruct use_rao; [|done]. unfold rao_option.
    change 20%nat with (length h). rewrite overwrite_app_r, <- app_assoc. reflexivity. }
  assert (20 + optlen = length (h ++ rao_option use_rao))%nat as ->
    by (rewrite length_app; subst h; by rewrite length_ip_header).
  rewrite overwrite_app_r. do 3 f_equal. rewrite <- app_assoc. do 2 f_equal.
  rewrite drop_replicate. rewrite length_take, Nat.min_l by lia.
  rewrite Nat.sub_diag. by rewrite app_nil_r.
Qed.

(** ** The header checksum *)

Lemma word_sum_ip_check ihl tl ttl ck sa da :
  0 ≤ ck < 65536 →
  word_sum (ip_header ihl tl ttl ck sa da) = word_sum (ip_header ihl tl ttl 0 sa da) + ntohs ck.
Proof.
  intros Hck. rewrite ntohs_arith. unfold ip_header.
  assert (∀ a b c : list Z, length a = 10%nat → length b = 2%nat →
    word_sum (a ++ b ++ c) = word_sum a + word_sum b + word_sum c) as Hsplit.
  { intros a b c Ha Hb. rewrite !word_sum_app by (by rewrite ?Ha, ?Hb). lia. }
  set (pre := le_bytes 1 (Z.lor (Z.shiftl 4 4) ihl) ++ le_bytes 1 0 ++ le_bytes 2 (htons tl)
    ++ le_bytes 2 (htons 54321) ++ le_bytes 2 0 ++ le_bytes 1 ttl ++ le_bytes 1 RSVP_PROTOCOL).
  set (post := le_bytes 4 sa ++ le_bytes 4 da).
  assert (∀ c, le_bytes 1 (Z.lor (Z.shiftl 4 4) ihl) ++ le_bytes 1 0 ++ le_bytes 2 (htons tl)
    ++ le_bytes 2 (htons 54321) ++ le_bytes 2 0 ++ le_bytes 1 ttl ++ le_bytes 1 RSVP_PROTOCOL
    ++ le_bytes 2 c ++ post = pre ++ le_bytes 2 c ++ post) as Hsh by (intros; reflexivity).
  rewrite !Hsh, !Hsplit by reflexivity.
  generalize (word_sum pre) (word_sum post). clear. intros. simpl. lia.
Qed.

Lemma checksum_complement_value s :
  0 ≤ s < 65536 → ntohs (checksum_complement s) = 65535 - s.
Proof.
  intros. unfold checksum_complement. rewrite htons_ntohs by (apply Z.mod_pos_bound; lia).
  unfold Z.lnot. lia.
Qed.

Lemma checksum_complement_zero s :
  0 ≤ s < 65536 → checksum_complement s = 0 ↔ s = 65535.
Proof.
  intros Hs. split.
  - intros Hc. pose proof (checksum_complement_value s Hs) as Hv. rewrite Hc in Hv.
    change (ntohs 0) with 0 in Hv. lia.
  - intros ->. reflexivity.
Qed.

(** The first byte of the header makes its sum positive. *)
Lemma word_sum_ip_header_pos ihl tl ttl ck sa da :
  0 ≤ ihl < 16 → 0 < word_sum (ip_header ihl tl ttl ck sa da).
Proof.
  intros Hi.
  assert (0 < Z.lor (Z.shiftl 4 4) ihl mod 256) as Hv
    by (rewrite (lor_shiftl_add 4 ihl 4) by lia; change (2 ^ 4) with 16; lia).
  pose proof (ip_header_bytes ihl tl ttl ck sa da) as Hb. revert Hb. unfold ip_header.
  change (le_bytes 1 (Z.lor (Z.shiftl 4 4) ihl)) with [Z.lor (Z.shiftl 4 4) ihl mod 256].
  change (le_bytes 1 0) with [0]. cbn [app].
  generalize (le_bytes 2 (htons tl) ++ le_bytes 2 (htons 54321) ++ le_bytes 2 0
    ++ le_bytes 1 ttl ++ le_bytes 1 RSVP_PROTOCOL ++ le_bytes 2 ck ++ le_bytes 4 sa
    ++ le_bytes 4 da). intros rest Hb. simpl. bytes_inv Hb.
  pose proof (word_sum_nonneg rest Hb). lia.
Qed.

(** A sum completed by the complement of its reduction. *)
Lemma ones_reduce_complete S d :
  0 < S → 0 ≤ d < 65535 →
  ones_reduce (S + (65535 - ones_reduce S) + d) = if decide (d = 0) then 65535 else d.
Proof.
  intros HS Hd. unfold ones_reduce at 2. rewrite (proj2 (Z.eqb_neq S 0)) by lia.
  pose proof (Z.div_mod (S - 1) 65535) as Hq. pose proof (Z.mod_pos_bound (S - 1) 65535) as Hr.
  set (q := (S - 1) / 65535) in *. set (r := (S - 1) mod 65535) in *.
  assert (S + (65535 - (1 + r)) + d = 65535 * (q + 1) + d) as -> by lia.
  assert (0 ≤ q) by (apply Z.div_pos; lia). clearbody q r.
  unfold ones_reduce. rewrite (proj2 (Z.eqb_neq _ 0)) by lia.
  case_decide as Hd0.
  - subst d. replace (65535 * (q + 1) + 0 - 1) with (65534 + q * 65535) by lia.
    rewrite Z.mod_add, Z.mod_small by lia. done.
  - replace (65535 * (q + 1) + d - 1) with (d - 1 + (q + 1) * 65535) by lia.
    rewrite Z.mod_add, Z.mod_small by lia. lia.
Qed.

(** The checksum of a 20-byte header followed by its option, for a header [h]
    with the checksum field as argument. *)
Lemma header_checksum_iff (h : Z → list Z) use_rao :
  (∀ c, length (h c) = 20%nat) → (∀ c, bytes_ok (h c)) → 0 < word_sum (h 0) →
  (∀ c, 0 ≤ c < 65536 → word_sum (h c) = word_sum (h 0) + ntohs c) →
  let optlen := length (rao_option use_rao) in
  let ck := rsvp_checksum (h 0 ++ replicate optlen 0) (20 + optlen) in
  rsvp_checksum (h ck ++ rao_option use_rao) (20 + optlen) = 0 ↔ use_rao = false.
Proof.
  intros Hl0 Hb0 Hpos Hc0 optlen ck.
  assert (∀ c o, length (h c ++ o) = 20 + length o)%nat as Hl
    by (intros; by rewrite length_app, Hl0).
  assert (∀ c o, bytes_ok o → bytes_ok (h c ++ o)) as Hbo
    by (intros c o Ho; apply Forall_app_2; [apply Hb0|exact Ho]).
  assert (∀ c o, word_sum (h c ++ o) = word_sum (h c) + word_sum o) as Happ
    by (intros; apply word_sum_app; by rewrite Hl0).
  assert (bytes_ok (rao_option use_rao)) as Hrao by (destruct use_rao; repeat constructor; lia).
  assert (optlen <= 4)%nat by (subst optlen; destruct use_rao; simpl; lia).
  assert (∀ c o, bytes_ok o → length o = optlen →
    rsvp_checksum (h c ++ o) (20 + optlen)
    = checksum_complement (ones_reduce (word_sum (h c) + word_sum o))) as Hck.
  { intros c o Ho Hlo. rewrite <- Happ, <- rsvp_checksum_eq by
      (auto; rewrite Hl, Hlo; unfold sum_limit; lia). by rewrite Hl, Hlo. }
  assert (ck = checksum_complement (ones_reduce (word_sum (h 0)))) as Eck.
  { subst ck. rewrite Hck by (apply replicate_zero_bytes || apply length_replicate).
    assert (word_sum (replicate optlen 0) = 0) as -> by (subst optlen; by destruct use_rao).
    by rewrite Z.add_0_r. }
  rewrite Hck, Hc0, Eck, checksum_complement_value by
    (done || apply ones_reduce_bound || (rewrite Eck; apply htons_bound)).
  rewrite checksum_complement_zero by apply ones_reduce_bound.
  destruct use_rao.
  - change (word_sum (rao_option true)) with 37892.
    rewrite ones_reduce_complete by (exact Hpos || lia). split; [intros|]; discriminate.
  - change (word_sum (rao_option false)) with 0.
    rewrite ones_reduce_complete by (exact Hpos || lia). done.
Qed.

(** ** Properties *)

(** The IP header checksum the daemon writes is the right one (the header
    sums to all ones) exactly when no Router Alert option is sent: it is
    computed before the option bytes are written, over zeros in their place. *)
Theorem ip_checksum_correct_iff ok src dest buffer len use_rao ttl rc packet :
  bytes_ok buffer → (8 <= len <= length buffer)%nat → load 1 buffer 4 = Some ttl →
  (24 + len <= MAX_RSVP_PACKET_SIZE)%nat →
  rsvp_send_packet true ok src dest buffer len use_rao = Some (rc, Some packet) →
  rsvp_checksum packet (20 + length (rao_option use_rao)) = 0 ↔ use_rao = false.
Proof.
  intros Hb Hlen Httl Hmax Hs.
  rewrite (rsvp_send_packet_spec ok src dest buffer len use_rao ttl) in Hs;
    [|done|done|destruct use_rao; simpl; lia].
  injection Hs as _ <-. unfold ip_packet. rewrite app_assoc, rsvp_checksum_app
    by (rewrite length_app, length_ip_header; done).
  apply (header_checksum_iff (λ ck, ip_header _ _ ttl ck src dest)).
  - intros. apply length_ip_header.
  - intros. apply ip_header_bytes.
  - apply word_sum_ip_header_pos. destruct use_rao; simpl; lia.
  - intros. by apply word_sum_ip_check.
Qed.

Lemma ip_checksum_correct_iff_witness :
  ∃ packet,
    rsvp_send_packet true true 1 2 [16; 20; 0; 0; 255; 0; 0; 8] 8 true
    = Some (RSVP_SUCCESS, Some packet)
    ∧ rsvp_checksum packet 24 ≠ 0.
Proof.
  eexists. split; [reflexivity|].
  intros Hc. assert (true = false); [|discriminate].
  eapply (ip_checksum_correct_iff true 1 2 [16; 20; 0; 0; 255; 0; 0; 8] 8 true 255).
  - repeat constructor; lia.
  - simpl. lia.
  - reflexivity.
  - vm_compute. lia.
  - reflexivity.
  - exact Hc.
Defined.
