(* ===== verification/Parser.v ===== *)
(** * The packet parser (src/pi/rsvp_parser.c)

    The packet is the list [m] of the bytes received, starting with the IP
    header.  The pointers of [struct rsvp_message_info] into the packet are
    offsets into [m], [None] for NULL.  A read outside [m] makes the result
    [None]; a result [Some (rc, info)] is a return of [rc] with the message
    information filled so far. *)

From stdpp Require Import base numbers list option sets.
From S2P Require Import Prelude Wire Protocol Builder.

Record rsvp_message_info := mk_rsvp_message_info {
  info_common_hdr : option nat;
  info_src_ip : Z;
  info_dst_ip : Z;
  info_key : rsvp_path_key;
  info_payload : nat;
  info_payload_len : nat;
  info_sess_v4 : option nat;
  info_sess_v6 : option nat;
  info_hop_v4 : option nat;
  info_hop_v6 : option nat;
  info_sender_v4 : option nat;
  info_sender_v6 : option nat;
  info_time_values : option nat;
  info_error_spec : option nat;
  info_integrity : option nat;
  info_tspec : option nat;
  info_flowspec : option nat;
  info_adspec : option nat;
  info_style : option nat;
  info_ero : option nat;
  info_ero_len : nat;
  info_rro : option nat;
  info_rro_len : nat;
  info_label : option nat;
  info_label_req : option nat;
  info_sess_attr : option nat;
  info_sess_attr_ra : option nat;
  info_fast_reroute : option nat;
  info_detour : option nat;
  info_hello_obj : option nat;
  info_hello_ctype : Z;
  info_lsp_name : list Z;
}.
#[export] Instance rsvp_message_info_settable : Settable rsvp_message_info :=
  λ i, mk_rsvp_message_info
    (info_common_hdr i) (info_src_ip i) (info_dst_ip i) (info_key i) (info_payload i)
    (info_payload_len i) (info_sess_v4 i) (info_sess_v6 i) (info_hop_v4 i)
    (info_hop_v6 i) (info_sender_v4 i) (info_sender_v6 i) (info_time_values i)
    (info_error_spec i) (info_integrity i) (info_tspec i) (info_flowspec i)
    (info_adspec i) (info_style i) (info_ero i) (info_ero_len i) (info_rro i)
    (info_rro_len i) (info_label i) (info_label_req i) (info_sess_attr i)
    (info_sess_attr_ra i) (info_fast_reroute i) (info_detour i) (info_hello_obj i)
    (info_hello_ctype i) (info_lsp_name i).

(** [memset(info, 0, sizeof *info)]: no pointer, an empty 256-byte name. *)
Definition zero_info : rsvp_message_info :=
  mk_rsvp_message_info None 0 0 zero_key 0 0 None None None None None None None
    None None None None None None None 0 None 0 None None None None None None None 0 (replicate 256 0).

Definition null (p : option nat) : bool := match p with None => true | Some _ => false end.

(** [memcpy] out of the packet. *)
Definition read_bytes (m : list Z) (o n : nat) : option (list Z) :=
  if (o + n <=? length m)%nat then Some (take n (drop o m)) else None.

(** The name copied out of a SESSION_ATTRIBUTE object. *)
Definition parse_session_name (m : list Z) (obj_data data_len : nat)
    (info : rsvp_message_info) : option rsvp_message_info :=
  sa ← load_struct rsvp_session_attribute m obj_data;
  if 0 <? sa_name_length sa then
    let nlen := Z.to_nat (sa_name_length sa) in
    let available := (data_len - sizeof rsvp_session_attribute)%nat in
    let nlen := if (available <? nlen)%nat then available else nlen in
    let nlen := if (256 <=? nlen)%nat then 255%nat else nlen in
    name ← read_bytes m (obj_data + sizeof rsvp_session_attribute) nlen;
    Some (info <| info_lsp_name ::= λ b, overwrite (overwrite b 0 name) nlen [0] |>)
  else Some info.

(** The last arms of the [switch] on the class of an object: the fast reroute,
    detour and hello objects, and the classes that are not known, which are
    refused below 128 and ignored from there. *)
Definition parse_other_object (m : list Z) (class_num c_type : Z) (obj_len obj_data : nat)
    (info : rsvp_message_info) : option (rsvp_error_t * rsvp_message_info) :=
  let fits n := (sizeof rsvp_obj_hdr + n <=? obj_len)%nat in
  if class_num =? RSVP_CLASS_FAST_REROUTE then
    Some (RSVP_SUCCESS,
      if null (info_fast_reroute info) && (c_type =? 1) && fits (sizeof rsvp_fast_reroute)
      then info <| info_fast_reroute := Some obj_data |> else info)
  else if class_num =? RSVP_CLASS_DETOUR then
    Some (RSVP_SUCCESS,
      if null (info_detour info) && (c_type =? 7) && fits (sizeof rsvp_detour_ipv4)
      then info <| info_detour := Some obj_data |> else info)
  else if class_num =? RSVP_CLASS_HELLO then
    Some (RSVP_SUCCESS,
      if null (info_hello_obj info) && ((c_type =? RSVP_HELLO_CTYPE_REQUEST) || (c_type =? RSVP_HELLO_CTYPE_ACK))
          && fits (sizeof rsvp_hello_obj)
      then info <| info_hello_obj := Some obj_data |> <| info_hello_ctype := c_type |> else info)
  else if class_num <? 128 then Some (RSVP_ERR_UNKNOWN_CLASS, info)
  else Some (RSVP_SUCCESS, info).

(** The [switch] on the class of one object of [obj_len] bytes whose data is
    at [obj_data].  An object already seen is not looked at again. *)
Definition parse_object (m : list Z) (class_num c_type : Z) (obj_len obj_data : nat)
    (info : rsvp_message_info) : option (rsvp_error_t * rsvp_message_info) :=
  let fits n := (sizeof rsvp_obj_hdr + n <=? obj_len)%nat in
  if class_num =? RSVP_CLASS_INTEGRITY then
    Some (RSVP_SUCCESS,
      if null (info_integrity info) && fits (sizeof rsvp_integrity)
      then info <| info_integrity := Some obj_data |> else info)
  else if class_num =? RSVP_CLASS_SESSION then
    if null (info_sess_v4 info) && (c_type =? 7) && fits (sizeof rsvp_session_ipv4) then
      s ← load_struct rsvp_session_ipv4 m obj_data;
      Some (RSVP_SUCCESS,
        info <| info_sess_v4 := Some obj_data |>
             <| info_key ::= λ k, k <| key_session := s |> |>)
    else Some (RSVP_SUCCESS, info)
  else if class_num =? RSVP_CLASS_HOP then
    Some (RSVP_SUCCESS,
      if null (info_hop_v4 info) && (c_type =? 1) && fits (sizeof rsvp_hop_ipv4)
      then info <| info_hop_v4 := Some obj_data |> else info)
  else if class_num =? RSVP_CLASS_TIME_VALUES then
    Some (RSVP_SUCCESS,
      if null (info_time_values info) && fits (sizeof rsvp_time_values)
      then info <| info_time_values := Some obj_data |> else info)
  else if class_num =? RSVP_CLASS_STYLE then
    Some (RSVP_SUCCESS,
      if null (info_style info) && fits (sizeof rsvp_style)
      then info <| info_style := Some obj_data |> else info)
  else if class_num =? RSVP_CLASS_FLOWSPEC then
    Some (RSVP_SUCCESS,
      if null (info_flowspec info) && fits (sizeof rsvp_sender_tspec)
      then info <| info_flowspec := Some obj_data |> else info)
  else if class_num =? RSVP_CLASS_ERROR_SPEC then
    Some (RSVP_SUCCESS,
      if null (info_error_spec info) && fits (sizeof rsvp_error_spec_ipv4)
      then info <| info_error_spec := Some obj_data |> else info)
  else if (class_num =? RSVP_CLASS_SENDER_TEMPLATE) || (class_num =? RSVP_CLASS_FILTER_SPEC) then
    if null (info_sender_v4 info) && ((c_type =? 1) || (c_type =? 7))
       && fits (sizeof rsvp_sender_ipv4) then
      s ← load_struct rsvp_sender_ipv4 m obj_data;
      Some (RSVP_SUCCESS,
        info <| info_sender_v4 := Some obj_data |>
             <| info_key ::= λ k, k <| key_sender := s |> |>)
    else Some (RSVP_SUCCESS, info)
  else if class_num =? RSVP_CLASS_SENDER_TSPEC then
    Some (RSVP_SUCCESS,
      if null (info_tspec info) && fits (sizeof rsvp_sender_tspec)
      then info <| info_tspec := Some obj_data |> else info)
  else if class_num =? RSVP_CLASS_ADSPEC then
    Some (RSVP_SUCCESS,
      if null (info_adspec info) && fits (sizeof rsvp_adspec)
      then info <| info_adspec := Some obj_data |> else info)
  else if class_num =? RSVP_CLASS_LABEL then
    Some (RSVP_SUCCESS,
      if null (info_label info) && fits (sizeof rsvp_label_ipv4)
      then info <| info_label := Some obj_data |> else info)
  else if class_num =? RSVP_CLASS_LABEL_REQUEST then
    Some (RSVP_SUCCESS,
      if null (info_label_req info) && fits (sizeof rsvp_label_request)
      then info <| info_label_req := Some obj_data |> else info)
  else if class_num =? RSVP_CLASS_EXPLICIT_ROUTE then
    Some (RSVP_SUCCESS,
      if null (info_ero info) && (sizeof rsvp_obj_hdr <? obj_len)%nat
      then info <| info_ero := Some obj_data |>
                <| info_ero_len := (obj_len - sizeof rsvp_obj_hdr)%nat |> else info)
  else if class_num =? RSVP_CLASS_RECORD_ROUTE then
    Some (RSVP_SUCCESS,
      if null (info_rro info) && (sizeof rsvp_obj_hdr <? obj_len)%nat
      then info <| info_rro := Some obj_data |>
                <| info_rro_len := (obj_len - sizeof rsvp_obj_hdr)%nat |> else info)
  else if class_num =? RSVP_CLASS_SESSION_ATTRIB then
    if null (info_sess_attr info) && (c_type =? 7) && fits (sizeof rsvp_session_attribute) then
      let data_len := (obj_len - sizeof rsvp_obj_hdr)%nat in
      if (data_len <? sizeof rsvp_session_attribute)%nat then Some (RSVP_SUCCESS, info)
      else
        info' ← parse_session_name m obj_data data_len
                  (info <| info_sess_attr := Some obj_data |>);
        Some (RSVP_SUCCESS, info')
    else Some (RSVP_SUCCESS, info)
  else parse_other_object m class_num c_type obj_len obj_data info.

(** The loop over the payload: [remaining] bytes are left at [obj_ptr].  Each
    round consumes at least an object header, so [remaining] is fuel enough. *)
Fixpoint parse_objects (fuel : nat) (m : list Z) (obj_ptr remaining : nat)
    (info : rsvp_message_info) : option (rsvp_error_t * rsvp_message_info) :=
  match fuel with
  | O => None
  | S fuel =>
      if (remaining <? sizeof rsvp_obj_hdr)%nat then Some (RSVP_SUCCESS, info)
      else
        h ← load_struct rsvp_obj_hdr m obj_ptr;
        let obj_len := Z.to_nat (ntohs (obj_length h)) in
        if (obj_len <? sizeof rsvp_obj_hdr)%nat || (remaining <? obj_len)%nat then
          Some (RSVP_ERR_MALFORMED_OBJ, info)
        else
          let aligned_obj_len := RSVP_ALIGN obj_len in
          r ← parse_object m (obj_class_num h) (obj_c_type h) obj_len
                (obj_ptr + sizeof rsvp_obj_hdr) info;
          let '(rc, info) := r in
          if decide (rc = RSVP_SUCCESS) then
            if (aligned_obj_len =? 0)%nat then Some (RSVP_ERR_MALFORMED_OBJ, info)
            else if (remaining <? aligned_obj_len)%nat then Some (RSVP_SUCCESS, info)
            else parse_objects fuel m (obj_ptr + aligned_obj_len)
                   (remaining - aligned_obj_len) info
          else Some (rc, info)
  end.

(** The objects each message type must carry. *)
Definition validate_mandatory (msg_type : Z) (info : rsvp_message_info) : rsvp_error_t :=
  let no_session := null (info_sess_v4 info) && null (info_sess_v6 info) in
  let no_sender := null (info_sender_v4 info) && null (info_sender_v6 info) in
  let no_hop := null (info_hop_v4 info) && null (info_hop_v6 info) in
  if msg_type =? RSVP_MSG_PATH then
    if no_session then RSVP_ERR_MALFORMED_OBJ
    else if no_sender then RSVP_ERR_MALFORMED_OBJ else RSVP_SUCCESS
  else if msg_type =? RSVP_MSG_RESV then
    if no_session then RSVP_ERR_MALFORMED_OBJ
    else if no_hop then RSVP_ERR_MALFORMED_OBJ
    else if null (info_style info) then RSVP_ERR_MALFORMED_OBJ else RSVP_SUCCESS
  else if msg_type =? RSVP_MSG_PATHERR then
    if no_session then RSVP_ERR_MALFORMED_OBJ
    else if null (info_error_spec info) then RSVP_ERR_MALFORMED_OBJ else RSVP_SUCCESS
  else if msg_type =? RSVP_MSG_RESVERR then
    if no_session then RSVP_ERR_MALFORMED_OBJ
    else if null (info_error_spec info) then RSVP_ERR_MALFORMED_OBJ else RSVP_SUCCESS
  else if msg_type =? RSVP_MSG_PATHTEAR then
    if no_session then RSVP_ERR_MALFORMED_OBJ
    else if no_sender then RSVP_ERR_MALFORMED_OBJ else RSVP_SUCCESS
  else if msg_type =? RSVP_MSG_RESVTEAR then
    if no_session then RSVP_ERR_MALFORMED_OBJ
    else if no_hop then RSVP_ERR_MALFORMED_OBJ else RSVP_SUCCESS
  else RSVP_SUCCESS.

(** [len] is the number of bytes received. *)
Definition rsvp_parse_packet (m : list Z) (len : nat) : option (rsvp_error_t * rsvp_message_info) :=
  let info := zero_info in
  if (len <? sizeof_iphdr)%nat then Some (RSVP_ERR_BUFFER_TOO_SMALL, info)
  else
    b0 ← load 1 m 0;
    let ip_hdr_len := Z.to_nat (Z.land b0 15 * 4) in
    if (ip_hdr_len <? sizeof_iphdr)%nat || (len <? ip_hdr_len)%nat then
      Some (RSVP_ERR_INVALID_PARAM, info)
    else
      saddr ← load 4 m 12;
      daddr ← load 4 m 16;
      let info := info <| info_src_ip := saddr |> <| info_dst_ip := daddr |> in
      if (len <? ip_hdr_len + sizeof rsvp_common_hdr)%nat then
        Some (RSVP_ERR_BUFFER_TOO_SMALL, info)
      else
        hdr ← load_struct rsvp_common_hdr m ip_hdr_len;
        let rsvp_len := Z.to_nat (ntohs (hdr_length hdr)) in
        if (rsvp_len <? sizeof rsvp_common_hdr)%nat then Some (RSVP_ERR_MALFORMED_OBJ, info)
        else if (len <? ip_hdr_len + rsvp_len)%nat then Some (RSVP_ERR_BUFFER_TOO_SMALL, info)
        else
          let payload := (ip_hdr_len + sizeof rsvp_common_hdr)%nat in
          let payload_len := (rsvp_len - sizeof rsvp_common_hdr)%nat in
          let info := info <| info_common_hdr := Some ip_hdr_len |>
                           <| info_payload := payload |>
                           <| info_payload_len := payload_len |> in
          if negb (Z.shiftr (hdr_ver_flags hdr) 4 =? RSVP_VERSION) then
            Some (RSVP_ERR_INVALID_PARAM, info)
          else if negb (hdr_checksum hdr =? 0)
                  && negb (rsvp_checksum_verify (drop ip_hdr_len m) rsvp_len =? 0) then
            Some (RSVP_ERR_CHECKSUM, info)
          else
            r ← parse_objects (S payload_len) m payload payload_len info;
            let '(rc, info) := r in
            if decide (rc = RSVP_SUCCESS) then
              Some (validate_mandatory (hdr_msg_type hdr) info, info)
            else Some (rc, info).

(** ** Memory safety *)

Lemma read_bytes_is_Some m o n : (o + n <= length m)%nat → is_Some (read_bytes m o n).
Proof. intros. unfold read_bytes. rewrite (proj2 (Nat.leb_le _ _)); eauto. Qed.

Lemma read_bytes_length m o n bs : read_bytes m o n = Some bs → length bs = n.
Proof.
  unfold read_bytes. intros H. case_if_in H; inv_opt. bools.
  rewrite length_take, length_drop. lia.
Qed.

(** A pointer is NULL or points at [sz] bytes inside [lo, hi). *)
Definition ptr_ok (lo hi sz : nat) (p : option nat) : Prop :=
  ∀ o, p = Some o → (lo <= o ∧ o + sz <= hi)%nat.

Definition loads {T} `{Wire T} (m : list Z) (p : option nat) (zero t : T) : Prop :=
  match p with Some o => load_struct T m o = Some t | None => t = zero end.

(** What holds of the message information at any point of the parse, for a
    payload at [lo, hi): every pointer is in bounds for the structure it is
    used as, the key is the decoded SESSION and SENDER_TEMPLATE, the name
    buffer keeps its 256 bytes and its terminator. *)
Record info_ok (m : list Z) (lo hi : nat) (i : rsvp_message_info) : Prop := {
  iok_sess : ptr_ok lo hi (sizeof rsvp_session_ipv4) (info_sess_v4 i);
  iok_sess6 : info_sess_v6 i = None;
  iok_hop : ptr_ok lo hi (sizeof rsvp_hop_ipv4) (info_hop_v4 i);
  iok_hop6 : info_hop_v6 i = None;
  iok_sender : ptr_ok lo hi (sizeof rsvp_sender_ipv4) (info_sender_v4 i);
  iok_sender6 : info_sender_v6 i = None;
  iok_time : ptr_ok lo hi (sizeof rsvp_time_values) (info_time_values i);
  iok_error : ptr_ok lo hi (sizeof rsvp_error_spec_ipv4) (info_error_spec i);
  iok_integrity : ptr_ok lo hi (sizeof rsvp_integrity) (info_integrity i);
  iok_tspec : ptr_ok lo hi (sizeof rsvp_sender_tspec) (info_tspec i);
  iok_flowspec : ptr_ok lo hi (sizeof rsvp_sender_tspec) (info_flowspec i);
  iok_adspec : ptr_ok lo hi (sizeof rsvp_adspec) (info_adspec i);
  iok_style : ptr_ok lo hi (sizeof rsvp_style) (info_style i);
  iok_ero : ptr_ok lo hi (info_ero_len i) (info_ero i);
  iok_rro : ptr_ok lo hi (info_rro_len i) (info_rro i);
  iok_label : ptr_ok lo hi (sizeof rsvp_label_ipv4) (info_label i);
  iok_label_req : ptr_ok lo hi (sizeof rsvp_label_request) (info_label_req i);
  iok_attr : ptr_ok lo hi (sizeof rsvp_session_attribute) (info_sess_attr i);
  iok_frr : ptr_ok lo hi (sizeof rsvp_fast_reroute) (info_fast_reroute i);
  iok_detour : ptr_ok lo hi (sizeof rsvp_detour_ipv4) (info_detour i);
  iok_hello : ptr_ok lo hi (sizeof rsvp_hello_obj) (info_hello_obj i);
  iok_key_session : loads m (info_sess_v4 i) zero_session (key_session (info_key i));
  iok_key_sender : loads m (info_sender_v4 i) zero_sender (key_sender (info_key i));
  iok_name : length (info_lsp_name i) = 256%nat;
  iok_name_end : 0 ∈ info_lsp_name i;
  iok_name_bytes : bytes_ok m → bytes_ok (info_lsp_name i);
}.

Lemma ptr_ok_None lo hi sz : ptr_ok lo hi sz None.
Proof. by intros o. Qed.

Lemma ptr_ok_Some lo hi sz o : (lo <= o)%nat → (o + sz <= hi)%nat → ptr_ok lo hi sz (Some o).
Proof. intros ?? ? [= <-]. lia. Qed.
#[export] Hint Resolve ptr_ok_None ptr_ok_Some read_bytes_is_Some : rsvp.

Lemma zero_info_ok m lo hi : info_ok m lo hi zero_info.
Proof.
  split; simpl; auto with rsvp.
  - apply list_elem_of_lookup. by exists 0%nat.
  - intros _. change (bytes_ok (replicate (Z.to_nat 256) 0)). by apply Forall_replicate.
Qed.

Lemma overwrite_bytes_ok b o bs : bytes_ok b → bytes_ok bs → bytes_ok (overwrite b o bs).
Proof.
  intros Hb Hbs. unfold overwrite. apply Forall_app_2; [by apply Forall_take|].
  apply Forall_app_2; [done|]. by apply Forall_drop.
Qed.

(** The terminator written after the copied name. *)
Lemma overwrite_name b name nlen :
  length b = 256%nat → length name = nlen → (nlen <= 255)%nat →
  length (overwrite (overwrite b 0 name) nlen [0]) = 256%nat
  ∧ 0 ∈ overwrite (overwrite b 0 name) nlen [0].
Proof.
  intros Hb Hn Hl.
  assert (length (overwrite b 0 name) = 256%nat) as Hb1 by (rewrite length_overwrite; lia).
  split; [rewrite length_overwrite; simpl; lia|].
  unfold overwrite at 1. set_solver.
Qed.

Lemma parse_session_name_spec m lo hi obj_data data_len i :
  info_ok m lo hi i → (hi <= length m)%nat → (lo <= obj_data)%nat →
  (obj_data + data_len <= hi)%nat → (sizeof rsvp_session_attribute <= data_len)%nat →
  ∃ i', parse_session_name m obj_data data_len i = Some i' ∧ info_ok m lo hi i'.
Proof.
  intros Hok Hm Hlo Hhi Hsz. unfold parse_session_name.
  destruct (load_struct_is_Some (T := rsvp_session_attribute) m obj_data) as [sa ->]; [lia|].
  simpl. case_if; [|eauto]. match goal with |- context [read_bytes m _ ?n] => set (nlen := n) end.
  assert (nlen <= 255 ∧ nlen <= data_len - sizeof rsvp_session_attribute)%nat as [H1 H2]
    by (subst nlen; repeat case_if; bools; lia).
  destruct (read_bytes_is_Some m (obj_data + sizeof rsvp_session_attribute) nlen)
    as [name Hname]; [lia|].
  rewrite Hname. simpl. eexists. split; [done|].
  assert (bytes_ok m → bytes_ok name) as Hb.
  { unfold read_bytes in Hname. case_if_in Hname; [|done]. injection Hname as <-.
    intros. by apply Forall_take, Forall_drop. }
  apply read_bytes_length in Hname.
  destruct (overwrite_name (info_lsp_name i) name nlen); [by destruct Hok|done|done|].
  destruct Hok. split; simpl; try done. intros. apply overwrite_bytes_ok; [|by repeat constructor].
  apply overwrite_bytes_ok; auto.
Qed.

Lemma parse_session_name_hdr m obj_data data_len i i' :
  parse_session_name m obj_data data_len i = Some i' →
  info_common_hdr i' = info_common_hdr i.
Proof.
  unfold parse_session_name. intros H.
  destruct (load_struct _ _ _); simpl in H; [|done]. case_if_in H; [|by inv_opt].
  destruct (read_bytes _ _ _); simpl in H; by inv_opt.
Qed.

(** Rebuilds [info_ok] after an update of a few fields. *)
Ltac solve_info_ok Hok :=
  destruct Hok; split; simpl; try assumption;
  repeat match goal with
  | H : null ?p = true |- _ => destruct p; [discriminate H|clear H]
  end;
  try (apply ptr_ok_Some; lia).

(** One return of the switch. *)
Ltac solve_return Hok :=
  lazymatch goal with |- ∃ _ _, Some _ = _ ∧ _ => idtac end;
  do 2 eexists; split_and!;
  [reflexivity|solve_info_ok Hok|reflexivity|by auto].

(** Every path through the switch reads inside the object and keeps the
    invariant. *)
Lemma parse_object_spec m lo hi class_num c_type obj_len obj_data i :
  info_ok m lo hi i → (hi <= length m)%nat → (lo <= obj_data)%nat →
  (sizeof rsvp_obj_hdr <= obj_len)%nat →
  (obj_data + (obj_len - sizeof rsvp_obj_hdr) <= hi)%nat →
  ∃ rc i', parse_object m class_num c_type obj_len obj_data i = Some (rc, i')
    ∧ info_ok m lo hi i'
    ∧ info_common_hdr i' = info_common_hdr i
    ∧ (rc = RSVP_SUCCESS ∨ rc = RSVP_ERR_UNKNOWN_CLASS).
Proof.
  intros Hok Hm Hlo Hsz Hhi. unfold parse_object, parse_other_object.
  repeat (case_if;
    [repeat case_if; bools; try (solve [solve_return Hok])
    |try match goal with H : _ = false |- _ => clear H end]).
  - destruct (load_struct_is_Some (T := rsvp_session_ipv4) m obj_data) as [s Hs]; [lia|].
    rewrite Hs. simpl. solve_return Hok.
  - destruct (load_struct_is_Some (T := rsvp_sender_ipv4) m obj_data) as [s Hs]; [lia|].
    rewrite Hs. simpl. solve_return Hok.
  - destruct (parse_session_name_spec m lo hi obj_data (obj_len - sizeof rsvp_obj_hdr)
      (i <| info_sess_attr := Some obj_data |>)) as (i' & Hi' & Hok');
      [solve_info_ok Hok|lia..|].
    rewrite Hi'. do 2 eexists. split_and!; [reflexivity|done| |by auto].
    by apply parse_session_name_hdr in Hi'.
  - solve_return Hok.
Qed.

Lemma parse_objects_spec fuel m lo hi obj_ptr remaining i :
  info_ok m lo hi i → (hi <= length m)%nat → (lo <= obj_ptr)%nat →
  (obj_ptr + remaining <= hi)%nat → (remaining < fuel)%nat →
  ∃ rc i', parse_objects fuel m obj_ptr remaining i = Some (rc, i')
    ∧ info_ok m lo hi i' ∧ info_common_hdr i' = info_common_hdr i.
Proof.
  revert obj_ptr remaining i. induction fuel as [|fuel IH];
    intros ptr rem i Hok Hm Hlo Hhi Hf; [lia|].
  cbn [parse_objects]. change (sizeof rsvp_obj_hdr) with 4%nat.
  case_if; bools; [eauto 6|].
  destruct (load_struct_is_Some (T := rsvp_obj_hdr) m ptr) as [h Hh];
    [change (sizeof rsvp_obj_hdr) with 4%nat; lia|].
  rewrite Hh. cbn [mbind option_bind].
  set (obj_len := Z.to_nat (ntohs (obj_length h))).
  case_if; [eauto 6|]. bools.
  destruct (parse_object_spec m lo hi (obj_class_num h) (obj_c_type h) obj_len (ptr + 4) i)
    as (rc & i' & Hpo & Hok' & Hhdr & _);
    [done|done|lia|change (sizeof rsvp_obj_hdr) with 4%nat; lia..|].
  rewrite Hpo. cbn [mbind option_bind].
  pose proof (RSVP_ALIGN_ge obj_len).
  case_decide; [|eauto 6]. repeat (case_if; bools; [by eauto 6|]).
  destruct (IH (ptr + RSVP_ALIGN obj_len)%nat (rem - RSVP_ALIGN obj_len)%nat i')
    as (rc' & i'' & Hr & Hok'' & Hhdr'); [done|done|lia..|].
  exists rc', i''. rewrite Hr, Hhdr'. auto.
Qed.

(** What the parser establishes on every return, error or not. *)
Definition parse_post (m : list Z) (len : nat) (r : rsvp_error_t * rsvp_message_info) : Prop :=
  let '(rc, i) := r in
  (∃ lo hi, (lo <= hi)%nat ∧ (hi <= len)%nat ∧ info_ok m lo hi i)
  ∧ (rc = RSVP_SUCCESS →
       ∃ o hdr, info_common_hdr i = Some o ∧ load_struct rsvp_common_hdr m o = Some hdr
         ∧ (sizeof_iphdr <= o)%nat
         ∧ (o + Z.to_nat (ntohs (hdr_length hdr)) <= len)%nat
         ∧ Z.shiftr (hdr_ver_flags hdr) 4 = RSVP_VERSION
         ∧ (hdr_checksum hdr = 0
            ∨ rsvp_checksum_verify (drop o m) (Z.to_nat (ntohs (hdr_length hdr))) = 0)
         ∧ validate_mandatory (hdr_msg_type hdr) i = RSVP_SUCCESS).

Lemma rsvp_parse_packet_spec m len :
  (len <= length m)%nat → ∃ r, rsvp_parse_packet m len = Some r ∧ parse_post m len r.
Proof.
  intros Hlen. unfold rsvp_parse_packet.
  assert (∀ rc i, rc ≠ RSVP_SUCCESS → info_ok m len len i → parse_post m len (rc, i)) as Herr
    by (intros rc i Hne Hok; split; [exists len, len; auto|done]).
  pose proof (zero_info_ok m len len) as Hz.
  unfold sizeof_iphdr. case_if; bools; [eexists; split; [done|]; by apply Herr|].
  destruct (load_is_Some 1 m 0) as [b0 ->]; [lia|]. cbn [mbind option_bind].
  set (ihl := Z.to_nat (Z.land b0 15 * 4)).
  case_if; [eexists; split; [done|]; by apply Herr|]. bools.
  destruct (load_is_Some 4 m 12) as [saddr ->]; [lia|].
  destruct (load_is_Some 4 m 16) as [daddr ->]; [lia|]. cbn [mbind option_bind].
  set (i1 := zero_info <| info_src_ip := saddr |> <| info_dst_ip := daddr |>).
  assert (∀ lo hi, info_ok m lo hi i1) as Hi1
    by (intros lo hi; destruct (zero_info_ok m lo hi); by split).
  change (sizeof rsvp_common_hdr) with 8%nat.
  case_if; bools; [eexists; split; [done|]; by apply Herr|].
  destruct (load_struct_is_Some (T := rsvp_common_hdr) m ihl) as [h Hh];
    [change (sizeof rsvp_common_hdr) with 8%nat; lia|].
  rewrite Hh. cbn [mbind option_bind].
  set (rlen := Z.to_nat (ntohs (hdr_length h))).
  case_if; bools; [eexists; split; [done|]; by apply Herr|].
  case_if; bools; [eexists; split; [done|]; by apply Herr|].
  set (i2 := i1 <| info_common_hdr := _ |> <| info_payload := _ |> <| info_payload_len := _ |>).
  assert (∀ lo hi, info_ok m lo hi i2) as Hi2
    by (intros lo hi; destruct (Hi1 lo hi); by split).
  case_if; [eexists; split; [done|]; by apply Herr|].
  case_if; [eexists; split; [done|]; by apply Herr|].
  destruct (parse_objects_spec (S (rlen - 8)) m (ihl + 8) (ihl + rlen) (ihl + 8) (rlen - 8) i2)
    as (rc & i' & Hr & Hok & Hhdr); [done|lia..|].
  rewrite Hr. cbn [mbind option_bind].
  assert (∃ lo hi, (lo <= hi)%nat ∧ (hi <= len)%nat ∧ info_ok m lo hi i') as Hin
    by (exists (ihl + 8)%nat, (ihl + rlen)%nat; split_and!; [lia|lia|done]).
  case_decide; eexists; (split; [done|]); split; try done.
  intros Hv. exists ihl, h. split_and!; try done.
  - by bools.
  - apply andb_false_iff in E4 as [E4|E4]; bools; auto.
Qed.

(** The objects a message of each type must carry. *)
Definition mandatory_objects (msg_type : Z) : list (rsvp_message_info → option nat) :=
  if msg_type =? RSVP_MSG_PATH then [info_sess_v4; info_sender_v4]
  else if msg_type =? RSVP_MSG_RESV then [info_sess_v4; info_hop_v4; info_style]
  else if msg_type =? RSVP_MSG_PATHERR then [info_sess_v4; info_error_spec]
  else if msg_type =? RSVP_MSG_RESVERR then [info_sess_v4; info_error_spec]
  else if msg_type =? RSVP_MSG_PATHTEAR then [info_sess_v4; info_sender_v4]
  else if msg_type =? RSVP_MSG_RESVTEAR then [info_sess_v4; info_hop_v4]
  else [].

Definition mandatory_present (msg_type : Z) (i : rsvp_message_info) : Prop :=
  Forall (λ p, is_Some (p i)) (mandatory_objects msg_type).

Lemma validate_mandatory_forallb msg_type m lo hi i :
  info_ok m lo hi i →
  validate_mandatory msg_type i
  = if forallb (λ p, negb (null (p i))) (mandatory_objects msg_type)
    then RSVP_SUCCESS else RSVP_ERR_MALFORMED_OBJ.
Proof.
  intros [_ H1 _ H2 _ H3]. unfold validate_mandatory, mandatory_objects.
  rewrite H1, H2, H3. cbn [null]. rewrite !andb_true_r.
  repeat (case_if; [cbn [forallb];
    destruct (info_sess_v4 i), (info_sender_v4 i), (info_hop_v4 i), (info_style i),
      (info_error_spec i); reflexivity|]).
  done.
Qed.

Lemma validate_mandatory_iff msg_type m lo hi i :
  info_ok m lo hi i →
  (validate_mandatory msg_type i = RSVP_SUCCESS ↔ mandatory_present msg_type i).
Proof.
  intros Hok. erewrite validate_mandatory_forallb by done.
  assert (forallb (λ p, negb (null (p i))) (mandatory_objects msg_type) = true
          ↔ mandatory_present msg_type i) as <-; [|by case_if].
  unfold mandatory_present. rewrite forallb_forall, Forall_forall.
  split; intros H p Hp.
  - specialize (H p (proj1 (list_elem_of_In _ _) Hp)). destruct (p i); [eauto|done].
  - apply list_elem_of_In in Hp. destruct (H p Hp) as [o ->]. done.
Qed.

(** ** Properties *)

(** C17: the parser is memory safe and terminates on every input: whatever the
    bytes received, no read leaves the [len] bytes of the packet, the loop
    stops, and on return (success or error) every pointer of the message
    information points inside the packet at enough bytes for the structure it
    is used as, the key is exactly the decoded SESSION and SENDER_TEMPLATE, and
    the name buffer is 256 bytes with a terminator. *)
Theorem rsvp_parse_packet_safe m len :
  (len <= length m)%nat →
  ∃ rc i, rsvp_parse_packet m len = Some (rc, i)
    ∧ ∃ lo hi, (lo <= hi)%nat ∧ (hi <= len)%nat ∧ info_ok m lo hi i.
Proof.
  intros Hlen. destruct (rsvp_parse_packet_spec m len Hlen) as ([rc i] & Hr & Hb & _).
  eauto.
Qed.

(** C18: a packet is accepted only if its RSVP header lies inside it with
    version 1, its checksum is zero (not computed) or verifies over exactly the
    announced length, and every object its message type requires is present. *)
Theorem rsvp_parse_packet_accepts m len i :
  (len <= length m)%nat → rsvp_parse_packet m len = Some (RSVP_SUCCESS, i) →
  ∃ o hdr, info_common_hdr i = Some o ∧ load_struct rsvp_common_hdr m o = Some hdr
    ∧ (o + Z.to_nat (ntohs (hdr_length hdr)) <= len)%nat
    ∧ Z.shiftr (hdr_ver_flags hdr) 4 = RSVP_VERSION
    ∧ (hdr_checksum hdr = 0
       ∨ rsvp_checksum_verify (drop o m) (Z.to_nat (ntohs (hdr_length hdr))) = 0)
    ∧ mandatory_present (hdr_msg_type hdr) i.
Proof.
  intros Hlen Hp. destruct (rsvp_parse_packet_spec m len Hlen) as (r & Hr & Hpost).
  rewrite Hp in Hr. injection Hr as <-. destruct Hpost as [(lo & hi & _ & _ & Hok) Hs].
  destruct (Hs eq_refl) as (o & hdr & H1 & H2 & _ & H3 & H4 & H5 & H6).
  exists o, hdr. split_and!; try done. by eapply validate_mandatory_iff.
Qed.

(** ** Witnesses *)

(** A Hello message without objects and without checksum, from 0.0.0.0. *)
Definition bare_hello : list Z :=
  (69 :: replicate 19 0) ++ [16; RSVP_MSG_HELLO; 0; 0; 255; 0; 0; 8].

Lemma rsvp_parse_packet_safe_witness :
  ∃ rc i, rsvp_parse_packet bare_hello 28 = Some (rc, i)
    ∧ ∃ lo hi, (lo <= hi)%nat ∧ (hi <= 28)%nat ∧ info_ok bare_hello lo hi i.
Proof. apply (rsvp_parse_packet_safe bare_hello 28). simpl. lia. Defined.

Lemma rsvp_parse_packet_accepts_witness :
  ∃ i, rsvp_parse_packet bare_hello 28 = Some (RSVP_SUCCESS, i)
    ∧ ∃ o hdr, info_common_hdr i = Some o ∧ load_struct rsvp_common_hdr bare_hello o = Some hdr
      ∧ mandatory_present (hdr_msg_type hdr) i.
Proof.
  destruct (rsvp_parse_packet bare_hello 28) as [[rc i]|] eqn:E; [|vm_compute in E; discriminate].
  assert (rc = RSVP_SUCCESS) as -> by (vm_compute in E; congruence).
  exists i. split; [done|].
  destruct (rsvp_parse_packet_accepts bare_hello 28 i) as (o & hdr & H1 & H2 & _ & _ & _ & H6);
    [simpl; lia|exact E|].
  exists o, hdr. split; [exact H1|split; [exact H2|exact H6]].
Defined.
