(* ===== verification/RoundTrip.v ===== *)
(** * What the parser makes of a built message

    The object loop of the parser on a list of encoded objects visits exactly
    those objects, in order ([fold_objects]); each pointer of the message
    information then is the first object the parser accepts for it
    ([first_accepted]).  Together with the IP encapsulation of
    src/pi/rsvp_dispatcher.c ([rsvp_send_packet]) this gives round trips from
    builder to parser. *)

From stdpp Require Import base numbers list option sets.
From S2P Require Import Prelude Wire Protocol Builder Checksum SendPacket Parser.

(** ** Objects *)

Record wobj := mk_wobj { wo_class : Z; wo_ctype : Z; wo_data : list Z }.

Definition wobj_len (o : wobj) : nat := sizeof rsvp_obj_hdr + length (wo_data o).
Definition wobj_ok (o : wobj) : Prop :=
  is_byte (wo_class o) ∧ is_byte (wo_ctype o) ∧ bytes_ok (wo_data o)
  ∧ Z.of_nat (wobj_len o) < 65536.

#[export] Instance wobj_ok_dec o : Decision (wobj_ok o).
Proof. unfold wobj_ok, bytes_ok, is_byte. apply _. Defined.

Definition encode_wobj (o : wobj) : list Z := encode_obj (wo_class o) (wo_ctype o) (wo_data o).
Definition encode_objs (os : list wobj) : list Z := mjoin (encode_wobj <$> os).

Lemma length_encode_wobj o : length (encode_wobj o) = RSVP_ALIGN (wobj_len o).
Proof. apply length_encode_obj. Qed.

Lemma encode_objs_cons o os : encode_objs (o :: os) = encode_wobj o ++ encode_objs os.
Proof. done. Qed.

Lemma encode_objs_bytes os : Forall wobj_ok os → bytes_ok (encode_objs os).
Proof.
  induction 1 as [|o os (_ & _ & Hd & _) _ IH]; [constructor|].
  apply Forall_app; split; [by apply encode_obj_bytes|exact IH].
Qed.

(** The builder after adding a list of objects that fits. *)
Fixpoint add_objs (b : rsvp_builder) (os : list wobj) : Z * rsvp_builder :=
  match os with
  | [] => (0, b)
  | o :: os =>
      let '(rc, b) := rsvp_builder_add_obj b (wo_class o) (wo_ctype o) (wo_data o) in
      if rc =? 0 then add_objs b os else (rc, b)
  end.

Lemma add_objs_ok b os :
  builder_wf b → Forall wobj_ok os →
  (b_offset b + length (encode_objs os) <= b_size b)%nat →
  ∃ b', add_objs b os = (0, b') ∧ builder_wf b' ∧ b_size b' = b_size b
    ∧ written b' = written b ++ encode_objs os.
Proof.
  intros Hwf Hos. revert b Hwf. induction Hos as [|o os (Hc & Ht & Hd & Hl) Hos IH];
    intros b Hwf Hfit.
  - exists b. unfold encode_objs. simpl. by rewrite app_nil_r.
  - rewrite encode_objs_cons, length_app, length_encode_wobj in Hfit.
    unfold wobj_len in Hfit.
    destruct (rsvp_builder_add_obj_ok b (wo_class o) (wo_ctype o) (wo_data o))
      as (b1 & E1 & W1 & S1 & M1); [done..|lia|].
    pose proof (length_written b1 W1) as L1.
    rewrite M1, length_app, length_encode_obj, (length_written b Hwf) in L1.
    destruct (IH b1 W1) as (b2 & E2 & W2 & S2 & M2); [lia|].
    exists b2. simpl. rewrite E1. simpl. rewrite E2. split_and!; try done; [congruence|].
    by rewrite M2, M1, encode_objs_cons, <- app_assoc.
Qed.

(** ** The object loop on encoded objects *)

Fixpoint fold_objects (m : list Z) (off : nat) (os : list wobj) (i : rsvp_message_info)
    : option (rsvp_error_t * rsvp_message_info) :=
  match os with
  | [] => Some (RSVP_SUCCESS, i)
  | o :: os =>
      r ← parse_object m (wo_class o) (wo_ctype o) (wobj_len o) (off + sizeof rsvp_obj_hdr) i;
      let '(rc, i) := r in
      if decide (rc = RSVP_SUCCESS) then fold_objects m (off + RSVP_ALIGN (wobj_len o)) os i
      else Some (rc, i)
  end.

Lemma obj_hdr_ok c t n :
  is_byte c → is_byte t → struct_ok (mk_rsvp_obj_hdr (htons n) c t).
Proof.
  unfold is_byte, struct_ok, fields_ok. intros. simpl.
  pose proof (htons_bound n). repeat constructor; simpl; lia.
Qed.

Lemma parse_objects_encode fuel pre os post i :
  Forall wobj_ok os → (length (encode_objs os) < fuel)%nat →
  parse_objects fuel (pre ++ encode_objs os ++ post) (length pre) (length (encode_objs os)) i
  = fold_objects (pre ++ encode_objs os ++ post) (length pre) os i.
Proof.
  intros Hos. revert fuel pre i. induction Hos as [|o os (Hc & Ht & Hd & Hl) Hos IH];
    intros fuel pre i Hf; (destruct fuel as [|fuel]; [lia|]).
  - cbn. done.
  - rewrite encode_objs_cons, length_app, length_encode_wobj in *.
    pose proof (RSVP_ALIGN_ge (wobj_len o)) as Hge.
    assert (4 <= wobj_len o)%nat as H4 by (unfold wobj_len; change (sizeof rsvp_obj_hdr) with 4%nat; lia).
    cbn [parse_objects fold_objects]. change (sizeof rsvp_obj_hdr) with 4%nat.
    rewrite (proj2 (Nat.ltb_ge _ 4)) by lia.
    set (m := pre ++ (encode_wobj o ++ encode_objs os) ++ post).
    assert (load_struct rsvp_obj_hdr m (length pre)
            = Some (mk_rsvp_obj_hdr (htons (Z.of_nat (wobj_len o))) (wo_class o) (wo_ctype o)))
      as Hh.
    { subst m. unfold encode_wobj, encode_obj. fold (wobj_len o). rewrite <- !app_assoc.
      apply load_store_struct. by apply obj_hdr_ok. }
    rewrite Hh. cbn [mbind option_bind obj_length obj_class_num obj_c_type].
    rewrite htons_ntohs, Nat2Z.id by lia.
    rewrite (proj2 (Nat.ltb_ge _ 4)), (proj2 (Nat.ltb_ge _ (wobj_len o))) by lia. cbn [orb].
    destruct (parse_object m _ _ _ _ _) as [[rc i']|]; [|done]. cbn [mbind option_bind].
    case_decide; [|done].
    rewrite (proj2 (Nat.eqb_neq _ 0)), (proj2 (Nat.ltb_ge _ (RSVP_ALIGN _))) by lia.
    replace (RSVP_ALIGN (wobj_len o) + length (encode_objs os) - RSVP_ALIGN (wobj_len o))%nat
      with (length (encode_objs os)) by lia.
    assert (m = (pre ++ encode_wobj o) ++ encode_objs os ++ post) as ->
      by (subst m; by rewrite <- !app_assoc).
    replace (length pre + RSVP_ALIGN (wobj_len o))%nat with (length (pre ++ encode_wobj o))
      by (rewrite length_app, length_encode_wobj; lia).
    apply IH. lia.
Qed.

(** ** Which object each pointer of the message information gets *)

(** A pointer of [rsvp_message_info] with the objects (class, C-type, length)
    the parser accepts for it. *)
Record slot := mk_slot {
  slot_ptr : rsvp_message_info → option nat;
  slot_accepts : Z → Z → nat → bool;
}.

Definition of_class (cs : list Z) (ts : option (list Z)) (sz : nat) (c t : Z) (n : nat) : bool :=
  bool_decide (c ∈ cs) && match ts with None => true | Some ts => bool_decide (t ∈ ts) end
  && (sizeof rsvp_obj_hdr + sz <=? n)%nat.

Definition parser_slots : list slot := [
  mk_slot info_integrity (of_class [RSVP_CLASS_INTEGRITY] None (sizeof rsvp_integrity));
  mk_slot info_sess_v4 (of_class [RSVP_CLASS_SESSION] (Some [7]) (sizeof rsvp_session_ipv4));
  mk_slot info_hop_v4 (of_class [RSVP_CLASS_HOP] (Some [1]) (sizeof rsvp_hop_ipv4));
  mk_slot info_time_values (of_class [RSVP_CLASS_TIME_VALUES] None (sizeof rsvp_time_values));
  mk_slot info_style (of_class [RSVP_CLASS_STYLE] None (sizeof rsvp_style));
  mk_slot info_flowspec (of_class [RSVP_CLASS_FLOWSPEC] None (sizeof rsvp_sender_tspec));
  mk_slot info_error_spec (of_class [RSVP_CLASS_ERROR_SPEC] None (sizeof rsvp_error_spec_ipv4));
  mk_slot info_sender_v4
    (of_class [RSVP_CLASS_SENDER_TEMPLATE; RSVP_CLASS_FILTER_SPEC] (Some [1; 7])
       (sizeof rsvp_sender_ipv4));
  mk_slot info_tspec (of_class [RSVP_CLASS_SENDER_TSPEC] None (sizeof rsvp_sender_tspec));
  mk_slot info_adspec (of_class [RSVP_CLASS_ADSPEC] None (sizeof rsvp_adspec));
  mk_slot info_label (of_class [RSVP_CLASS_LABEL] None (sizeof rsvp_label_ipv4));
  mk_slot info_label_req (of_class [RSVP_CLASS_LABEL_REQUEST] None (sizeof rsvp_label_request));
  mk_slot info_ero (of_class [RSVP_CLASS_EXPLICIT_ROUTE] None 1);
  mk_slot info_rro (of_class [RSVP_CLASS_RECORD_ROUTE] None 1);
  mk_slot info_sess_attr
    (of_class [RSVP_CLASS_SESSION_ATTRIB] (Some [7]) (sizeof rsvp_session_attribute));
  mk_slot info_fast_reroute (of_class [RSVP_CLASS_FAST_REROUTE] (Some [1]) (sizeof rsvp_fast_reroute));
  mk_slot info_detour (of_class [RSVP_CLASS_DETOUR] (Some [7]) (sizeof rsvp_detour_ipv4));
  mk_slot info_hello_obj
    (of_class [RSVP_CLASS_HELLO] (Some [RSVP_HELLO_CTYPE_REQUEST; RSVP_HELLO_CTYPE_ACK])
       (sizeof rsvp_hello_obj)) ].

Definition slot_step (c t : Z) (n d : nat) (i i' : rsvp_message_info) (s : slot) : Prop :=
  slot_ptr s i' = if null (slot_ptr s i) && slot_accepts s c t n then Some d else slot_ptr s i.

(** A slot that does not accept the class keeps its pointer. *)
Lemma slot_step_skip c t n d i i' s :
  slot_accepts s c t n = false → slot_ptr s i' = slot_ptr s i → slot_step c t n d i i' s.
Proof. unfold slot_step. intros -> ->. by rewrite andb_false_r. Qed.

Lemma of_class_ne cs ts sz c t n : c ∉ cs → of_class cs ts sz c t n = false.
Proof. intros. unfold of_class. by rewrite bool_decide_eq_false_2. Qed.

Lemma parse_session_name_slots m d n i i' :
  parse_session_name m d n i = Some i' →
  Forall (λ s, slot_ptr s i' = slot_ptr s i) parser_slots.
Proof.
  unfold parse_session_name. intros (sa & _ & H)%bind_Some.
  case_if_in H; [apply bind_Some in H as (name & _ & H)|]; injection H as <-;
    repeat constructor.
Qed.

Lemma of_class_None cs sz c t n :
  c ∈ cs → of_class cs None sz c t n = (sizeof rsvp_obj_hdr + sz <=? n)%nat.
Proof. intros. unfold of_class. by rewrite bool_decide_eq_true_2. Qed.

Lemma of_class_Some1 cs a sz c t n :
  c ∈ cs → of_class cs (Some [a]) sz c t n = (t =? a) && (sizeof rsvp_obj_hdr + sz <=? n)%nat.
Proof.
  intros. unfold of_class. rewrite bool_decide_eq_true_2 by done. cbn [andb]. f_equal.
  apply eq_true_iff_eq. rewrite bool_decide_eq_true, Z.eqb_eq. by rewrite list_elem_of_singleton.
Qed.

Lemma of_class_Some2 cs a b sz c t n :
  c ∈ cs → of_class cs (Some [a; b]) sz c t n
           = ((t =? a) || (t =? b)) && (sizeof rsvp_obj_hdr + sz <=? n)%nat.
Proof.
  intros. unfold of_class. rewrite bool_decide_eq_true_2 by done. cbn [andb]. f_equal.
  apply eq_true_iff_eq. rewrite bool_decide_eq_true, orb_true_iff, !Z.eqb_eq.
  rewrite elem_of_cons, list_elem_of_singleton. done.
Qed.

(** Every slot but the one of the object's class is left alone; the remaining
    goals are the slots of the class. *)
Ltac other_slots :=
  repeat (apply Forall_cons_2; [|]); try apply Forall_nil_2;
  try (apply slot_step_skip; [apply of_class_ne; by apply (bool_decide_eq_true_1 _)|reflexivity]).

Ltac this_slot :=
  unfold slot_step; cbn [slot_ptr slot_accepts];
  first [rewrite of_class_None by (rewrite ?elem_of_cons; auto)
        |rewrite of_class_Some1 by (rewrite ?elem_of_cons; auto)
        |rewrite of_class_Some2 by (rewrite ?elem_of_cons; auto)];
  rewrite ?andb_assoc;
  match goal with E : ?b = ?v |- _ = (if ?b' then _ else _) => change b' with b; rewrite E end;
  reflexivity.

(** An object of the class that the next test of the parser looks for. *)
Ltac object_slots H :=
  lazymatch type of H with
  | Some _ = Some _ => injection H as _ <-; case_if
  | (if _ then _ else _) = _ =>
      case_if_in H; [apply bind_Some in H as (? & _ & H)|]; injection H as _ <-
  end;
  other_slots; this_slot.

Definition known_classes : list Z := [
  RSVP_CLASS_INTEGRITY; RSVP_CLASS_SESSION; RSVP_CLASS_HOP; RSVP_CLASS_TIME_VALUES;
  RSVP_CLASS_STYLE; RSVP_CLASS_FLOWSPEC; RSVP_CLASS_ERROR_SPEC; RSVP_CLASS_SENDER_TEMPLATE;
  RSVP_CLASS_FILTER_SPEC; RSVP_CLASS_SENDER_TSPEC; RSVP_CLASS_ADSPEC; RSVP_CLASS_LABEL;
  RSVP_CLASS_LABEL_REQUEST; RSVP_CLASS_EXPLICIT_ROUTE; RSVP_CLASS_RECORD_ROUTE;
  RSVP_CLASS_SESSION_ATTRIB; RSVP_CLASS_FAST_REROUTE; RSVP_CLASS_DETOUR; RSVP_CLASS_HELLO ].

Lemma parse_object_other m c t n d i :
  c ∉ known_classes →
  parse_object m c t n d i
  = Some (if c <? 128 then RSVP_ERR_UNKNOWN_CLASS else RSVP_SUCCESS, i).
Proof.
  intros Hc. unfold parse_object, parse_other_object, known_classes in *.
  rewrite !not_elem_of_cons in Hc.
  repeat match goal with H : _ ∧ _ |- _ => destruct H as [?%Z.eqb_neq H] end.
  repeat match goal with H : (c =? _) = false |- _ => rewrite H; clear H end.
  cbn [orb]. by case_if.
Qed.

Lemma other_class_slots c t n d i :
  c ∉ known_classes → Forall (slot_step c t n d i i) parser_slots.
Proof.
  intros Hc.
  assert (∀ cs ts sz, forallb (λ x, bool_decide (x ∈ known_classes)) cs = true →
    of_class cs ts sz c t n = false) as Hcs.
  { intros cs ts sz Hcs. apply of_class_ne. intros Hin. apply Hc.
    rewrite forallb_forall in Hcs. apply list_elem_of_In, Hcs, bool_decide_eq_true in Hin.
    done. }
  repeat (apply Forall_cons_2; [apply slot_step_skip; [by apply Hcs|done]|]). constructor.
Qed.

Lemma slot_step_same c t n d i i1 i2 :
  Forall (slot_step c t n d i i1) parser_slots →
  Forall (λ s, slot_ptr s i2 = slot_ptr s i1) parser_slots →
  Forall (slot_step c t n d i i2) parser_slots.
Proof.
  intros H1 H2. eapply Forall_impl; [exact (proj2 (Forall_and _ _) (conj H1 H2))|].
  intros s [Hs E]. unfold slot_step in *. by rewrite E.
Qed.

Lemma parse_object_slots m c t n d i rc i' :
  parse_object m c t n d i = Some (rc, i') →
  Forall (slot_step c t n d i i') parser_slots.
Proof.
  intros H. destruct (decide (c ∈ known_classes)) as [Hc|Hc].
  2:{ rewrite parse_object_other in H by done. injection H as _ <-. by apply other_class_slots. }
  unfold parse_object, parse_other_object in H.
  do 7 (case_if_in H; [bools; subst c; solve [object_slots H]
                      |match goal with E : _ = false |- _ => apply Z.eqb_neq in E end]).
  case_if_in H.
  { apply orb_true_iff in E6 as [E6|E6]; bools; subst c; object_slots H. }
  apply orb_false_elim in E6 as [E6%Z.eqb_neq E7%Z.eqb_neq].
  do 6 (case_if_in H; [bools; subst c; solve [object_slots H]
                      |match goal with E : _ = false |- _ => apply Z.eqb_neq in E end]).
  case_if_in H.
  { bools. subst c. case_if_in H.
    - case_if_in H; [exfalso; change (sizeof rsvp_obj_hdr) with 4%nat in *; clear -E15 E14; blia|].
      apply bind_Some in H as (i1 & H & Hi). injection Hi as _ <-. clear E15.
      eapply slot_step_same; [|eapply parse_session_name_slots; exact H].
      other_slots; this_slot.
    - injection H as _ <-. other_slots; this_slot. }
  match goal with E : _ = false |- _ => apply Z.eqb_neq in E end.
  do 3 (case_if_in H; [bools; subst c; solve [object_slots H]
                      |match goal with E : _ = false |- _ => apply Z.eqb_neq in E end]).
  exfalso. unfold known_classes in Hc. rewrite !elem_of_cons, elem_of_nil in Hc. tauto.
Qed.

(** An object of a known class never ends the parse. *)
Lemma parse_object_known m lo hi c t n d i :
  info_ok m lo hi i → (hi <= length m)%nat → (lo <= d)%nat → (sizeof rsvp_obj_hdr <= n)%nat →
  (d + (n - sizeof rsvp_obj_hdr) <= hi)%nat → c ∈ known_classes →
  ∃ i', parse_object m c t n d i = Some (RSVP_SUCCESS, i') ∧ info_ok m lo hi i'
    ∧ info_common_hdr i' = info_common_hdr i ∧ Forall (slot_step c t n d i i') parser_slots.
Proof.
  intros Hok Hm Hlo Hn Hhi Hc.
  destruct (parse_object_spec m lo hi c t n d i) as (rc & i' & E & Hok' & Hch & Hrc); [done..|].
  assert (rc = RSVP_SUCCESS) as ->.
  { destruct Hrc as [|Hrc]; [done|]. subst rc. exfalso. revert E Hc. clear. unfold parse_object, parse_other_object.
    intros E Hc. unfold known_classes in Hc. rewrite !elem_of_cons, elem_of_nil in Hc.
    repeat (case_if_in E;
      [repeat case_if_in E; repeat (apply bind_Some in E as (? & _ & E)); congruence|]).
    bools. tauto. }
  exists i'. split; [done|]. split; [done|]. split; [done|]. by eapply parse_object_slots.
Qed.

(** The first object of a list that a slot accepts, with the offset of its
    data. *)
Fixpoint first_accepted (off : nat) (os : list wobj) (s : slot) : option (nat * wobj) :=
  match os with
  | [] => None
  | o :: os =>
      if slot_accepts s (wo_class o) (wo_ctype o) (wobj_len o)
      then Some ((off + sizeof rsvp_obj_hdr)%nat, o)
      else first_accepted (off + RSVP_ALIGN (wobj_len o)) os s
  end.

(** The object loop fills every empty slot with the first object it accepts. *)
Lemma fold_objects_first m lo hi off os i :
  info_ok m lo hi i → (hi <= length m)%nat → (lo <= off)%nat →
  (off + length (encode_objs os) <= hi)%nat →
  Forall (λ o, wo_class o ∈ known_classes) os →
  ∃ i', fold_objects m off os i = Some (RSVP_SUCCESS, i') ∧ info_ok m lo hi i'
    ∧ info_common_hdr i' = info_common_hdr i
    ∧ Forall (λ s, slot_ptr s i'
                   = match slot_ptr s i with Some p => Some p | None => fst <$> first_accepted off os s end)
        parser_slots.
Proof.
  intros Hok Hm Hlo Hhi Hk. revert off i Hok Hlo Hhi.
  induction Hk as [|o os Hc Hk IH]; intros off i Hok Hlo Hhi.
  - exists i. split; [done|]. split; [done|]. split; [done|]. apply Forall_forall. intros s _. simpl.
    by destruct (slot_ptr s i).
  - rewrite encode_objs_cons, length_app, length_encode_wobj in Hhi.
    pose proof (RSVP_ALIGN_ge (wobj_len o)) as Hge.
    assert (sizeof rsvp_obj_hdr <= wobj_len o)%nat as Hn by (unfold wobj_len; lia).
    destruct (parse_object_known m lo hi (wo_class o) (wo_ctype o) (wobj_len o)
      (off + sizeof rsvp_obj_hdr) i) as (i1 & E1 & Hok1 & Hc1 & Hs1); [done|done|lia|done|lia|done|].
    destruct (IH (off + RSVP_ALIGN (wobj_len o))%nat i1) as (i2 & E2 & Hok2 & Hc2 & Hs2);
      [done|lia|lia|].
    exists i2. cbn [fold_objects]. rewrite E1. cbn [mbind option_bind].
    rewrite decide_True by done. split; [done|]. split; [done|]. split; [congruence|].
    eapply Forall_impl; [exact (proj2 (Forall_and _ _) (conj Hs1 Hs2))|].
    intros s [H1 H2]. rewrite H2. unfold slot_step in H1. rewrite H1. simpl.
    destruct (slot_ptr s i); simpl; [done|]. by case_if.
Qed.

(** ** A whole packet *)

(** The message information after the headers of a packet. *)
Definition header_info (src dst : Z) (o n : nat) : rsvp_message_info :=
  zero_info <| info_src_ip := src |> <| info_dst_ip := dst |>
            <| info_common_hdr := Some o |> <| info_payload := (o + 8)%nat |>
            <| info_payload_len := n |>.

Lemma ip_packet_fields src dst ttl msg rao :
  0 ≤ src < 2 ^ 32 → 0 ≤ dst < 2 ^ 32 →
  ∃ pre, ip_packet src dst ttl msg rao = pre ++ msg
    ∧ length pre = (20 + length (rao_option rao))%nat
    ∧ (∃ b0, load 1 (pre ++ msg) 0 = Some b0
         ∧ Z.land b0 15 * 4 = Z.of_nat (20 + length (rao_option rao)))
    ∧ load 4 (pre ++ msg) 12 = Some src ∧ load 4 (pre ++ msg) 16 = Some dst.
Proof.
  intros Hs Hd. unfold ip_packet. set (optlen := length (rao_option rao)).
  set (ihl := Z.of_nat (5 + optlen / 4)). set (total := Z.of_nat (20 + optlen + length msg)).
  set (ck := rsvp_checksum _ _).
  exists (ip_header ihl total ttl ck src dst ++ rao_option rao).
  rewrite app_assoc. split; [done|]. split; [by rewrite length_app, length_ip_header|].
  rewrite <- app_assoc. set (rest := rao_option rao ++ msg). unfold ip_header.
  set (h1 := le_bytes 1 (Z.lor (Z.shiftl 4 4) ihl)).
  set (h12 := h1 ++ le_bytes 1 0 ++ le_bytes 2 (htons total) ++ le_bytes 2 (htons 54321)
              ++ le_bytes 2 0 ++ le_bytes 1 ttl ++ le_bytes 1 RSVP_PROTOCOL ++ le_bytes 2 ck).
  assert ((h1 ++ le_bytes 1 0 ++ le_bytes 2 (htons total) ++ le_bytes 2 (htons 54321)
           ++ le_bytes 2 0 ++ le_bytes 1 ttl ++ le_bytes 1 RSVP_PROTOCOL ++ le_bytes 2 ck
           ++ le_bytes 4 src ++ le_bytes 4 dst) ++ rest
          = h12 ++ le_bytes 4 src ++ le_bytes 4 dst ++ rest) as ->
    by (subst h12; by rewrite <- !app_assoc).
  assert (length h12 = 12%nat) as H12 by reflexivity.
  split; [|split].
  - exists (Z.lor (Z.shiftl 4 4) ihl). split.
    + subst h12 h1. rewrite <- !app_assoc.
      apply (load_le_bytes 1 (Z.lor (Z.shiftl 4 4) ihl) []).
      subst ihl optlen. destruct rao; vm_compute; split; [intros [=]|done|intros [=]|done].
    + subst ihl optlen. by destruct rao.
  - rewrite <- H12. apply load_le_bytes. exact Hs.
  - replace 16%nat with (length (h12 ++ le_bytes 4 src)) by (by rewrite length_app, H12).
    rewrite app_assoc. apply load_le_bytes. exact Hd.
Qed.

(** The common header of a message after some bytes. *)
Lemma message_header pre ty ttl rsv os :
  is_byte ty → is_byte ttl → is_byte rsv →
  ∃ ck, load_struct rsvp_common_hdr (pre ++ encode_message 16 ty ttl rsv (encode_objs os)) (length pre)
        = Some (mk_rsvp_common_hdr 16 ty ck ttl rsv (htons (Z.of_nat (8 + length (encode_objs os)))))
    ∧ encode_message 16 ty ttl rsv (encode_objs os)
      = store_struct (mk_rsvp_common_hdr 16 ty ck ttl rsv (htons (Z.of_nat (8 + length (encode_objs os)))))
        ++ encode_objs os.
Proof.
  intros Hty Httl Hrsv. set (objs := encode_objs os).
  set (ck := rsvp_checksum (store_struct (mk_rsvp_common_hdr 16 ty 0 ttl rsv
    (htons (Z.of_nat (8 + length objs)))) ++ objs) (8 + length objs)).
  set (hdr := mk_rsvp_common_hdr 16 ty ck ttl rsv (htons (Z.of_nat (8 + length objs)))).
  exists ck. split; [|done].
  assert (struct_ok hdr) as Hhdr.
  { unfold is_byte, struct_ok, fields_ok in *. pose proof (htons_bound (Z.of_nat (8 + length objs))).
    assert (0 ≤ ck < 65536) by apply htons_bound.
    subst hdr. clearbody ck. revert H.
    generalize (htons (Z.of_nat (8 + length objs))). intros x Hx. simpl.
    repeat (apply Forall2_cons_2; [simpl; lia|]). constructor. }
  unfold encode_message. change (sizeof rsvp_common_hdr) with 8%nat. by apply load_store_struct.
Qed.

(** The parser on a packet whose message is well formed: what is left is the
    object loop and the check of the mandatory objects. *)
Lemma rsvp_parse_packet_encode src dst rao ty ttl rsv os :
  0 ≤ src < 2 ^ 32 → 0 ≤ dst < 2 ^ 32 → is_byte ty → is_byte ttl → is_byte rsv →
  Forall wobj_ok os → Z.of_nat (8 + length (encode_objs os)) < 65536 →
  let m := ip_packet src dst ttl (encode_message 16 ty ttl rsv (encode_objs os)) rao in
  let o := (20 + length (rao_option rao))%nat in
  rsvp_parse_packet m (length m)
  = ('(rc, i) ← fold_objects m (o + 8) os (header_info src dst o (length (encode_objs os)));
     Some (if decide (rc = RSVP_SUCCESS) then (validate_mandatory ty i, i) else (rc, i))).
Proof.
  intros Hs Hd Hty Httl Hrsv Hos Hlen m o.
  set (objs := encode_objs os) in *. set (msg := encode_message 16 ty ttl rsv objs) in *.
  pose proof (encode_objs_bytes os Hos) as Hob. fold objs in Hob.
  pose proof (length_encode_message 16 ty ttl rsv objs) as Hml. fold msg in Hml.
  destruct (ip_packet_fields src dst ttl msg rao Hs Hd) as (pre & Hm & Hpre & (b0 & Hb0 & Hihl) & H12 & H16).
  fold m o in Hm, Hpre, Hihl. rewrite <- Hm in Hb0, H12, H16.
  assert (length m = o + 8 + length objs)%nat as Hl by (rewrite Hm, length_app; lia).
  unfold rsvp_parse_packet, sizeof_iphdr. change (sizeof rsvp_common_hdr) with 8%nat.
  rewrite (proj2 (Nat.ltb_ge _ 20)) by lia. rewrite Hb0, H12, H16.
  cbn [mbind option_bind]. rewrite Hihl, Nat2Z.id.
  rewrite (proj2 (Nat.ltb_ge o 20)), (proj2 (Nat.ltb_ge _ o)) by lia. cbn [orb].
  rewrite (proj2 (Nat.ltb_ge _ (o + 8))) by lia.
  destruct (message_header pre ty ttl rsv os Hty Httl Hrsv) as (ck & Hh & Emsg).
  fold objs msg in Hh, Emsg. rewrite <- Hm, Hpre in Hh.
  set (hdr := mk_rsvp_common_hdr 16 ty ck ttl rsv (htons (Z.of_nat (8 + length objs)))) in *.
  assert (Z.to_nat (ntohs (hdr_length hdr)) = 8 + length objs)%nat as Hrl
    by (subst hdr; cbn [hdr_length]; rewrite htons_ntohs, Nat2Z.id by lia; done).
  rewrite Hh. cbn [mbind option_bind]. rewrite !Hrl.
  change (hdr_ver_flags hdr) with 16. change (hdr_msg_type hdr) with ty.
  rewrite (proj2 (Nat.ltb_ge _ 8)), (proj2 (Nat.ltb_ge (length m) _)) by lia.
  change (negb (Z.shiftr 16 4 =? RSVP_VERSION)) with false.
  assert (drop o m = msg) as -> by (by rewrite Hm, drop_app_length' by lia).
  unfold msg. rewrite encode_message_verifies by (done || (unfold sum_limit; lia)).
  rewrite andb_false_r. replace (8 + length objs - 8)%nat with (length objs) by lia.
  assert (m = (pre ++ store_struct hdr) ++ objs ++ []) as Hm2.
  { by rewrite Hm, Emsg, app_nil_r, <- app_assoc. }
  assert (length (pre ++ store_struct hdr) = o + 8)%nat as Hl2
    by (rewrite length_app, Hpre; reflexivity).
  pose proof (parse_objects_encode (S (length objs)) (pre ++ store_struct hdr) os []
    (header_info src dst o (length objs)) Hos) as Hpo. fold objs in Hpo.
  rewrite <- Hm2, Hl2 in Hpo. unfold header_info in Hpo. rewrite Hpo by lia.
  unfold header_info. destruct (fold_objects _ _ _ _) as [[rc i]|]; [|done].
  cbn [mbind option_bind]. by case_decide.
Qed.

(** The bytes at the offset of an object are its data. *)
Lemma first_accepted_data pre os post s p o :
  first_accepted (length pre) os s = Some (p, o) →
  read_bytes (pre ++ encode_objs os ++ post) p (length (wo_data o)) = Some (wo_data o).
Proof.
  revert pre. induction os as [|o' os IH]; intros pre; [done|].
  rewrite encode_objs_cons. cbn [first_accepted]. case_if.
  - intros [= <- <-]. unfold encode_wobj, encode_obj.
    set (h := store_struct _). set (pad := replicate _ _).
    replace (pre ++ ((h ++ wo_data o' ++ pad) ++ encode_objs os) ++ post)
      with ((pre ++ h) ++ wo_data o' ++ (pad ++ encode_objs os ++ post))
      by (by rewrite <- !app_assoc).
    replace (length pre + sizeof rsvp_obj_hdr)%nat with (length (pre ++ h))
      by (rewrite length_app; reflexivity).
    unfold read_bytes. rewrite !length_app, (proj2 (Nat.leb_le _ _)) by lia.
    by rewrite <- length_app, drop_app_length, take_app_length.
  - intros Hf. rewrite <- app_assoc, app_assoc. apply IH.
    rewrite length_app, length_encode_wobj. exact Hf.
Qed.

(** What surrounds the objects of a packet from [src]: bytes, the source address
    of the IP header, and a common header with the type [ty]. *)
Definition envelope (m : list Z) (src ty : Z) (i : rsvp_message_info) : Prop :=
  bytes_ok m ∧ (20 <= length m)%nat ∧ load 4 m 12 = Some src
  ∧ ∃ o hdr, info_common_hdr i = Some o ∧ load_struct rsvp_common_hdr m o = Some hdr
      ∧ hdr_msg_type hdr = ty.

Lemma ip_packet_bytes src dst ttl msg rao : bytes_ok msg → bytes_ok (ip_packet src dst ttl msg rao).
Proof.
  intros Hm. unfold ip_packet, bytes_ok. rewrite !Forall_app. split; [apply ip_header_bytes|].
  split; [|exact Hm]. destruct rao; repeat constructor; lia.
Qed.

(** A message of objects, finalized, sent and parsed. *)
Lemma written_parses b ty ttl src dst rao os :
  builder_wf b →
  written b = store_struct (mk_rsvp_common_hdr 16 ty 0 ttl 0 0) ++ encode_objs os →
  is_byte ty → is_byte ttl → 0 ≤ src < 2 ^ 32 → 0 ≤ dst < 2 ^ 32 →
  Forall wobj_ok os → Forall (λ o, wo_class o ∈ known_classes) os →
  (24 + (8 + length (encode_objs os)) <= MAX_RSVP_PACKET_SIZE)%nat →
  let o := (20 + length (rao_option rao) + 8)%nat in
  ∃ n b' m i,
    rsvp_builder_finalize b = (n, b')
    ∧ rsvp_send_packet true true src dst (b_buffer b') n rao = Some (RSVP_SUCCESS, Some m)
    ∧ rsvp_parse_packet m (length m) = Some (validate_mandatory ty i, i)
    ∧ fold_objects m o os (header_info src dst (20 + length (rao_option rao)) (length (encode_objs os)))
      = Some (RSVP_SUCCESS, i)
    ∧ info_ok m o (length m) i
    ∧ envelope m src ty i
    ∧ Forall (λ s, match first_accepted o os s with
                   | None => slot_ptr s i = None
                   | Some (p, w) => slot_ptr s i = Some p
                       ∧ read_bytes m p (length (wo_data w)) = Some (wo_data w)
                   end) parser_slots.
Proof.
  intros Wb Mb Hty Httl Hs Hd Hos Hk Hmax.
  assert (Z.of_nat (8 + length (encode_objs os)) < 65536) as Hlen.
  { change MAX_RSVP_PACKET_SIZE with (Z.to_nat 4096) in Hmax. lia. }
  destruct (rsvp_builder_finalize_eq b 16 ty 0 ttl 0 0 _ Wb Mb) as (b' & Ef & Wf & Mf).
  set (msg := encode_message 16 ty ttl 0 (encode_objs os)) in *.
  pose proof (length_encode_message 16 ty ttl 0 (encode_objs os)) as Hml. fold msg in Hml.
  pose proof (length_written b' Wf) as Hlw. rewrite Mf, Hml in Hlw.
  assert (take (8 + length (encode_objs os)) (b_buffer b') = msg) as Htake
    by (rewrite <- Mf; unfold written; by rewrite <- Hlw).
  assert (load 1 (b_buffer b') 4 = Some ttl) as Hload.
  { rewrite (written_app b'), Mf.
    assert (∃ pre post, msg ++ drop (b_offset b') (b_buffer b') = pre ++ le_bytes 1 ttl ++ post
      ∧ length pre = 4%nat) as (pre & post & -> & <-).
    { unfold msg, encode_message. exists (take 4 (store_struct (mk_rsvp_common_hdr 16 ty
        (rsvp_checksum (store_struct (mk_rsvp_common_hdr 16 ty 0 ttl 0 (htons (Z.of_nat
          (sizeof rsvp_common_hdr + length (encode_objs os))))) ++ encode_objs os)
          (sizeof rsvp_common_hdr + length (encode_objs os))) 0 0 0))).
      eexists. split; reflexivity. }
    apply load_le_bytes. exact Httl. }
  set (m := ip_packet src dst ttl msg rao).
  assert (rsvp_send_packet true true src dst (b_buffer b') (8 + length (encode_objs os)) rao
          = Some (RSVP_SUCCESS, Some m)) as Hsend.
  { rewrite (rsvp_send_packet_spec true src dst _ _ rao ttl); [by rewrite Htake| |done|].
    - pose proof (bwf_offset _ Wf). pose proof (bwf_length _ Wf). lia.
    - destruct rao; simpl length; lia. }
  set (o := (20 + length (rao_option rao))%nat).
  destruct (ip_packet_fields src dst ttl msg rao Hs Hd) as (pre & Hm & Hpre & _ & H12 & _).
  fold m o in Hm, Hpre. rewrite <- Hm in H12.
  destruct (message_header pre ty ttl 0 os Hty Httl) as (ck & Hhd & Emsg); [unfold is_byte; lia|].
  fold msg in Hhd, Emsg. rewrite <- Hm, Hpre in Hhd.
  assert (bytes_ok m) as Hbytes.
  { apply ip_packet_bytes. rewrite Emsg. unfold bytes_ok. rewrite Forall_app.
    split; [apply store_struct_bytes_ok|by apply encode_objs_bytes]. }
  assert (∃ h, m = h ++ encode_objs os ++ [] ∧ length h = (o + 8)%nat) as (h & Hh & Hhl).
  { eexists. rewrite Hm, app_nil_r. unfold msg, encode_message. rewrite app_assoc.
    split; [reflexivity|]. rewrite length_app, Hpre. reflexivity. }
  destruct (fold_objects_first m (o + 8) (length m) (o + 8) os
    (header_info src dst o (length (encode_objs os)))) as (i & Ei & Hok & Hch & Hi);
    [|done|lia| |done|].
  { destruct (zero_info_ok m (o + 8) (length m)). by split. }
  { rewrite Hh, !length_app, Hhl. lia. }
  cbv zeta. exists (8 + length (encode_objs os))%nat, b', m, i.
  split; [done|]. split; [done|]. split; [|split; [exact Ei|split; [exact Hok|split]]].
  - pose proof (rsvp_parse_packet_encode src dst rao ty ttl 0 os) as Hp. cbv zeta in Hp.
    fold msg m o in Hp. rewrite Hp, Ei by (done || unfold is_byte; lia).
    cbn [mbind option_bind]. by rewrite decide_True.
  - split; [done|]. split; [rewrite Hh, !length_app, Hhl; lia|]. split; [done|].
    exists o. eexists. split; [by rewrite Hch|]. split; [exact Hhd|done].
  - assert (Forall (λ s, slot_ptr s (header_info src dst o (length (encode_objs os))) = None)
      parser_slots) as Hn by repeat constructor.
    eapply Forall_impl; [exact (proj2 (Forall_and _ _) (conj Hi Hn))|].
    intros s [Hs1 Hs2]. rewrite Hs2 in Hs1.
    destruct (first_accepted (o + 8) os s) as [[p w]|] eqn:Ef2; [|exact Hs1].
    split; [exact Hs1|]. rewrite Hh. apply (first_accepted_data h os [] s). by rewrite Hhl.
Qed.

(** ** Properties *)

(** C14: what is built is what is parsed: objects of classes that the parser
    knows, added to a builder that has room for them, finalized, encapsulated
    by [rsvp_send_packet] in a packet of at most MAX_RSVP_PACKET_SIZE bytes and
    given to the parser, come out again. The headers, the checksum and the
    objects pass their checks; the result is that of the last check,
    [validate_mandatory], which is an error when an object that the message
    type requires is missing; and each pointer of the message information is
    NULL if no object suits it, or points at exactly the data of the first one
    that does. *)
Theorem build_send_parse size ty src dst rao os :
  is_byte ty → 0 ≤ src < 2 ^ 32 → 0 ≤ dst < 2 ^ 32 →
  Forall wobj_ok os → Forall (λ o, wo_class o ∈ known_classes) os →
  (8 + length (encode_objs os) <= size)%nat →
  (24 + (8 + length (encode_objs os)) <= MAX_RSVP_PACKET_SIZE)%nat →
  ∃ b n b' m i,
    add_objs (rsvp_builder_init size ty) os = (0, b)
    ∧ rsvp_builder_finalize b = (n, b')
    ∧ rsvp_send_packet true true src dst (b_buffer b') n rao = Some (RSVP_SUCCESS, Some m)
    ∧ rsvp_parse_packet m (length m) = Some (validate_mandatory ty i, i)
    ∧ Forall (λ s, match first_accepted (20 + length (rao_option rao) + 8) os s with
                   | None => slot_ptr s i = None
                   | Some (p, o) => slot_ptr s i = Some p
                       ∧ read_bytes m p (length (wo_data o)) = Some (wo_data o)
                   end) parser_slots.
Proof.
  intros Hty Hs Hd Hos Hk Hfit Hmax.
  assert (builder_wf (rsvp_builder_init size ty)) as Hwf
    by (apply rsvp_builder_init_wf; rewrite sizeof_common_hdr; lia).
  destruct (add_objs_ok (rsvp_builder_init size ty) os Hwf Hos) as (b & Eb & Wb & Sb & Mb);
    [simpl; lia|].
  assert (written (rsvp_builder_init size ty)
          = store_struct (mk_rsvp_common_hdr 16 ty 0 255 0 0)) as Hw.
  { unfold written. rewrite rsvp_builder_init_buffer by (rewrite sizeof_common_hdr; lia).
    reflexivity. }
  rewrite Hw in Mb.
  destruct (written_parses b ty 255 src dst rao os) as (n & b' & m & i & E1 & E2 & E3 & _ & _ & _ & E4);
    try done.
  by exists b, n, b', m, i.
Qed.

(** ** Witnesses *)

(** A Hello request with two objects, the second of which is ignored. *)
Definition hello_objects : list wobj :=
  [mk_wobj RSVP_CLASS_HELLO 1 [0; 0; 0; 1; 0; 0; 0; 0];
   mk_wobj RSVP_CLASS_HELLO 2 [0; 0; 0; 9; 0; 0; 0; 0]].

Lemma build_send_parse_witness :
  ∃ m i, rsvp_parse_packet m (length m) = Some (validate_mandatory RSVP_MSG_HELLO i, i)
    ∧ info_hello_obj i = Some 32%nat.
Proof.
  destruct (build_send_parse 128 RSVP_MSG_HELLO 16777343 16777343 false hello_objects)
    as (b & n & b' & m & i & _ & _ & _ & Hp & Hs).
  - unfold is_byte, RSVP_MSG_HELLO. lia.
  - lia.
  - lia.
  - repeat (apply Forall_cons_2; [by apply (bool_decide_eq_true_1 _)|]). constructor.
  - repeat (apply Forall_cons_2; [by apply (bool_decide_eq_true_1 _)|]). constructor.
  - apply (bool_decide_eq_true_1 _). reflexivity.
  - apply (bool_decide_eq_true_1 _). reflexivity.
  - exists m, i. split; [exact Hp|].
    rewrite Forall_forall in Hs.
    destruct (Hs (mk_slot info_hello_obj
      (of_class [RSVP_CLASS_HELLO] (Some [RSVP_HELLO_CTYPE_REQUEST; RSVP_HELLO_CTYPE_ACK])
         (sizeof rsvp_hello_obj)))) as [H _]; [|exact H].
    unfold parser_slots. rewrite !elem_of_cons. tauto.
Defined.
