(* ===== verification/LabelMgr.v ===== *)
(** * The label manager (src/pi/label_mgr.c)

    A bitmap allocator of MPLS labels: one bit per label of
    [[label_min, label_max]], a position [label_next] where the next search
    starts.  The file-scope variables are the fields of [label_mgr]; [None]
    from an operation is an access outside the bitmap.  The allocator refines
    a finite set of labels searched in cyclic order ([label_pool]). *)

From stdpp Require Import base numbers list option gmap sets.
From S2P Require Import Prelude Wire.

Record label_mgr := mk_label_mgr {
  label_min : Z;
  label_max : Z;
  label_next : Z;
  label_bitmap : option (list Z);
  label_bitmap_size : Z;
}.
#[export] Instance label_mgr_settable : Settable label_mgr :=
  λ s, mk_label_mgr (label_min s) (label_max s) (label_next s) (label_bitmap s)
         (label_bitmap_size s).

(** The values before [label_mgr_init]. *)
Definition label_mgr_start : label_mgr := mk_label_mgr 1000 2000 1000 None 0.

Definition label_in_range (s : label_mgr) (label : Z) : bool :=
  (label_min s <=? label) && (label <=? label_max s).

Definition label_is_allocated (s : label_mgr) (label : Z) : option bool :=
  match label_bitmap s with
  | None => Some false
  | Some bm =>
      if negb (label_in_range s label) then Some false
      else
        let idx := label - label_min s in
        b ← bm !! Z.to_nat (idx / 8);
        Some (Z.testbit b (idx mod 8))
  end.

(** [label_bitmap[idx / 8] = f(label_bitmap[idx / 8])] on the byte of [label]. *)
Definition label_update_byte (f : Z → Z → Z) (s : label_mgr) (label : Z) : option label_mgr :=
  match label_bitmap s with
  | None => Some s
  | Some bm =>
      if negb (label_in_range s label) then Some s
      else
        let idx := label - label_min s in
        b ← bm !! Z.to_nat (idx / 8);
        Some (s <| label_bitmap := Some (<[Z.to_nat (idx / 8) := f b (idx mod 8) mod 256]> bm) |>)
  end.

Definition label_set_allocated : label_mgr → Z → option label_mgr :=
  label_update_byte (λ b k, Z.lor b (Z.shiftl 1 k)).
Definition label_clear_allocated : label_mgr → Z → option label_mgr :=
  label_update_byte (λ b k, Z.land b (Z.lnot (Z.shiftl 1 k))).

(** [calloc_ok] tells whether [calloc] returns memory. *)
Definition label_mgr_init (calloc_ok : bool) (min max : Z) (s : label_mgr) : label_mgr :=
  let count := (max - min + 1) mod 2 ^ 64 in
  let size := (count + 7) mod 2 ^ 64 / 8 in
  s <| label_min := min |> <| label_max := max |> <| label_next := min |>
    <| label_bitmap_size := size |>
    <| label_bitmap := if calloc_ok then Some (replicate (Z.to_nat size) 0) else None |>.

(** The label tried at [offset]: a [uint32_t]. *)
Definition label_candidate (s : label_mgr) (offset : Z) : Z :=
  let label := (label_next s + offset) mod 2 ^ 32 in
  if label_max s <? label then (label_min s + (label - label_max s - 1)) mod 2 ^ 32 else label.

(** The search loop, from [offset], with [n] offsets left. *)
Fixpoint label_search (s : label_mgr) (offset : Z) (n : nat) : option (Z * label_mgr) :=
  match n with
  | O => Some (0, s)
  | S n =>
      let label := label_candidate s offset in
      used ← label_is_allocated s label;
      if used : bool then label_search s (offset + 1) n
      else
        s ← label_set_allocated s label;
        let next := (label + 1) mod 2 ^ 32 in
        let next := if label_max s <? next then label_min s else next in
        Some (label, s <| label_next := next |>)
  end.

Definition label_mgr_alloc (s : label_mgr) : option (Z * label_mgr) :=
  match label_bitmap s with
  | None => Some (0, s)
  | Some _ =>
      if label_max s <? label_min s then Some (0, s)
      else
        let range := (label_max s - label_min s + 1) mod 2 ^ 64 in
        label_search s 0 (Z.to_nat range)
  end.

Definition label_mgr_free (s : label_mgr) (label : Z) : option label_mgr :=
  if negb (label_in_range s label) then Some s
  else
    used ← label_is_allocated s label;
    if negb used then Some s
    else
      s ← label_clear_allocated s label;
      Some (if label <? label_next s then s <| label_next := label |> else s).

(** ** Specification: a set of labels in use *)

Record label_pool := mk_label_pool {
  pool_min : Z; pool_max : Z; pool_next : Z; pool_used : gset Z }.

(** The labels in the order of the search. *)
Definition pool_order (p : label_pool) : list Z :=
  seqZ (pool_next p) (pool_max p - pool_next p + 1) ++ seqZ (pool_min p) (pool_next p - pool_min p).

Definition pool_init (min max : Z) : label_pool := mk_label_pool min max min ∅.

Definition pool_alloc (p : label_pool) : Z * label_pool :=
  match list_find (λ l, l ∉ pool_used p) (pool_order p) with
  | None => (0, p)
  | Some (_, l) =>
      (l, mk_label_pool (pool_min p) (pool_max p)
            (if l =? pool_max p then pool_min p else l + 1) ({[l]} ∪ pool_used p))
  end.

Definition pool_free (p : label_pool) (l : Z) : label_pool :=
  if decide (l ∈ pool_used p)
  then mk_label_pool (pool_min p) (pool_max p) (Z.min l (pool_next p)) (pool_used p ∖ {[l]})
  else p.

(** The allocator's state implements the pool.  The ranges the daemon can use
    (20-bit labels) satisfy the bound, which keeps [label_next + offset] from
    wrapping. *)
Record label_refines (s : label_mgr) (p : label_pool) : Prop := {
  lr_min : label_min s = pool_min p;
  lr_max : label_max s = pool_max p;
  lr_next : label_next s = pool_next p;
  lr_range : 0 < pool_min p ≤ pool_max p;
  lr_bound : 2 * pool_max p - pool_min p < 2 ^ 32 - 1;
  lr_in : pool_min p ≤ pool_next p ≤ pool_max p;
  lr_bits : ∃ bm, label_bitmap s = Some bm
    ∧ Z.of_nat (length bm) = (pool_max p - pool_min p + 8) / 8
    ∧ bytes_ok bm
    ∧ ∀ l b, pool_min p ≤ l ≤ pool_max p → bm !! Z.to_nat ((l - pool_min p) / 8) = Some b →
        Z.testbit b ((l - pool_min p) mod 8) = bool_decide (l ∈ pool_used p);
  lr_used : ∀ l, l ∈ pool_used p → pool_min p ≤ l ≤ pool_max p;
}.

Lemma label_in_range_iff s p l :
  label_refines s p → label_in_range s l = true ↔ pool_min p ≤ l ≤ pool_max p.
Proof. intros []. unfold label_in_range. rewrite lr_min0, lr_max0. split; intros; blia. Qed.

Lemma bitmap_index_lt a b l : a ≤ l ≤ b → 0 ≤ (l - a) / 8 < (b - a + 8) / 8.
Proof. intros. dlia. Qed.

Lemma label_is_allocated_spec s p l :
  label_refines s p → label_is_allocated s l = Some (bool_decide (l ∈ pool_used p)).
Proof.
  intros H. pose proof (label_in_range_iff s p l H) as Hr. destruct H.
  destruct lr_bits0 as (bm & Hbm & Hl & Hb & Hbits). unfold label_is_allocated.
  rewrite Hbm. destruct (label_in_range s l) eqn:E; simpl.
  - apply proj1 in Hr. specialize (Hr eq_refl). rewrite lr_min0.
    pose proof (bitmap_index_lt _ _ _ Hr).
    destruct (lookup_lt_is_Some_2 bm (Z.to_nat ((l - pool_min p) / 8))) as [b Eb]; [lia|].
    rewrite Eb. simpl. f_equal. by apply Hbits.
  - rewrite bool_decide_eq_false_2; [done|]. intros Hu%lr_used0. apply Hr in Hu. congruence.
Qed.

(** Updating the byte of a label in range changes that label's bit only. *)
Lemma label_update_byte_spec f s p l v :
  label_refines s p → pool_min p ≤ l ≤ pool_max p →
  (∀ b k, is_byte b → 0 ≤ k < 8 →
     ∀ j, 0 ≤ j < 8 → Z.testbit (f b k) j = if j =? k then v else Z.testbit b j) →
  ∃ s', label_update_byte f s l = Some s'
    ∧ label_refines s' (mk_label_pool (pool_min p) (pool_max p) (pool_next p)
        (if v then {[l]} ∪ pool_used p else pool_used p ∖ {[l]})).
Proof.
  intros H Hl Hf. pose proof (proj2 (label_in_range_iff s p l H) Hl) as Hr. destruct H.
  destruct lr_bits0 as (bm & Hbm & Hlen & Hb & Hbits). unfold label_update_byte.
  rewrite Hbm, Hr, lr_min0. simpl. pose proof (bitmap_index_lt _ _ _ Hl) as Hidx.
  set (i := Z.to_nat ((l - pool_min p) / 8)).
  destruct (lookup_lt_is_Some_2 bm i) as [b Eb]; [lia|].
  rewrite Eb. simpl. eexists. split; [reflexivity|].
  assert (is_byte b) as Hbb by (eapply Forall_lookup_1; eauto).
  split; simpl; try done.
  - eexists. split; [reflexivity|]. rewrite length_insert. split_and!; [done|..].
    + apply Forall_insert; [done|]. apply Z.mod_pos_bound. lia.
    + intros l' b' Hl' Hlk. pose proof (bitmap_index_lt _ _ _ Hl').
      assert (bool_decide (l' ∈ (if v then {[l]} ∪ pool_used p else pool_used p ∖ {[l]}))
              = if l' =? l then v else bool_decide (l' ∈ pool_used p)) as ->.
      { destruct (Z.eqb_spec l' l) as [->|], v;
          [apply bool_decide_eq_true|apply bool_decide_eq_false|apply bool_decide_ext..];
          set_solver. }
      destruct (decide (Z.to_nat ((l' - pool_min p) / 8) = i)) as [Ei|Ei].
      * rewrite Ei, list_lookup_insert_eq in Hlk by lia. injection Hlk as <-.
        change 256 with (2 ^ 8). rewrite Z.mod_pow2_bits_low by dlia.
        rewrite Hf; [|done|dlia..].
        assert ((l' - pool_min p) / 8 = (l - pool_min p) / 8) by (subst i; lia).
        destruct (Z.eqb_spec l' l) as [->|Hne]; [by rewrite Z.eqb_refl|].
        rewrite (proj2 (Z.eqb_neq _ _)) by dlia. apply Hbits; [done|]. by rewrite Ei.
      * rewrite list_lookup_insert_ne in Hlk by done.
        rewrite (proj2 (Z.eqb_neq l' l)) by (intros ->; done). by apply Hbits.
  - intros l'. destruct v; [rewrite elem_of_union, elem_of_singleton|rewrite elem_of_difference];
      naive_solver.
Qed.

Lemma testbit_shift1 k j : 0 ≤ k → 0 ≤ j → Z.testbit (Z.shiftl 1 k) j = (j =? k).
Proof.
  intros. rewrite Z.shiftl_1_l, Z.pow2_bits_eqb by done. apply Z.eqb_sym.
Qed.

Lemma label_set_allocated_spec s p l :
  label_refines s p → pool_min p ≤ l ≤ pool_max p →
  ∃ s', label_set_allocated s l = Some s'
    ∧ label_refines s' (mk_label_pool (pool_min p) (pool_max p) (pool_next p)
                          ({[l]} ∪ pool_used p)).
Proof.
  intros. apply (label_update_byte_spec _ s p l true); [done..|].
  intros b k _ ? j ?. rewrite Z.lor_spec, testbit_shift1 by lia.
  case_if; [apply orb_true_r|apply orb_false_r].
Qed.

Lemma label_clear_allocated_spec s p l :
  label_refines s p → pool_min p ≤ l ≤ pool_max p →
  ∃ s', label_clear_allocated s l = Some s'
    ∧ label_refines s' (mk_label_pool (pool_min p) (pool_max p) (pool_next p)
                          (pool_used p ∖ {[l]})).
Proof.
  intros. apply (label_update_byte_spec _ s p l false); [done..|].
  intros b k _ ? j ?. rewrite Z.land_spec, Z.lnot_spec, testbit_shift1 by lia.
  case_if; [apply andb_false_r|apply andb_true_r].
Qed.

(** ** The search *)

(** The label at [offset] in cyclic order. *)
Definition pool_candidate (p : label_pool) (offset : Z) : Z :=
  if pool_max p <? pool_next p + offset
  then pool_min p + (pool_next p + offset - pool_max p - 1) else pool_next p + offset.

Lemma label_candidate_eq s p k :
  label_refines s p → 0 ≤ k ≤ pool_max p - pool_min p →
  label_candidate s k = pool_candidate p k ∧ pool_min p ≤ pool_candidate p k ≤ pool_max p.
Proof.
  intros [] Hk. unfold label_candidate, pool_candidate.
  rewrite lr_min0, lr_max0, lr_next0. change (2 ^ 32) with 4294967296 in *.
  rewrite (Z.mod_small (_ + k)) by lia.
  case_if; bools; [rewrite Z.mod_small by lia|]; lia.
Qed.

Lemma fmap_seqZ_add a b k n :
  (∀ i, k ≤ i < k + n → a + (i - k) = b i) → b <$> seqZ k n = seqZ a n.
Proof.
  intros H. apply list_eq. intros i. rewrite list_lookup_fmap.
  destruct (decide (Z.of_nat i < n)).
  - rewrite !lookup_seqZ_lt by lia. simpl. f_equal. rewrite <- H by lia. lia.
  - by rewrite !lookup_seqZ_ge by lia.
Qed.

Lemma pool_order_candidates p :
  pool_min p ≤ pool_next p ≤ pool_max p →
  pool_order p = pool_candidate p <$> seqZ 0 (pool_max p - pool_min p + 1).
Proof.
  intros H. unfold pool_order.
  replace (pool_max p - pool_min p + 1)
    with ((pool_max p - pool_next p + 1) + (pool_next p - pool_min p)) by lia.
  rewrite (seqZ_app 0), fmap_app by lia. f_equal; symmetry; apply fmap_seqZ_add;
    intros i Hi; unfold pool_candidate; case_if; blia.
Qed.

Lemma elem_of_pool_order p l :
  pool_min p ≤ pool_next p ≤ pool_max p →
  l ∈ pool_order p ↔ pool_min p ≤ l ≤ pool_max p.
Proof.
  intros H. unfold pool_order. rewrite elem_of_app, !elem_of_seqZ. lia.
Qed.

(** The pool gives 0 when every label of the range is held, else a free one. *)
Lemma pool_alloc_cases p :
  0 < pool_min p ≤ pool_max p → pool_min p ≤ pool_next p ≤ pool_max p →
  ((pool_alloc p).1 = 0 ∧ (pool_alloc p).2 = p
     ∧ ∀ l, pool_min p ≤ l ≤ pool_max p → l ∈ pool_used p)
  ∨ ((pool_alloc p).1 ≠ 0 ∧ (pool_alloc p).1 ∉ pool_used p
     ∧ pool_used (pool_alloc p).2 = {[(pool_alloc p).1]} ∪ pool_used p).
Proof.
  intros Hr Hn. unfold pool_alloc. destruct (list_find _ _) as [[i l]|] eqn:Ef; simpl.
  - right. apply list_find_Some in Ef as (Hl%list_elem_of_lookup_2 & Hu & _).
    apply elem_of_pool_order in Hl; [|done]. split; [lia|done].
  - left. split; [done|]. split; [done|]. intros l Hl%elem_of_pool_order; [|done].
    apply list_find_None in Ef. rewrite Forall_forall in Ef. specialize (Ef l Hl).
    by destruct (decide (l ∈ pool_used p)).
Qed.

Lemma label_search_spec s p k n :
  label_refines s p → 0 ≤ k → k + Z.of_nat n = pool_max p - pool_min p + 1 →
  ∃ s', match list_find (λ l, l ∉ pool_used p) (pool_candidate p <$> seqZ k (Z.of_nat n)) with
    | None => label_search s k n = Some (0, s') ∧ label_refines s' p
    | Some (_, l) => label_search s k n = Some (l, s')
        ∧ label_refines s' (mk_label_pool (pool_min p) (pool_max p)
            (if l =? pool_max p then pool_min p else l + 1) ({[l]} ∪ pool_used p))
    end.
Proof.
  intros H. revert k. induction n as [|n IH]; intros k Hk Hn.
  - exists s. done.
  - rewrite (seqZ_cons k) by lia. cbn [fmap list_fmap list_find label_search].
    destruct (label_candidate_eq s p k) as [-> Hc]; [done|lia|].
    rewrite (label_is_allocated_spec s p) by done. cbn [mbind option_bind].
    destruct (decide (pool_candidate p k ∉ pool_used p)) as [Hu|Hu].
    + rewrite bool_decide_eq_false_2 by done.
      destruct (label_set_allocated_spec s p _ H Hc) as (s' & -> & Hs').
      cbn [mbind option_bind]. eexists. split; [reflexivity|]. destruct H, Hs'.
      simpl in *. change (2 ^ 32) with 4294967296 in *.
      rewrite Z.mod_small by lia. rewrite lr_max1, lr_min1.
      split; simpl; try done; destruct (Z.eqb_spec (pool_candidate p k) (pool_max p));
        repeat case_if; blia.
    + rewrite bool_decide_eq_true_2 by (destruct (decide (pool_candidate p k ∈ pool_used p)); done).
      destruct (IH (k + 1)) as [s' Hs']; [lia..|]. exists s'.
      replace (Z.of_nat (S n) - 1) with (Z.of_nat n) by lia.
      replace (Z.pred (Z.of_nat (S n))) with (Z.of_nat n) by lia.
      replace (Z.succ k) with (k + 1) by lia.
      destruct (list_find _ _) as [[i l]|]; simpl; exact Hs'.
Qed.

Lemma label_mgr_alloc_refines s p :
  label_refines s p →
  ∃ s', label_mgr_alloc s = Some ((pool_alloc p).1, s') ∧ label_refines s' (pool_alloc p).2.
Proof.
  intros H. destruct (label_search_spec s p 0 (Z.to_nat (pool_max p - pool_min p + 1)) H)
    as [s' Hs']; [lia|destruct H; lia|].
  unfold label_mgr_alloc, pool_alloc. rewrite pool_order_candidates by apply H.
  rewrite Z2Nat.id in Hs' by (destruct H; lia). exists s'.
  destruct H. destruct lr_bits0 as (bm & -> & _). rewrite lr_max0, lr_min0.
  rewrite (proj2 (Z.ltb_ge _ _)) by lia. change (2 ^ 32) with 4294967296 in *.
  change (2 ^ 64) with 18446744073709551616. rewrite Z.mod_small by lia.
  destruct (list_find _ _) as [[i l]|]; exact Hs'.
Qed.

Lemma label_mgr_free_refines s p l :
  label_refines s p → ∃ s', label_mgr_free s l = Some s' ∧ label_refines s' (pool_free p l).
Proof.
  intros H. unfold label_mgr_free, pool_free.
  rewrite (label_is_allocated_spec s p l H).
  destruct (label_in_range s l) eqn:E; simpl.
  - apply (label_in_range_iff s p l H) in E.
    case_bool_decide as Hu; simpl; [|exists s; by rewrite decide_False by done].
    rewrite decide_True by done.
    destruct (label_clear_allocated_spec s p l H E) as (s' & -> & Hs'). simpl.
    eexists. split; [reflexivity|]. destruct H, Hs'. simpl in *. rewrite lr_next1.
    case_if; bools; split; simpl; try done; try lia.
  - exists s. rewrite decide_False; [done|]. intros Hu.
    apply (lr_used s p H) in Hu. apply (label_in_range_iff s p l H) in Hu. congruence.
Qed.

Lemma label_mgr_init_refines s min max :
  0 < min ≤ max → 2 * max - min < 2 ^ 32 - 1 →
  label_refines (label_mgr_init true min max s) (pool_init min max).
Proof.
  intros Hr Hb. unfold label_mgr_init. change (2 ^ 32) with 4294967296 in *.
  change (2 ^ 64) with 18446744073709551616. rewrite (Z.mod_small (max - min + 1)) by lia.
  rewrite Z.mod_small by lia.
  split; simpl; try done; try lia.
  eexists. split; [reflexivity|]. rewrite length_replicate. split_and!.
  - rewrite Z2Nat.id by dlia. f_equal. lia.
  - apply Forall_replicate. unfold is_byte. lia.
  - intros l b Hl [-> _]%lookup_replicate. rewrite Z.testbit_0_l.
    symmetry. apply bool_decide_eq_false_2. set_solver.
Qed.

(** ** Sequences of operations *)

Inductive label_op := LabelAlloc | LabelFree (label : Z).

(** The labels [label_mgr_alloc] returned, in order, and the final state. *)
Fixpoint label_run (s : label_mgr) (ops : list label_op) : option (list Z * label_mgr) :=
  match ops with
  | [] => Some ([], s)
  | LabelAlloc :: ops =>
      '(l, s) ← label_mgr_alloc s; '(ls, s) ← label_run s ops; Some (l :: ls, s)
  | LabelFree l :: ops => s ← label_mgr_free s l; label_run s ops
  end.

Fixpoint pool_run (p : label_pool) (ops : list label_op) : list Z * label_pool :=
  match ops with
  | [] => ([], p)
  | LabelAlloc :: ops => let '(l, p) := pool_alloc p in let '(ls, p) := pool_run p ops in (l :: ls, p)
  | LabelFree l :: ops => pool_run (pool_free p l) ops
  end.

Lemma label_run_refines s p ops :
  label_refines s p →
  ∃ s', label_run s ops = Some ((pool_run p ops).1, s') ∧ label_refines s' (pool_run p ops).2.
Proof.
  revert s p. induction ops as [|[|l] ops IH]; intros s p H; simpl.
  - eauto.
  - destruct (label_mgr_alloc_refines s p H) as (s1 & -> & H1). simpl.
    destruct (pool_alloc p) as [l p1]. simpl in *.
    destruct (IH s1 p1 H1) as (s2 & -> & H2). simpl.
    destruct (pool_run p1 ops) as [ls p2]. eauto.
  - destruct (label_mgr_free_refines s p l H) as (s1 & -> & H1). simpl. by apply IH.
Qed.

(** ** Properties *)

(** C30: the bitmap allocator implements a set of labels searched in cyclic
    order: after [label_mgr_init], any sequence of [label_mgr_alloc] and
    [label_mgr_free] (with arbitrary arguments, double frees and labels out of
    range included) stays inside the bitmap and returns exactly the labels the
    set allocator returns. *)
Theorem label_mgr_refines_pool s0 min max ops :
  0 < min ≤ max → 2 * max - min < 2 ^ 32 - 1 →
  ∃ s', label_run (label_mgr_init true min max s0) ops
        = Some ((pool_run (pool_init min max) ops).1, s')
    ∧ label_refines s' (pool_run (pool_init min max) ops).2.
Proof. intros. by apply label_run_refines, label_mgr_init_refines. Qed.

(** [label_mgr_alloc] returns a label of the range that nobody holds, and
    marks it held; it returns 0 exactly when every label of the range is held,
    and then changes nothing.  So no two holders ever share a label. *)
Theorem label_mgr_alloc_fresh s p l s' :
  label_refines s p → label_mgr_alloc s = Some (l, s') →
  (l ≠ 0 ∧ pool_min p ≤ l ≤ pool_max p ∧ l ∉ pool_used p
     ∧ label_is_allocated s' l = Some true
     ∧ ∀ k, k ≠ l → label_is_allocated s' k = label_is_allocated s k)
  ∨ (l = 0 ∧ (∀ k, pool_min p ≤ k ≤ pool_max p → k ∈ pool_used p)
     ∧ ∀ k, label_is_allocated s' k = label_is_allocated s k).
Proof.
  intros H Ha. destruct (label_mgr_alloc_refines s p H) as (s2 & E & H2).
  rewrite Ha in E. injection E as -> <-.
  assert (∀ k, label_is_allocated s' k = Some (bool_decide (k ∈ pool_used (pool_alloc p).2)))
    as Hs' by (intros k; by apply label_is_allocated_spec).
  assert (∀ k, label_is_allocated s k = Some (bool_decide (k ∈ pool_used p)))
    as Hs by (intros k; by apply label_is_allocated_spec).
  setoid_rewrite Hs'. setoid_rewrite Hs. unfold pool_alloc.
  pose proof (lr_in s p H) as Hin. pose proof (lr_range s p H).
  destruct (list_find _ _) as [[i l]|] eqn:E; simpl.
  - apply list_find_Some in E as (El & Hl & _). apply list_elem_of_lookup_2 in El.
    rewrite elem_of_pool_order in El by done. left. split_and!; [lia..|done| |].
    + f_equal. apply bool_decide_eq_true. set_solver.
    + intros k Hk. f_equal. apply bool_decide_ext. set_solver.
  - apply list_find_None in E. right. split_and!; [done| |done].
    intros k Hk. apply (elem_of_pool_order p) in Hk; [|done].
    rewrite Forall_forall in E. specialize (E k Hk).
    destruct (decide (k ∈ pool_used p)); [done|]. by destruct E.
Qed.

(** Freeing makes exactly that label available again, and moves the start
    of the next search down to it when it is lower; freeing a label that is not
    held, or out of range, changes nothing. *)
Theorem label_mgr_free_exact s p l :
  label_refines s p →
  ∃ s', label_mgr_free s l = Some s'
    ∧ (∀ k, label_is_allocated s' k
            = if decide (k = l) then Some false else label_is_allocated s k)
    ∧ (l ∈ pool_used p → label_next s' = Z.min l (label_next s))
    ∧ (l ∉ pool_used p → s' = s).
Proof.
  intros H. destruct (label_mgr_free_refines s p l H) as (s' & E & H').
  exists s'. split; [done|]. split; [|split].
  - intros k. rewrite (label_is_allocated_spec _ _ k H'), (label_is_allocated_spec _ _ k H).
    unfold pool_free. destruct (decide (l ∈ pool_used p)), (decide (k = l)) as [->|];
      simpl; try done; f_equal;
      [apply bool_decide_eq_false|apply bool_decide_ext|apply bool_decide_eq_false]; set_solver.
  - intros Hu. rewrite (lr_next _ _ H'), (lr_next _ _ H). unfold pool_free.
    by rewrite decide_True.
  - intros Hu. revert E. unfold label_mgr_free. rewrite (label_is_allocated_spec s p l H).
    rewrite bool_decide_eq_false_2 by done. simpl. case_if; congruence.
Qed.

(** ** Witnesses *)

Lemma label_mgr_refines_pool_witness :
  (0 < 16 ≤ 1048575 ∧ 2 * 1048575 - 16 < 2 ^ 32 - 1)
  ∧ ∃ s', label_run (label_mgr_init true 16 1048575 label_mgr_start)
            [LabelAlloc; LabelAlloc; LabelFree 16; LabelFree 16; LabelAlloc]
          = Some ((pool_run (pool_init 16 1048575)
              [LabelAlloc; LabelAlloc; LabelFree 16; LabelFree 16; LabelAlloc]).1, s')
    ∧ label_refines s' (pool_run (pool_init 16 1048575)
         [LabelAlloc; LabelAlloc; LabelFree 16; LabelFree 16; LabelAlloc]).2.
Proof. split; [lia|]. apply (label_mgr_refines_pool label_mgr_start 16 1048575); lia. Defined.

Lemma pool_2 : label_refines (label_mgr_init true 16 17 label_mgr_start) (pool_init 16 17).
Proof. apply label_mgr_init_refines; lia. Qed.

Lemma label_mgr_alloc_fresh_witness :
  ∃ s', label_mgr_alloc (label_mgr_init true 16 17 label_mgr_start) = Some (16, s')
    ∧ label_is_allocated s' 16 = Some true.
Proof.
  destruct (label_mgr_alloc (label_mgr_init true 16 17 label_mgr_start)) as [[l s']|] eqn:E;
    [|vm_compute in E; discriminate].
  assert (l = 16) as -> by (vm_compute in E; congruence).
  exists s'. split; [done|].
  destruct (label_mgr_alloc_fresh _ _ _ _ pool_2 E) as [(_ & _ & _ & H & _)|[H _]]; [exact H|lia].
Defined.

Lemma label_mgr_free_exact_witness :
  ∃ s', label_mgr_free (label_mgr_init true 16 17 label_mgr_start) 16 = Some s'
    ∧ label_is_allocated s' 16 = Some false.
Proof.
  destruct (label_mgr_free_exact _ _ 16 pool_2) as (s' & E & H & _).
  exists s'. split; [exact E|]. rewrite H. reflexivity.
Defined.

(** Without the bound on the range: with the largest
    [uint32_t] as upper end the search wraps and hands out labels below [min]. *)
Example label_range_wraps :
  fst <$> label_run (label_mgr_init true 4294967290 4294967295 label_mgr_start)
            (replicate 8 LabelAlloc)
  = Some [4294967290; 4294967291; 4294967292; 4294967293; 4294967294; 4294967295; 0; 1].
Proof. vm_compute. reflexivity. Qed.
