(* ===== verification/WheelTimer.v ===== *)
(** * The timer wheel (wheel_timer/wheel_timer.c)

    A hierarchical timing wheel.  The arrays tv1..tv5 lie one after the other
    in [struct timer_wheel], so they are one list of 512 buckets and [tv2 + i]
    is the bucket [tv2 + i].  A bucket is the list of the nodes linked in it.
    Nodes are addresses [N] into the memory [nodes]; [None] from an operation
    is a node that is not in memory, or a node linked into a second list while
    it still sits in one (the intrusive list would be corrupted).

    Operations under [wheel->lock] are one step.  The tick thread is
    [wheel_tick], the worker threads are [worker_take], [worker_begin] and
    [worker_done] around the callback. *)

From stdpp Require Import base numbers list option gmap sets.
From S2P Require Import Prelude.

Definition WHEEL_TVR_BITS : Z := 8.
Definition WHEEL_TVN_BITS : Z := 6.
Definition WHEEL_TVR_SIZE : Z := Z.shiftl 1 WHEEL_TVR_BITS.
Definition WHEEL_TVN_SIZE : Z := Z.shiftl 1 WHEEL_TVN_BITS.
Definition WHEEL_TVR_MASK : Z := WHEEL_TVR_SIZE - 1.
Definition WHEEL_TVN_MASK : Z := WHEEL_TVN_SIZE - 1.

(** Error codes of errno.h. *)
Definition EINVAL : Z := 22.
Definition ESHUTDOWN : Z := 108.

(** The first bucket of each array. *)
Definition tv1 : Z := 0.
Definition tv2 : Z := tv1 + WHEEL_TVR_SIZE.
Definition tv3 : Z := tv2 + WHEEL_TVN_SIZE.
Definition tv4 : Z := tv3 + WHEEL_TVN_SIZE.
Definition tv5 : Z := tv4 + WHEEL_TVN_SIZE.
Definition wheel_slots : Z := tv5 + WHEEL_TVN_SIZE.

(** Wrap-around of [uint64_t], and the conversion to [int64_t]. *)
Definition u64 (x : Z) : Z := x mod 2 ^ 64.
Definition s64 (x : Z) : Z := (x + 2 ^ 63) mod 2 ^ 64 - 2 ^ 63.

(** [callback] and [arg] together are a value of [C]; [None] is NULL. *)
Record timer_node {C : Type} := mk_timer_node {
  tn_expires : Z;
  tn_period : Z;
  tn_callback : option C;
  tn_wheel : bool;
  tn_pending : bool;
  tn_executing : bool;
}.
Arguments timer_node : clear implicits.
Arguments mk_timer_node {C}.
#[export] Instance timer_node_settable C : Settable (timer_node C) :=
  λ n, mk_timer_node (tn_expires n) (tn_period n) (tn_callback n) (tn_wheel n) (tn_pending n)
         (tn_executing n).

Definition zero_node {C} : timer_node C := mk_timer_node 0 0 None false false false.

Record timer_wheel {N C : Type} `{Countable N} := mk_timer_wheel {
  w_jiffies : Z;
  w_tick_ms : Z;
  w_running : bool;
  w_slots : list (list N);
  w_expired_list : list N;
  w_batches : list (list N);   (** the [node_list] of each worker *)
  w_nodes : gmap N (timer_node C);
}.
Arguments timer_wheel N C {_ _}.
Arguments mk_timer_wheel {N C _ _}.
#[export] Instance timer_wheel_settable N C `{Countable N} : Settable (timer_wheel N C) :=
  λ w, mk_timer_wheel (w_jiffies w) (w_tick_ms w) (w_running w) (w_slots w) (w_expired_list w)
         (w_batches w) (w_nodes w).

Section wheel.
Context {N C : Type} `{Countable N}.
Implicit Types w : timer_wheel N C.
Implicit Types n : N.

Definition timer_wheel_create (tick_ms worker_count : Z) : option (timer_wheel N C) :=
  if (tick_ms =? 0) || (worker_count <=? 0) then None
  else Some (mk_timer_wheel 0 tick_ms true (replicate (Z.to_nat wheel_slots) []) []
               (replicate (Z.to_nat worker_count) []) ∅).

(** [node] is linked into a list of the wheel or of a worker. *)
Definition linked w n : Prop :=
  n ∈ mjoin (w_slots w) ∨ n ∈ w_expired_list w ∨ n ∈ mjoin (w_batches w).
#[global] Instance linked_dec w n : Decision (linked w n).
Proof. unfold linked. apply _. Defined.

Definition set_node (n : N) (f : timer_node C → timer_node C) w : timer_wheel N C :=
  w <| w_nodes ::= alter f n |>.

Definition timer_node_init w n : option (timer_wheel N C) :=
  if decide (linked w n) then None
  else match w_nodes w !! n with
       | None => None
       | Some _ => Some (w <| w_nodes ::= <[n := zero_node]> |>)
       end.

(** The bucket for [expires] when the wheel is at [jiffies]. *)
Definition slot_for (jiffies expires : Z) : Z :=
  let idx := s64 (expires - jiffies) in
  if idx <=? 0 then tv1 + Z.land (u64 (jiffies + 1)) WHEEL_TVR_MASK
  else if idx <? WHEEL_TVR_SIZE then tv1 + Z.land expires WHEEL_TVR_MASK
  else if idx <? Z.shiftl 1 (WHEEL_TVR_BITS + WHEEL_TVN_BITS) then
    tv2 + Z.land (Z.shiftr expires WHEEL_TVR_BITS) WHEEL_TVN_MASK
  else if idx <? Z.shiftl 1 (WHEEL_TVR_BITS + 2 * WHEEL_TVN_BITS) then
    tv3 + Z.land (Z.shiftr expires (WHEEL_TVR_BITS + WHEEL_TVN_BITS)) WHEEL_TVN_MASK
  else if idx <? Z.shiftl 1 (WHEEL_TVR_BITS + 3 * WHEEL_TVN_BITS) then
    tv4 + Z.land (Z.shiftr expires (WHEEL_TVR_BITS + 2 * WHEEL_TVN_BITS)) WHEEL_TVN_MASK
  else
    tv5 + Z.land (Z.shiftr expires (WHEEL_TVR_BITS + 3 * WHEEL_TVN_BITS)) WHEEL_TVN_MASK.

Definition internal_add_timer w n : option (timer_wheel N C) :=
  nd ← w_nodes w !! n;
  if decide (linked w n) then None
  else
    let vec := slot_for (w_jiffies w) (tn_expires nd) in
    Some (set_node n (λ nd, nd <| tn_pending := true |>)
            (w <| w_slots ::= alter (λ l, l ++ [n]) (Z.to_nat vec) |>)).

(** [list_del(&node->entry)] of a pending node. *)
Definition unlink w n : timer_wheel N C :=
  w <| w_slots ::= fmap (filter (λ m, m ≠ n)) |>.

Fixpoint add_all w (ns : list N) : option (timer_wheel N C) :=
  match ns with
  | [] => Some w
  | n :: ns => w ← internal_add_timer w n; add_all w ns
  end.

(** The nodes of the bucket are spliced out, then added again. *)
Definition cascade w (tv index : Z) : option (Z * timer_wheel N C) :=
  let k := Z.to_nat (tv + index) in
  l ← w_slots w !! k;
  w ← add_all (w <| w_slots ::= <[k := []]> |>) l;
  Some (index, w).

(** The cascades of a tick: a level is cascaded when the index of the level
    below wrapped to 0. *)
Definition cascade_levels w (next_jiffies index : Z) : option (timer_wheel N C) :=
  let ix bits := Z.land (Z.shiftr next_jiffies bits) WHEEL_TVN_MASK in
  if negb (index =? 0) then Some w
  else
    '(i, w) ← cascade w tv2 (ix WHEEL_TVR_BITS);
    if negb (i =? 0) then Some w
    else
      '(i, w) ← cascade w tv3 (ix (WHEEL_TVR_BITS + WHEEL_TVN_BITS));
      if negb (i =? 0) then Some w
      else
        '(i, w) ← cascade w tv4 (ix (WHEEL_TVR_BITS + 2 * WHEEL_TVN_BITS));
        if negb (i =? 0) then Some w
        else
          '(_, w) ← cascade w tv5 (ix (WHEEL_TVR_BITS + 3 * WHEEL_TVN_BITS));
          Some w.

(** One round of the tick thread: advance, cascade, move the current bucket
    to the front of the list the workers take from. *)
Definition wheel_tick w : option (timer_wheel N C) :=
  let next_jiffies := u64 (w_jiffies w + 1) in
  let index := Z.land next_jiffies WHEEL_TVR_MASK in
  w ← cascade_levels (w <| w_jiffies := next_jiffies |>) next_jiffies index;
  bucket ← w_slots w !! Z.to_nat (tv1 + index);
  Some (foldr (λ n, set_node n (λ nd, nd <| tn_pending := false |>)) w bucket
          <| w_slots ::= <[Z.to_nat (tv1 + index) := []]> |>
          <| w_expired_list ::= λ l, bucket ++ l |>).

(** The deadline of a delay of [expires_ms], rounded up to a tick. *)
Definition expiry w (expires_ms : Z) : Z :=
  let e := u64 (w_jiffies w + expires_ms / w_tick_ms w) in
  if (0 <? expires_ms) && negb (expires_ms mod w_tick_ms w =? 0) then u64 (e + 1) else e.

(** There is one wheel, so a node never belongs to another one. *)
Definition timer_add w n (expires_ms : Z) (cb : option C) : option (Z * timer_wheel N C) :=
  if negb (w_running w) then Some (- ESHUTDOWN, w)
  else
    nd ← w_nodes w !! n;
    let w := if tn_pending nd
             then set_node n (λ nd, nd <| tn_pending := false |>) (unlink w n) else w in
    let w := set_node n (λ nd, nd <| tn_wheel := true |>
                                 <| tn_expires := expiry w expires_ms |>
                                 <| tn_period := 0 |> <| tn_callback := cb |>) w in
    w ← internal_add_timer w n;
    Some (0, w).

Definition timer_add_periodic w n (period_ms : Z) (cb : option C)
    : option (Z * timer_wheel N C) :=
  if period_ms =? 0 then Some (- EINVAL, w)
  else if negb (w_running w) then Some (- ESHUTDOWN, w)
  else
    nd ← w_nodes w !! n;
    let w := if tn_pending nd
             then set_node n (λ nd, nd <| tn_pending := false |>) (unlink w n) else w in
    let period := period_ms / w_tick_ms w in
    let period := if period =? 0 then 1 else period in
    let w := set_node n (λ nd, nd <| tn_wheel := true |> <| tn_period := period |>
                                 <| tn_expires := u64 (w_jiffies w + period) |>
                                 <| tn_callback := cb |>) w in
    w ← internal_add_timer w n;
    Some (0, w).

Definition timer_del w n : option (Z * timer_wheel N C) :=
  nd ← w_nodes w !! n;
  let w := set_node n (λ nd, nd <| tn_period := 0 |>) w in
  if tn_pending nd then
    Some (0, set_node n (λ nd, nd <| tn_pending := false |> <| tn_wheel := false |>) (unlink w n))
  else if tn_executing nd then Some (0, w)
  else Some (1, w).

Definition timer_mod w n (expires_ms : Z) : option (Z * timer_wheel N C) :=
  if negb (w_running w) then Some (- ESHUTDOWN, w)
  else
    nd ← w_nodes w !! n;
    let w := if tn_pending nd then unlink w n else w in
    let w := set_node n (λ nd, nd <| tn_wheel := true |>
                                 <| tn_expires := expiry w expires_ms |>) w in
    w ← internal_add_timer w n;
    Some (0, w).

(** ** Workers *)

(** Worker [i] takes the whole expired list. *)
Definition worker_take w (i : nat) : option (timer_wheel N C) :=
  match w_batches w !! i, w_expired_list w with
  | Some [], _ :: _ =>
      Some (w <| w_batches ::= <[i := w_expired_list w]> |> <| w_expired_list := [] |>)
  | _, _ => None
  end.

(** It starts the next node of its batch; the callback to run is returned.
    The link to the rest of the batch has been read by then. *)
Definition worker_begin w (i : nat) : option (N * option C * timer_wheel N C) :=
  match w_batches w !! i with
  | Some (n :: rest) =>
      nd ← w_nodes w !! n;
      Some (n, tn_callback nd,
            set_node n (λ nd, nd <| tn_executing := true |>) (w <| w_batches ::= <[i := rest]> |>))
  | _ => None
  end.

(** After the callback: re-arm a periodic node, or drop the association. *)
Definition worker_done w n : option (timer_wheel N C) :=
  nd ← w_nodes w !! n;
  let w := set_node n (λ nd, nd <| tn_executing := false |>) w in
  if w_running w && (0 <? tn_period nd) && negb (tn_pending nd) then
    internal_add_timer
      (set_node n (λ nd, nd <| tn_expires ::= λ e, u64 (e + tn_period nd) |>) w) n
  else if (tn_period nd =? 0) && negb (tn_pending nd) then
    Some (set_node n (λ nd, nd <| tn_wheel := false |>) w)
  else Some w.
End wheel.

(** ** Invariant *)

Lemma land_mask x k : 0 ≤ k → Z.land x (Z.shiftl 1 k - 1) = x mod 2 ^ k.
Proof. intros. rewrite Z.shiftl_1_l, <- Z.land_ones by done. by rewrite Z.ones_equiv. Qed.

Lemma s64_id x : - 2 ^ 63 ≤ x < 2 ^ 63 → s64 x = x.
Proof. unfold s64. change (2 ^ 63) with 9223372036854775808.
  change (2 ^ 64) with 18446744073709551616. intros. rewrite Z.mod_small; lia. Qed.
Lemma u64_id x : 0 ≤ x < 2 ^ 64 → u64 x = x.
Proof. intros. by apply Z.mod_small. Qed.

(** The numbers of the buckets, with the index written as a remainder. *)
Lemma slot_for_eq j e :
  slot_for j e =
    let idx := s64 (e - j) in
    if idx <=? 0 then u64 (j + 1) mod 256
    else if idx <? 256 then e mod 256
    else if idx <? 16384 then 256 + e / 256 mod 64
    else if idx <? 1048576 then 320 + e / 16384 mod 64
    else if idx <? 67108864 then 384 + e / 1048576 mod 64
    else 448 + e / 67108864 mod 64.
Proof.
  unfold slot_for. rewrite !Z.shiftr_div_pow2 by (unfold WHEEL_TVR_BITS, WHEEL_TVN_BITS; lia).
  unfold WHEEL_TVR_MASK, WHEEL_TVR_SIZE, WHEEL_TVN_MASK, WHEEL_TVN_SIZE.
  rewrite !land_mask by (unfold WHEEL_TVR_BITS, WHEEL_TVN_BITS; lia). reflexivity.
Qed.

Lemma slot_for_bound j e : 0 ≤ slot_for j e < wheel_slots.
Proof.
  rewrite slot_for_eq. change wheel_slots with 512. simpl.
  repeat case_if; bools; dlia.
Qed.

(** Where a node that expires at [e] may sit when the wheel is at [j]: in tv1
    at its own tick, or at the next tick if it is overdue; in tv2..tv5 at its
    tick with the low bits dropped. *)
Definition slot_ok (j : Z) (k : nat) (e : Z) : Prop :=
  let k := Z.of_nat k in
  if k <? 256 then (j < e < j + 256 ∧ k = e mod 256) ∨ (e ≤ j ∧ k = (j + 1) mod 256)
  else
    let at_level first sz :=
      j / sz < e / sz ≤ j / sz + 64 ∧ k - first = e / sz mod 64 in
    if k <? 320 then at_level 256 256
    else if k <? 384 then at_level 320 16384
    else if k <? 448 then at_level 384 1048576
    else at_level 448 67108864.

Lemma slot_for_ok j e :
  0 ≤ j → j + 1 < 2 ^ 63 → 0 ≤ e → e - j < 2 ^ 32 → slot_ok j (Z.to_nat (slot_for j e)) e.
Proof.
  intros Hj Hj' He Hd. pose proof (slot_for_bound j e) as Hb. unfold slot_ok.
  rewrite Z2Nat.id by lia. clear Hb. rewrite slot_for_eq.
  change (2 ^ 63) with 9223372036854775808 in *. change (2 ^ 32) with 4294967296 in *.
  rewrite s64_id by (change (2 ^ 63) with 9223372036854775808; lia).
  rewrite u64_id by (change (2 ^ 64) with 18446744073709551616; lia). simpl.
  destruct (Z.leb_spec (e - j) 0); [rewrite (proj2 (Z.ltb_lt _ 256)) by dlia; right; dlia|].
  destruct (Z.ltb_spec (e - j) 256); [rewrite (proj2 (Z.ltb_lt _ 256)) by dlia; left; dlia|].
  destruct (Z.ltb_spec (e - j) 16384).
  { rewrite (proj2 (Z.ltb_ge _ 256)), (proj2 (Z.ltb_lt _ 320)) by dlia. dlia. }
  destruct (Z.ltb_spec (e - j) 1048576).
  { rewrite (proj2 (Z.ltb_ge _ 256)), (proj2 (Z.ltb_ge _ 320)), (proj2 (Z.ltb_lt _ 384)) by dlia.
    dlia. }
  destruct (Z.ltb_spec (e - j) 67108864).
  { rewrite (proj2 (Z.ltb_ge _ 256)), (proj2 (Z.ltb_ge _ 320)), (proj2 (Z.ltb_ge _ 384)),
      (proj2 (Z.ltb_lt _ 448)) by dlia. dlia. }
  rewrite (proj2 (Z.ltb_ge _ 256)), (proj2 (Z.ltb_ge _ 320)), (proj2 (Z.ltb_ge _ 384)),
    (proj2 (Z.ltb_ge _ 448)) by dlia. dlia.
Qed.

(** What a bucket holds between the cascades and the dispatch of tick [j]. *)
Definition slot_due (j : Z) (k : nat) (e : Z) : Prop :=
  if decide (k = Z.to_nat (j mod 256)) then e ≤ j else slot_ok j k e.

(** The node of a bucket that is cascaded at tick [j] goes to a bucket that is
    not the current one. *)
Lemma slot_for_due j e :
  0 ≤ j → j + 1 < 2 ^ 63 → 0 ≤ e → e - j < 2 ^ 32 → slot_due j (Z.to_nat (slot_for j e)) e.
Proof.
  intros Hj Hj' He Hd. pose proof (slot_for_ok j e Hj Hj' He Hd) as Hs.
  unfold slot_due. case_decide as Hk; [|done]. revert Hs. rewrite Hk. unfold slot_ok.
  rewrite Z2Nat.id by dlia. rewrite (proj2 (Z.ltb_lt _ _)) by dlia.
  intros [?|?]; [exfalso; dlia|lia].
Qed.

(** The buckets cascaded at tick [j], in order. *)
Definition cascades (j : Z) : list Z :=
  if negb (j mod 256 =? 0) then []
  else 256 + j / 256 mod 64 ::
    if negb (j / 256 mod 64 =? 0) then []
    else 320 + j / 16384 mod 64 ::
      if negb (j / 16384 mod 64 =? 0) then []
      else 384 + j / 1048576 mod 64 ::
        if negb (j / 1048576 mod 64 =? 0) then [] else [448 + j / 67108864 mod 64].

(** A level that is not cascaded at tick [j] stays well placed. *)
Lemma level_tick j sz first k e :
  0 < sz → (j mod sz = 0 → k ≠ first + j / sz mod 64) →
  (j - 1) / sz < e / sz ≤ (j - 1) / sz + 64 ∧ k - first = e / sz mod 64 →
  j / sz < e / sz ≤ j / sz + 64 ∧ k - first = e / sz mod 64.
Proof.
  intros Hsz Hc [Hr Hk]. split; [|done].
  destruct (decide (j mod sz = 0)) as [H0|H0].
  - assert ((j - 1) / sz = j / sz - 1) as E.
    { symmetry. apply Z.div_unique with (sz - 1); [lia|].
      pose proof (Z.div_mod j sz). lia. }
    rewrite E in Hr. specialize (Hc H0).
    assert (e / sz ≠ j / sz) by (intros He; apply Hc; rewrite <- He; lia). lia.
  - assert ((j - 1) / sz = j / sz) as E; [|by rewrite E in Hr].
    symmetry. apply Z.div_unique with (j mod sz - 1).
    + pose proof (Z.mod_pos_bound j sz). lia.
    + pose proof (Z.div_mod j sz). lia.
Qed.

Lemma mod_refine j a b : 0 < a → 0 < b → j mod (a * b) = 0 → j mod a = 0 ∧ (j / a) mod b = 0.
Proof.
  intros. rewrite Z.rem_mul_r in H1 by lia.
  pose proof (Z.mod_pos_bound j a). pose proof (Z.mod_pos_bound (j / a) b). nia.
Qed.

Lemma mod_combine j a b : 0 < a → 0 < b → j mod a = 0 → (j / a) mod b = 0 → j mod (a * b) = 0.
Proof. intros. rewrite Z.rem_mul_r by lia. lia. Qed.

Lemma cascades_level j k first sz :
  k ∉ cascades j →
  ((first, sz) ∈ [(256, 256); (320, 16384); (384, 1048576); (448, 67108864)]) →
  j mod sz = 0 → k ≠ first + j / sz mod 64.
Proof.
  intros Hk Hin H0 ->. apply Hk. clear Hk. unfold cascades.
  assert (∀ a b, 0 < a → 0 < b → j mod (a * b) = 0 → j mod a = 0 ∧ j / a mod b = 0) as Hr
    by (intros; by apply mod_refine).
  pose proof (Hr 256 64) as Ha. pose proof (Hr 16384 64) as Hb.
  pose proof (Hr 1048576 64) as Hc. clear Hr.
  rewrite !elem_of_cons, elem_of_nil in Hin.
  destruct Hin as [Hp|[Hp|[Hp|[Hp|[]]]]]; injection Hp as -> ->;
    change (256 * 64) with 16384 in *; change (16384 * 64) with 1048576 in *;
    change (1048576 * 64) with 67108864 in *.
  - rewrite H0. apply list_elem_of_here.
  - destruct Ha as [A1 A2]; [lia..|done|]. rewrite A1, A2. do 1 constructor.
    apply list_elem_of_here.
  - destruct Hb as [B1 B2]; [lia..|done|]. destruct Ha as [A1 A2]; [lia..|done|].
    rewrite A1, A2, B2. do 2 constructor. apply list_elem_of_here.
  - destruct Hc as [C1 C2]; [lia..|done|]. destruct Hb as [B1 B2]; [lia..|done|].
    destruct Ha as [A1 A2]; [lia..|done|].
    rewrite A1, A2, B2, C2. do 3 constructor. apply list_elem_of_here.
Qed.

Lemma slot_tick j k e :
  1 ≤ j → Z.of_nat k ∉ cascades j → slot_ok (j - 1) k e → slot_due j k e.
Proof.
  intros Hj Hk. unfold slot_due, slot_ok.
  replace (j - 1 + 1) with j by lia.
  destruct (Z.ltb_spec (Z.of_nat k) 256).
  { case_decide; intros [?|?]; dlia. }
  intros Hl. rewrite decide_False by dlia. revert Hl.
  destruct (Z.ltb_spec (Z.of_nat k) 320); [|destruct (Z.ltb_spec (Z.of_nat k) 384);
    [|destruct (Z.ltb_spec (Z.of_nat k) 448)]]; apply level_tick; try lia;
    apply cascades_level; try done; rewrite !elem_of_cons; tauto.
Qed.

Section invariant.
Context {N C : Type} `{Countable N}.
Implicit Types w : timer_wheel N C.
Implicit Types n : N.

(** The nodes of bucket [k]. *)
Definition bucket w (k : nat) : list N := default [] (w_slots w !! k).

(** Every node sits in one list only; the pending nodes are those in the
    buckets, but for the floating nodes [fl] that an operation in progress
    has taken out; [ok k e] holds of a node in bucket [k] that expires at
    [e]. *)
Record wheel_inv (ok : nat → Z → Prop) (fl : list N) w : Prop := {
  wi_slots : length (w_slots w) = Z.to_nat wheel_slots;
  wi_nodup : ∀ k, NoDup (bucket w k);
  wi_unique : ∀ k1 k2 n, n ∈ bucket w k1 → n ∈ bucket w k2 → k1 = k2;
  wi_out : ∀ k n, n ∈ bucket w k → n ∉ w_expired_list w ∧ n ∉ mjoin (w_batches w);
  wi_fl : NoDup fl ∧ ∀ n, n ∈ fl → ¬ linked w n;
  wi_pos : ∀ k n, n ∈ bucket w k →
    ∃ nd, w_nodes w !! n = Some nd ∧ tn_pending nd = true ∧ ok k (tn_expires nd);
  wi_pending : ∀ n nd, w_nodes w !! n = Some nd → tn_pending nd = true →
    n ∈ fl ∨ ∃ k, n ∈ bucket w k;
  wi_tick : 0 < w_tick_ms w;
}.

Lemma elem_of_slots w n : n ∈ mjoin (w_slots w) ↔ ∃ k, n ∈ bucket w k.
Proof.
  rewrite list_elem_of_join. unfold bucket. split.
  - intros (l & Hn & Hl). apply list_elem_of_lookup in Hl as [k Hk].
    exists k. by rewrite Hk.
  - intros [k Hk]. destruct (w_slots w !! k) as [l|] eqn:E; [|by apply elem_of_nil in Hk].
    exists l. split; [done|]. by apply list_elem_of_lookup_2 in E.
Qed.

Lemma linked_iff w n :
  linked w n ↔ (∃ k, n ∈ bucket w k) ∨ n ∈ w_expired_list w ∨ n ∈ mjoin (w_batches w).
Proof. unfold linked. by rewrite elem_of_slots. Qed.

Lemma wheel_inv_weaken (ok ok' : nat → Z → Prop) fl w :
  (∀ k e, ok k e → ok' k e) → wheel_inv ok fl w → wheel_inv ok' fl w.
Proof.
  intros Hw []. split; try done. intros k n Hn.
  destruct (wi_pos0 k n Hn) as (nd & ? & ? & ?). eauto.
Qed.

(** Adding a floating node. *)
Lemma internal_add_timer_spec ok w n fl nd :
  wheel_inv ok (n :: fl) w → w_nodes w !! n = Some nd →
  ok (Z.to_nat (slot_for (w_jiffies w) (tn_expires nd))) (tn_expires nd) →
  ∃ w', internal_add_timer w n = Some w' ∧ wheel_inv ok fl w'
    ∧ w_jiffies w' = w_jiffies w ∧ w_tick_ms w' = w_tick_ms w
    ∧ w_expired_list w' = w_expired_list w ∧ w_batches w' = w_batches w
    ∧ w_running w' = w_running w
    ∧ w_nodes w' = <[n := nd <| tn_pending := true |>]> (w_nodes w)
    ∧ ∀ k m, m ∈ bucket w' k ↔
        m ∈ bucket w k ∨ (m = n ∧ k = Z.to_nat (slot_for (w_jiffies w) (tn_expires nd))).
Proof.
  intros [] Hnd Hok. destruct wi_fl0 as [Hfd Hfl]. apply NoDup_cons in Hfd as [Hnfl Hfd].
  assert (¬ linked w n) as Hn by (apply Hfl; left).
  unfold internal_add_timer. rewrite Hnd. cbn [mbind option_bind].
  rewrite decide_False by done. eexists. split; [reflexivity|].
  set (s := Z.to_nat (slot_for (w_jiffies w) (tn_expires nd))) in *.
  assert (s < length (w_slots w))%nat as Hs.
  { rewrite wi_slots0. pose proof (slot_for_bound (w_jiffies w) (tn_expires nd)). lia. }
  set (w' := set_node _ _ _).
  assert (w_nodes w' = <[n := nd <| tn_pending := true |>]> (w_nodes w)) as Hnodes.
  { subst w'. simpl. apply map_eq. intros m. destruct (decide (m = n)) as [->|].
    - by rewrite lookup_alter, Hnd, lookup_insert, !decide_True.
    - by rewrite lookup_alter_ne, lookup_insert_ne by done. }
  assert (∀ k, bucket w' k = if decide (k = s) then bucket w k ++ [n] else bucket w k) as Hb.
  { intros k. unfold bucket. subst w'. simpl. case_decide as Hk.
    - subst k. rewrite list_lookup_alter_eq. by destruct (lookup_lt_is_Some_2 _ _ Hs) as [l ->].
    - by rewrite list_lookup_alter_ne by done. }
  assert (∀ k m, m ∈ bucket w' k ↔ m ∈ bucket w k ∨ (m = n ∧ k = s)) as Hel.
  { intros k m. rewrite Hb. case_decide; rewrite ?elem_of_app, ?list_elem_of_singleton; tauto. }
  assert (∀ k, n ∉ bucket w k) as Hnb.
  { intros k Hk. apply Hn, linked_iff. eauto. }
  split_and!; try done. split.
  - subst w'. simpl. by rewrite length_alter.
  - intros k. rewrite Hb. case_decide; [|done]. apply NoDup_app. split_and!; [done| |].
    + intros m Hm ->%list_elem_of_singleton. by eapply Hnb.
    + apply NoDup_singleton.
  - intros k1 k2 m. rewrite !Hel. intros [H1|[-> ->]] [H2|[E ->]]; subst; eauto;
      exfalso; eapply Hnb; eauto.
  - intros k m. rewrite Hel. intros [Hm|[-> _]]; [by apply (wi_out0 k)|].
    split; intros Hm; apply Hn, linked_iff; auto.
  - split; [done|]. intros m Hm. rewrite linked_iff. setoid_rewrite Hel.
    assert (¬ linked w m) as Hlm by (apply Hfl; by right). rewrite linked_iff in Hlm.
    intros [[k [Hk|[-> _]]]|[He|Hbt]]; [|done|..]; apply Hlm; eauto.
  - intros k m. rewrite Hel, Hnodes. intros [Hm|[-> ->]].
    + destruct (decide (m = n)) as [->|]; [exfalso; by eapply Hnb|].
      rewrite lookup_insert_ne by done. by apply wi_pos0.
    + exists (nd <| tn_pending := true |>). rewrite lookup_insert, decide_True by done. auto.
  - intros m md. rewrite Hnodes. setoid_rewrite Hel.
    destruct (decide (m = n)) as [->|]; [intros _ _; right; eauto|].
    rewrite lookup_insert_ne by done. intros Hm Hp.
    destruct (wi_pending0 m md Hm Hp) as [[?|?]%elem_of_cons|[k Hk]]; [done|by left|].
    right. eauto.
  - done.
Qed.

(** The parts of the wheel an operation on the buckets leaves alone. *)
Definition same_frame w w' : Prop :=
  w_jiffies w' = w_jiffies w ∧ w_tick_ms w' = w_tick_ms w ∧ w_running w' = w_running w
  ∧ w_expired_list w' = w_expired_list w ∧ w_batches w' = w_batches w.

Lemma add_all_spec ok ns w :
  wheel_inv ok ns w →
  (∀ n, n ∈ ns → ∃ nd, w_nodes w !! n = Some nd ∧ tn_pending nd = true
     ∧ ok (Z.to_nat (slot_for (w_jiffies w) (tn_expires nd))) (tn_expires nd)) →
  ∃ w', add_all w ns = Some w' ∧ wheel_inv ok [] w' ∧ same_frame w w'
    ∧ w_nodes w' = w_nodes w.
Proof.
  revert w. induction ns as [|n ns IH]; intros w Hw Hns.
  - exists w. split_and!; done.
  - destruct (Hns n) as (nd & Hnd & Hp & Hok); [by left|].
    destruct (internal_add_timer_spec ok w n ns nd) as
      (w1 & E1 & Hw1 & Hj & Ht & He & Hb & Hr & Hn1 & _); [done..|].
    assert (w_nodes w1 = w_nodes w) as Hn.
    { rewrite Hn1. apply insert_id. rewrite Hnd. destruct nd. simpl in *. by rewrite Hp. }
    destruct (IH w1) as (w2 & E2 & Hw2 & (?&?&?&?&?) & Hn2); [done| |].
    { intros m Hm. rewrite Hn, Hj. apply Hns. by right. }
    exists w2. simpl. rewrite E1. simpl. unfold same_frame.
    split_and!; try done; congruence.
Qed.

Lemma cascade_spec (ok ok' : nat → Z → Prop) w tv index :
  wheel_inv ok [] w → 0 ≤ tv + index < wheel_slots →
  (∀ k e, k ≠ Z.to_nat (tv + index) → ok k e → ok' k e) →
  (∀ e, ok (Z.to_nat (tv + index)) e → ok' (Z.to_nat (slot_for (w_jiffies w) e)) e) →
  ∃ w', cascade w tv index = Some (index, w') ∧ wheel_inv ok' [] w' ∧ same_frame w w'
    ∧ w_nodes w' = w_nodes w.
Proof.
  intros Hw Hk Hother Hmoved. pose proof Hw as [].
  unfold cascade. set (c := Z.to_nat (tv + index)) in *.
  destruct (lookup_lt_is_Some_2 (w_slots w) c) as [l Hl]; [lia|].
  rewrite Hl. cbn [mbind option_bind].
  assert (bucket w c = l) as Hbc by (unfold bucket; by rewrite Hl).
  set (w1 := w <| w_slots ::= <[c := []]> |>).
  assert (∀ k, bucket w1 k = if decide (k = c) then [] else bucket w k) as Hb1.
  { intros k. unfold bucket. subst w1. simpl. case_decide as Hkc.
    - subst k. rewrite list_lookup_insert_eq; [done|]. by eapply lookup_lt_Some.
    - by rewrite list_lookup_insert_ne by done. }
  assert (∀ k n, n ∈ bucket w1 k ↔ k ≠ c ∧ n ∈ bucket w k) as Hel.
  { intros k n. rewrite Hb1. case_decide; [|tauto]. split; [by intros ?%elem_of_nil|tauto]. }
  destruct (add_all_spec ok' l w1) as (w2 & -> & Hw2 & Hf & Hn); [| |by exists w2].
  - split; try done.
    + subst w1. simpl. by rewrite length_insert.
    + intros k. rewrite Hb1. case_decide; [constructor|done].
    + intros k1 k2 n. rewrite !Hel. intros [_ ?] [_ ?]. eauto.
    + intros k n. rewrite Hel. intros [_ ?]. by apply (wi_out0 k).
    + split; [by rewrite <- Hbc|]. intros n Hn. rewrite <- Hbc in Hn. rewrite linked_iff.
      setoid_rewrite Hel. destruct (wi_out0 c n Hn) as [He Hba].
      intros [(k & Hkc & Hkn)|[?|?]]; [|done..]. apply Hkc. eauto.
    + intros k n. rewrite Hel. intros [Hkc Hkn].
      destruct (wi_pos0 k n Hkn) as (nd & ? & ? & ?). exists nd. eauto.
    + intros n nd Hn Hp. destruct (wi_pending0 n nd Hn Hp) as [?%elem_of_nil|[k Hkn]]; [done|].
      destruct (decide (k = c)) as [->|]; [left; by rewrite <- Hbc|right].
      exists k. by rewrite Hel.
  - intros n Hn. rewrite <- Hbc in Hn. destruct (wi_pos0 c n Hn) as (nd & ? & ? & Hok).
    exists nd. split_and!; [done..|]. by apply Hmoved.
Qed.

(** The invariant of a wheel between two operations. *)
Definition placed (j : Z) (k : nat) (e : Z) : Prop := 0 ≤ e < j + 2 ^ 32 ∧ slot_ok j k e.
Definition wheel_good w : Prop :=
  wheel_inv (placed (w_jiffies w)) [] w
  ∧ 0 ≤ w_jiffies w ∧ w_jiffies w + 2 ^ 33 < 2 ^ 63.

(** While the buckets [R] still have to be cascaded at tick [j]. *)
Definition stage (j : Z) (R : list Z) (k : nat) (e : Z) : Prop :=
  0 ≤ e < j + 2 ^ 32 ∧ (e < j → Z.of_nat k = j mod 256)
  ∧ (slot_due j k e ∨ (Z.of_nat k ∈ R ∧ slot_ok (j - 1) k e)).

Lemma cascade_stage w j c R tv index :
  wheel_inv (stage j (c :: R)) [] w → w_jiffies w = j → 0 ≤ j → j + 1 < 2 ^ 63 →
  c = tv + index → 256 ≤ c < wheel_slots →
  ∃ w', cascade w tv index = Some (index, w') ∧ wheel_inv (stage j R) [] w' ∧ same_frame w w'
    ∧ w_nodes w' = w_nodes w.
Proof.
  intros Hw Hj Hj0 Hj1 -> Hc. apply (cascade_spec (stage j (tv + index :: R))); [done|lia|..].
  - intros k e Hk (Hb & Hl & [?|[Hin ?]]); (split; [done|split; [done|]]); [by left|].
    apply elem_of_cons in Hin as [?|?]; [lia|]. by right.
  - intros e (Hb & Hl & _). change (2 ^ 32) with 4294967296 in *.
    assert (j ≤ e) by (destruct (decide (e < j)) as [Hlt|]; [apply Hl in Hlt; dlia|lia]).
    split; [lia|split; [lia|]]. left. rewrite Hj.
    apply slot_for_due; [lia|lia|lia|change (2 ^ 32) with 4294967296; lia].
Qed.

Lemma same_frame_trans w1 w2 w3 : same_frame w1 w2 → same_frame w2 w3 → same_frame w1 w3.
Proof. unfold same_frame. intros (?&?&?&?&?) (?&?&?&?&?). split_and!; congruence. Qed.

Lemma same_frame_refl w : same_frame w w.
Proof. by split_and!. Qed.

Lemma stage_done j k e :
  stage j [] k e → 0 ≤ e < j + 2 ^ 32 ∧ (e < j → Z.of_nat k = j mod 256) ∧ slot_due j k e.
Proof. intros (? & ? & [?|[[]%elem_of_nil _]]). done. Qed.

(** An overdue node waits in the bucket of the next tick. *)
Lemma slot_ok_overdue j k e : slot_ok (j - 1) k e → e < j → Z.of_nat k = j mod 256.
Proof.
  unfold slot_ok. replace (j - 1 + 1) with j by lia. intros Hs He. revert Hs.
  repeat case_if; bools; [intros [?|?]; dlia|intros [? _]; exfalso; dlia..].
Qed.

Lemma cascade_levels_spec w j :
  w_jiffies w = j → 0 ≤ j → j + 1 < 2 ^ 63 → wheel_inv (stage j (cascades j)) [] w →
  ∃ w', cascade_levels w j (j mod 256) = Some w' ∧ wheel_inv (stage j []) [] w'
    ∧ same_frame w w' ∧ w_nodes w' = w_nodes w.
Proof.
  intros Hj Hj0 Hj1 Hw. unfold cascade_levels.
  rewrite !Z.shiftr_div_pow2 by (unfold WHEEL_TVR_BITS, WHEEL_TVN_BITS; lia).
  unfold WHEEL_TVN_MASK, WHEEL_TVN_SIZE. rewrite !land_mask by (unfold WHEEL_TVN_BITS; lia).
  change (2 ^ WHEEL_TVN_BITS) with 64. change (2 ^ WHEEL_TVR_BITS) with 256.
  change (2 ^ (WHEEL_TVR_BITS + WHEEL_TVN_BITS)) with 16384.
  change (2 ^ (WHEEL_TVR_BITS + 2 * WHEEL_TVN_BITS)) with 1048576.
  change (2 ^ (WHEEL_TVR_BITS + 3 * WHEEL_TVN_BITS)) with 67108864.
  unfold cascades in Hw.
  destruct (negb (j mod 256 =? 0)); [exists w; auto using same_frame_refl|].
  assert (∀ x, 0 ≤ x mod 64 < 64) as Hm by (intros; apply Z.mod_pos_bound; lia).
  pose proof (Hm (j / 256)). pose proof (Hm (j / 16384)). pose proof (Hm (j / 1048576)).
  pose proof (Hm (j / 67108864)).
  change wheel_slots with 512 in *.
  destruct (cascade_stage w j _ _ tv2 (j / 256 mod 64) Hw Hj Hj0 Hj1 eq_refl) as
    (w1 & E1 & W1 & F1 & M1); [change wheel_slots with 512; lia|].
  rewrite E1. cbn [mbind option_bind].
  assert (w_jiffies w1 = j) as J1 by (rewrite <- Hj; apply F1).
  destruct (negb (j / 256 mod 64 =? 0)); [exists w1; auto|].
  destruct (cascade_stage w1 j _ _ tv3 (j / 16384 mod 64) W1 J1 Hj0 Hj1 eq_refl) as
    (w2 & E2 & W2 & F2 & M2); [change wheel_slots with 512; lia|].
  rewrite E2. cbn [mbind option_bind].
  pose proof (same_frame_trans _ _ _ F1 F2) as F12.
  assert (w_jiffies w2 = j) as J2 by (rewrite <- Hj; apply F12).
  destruct (negb (j / 16384 mod 64 =? 0)); [exists w2; split_and!; auto; congruence|].
  destruct (cascade_stage w2 j _ _ tv4 (j / 1048576 mod 64) W2 J2 Hj0 Hj1 eq_refl) as
    (w3 & E3 & W3 & F3 & M3); [change wheel_slots with 512; lia|].
  rewrite E3. cbn [mbind option_bind].
  pose proof (same_frame_trans _ _ _ F12 F3) as F13.
  assert (w_jiffies w3 = j) as J3 by (rewrite <- Hj; apply F13).
  destruct (negb (j / 1048576 mod 64 =? 0)); [exists w3; split_and!; auto; congruence|].
  destruct (cascade_stage w3 j _ _ tv5 (j / 67108864 mod 64) W3 J3 Hj0 Hj1 eq_refl) as
    (w4 & E4 & W4 & F4 & M4); [change wheel_slots with 512; lia|].
  rewrite E4. cbn [mbind option_bind].
  pose proof (same_frame_trans _ _ _ F13 F4) as F14.
  exists w4. split_and!; auto; congruence.
Qed.

Lemma set_node_nodes w n f : w_nodes (set_node n f w) = alter f n (w_nodes w).
Proof. done. Qed.

(** Clearing the pending flag of the nodes of a list. *)
Lemma clear_pending_nodes w (l : list N) n :
  w_nodes (foldr (λ n, set_node n (λ nd, nd <| tn_pending := false |>)) w l) !! n
  = (if decide (n ∈ l) then (λ nd, nd <| tn_pending := false |>) <$> w_nodes w !! n
     else w_nodes w !! n).
Proof.
  induction l as [|m l IH]; [by rewrite decide_False by (by intros ?%elem_of_nil)|].
  cbn [foldr]. rewrite set_node_nodes. destruct (decide (m = n)) as [->|Hne].
  - rewrite lookup_alter, decide_True by done. rewrite IH.
    rewrite (decide_True _ _ (list_elem_of_here n l)).
    case_decide; [|done]. destruct (w_nodes w !! n); done.
  - rewrite lookup_alter_ne by done. rewrite IH.
    destruct (decide (n ∈ l)), (decide (n ∈ m :: l)); rewrite ?elem_of_cons in *; done || naive_solver.
Qed.

Lemma clear_pending_frame w (l : list N) :
  let w' := foldr (λ n, set_node n (λ nd, nd <| tn_pending := false |>)) w l in
  same_frame w w' ∧ w_slots w' = w_slots w.
Proof.
  induction l as [|m l [(?&?&?&?&?) ?]]; simpl; [done|]. unfold same_frame, set_node. simpl.
  split_and!; done.
Qed.

(** Moving one bucket to the expired list. *)
Lemma fired_inv (ok ok' : nat → Z → Prop) w w' c fired :
  wheel_inv ok [] w → bucket w c = fired →
  length (w_slots w') = length (w_slots w) →
  (∀ k, bucket w' k = if decide (k = c) then [] else bucket w k) →
  w_expired_list w' = fired ++ w_expired_list w → w_batches w' = w_batches w →
  w_tick_ms w' = w_tick_ms w →
  (∀ n, w_nodes w' !! n = if decide (n ∈ fired)
                          then (λ nd, nd <| tn_pending := false |>) <$> w_nodes w !! n
                          else w_nodes w !! n) →
  (∀ k e, k ≠ c → ok k e → ok' k e) →
  wheel_inv ok' [] w'.
Proof.
  intros [] Hbc Hlen Hb HE HB HT HN Hok.
  assert (∀ k n, n ∈ bucket w' k ↔ k ≠ c ∧ n ∈ bucket w k) as Hel.
  { intros k n. rewrite Hb. case_decide; [|tauto]. split; [by intros ?%elem_of_nil|tauto]. }
  split.
  - by rewrite Hlen.
  - intros k. rewrite Hb. case_decide; [constructor|done].
  - intros k1 k2 n. rewrite !Hel. intros [_ ?] [_ ?]. eauto.
  - intros k n [Hk Hn]%Hel. rewrite HE, HB. destruct (wi_out0 k n Hn) as [He Hba].
    split; [|done]. rewrite elem_of_app. intros [Hn'|?]; [|done].
    rewrite <- Hbc in Hn'. eauto.
  - split; [constructor|]. intros n ?%elem_of_nil. done.
  - intros k n [Hk Hn]%Hel. destruct (wi_pos0 k n Hn) as (nd & Hnd & Hp & Hst).
    exists nd. rewrite HN, decide_False; [split_and!; auto|].
    rewrite <- Hbc. intros Hn'. eauto.
  - intros n nd. rewrite HN. case_decide as Hn.
    + destruct (w_nodes w !! n); [|done]. simpl. intros [= <-]. done.
    + intros Hnd Hp. destruct (wi_pending0 n nd Hnd Hp) as [?|[k Hk]]; [by left|right].
      exists k. rewrite Hel. split; [|done]. intros ->. by rewrite Hbc in Hk.
  - by rewrite HT.
Qed.

(** The state at the start of a tick: the buckets of the levels that cascade
    are still to be spread. *)
Lemma tick_start w :
  wheel_good w →
  wheel_inv (stage (w_jiffies w + 1) (cascades (w_jiffies w + 1))) []
    (w <| w_jiffies := w_jiffies w + 1 |>).
Proof.
  intros (Hw & Hj0 & Hj1). set (j := w_jiffies w + 1).
  assert (wheel_inv (stage j (cascades j)) [] w) as []; [|by split].
  eapply wheel_inv_weaken; [|exact Hw]. intros k e [Hb Hs].
  change (2 ^ 32) with 4294967296 in *. replace (w_jiffies w) with (j - 1) in Hs by lia.
  split; [change (2 ^ 32) with 4294967296; lia|split; [by apply slot_ok_overdue|]].
  destruct (decide (Z.of_nat k ∈ cascades j)); [right; done|left].
  apply slot_tick; [lia|done|done].
Qed.

(** The bucket [c] moved to the expired list, its nodes no longer pending. *)
Definition fire_bucket w (c : nat) (fired : list N) : timer_wheel N C :=
  foldr (λ n, set_node n (λ nd, nd <| tn_pending := false |>)) w fired
    <| w_slots ::= <[c := []]> |> <| w_expired_list ::= λ l, fired ++ l |>.

Lemma fire_bucket_spec w c fired :
  w_slots w !! c = Some fired →
  let w' := fire_bucket w c fired in
  w_jiffies w' = w_jiffies w ∧ w_tick_ms w' = w_tick_ms w ∧ w_running w' = w_running w
  ∧ w_batches w' = w_batches w ∧ w_expired_list w' = fired ++ w_expired_list w
  ∧ w_slots w' = <[c := []]> (w_slots w)
  ∧ (∀ n, w_nodes w' !! n = if decide (n ∈ fired)
                            then (λ nd, nd <| tn_pending := false |>) <$> w_nodes w !! n
                            else w_nodes w !! n)
  ∧ (∀ k, bucket w' k = if decide (k = c) then [] else bucket w k).
Proof.
  intros Hf. destruct (clear_pending_frame w fired) as ((J&T&R&E&B) & S).
  pose proof (clear_pending_nodes w fired) as Hn. unfold fire_bucket.
  set (w2 := foldr _ w fired) in *. clearbody w2.
  do 5 (split; [simpl; by rewrite ?J, ?T, ?R, ?B, ?E|]).
  split; [simpl; by rewrite S|]. split; [exact Hn|].
  intros k. unfold bucket. simpl. rewrite S. case_decide as Hk.
  - subst k. rewrite list_lookup_insert_eq; [done|]. by eapply lookup_lt_Some.
  - by rewrite list_lookup_insert_ne by done.
Qed.

(** One tick: the wheel stays well formed; the nodes moved to the expired list
    were pending and are due, every node that was overdue is moved, and the
    other nodes are untouched. *)
Lemma wheel_tick_spec w :
  wheel_good w → w_jiffies w + 1 + 2 ^ 33 < 2 ^ 63 →
  ∃ w' fired, wheel_tick w = Some w' ∧ wheel_good w'
    ∧ w_jiffies w' = w_jiffies w + 1 ∧ w_tick_ms w' = w_tick_ms w
    ∧ w_running w' = w_running w ∧ w_batches w' = w_batches w
    ∧ w_expired_list w' = fired ++ w_expired_list w
    ∧ (∀ n, w_nodes w' !! n = if decide (n ∈ fired)
                              then (λ nd, nd <| tn_pending := false |>) <$> w_nodes w !! n
                              else w_nodes w !! n)
    ∧ (∀ n, n ∈ fired → ∃ nd, w_nodes w !! n = Some nd ∧ tn_pending nd = true
         ∧ tn_expires nd ≤ w_jiffies w + 1)
    ∧ (∀ n nd, w_nodes w !! n = Some nd → tn_pending nd = true →
         tn_expires nd ≤ w_jiffies w → n ∈ fired).
Proof.
  intros Hw Hj2. pose proof (tick_start w Hw) as Hw0. destruct Hw as (Hw & Hj0 & Hj1).
  set (j := w_jiffies w + 1) in *.
  change (2 ^ 33) with 8589934592 in *. change (2 ^ 63) with 9223372036854775808 in *.
  unfold wheel_tick. rewrite u64_id by (change (2 ^ 64) with 18446744073709551616; lia).
  fold j. unfold WHEEL_TVR_MASK, WHEEL_TVR_SIZE. rewrite land_mask by done.
  change (2 ^ WHEEL_TVR_BITS) with 256.
  set (w0 := w <| w_jiffies := j |>) in *.
  destruct (cascade_levels_spec w0 j) as (w1 & -> & Hw1 & (J1&T1&R1&E1&B1) & M1);
    [done|lia|change (2 ^ 63) with 9223372036854775808; lia|done|].
  cbn [mbind option_bind]. change (tv1 + j mod 256) with (0 + j mod 256).
  rewrite Z.add_0_l. set (c := Z.to_nat (j mod 256)). pose proof Hw1 as [].
  assert (c < 512)%nat as Hc by (subst c; dlia).
  destruct (lookup_lt_is_Some_2 (w_slots w1) c) as [fired Hf];
    [rewrite wi_slots0; change wheel_slots with 512; lia|].
  rewrite Hf. cbn [mbind option_bind].
  assert (bucket w1 c = fired) as Hbc by (unfold bucket; by rewrite Hf).
  destruct (fire_bucket_spec w1 c fired Hf) as (J3 & T3 & R3 & B3 & E3 & S3 & N3 & Hb).
  exists (fire_bucket w1 c fired), fired. split; [reflexivity|].
  set (w3 := fire_bucket w1 c fired) in *. clearbody w3.
  assert (∀ n, n ∈ fired → ∃ nd, w_nodes w !! n = Some nd ∧ tn_pending nd = true
            ∧ tn_expires nd ≤ j) as Hfired.
  { intros n Hn. rewrite <- Hbc in Hn. destruct (wi_pos0 c n Hn) as (nd & Hnd & Hp & Hst).
    apply stage_done in Hst as (_ & _ & Hd). unfold slot_due in Hd. fold c in Hd.
    rewrite decide_True in Hd by done. rewrite M1 in Hnd. eauto. }
  split_and!; [|by rewrite J3, J1|by rewrite T3, T1|by rewrite R3, R1|by rewrite B3, B1
              |by rewrite E3, E1| |done|].
  - unfold wheel_good. rewrite J3, J1. split;
      [|change (2 ^ 33) with 8589934592; change (2 ^ 63) with 9223372036854775808; simpl; lia].
    apply (fired_inv (stage j []) (placed j) w1 w3 c fired); rewrite ?T3, ?B3, ?E3; try done.
    + by rewrite S3, length_insert.
    + intros k e Hk (Hbd & _ & Hd)%stage_done. unfold slot_due in Hd. fold c in Hd.
      by rewrite decide_False in Hd by done.
  - intros n. rewrite N3, M1. done.
  - intros n nd Hnd Hp He. change (w_nodes w) with (w_nodes w0) in Hnd. rewrite <- M1 in Hnd.
    destruct (wi_pending0 n nd Hnd Hp) as [[]%elem_of_nil|[k Hk]].
    destruct (decide (k = c)) as [->|Hkc]; [by rewrite <- Hbc|].
    destruct (wi_pos0 k n Hk) as (nd' & Hnd' & _ & Hst).
    rewrite Hnd in Hnd'. injection Hnd' as <-. apply stage_done in Hst as (_ & Hl & _).
    exfalso. apply Hkc. subst c. rewrite <- Hl by lia. lia.
Qed.

(** ** Add, delete, modify *)

Lemma bucket_unlink w n k : bucket (unlink w n) k = filter (λ m, m ≠ n) (bucket w k).
Proof. unfold bucket, unlink. simpl. rewrite list_lookup_fmap. by destruct (w_slots w !! k). Qed.

(** Taking a node out of its bucket makes it float. *)
Lemma unlink_inv ok w n nd :
  wheel_inv ok [] w → w_nodes w !! n = Some nd →
  n ∉ w_expired_list w → n ∉ mjoin (w_batches w) →
  wheel_inv ok [n] (if tn_pending nd then unlink w n else w).
Proof.
  intros Hw Hnd He Hb. destruct Hw.
  assert (∀ k m, m ∈ bucket (if tn_pending nd then unlink w n else w) k
                 ↔ m ≠ n ∧ m ∈ bucket w k) as Hel.
  { intros k m. destruct (tn_pending nd) eqn:Hp.
    - by rewrite bucket_unlink, list_elem_of_filter.
    - split; [|tauto]. intros Hm. split; [|done]. intros ->.
      destruct (wi_pos0 k n Hm) as (nd' & Hnd' & ? & _). congruence. }
  assert (w_expired_list (if tn_pending nd then unlink w n else w) = w_expired_list w) as HE
    by by destruct (tn_pending nd).
  assert (w_batches (if tn_pending nd then unlink w n else w) = w_batches w) as HB
    by by destruct (tn_pending nd).
  assert (w_nodes (if tn_pending nd then unlink w n else w) = w_nodes w) as HN
    by by destruct (tn_pending nd).
  split; rewrite ?HE, ?HB, ?HN.
  - destruct (tn_pending nd); [|done]. unfold unlink. simpl. by rewrite length_fmap.
  - intros k. destruct (tn_pending nd); [|done]. rewrite bucket_unlink. by apply NoDup_filter.
  - intros k1 k2 m [_ ?]%Hel [_ ?]%Hel. eauto.
  - intros k m [_ ?]%Hel. eauto.
  - split; [apply NoDup_singleton|]. intros m ->%list_elem_of_singleton.
    rewrite linked_iff, HE, HB. intros [[k [? _]%Hel]|[?|?]]; done.
  - intros k m [_ ?]%Hel. eauto.
  - intros m md Hm Hmp. destruct (decide (m = n)) as [->|]; [left; apply list_elem_of_here|].
    destruct (wi_pending0 m md Hm Hmp) as [[]%elem_of_nil|[k Hk]]. right. exists k.
    by rewrite Hel.
  - by destruct (tn_pending nd).
Qed.

(** A floating node may be written freely. *)
Lemma set_node_inv ok w n f fl :
  wheel_inv ok fl w → n ∈ fl → wheel_inv ok fl (set_node n f w).
Proof.
  intros [] Hn. assert (∀ k, n ∉ bucket w k) as Hnb.
  { intros k Hk. destruct wi_fl0 as [_ Hfl]. apply (Hfl n Hn), linked_iff. eauto. }
  split; try done.
  - intros k m Hm. rewrite set_node_nodes, lookup_alter_ne; [by apply wi_pos0|].
    intros <-. by apply (Hnb k).
  - intros m md. rewrite set_node_nodes. destruct (decide (n = m)) as [<-|]; [by left|].
    rewrite lookup_alter_ne by done. eauto.
Qed.

Lemma expiry_bound w ms :
  0 ≤ w_jiffies w → w_jiffies w + 2 ^ 33 < 2 ^ 63 → 0 < w_tick_ms w → 0 ≤ ms < 2 ^ 32 →
  expiry w ms = w_jiffies w + (ms + w_tick_ms w - 1) / w_tick_ms w
  ∧ w_jiffies w ≤ expiry w ms < w_jiffies w + 2 ^ 32.
Proof.
  change (2 ^ 33) with 8589934592. change (2 ^ 63) with 9223372036854775808.
  change (2 ^ 32) with 4294967296. intros Hj Hj2 Ht Hms. unfold expiry.
  assert (0 ≤ ms / w_tick_ms w ≤ ms) by (split; [apply Z.div_pos|apply Z.div_le_upper_bound]; nia).
  assert (0 ≤ (ms + w_tick_ms w - 1) / w_tick_ms w ≤ ms).
  { split; [apply Z.div_pos; lia|]. destruct (decide (ms = 0)) as [->|].
    - rewrite Z.div_small; lia.
    - apply Z.div_le_upper_bound; nia. }
  rewrite (u64_id (w_jiffies w + _)) by (change (2 ^ 64) with 18446744073709551616; lia).
  rewrite u64_id by (change (2 ^ 64) with 18446744073709551616; lia).
  pose proof (Z.div_mod ms (w_tick_ms w)). pose proof (Z.mod_pos_bound ms (w_tick_ms w)).
  case_if; bools.
  - split; [|nia]. rewrite <- Z.add_assoc. f_equal.
    apply Z.div_unique with (ms mod w_tick_ms w - 1); lia.
  - split; [|lia]. f_equal. apply Z.div_unique with (w_tick_ms w - 1); [lia|].
    apply andb_false_iff in E as [E|E]; bools; [|lia].
    assert (ms = 0) as -> by lia. rewrite Z.div_0_l by lia. lia.
Qed.

(** What arming a node does: it is pending at its deadline, in a well-formed
    wheel, and nothing else changes. *)
Definition armed w n (e : Z) (nd' : timer_node C) w' : Prop :=
  wheel_good w' ∧ same_frame w w'
  ∧ w_nodes w' = <[n := nd']> (w_nodes w)
  ∧ tn_pending nd' = true ∧ tn_expires nd' = e.

Lemma arm_spec w n nd f e :
  wheel_good w → w_nodes w !! n = Some nd →
  n ∉ w_expired_list w → n ∉ mjoin (w_batches w) →
  tn_expires (f nd) = e → w_jiffies w ≤ e < w_jiffies w + 2 ^ 32 →
  ∃ w', internal_add_timer (set_node n f (if tn_pending nd then unlink w n else w)) n = Some w'
    ∧ armed w n e (f nd <| tn_pending := true |>) w'.
Proof.
  intros (Hw & Hj & Hj2) Hnd He Hb <- Hbe.
  pose proof (unlink_inv _ w n nd Hw Hnd He Hb) as Hu.
  set (w1 := if tn_pending nd then unlink w n else w) in *.
  assert (same_frame w w1 ∧ w_nodes w1 = w_nodes w) as [HF HN]
    by (subst w1; by destruct (tn_pending nd)).
  assert (wheel_inv (placed (w_jiffies w)) [n] (set_node n f w1)) as Hs
    by (apply set_node_inv; [done|apply list_elem_of_here]).
  assert (w_nodes (set_node n f w1) !! n = Some (f nd)) as Hf
    by (by rewrite set_node_nodes, HN, lookup_alter, decide_True, Hnd).
  destruct HF as (J1&T1&R1&E1&B1).
  change (2 ^ 63) with 9223372036854775808 in *. change (2 ^ 33) with 8589934592 in *.
  change (2 ^ 32) with 4294967296 in *.
  destruct (internal_add_timer_spec _ _ n [] _ Hs Hf) as
    (w2 & E2 & Hw2 & J2 & T2 & X2 & B2 & R2 & N2 & _).
  { change (w_jiffies (set_node n f w1)) with (w_jiffies w1). rewrite J1.
    split; [change (2 ^ 32) with 4294967296; lia|].
    apply slot_for_ok; change (2 ^ 63) with 9223372036854775808;
      change (2 ^ 32) with 4294967296; lia. }
  assert (w_jiffies w2 = w_jiffies w) as J by (rewrite J2; exact J1).
  exists w2. split; [done|]. split; [|split; [|split; [|done]]].
  - unfold wheel_good. rewrite J. change (2 ^ 63) with 9223372036854775808.
    change (2 ^ 33) with 8589934592. done.
  - split_and!; [done|rewrite T2; exact T1|rewrite R2; exact R1|rewrite X2; exact E1
                |rewrite B2; exact B1].
  - rewrite N2, set_node_nodes, HN. apply map_eq. intros m.
    destruct (decide (m = n)) as [->|]; [by rewrite !lookup_insert_eq|].
    by rewrite !lookup_insert_ne, lookup_alter_ne by done.
Qed.

(** A node that is taken off first if it is pending, and then set by [g]. *)
Lemma add_spec w n nd g e :
  wheel_good w → w_nodes w !! n = Some nd →
  n ∉ w_expired_list w → n ∉ mjoin (w_batches w) →
  g (nd <| tn_pending := false |>) <| tn_pending := true |> = g nd <| tn_pending := true |> →
  tn_expires (g nd <| tn_pending := true |>) = e → w_jiffies w ≤ e < w_jiffies w + 2 ^ 32 →
  ∃ w', internal_add_timer (set_node n g
      (if tn_pending nd then set_node n (λ nd, nd <| tn_pending := false |>) (unlink w n) else w)) n = Some w'
    ∧ armed w n e (g nd <| tn_pending := true |>) w'.
Proof.
  intros Hw Hnd He Hb Hg Hx Hbe.
  assert (tn_expires (g nd) = e) as Hx1 by exact Hx.
  destruct (tn_pending nd) eqn:Ep.
  - assert (set_node n g (set_node n (λ nd, nd <| tn_pending := false |>) (unlink w n))
            = set_node n (λ nd, g (nd <| tn_pending := false |>)) (unlink w n)) as ->.
    { unfold set_node. simpl. f_equal. apply map_eq. intros m.
      destruct (decide (n = m)) as [<-|]; [|by rewrite !lookup_alter_ne by done].
      rewrite !lookup_alter, !decide_True by done. by destruct (w_nodes w !! n). }
    destruct (arm_spec w n nd (λ nd, g (nd <| tn_pending := false |>)) e) as (w' & E & Ha); [done..| |done|].
    { change (tn_expires (g (nd <| tn_pending := false |>) <| tn_pending := true |>) = e). by rewrite Hg. }
    rewrite Ep in E. exists w'. by rewrite <- Hg.
  - destruct (arm_spec w n nd g e) as (w' & E & Ha); [done..|]. rewrite Ep in E. by exists w'.
Qed.

(** The node is added as [E] says, the deadline being computed on the same clock. *)
Local Ltac rewrite_add E :=
  match type of E with _ = Some ?w =>
    match goal with |- context [internal_add_timer ?a ?b] =>
      replace (internal_add_timer a b) with (Some w) by (symmetry; exact E)
    end
  end.

Lemma timer_add_spec w n nd ms cb :
  wheel_good w → w_running w = true → w_nodes w !! n = Some nd →
  n ∉ w_expired_list w → n ∉ mjoin (w_batches w) → 0 ≤ ms < 2 ^ 32 →
  ∃ w', timer_add w n ms cb = Some (0, w')
    ∧ armed w n (expiry w ms)
        (mk_timer_node (expiry w ms) 0 cb true true (tn_executing nd)) w'.
Proof.
  intros Hw Hr Hnd He Hb Hms. pose proof Hw as (Hi & Hj & Hj2).
  destruct (expiry_bound w ms) as [_ Hbe]; [done|done|by destruct Hi|done|].
  unfold timer_add. rewrite Hr, Hnd. cbn [negb mbind option_bind].
  destruct (add_spec w n nd (λ nd, nd <| tn_wheel := true |> <| tn_expires := expiry w ms |>
    <| tn_period := 0 |> <| tn_callback := cb |>) (expiry w ms)) as (w' & E & Ha); [done..|].
  exists w'. split; [|exact Ha]. by destruct (tn_pending nd); rewrite_add E.
Qed.

(** The period in ticks, one at least. *)
Definition period_ticks w (period_ms : Z) : Z := Z.max 1 (period_ms / w_tick_ms w).

Lemma timer_add_periodic_spec w n nd ms cb :
  wheel_good w → w_running w = true → w_nodes w !! n = Some nd →
  n ∉ w_expired_list w → n ∉ mjoin (w_batches w) → 0 < ms < 2 ^ 32 →
  ∃ w', timer_add_periodic w n ms cb = Some (0, w')
    ∧ armed w n (w_jiffies w + period_ticks w ms)
        (mk_timer_node (w_jiffies w + period_ticks w ms) (period_ticks w ms) cb true true (tn_executing nd)) w'.
Proof.
  intros Hw Hr Hnd He Hb Hms. pose proof Hw as (Hi & Hj & Hj2). pose proof (wi_tick _ _ _ Hi) as Ht.
  change (2 ^ 63) with 9223372036854775808 in *. change (2 ^ 33) with 8589934592 in *.
  assert (0 ≤ ms / w_tick_ms w ≤ ms) as Hq
    by (split; [apply Z.div_pos; lia|apply Z.div_le_upper_bound; nia]).
  set (period := if ms / w_tick_ms w =? 0 then 1 else ms / w_tick_ms w).
  assert (period = period_ticks w ms) as Ep
    by (unfold period, period_ticks; destruct (Z.eqb_spec (ms / w_tick_ms w) 0); lia).
  assert (u64 (w_jiffies w + period) = w_jiffies w + period_ticks w ms) as Eu.
  { rewrite Ep. apply u64_id. unfold period_ticks. change (2 ^ 64) with 18446744073709551616.
    change (2 ^ 32) with 4294967296 in *. lia. }
  unfold timer_add_periodic. rewrite (proj2 (Z.eqb_neq ms 0)) by lia.
  rewrite Hr, Hnd. cbn [negb mbind option_bind].
  destruct (add_spec w n nd (λ nd, nd <| tn_wheel := true |> <| tn_period := period |>
    <| tn_expires := u64 (w_jiffies w + period) |> <| tn_callback := cb |>)
    (w_jiffies w + period_ticks w ms)) as (w' & E & Ha); [done..| |].
  { unfold period_ticks. change (2 ^ 32) with 4294967296 in *. lia. }
  exists w'. cbn in Ha. rewrite Eu, Ep in Ha. split; [|exact Ha].
  unfold period in E. by destruct (tn_pending nd); rewrite_add E.
Qed.

Lemma timer_mod_spec w n nd ms :
  wheel_good w → w_running w = true → w_nodes w !! n = Some nd →
  n ∉ w_expired_list w → n ∉ mjoin (w_batches w) → 0 ≤ ms < 2 ^ 32 →
  ∃ w', timer_mod w n ms = Some (0, w')
    ∧ armed w n (expiry w ms)
        (nd <| tn_wheel := true |> <| tn_expires := expiry w ms |> <| tn_pending := true |>) w'.
Proof.
  intros Hw Hr Hnd He Hb Hms. destruct Hw as (Hi & Hj & Hj2).
  destruct (expiry_bound w ms) as [_ Hbe]; [done|done|by destruct Hi|done|].
  unfold timer_mod. rewrite Hr, Hnd. cbn [negb mbind option_bind].
  assert (expiry (if tn_pending nd then unlink w n else w) ms = expiry w ms) as ->
    by by destruct (tn_pending nd).
  destruct (arm_spec w n nd (λ nd, nd <| tn_wheel := true |> <| tn_expires := expiry w ms |>)
    (expiry w ms)) as (w' & -> & Ha); [done..|]. by exists w'.
Qed.

Lemma wheel_inv_settle ok w n fl :
  wheel_inv ok (n :: fl) w → (∀ nd, w_nodes w !! n = Some nd → tn_pending nd = false) →
  wheel_inv ok fl w.
Proof.
  intros [] Hp. destruct wi_fl0 as [Hd Hfl]. apply NoDup_cons in Hd as [_ Hd].
  split; try done.
  - split; [done|]. intros m Hm. apply Hfl. by right.
  - intros m md Hm Hmp. destruct (wi_pending0 m md Hm Hmp) as [Hin|?]; [|by right].
    apply elem_of_cons in Hin as [->|?]; [|by left]. rewrite (Hp md Hm) in Hmp. done.
Qed.

(** After [timer_del] the node is in no bucket and cannot fire any more,
    unless it had already been taken to the expired list. *)
Lemma timer_del_spec w n nd :
  wheel_good w → w_nodes w !! n = Some nd →
  ∃ rc w' nd', timer_del w n = Some (rc, w') ∧ wheel_good w' ∧ same_frame w w'
    ∧ w_nodes w' = <[n := nd']> (w_nodes w)
    ∧ tn_pending nd' = false ∧ tn_period nd' = 0 ∧ (rc = 0 ∨ rc = 1)
    ∧ tn_executing nd' = tn_executing nd.
Proof.
  intros (Hw & Hj) Hnd. unfold timer_del. rewrite Hnd. cbn [mbind option_bind].
  set (f := λ nd : timer_node C, nd <| tn_period := 0 |>).
  destruct (tn_pending nd) eqn:Hp.
  - set (g := λ nd : timer_node C, nd <| tn_pending := false |> <| tn_wheel := false |>).
    assert (∃ k, n ∈ bucket w k) as [k Hk].
    { destruct (wi_pending _ _ _ Hw n nd Hnd Hp) as [[]%elem_of_nil|?]. done. }
    destruct (wi_out _ _ _ Hw k n Hk) as [He Hb].
    pose proof (unlink_inv _ w n nd Hw Hnd He Hb) as Hu. rewrite Hp in Hu.
    assert (w_nodes (set_node n g (unlink (set_node n f w) n)) = <[n := g (f nd)]> (w_nodes w))
      as Hn.
    { rewrite set_node_nodes. change (w_nodes (unlink (set_node n f w) n))
        with (alter f n (w_nodes w)). apply map_eq. intros m.
      destruct (decide (n = m)) as [<-|];
        [by rewrite lookup_insert_eq, !lookup_alter, !decide_True, Hnd
        |by rewrite lookup_insert_ne, !lookup_alter_ne by done]. }
    exists 0, (set_node n g (unlink (set_node n f w) n)), (g (f nd)).
    split_and!; try done; auto.
    split; [|done]. apply (wheel_inv_settle _ _ n).
    + apply set_node_inv; [|apply list_elem_of_here].
      change (unlink (set_node n f w) n) with (set_node n f (unlink w n)).
      apply set_node_inv; [done|apply list_elem_of_here].
    + intros nd'. rewrite Hn, lookup_insert_eq. by intros [= <-].
  - exists (if tn_executing nd then 0 else 1), (set_node n f w), (f nd).
    assert (w_nodes (set_node n f w) = <[n := f nd]> (w_nodes w)) as Hn.
    { rewrite set_node_nodes. apply map_eq. intros m.
      destruct (decide (n = m)) as [<-|];
        [by rewrite lookup_insert_eq, lookup_alter, decide_True, Hnd
        |by rewrite lookup_insert_ne, lookup_alter_ne by done]. }
    split_and!; try done; [by destruct (tn_executing nd)| |by destruct (tn_executing nd); auto].
    split; [|done]. destruct Hw. split; try done.
    + intros k m Hm. rewrite Hn. destruct (wi_pos0 k m Hm) as (md & Hmd & ? & ?).
      rewrite lookup_insert_ne; [eauto|]. intros <-. congruence.
    + intros m md. rewrite Hn. destruct (decide (n = m)) as [<-|].
      * rewrite lookup_insert_eq. intros [= <-]. simpl. congruence.
      * rewrite lookup_insert_ne by done. apply wi_pending0.
Qed.

Lemma timer_wheel_create_good tick_ms workers w :
  0 ≤ tick_ms → timer_wheel_create tick_ms workers = Some w → wheel_good w.
Proof.
  intros Ht. unfold timer_wheel_create. case_if; [done|]. intros [= <-]. bools.
  assert (∀ k, bucket (mk_timer_wheel (N := N) (C := C) 0 tick_ms true
    (replicate (Z.to_nat wheel_slots) []) [] (replicate (Z.to_nat workers) []) ∅) k = []) as Hb.
  { intros k. assert (∀ m, default [] (replicate m (@nil N) !! k) = []) as Hr; [|apply Hr].
    intros m. destruct (replicate m _ !! k) eqn:Er; [|done].
    by apply lookup_replicate in Er as [-> _]. }
  split; [|split; [simpl; lia|done]].
  split; cbn [w_slots w_expired_list w_batches w_nodes w_tick_ms w_jiffies].
  - reflexivity.
  - intros k. rewrite Hb. constructor.
  - intros k1 k2 n. rewrite Hb. by intros ?%elem_of_nil.
  - intros k n. rewrite Hb. by intros ?%elem_of_nil.
  - split; [constructor|]. by intros n ?%elem_of_nil.
  - intros k n. rewrite Hb. by intros ?%elem_of_nil.
  - intros n nd. rewrite lookup_empty. done.
  - lia.
Qed.

(** A node in freshly allocated, zeroed memory; memory given back. *)
Definition wheel_alloc w n : timer_wheel N C := w <| w_nodes ::= <[n := zero_node]> |>.
Definition wheel_free w n : timer_wheel N C := w <| w_nodes ::= delete n |>.

Lemma wheel_alloc_good w n : wheel_good w → w_nodes w !! n = None → wheel_good (wheel_alloc w n).
Proof.
  intros [[] Hj] Hn. split; [|done]. split; try done; simpl.
  - intros k m Hm. destruct (wi_pos0 k m Hm) as (nd & Hnd & ? & ?). exists nd.
    rewrite lookup_insert_ne; [done|]. intros <-. congruence.
  - intros m nd. destruct (decide (n = m)) as [<-|]; [rewrite lookup_insert_eq|].
    + by intros [= <-].
    + rewrite lookup_insert_ne by done. apply wi_pending0.
Qed.

(** A wheel that knows no node yet, once nodes that are not pending lie in
    memory. *)
Lemma wheel_nodes_good w nodes :
  wheel_good w → w_nodes w = ∅ → (∀ n nd, nodes !! n = Some nd → tn_pending nd = false) →
  wheel_good (w <| w_nodes := nodes |>).
Proof.
  intros [[] Hj] Hn Hp. split; [|done]. split; try done; simpl.
  - intros k m Hm. destruct (wi_pos0 k m Hm) as (nd & Hnd & _). by rewrite Hn, lookup_empty in Hnd.
  - intros m nd Hm. by rewrite (Hp m nd Hm).
Qed.

Lemma wheel_free_good w n nd :
  wheel_good w → w_nodes w !! n = Some nd → tn_pending nd = false → wheel_good (wheel_free w n).
Proof.
  intros [[] Hj] Hn Hp. split; [|done]. split; try done; simpl.
  - intros k m Hm. destruct (wi_pos0 k m Hm) as (md & Hmd & ? & ?). exists md.
    rewrite lookup_delete_ne; [done|]. intros <-. congruence.
  - intros m md [? Hm]%lookup_delete_Some. by apply wi_pending0.
Qed.

(** ** Runs of the tick thread *)

Fixpoint wheel_ticks (k : nat) w : option (timer_wheel N C) :=
  match k with O => Some w | S k => w ← wheel_tick w; wheel_ticks k w end.

(** A node that fires is cleared once and then stays on the expired list. *)
Lemma wheel_ticks_spec k w n nd :
  wheel_good w → w_jiffies w + Z.of_nat k + 2 ^ 33 < 2 ^ 63 →
  w_nodes w !! n = Some nd →
  (tn_pending nd = true ∧ n ∉ w_expired_list w ∨ tn_pending nd = false ∧ n ∈ w_expired_list w) →
  ∃ w' nd', wheel_ticks k w = Some w' ∧ wheel_good w'
    ∧ w_jiffies w' = w_jiffies w + Z.of_nat k
    ∧ w_nodes w' !! n = Some nd' ∧ tn_expires nd' = tn_expires nd
    ∧ (tn_pending nd' = true ∧ n ∉ w_expired_list w'
       ∨ tn_pending nd' = false ∧ n ∈ w_expired_list w')
    ∧ (tn_pending nd = false → tn_pending nd' = false)
    ∧ (tn_pending nd = true → w_jiffies w' < tn_expires nd → tn_pending nd' = true)
    ∧ ((0 < k)%nat → tn_expires nd < w_jiffies w' → tn_pending nd' = false).
Proof.
  revert w nd. induction k as [|k IH]; intros w nd Hw Hj Hnd Hst.
  - exists w, nd. simpl. split_and!; try done; lia.
  - change (2 ^ 33) with 8589934592 in *. change (2 ^ 63) with 9223372036854775808 in *.
    destruct (wheel_tick_spec w Hw) as
      (w1 & fired & E1 & G1 & J1 & _ & _ & _ & X1 & N1 & F1 & L1);
      [change (2 ^ 33) with 8589934592; change (2 ^ 63) with 9223372036854775808; lia|].
    assert (n ∈ fired → tn_pending nd = true ∧ tn_expires nd ≤ w_jiffies w + 1) as Hf.
    { intros (nd' & Hnd' & ? & ?)%F1. rewrite Hnd in Hnd'. by injection Hnd' as <-. }
    set (nd1 := if decide (n ∈ fired) then nd <| tn_pending := false |> else nd).
    assert (w_nodes w1 !! n = Some nd1) as Hnd1
      by (rewrite N1, Hnd; subst nd1; by case_decide).
    assert (tn_expires nd1 = tn_expires nd) as He1 by (subst nd1; by case_decide).
    destruct (IH w1 nd1 G1) as (w2 & nd2 & E2 & G2 & J2 & Hnd2 & He2 & S2 & P1 & P2 & P3);
      [lia|done| |].
    { rewrite X1, elem_of_app. subst nd1. case_decide as Hin; simpl; [|tauto]. right. auto. }
    exists w2, nd2. simpl. rewrite E1. simpl.
    split_and!; try done; [lia|congruence|..].
    + intros Hp. apply P1. subst nd1. case_decide as Hin; [done|done].
    + intros Hp Hlt. apply P2; [|lia]. subst nd1.
      rewrite decide_False; [done|]. intros [_ ?]%Hf. lia.
    + intros _ Hlt. destruct (decide (n ∈ fired)) as [Hin|Hnin].
      * by apply P1.
      * subst nd1. destruct (tn_pending nd) eqn:Hp; [|by apply P1].
        destruct k as [|k]; [|apply P3; lia].
        simpl in *. injection E2 as <-. exfalso. apply Hnin. eapply L1; [done|done|lia].
Qed.
End invariant.

(** ** Properties *)

(** C23: a timer fires on time: a node armed with deadline [e] is still pending
    at every tick before [e] and has been handed to the workers at every tick
    after [e]; so it fires at tick [e] or [e + 1], whatever level of the wheel
    it was put in and however often it was cascaded. *)
Theorem wheel_fires_on_time {N C : Type} `{Countable N} (w : timer_wheel N C) n nd (k : nat) :
  wheel_good w → w_jiffies w + Z.of_nat k + 2 ^ 33 < 2 ^ 63 → (0 < k)%nat →
  w_nodes w !! n = Some nd → tn_pending nd = true → n ∉ w_expired_list w →
  ∃ w' nd', wheel_ticks k w = Some w' ∧ w_nodes w' !! n = Some nd'
    ∧ (w_jiffies w + Z.of_nat k < tn_expires nd → tn_pending nd' = true ∧ n ∉ w_expired_list w')
    ∧ (tn_expires nd < w_jiffies w + Z.of_nat k → tn_pending nd' = false ∧ n ∈ w_expired_list w').
Proof.
  intros Hw Hj Hk Hnd Hp Hx.
  destruct (wheel_ticks_spec k w n nd) as (w' & nd' & E & _ & J & Hnd' & _ & S & _ & P2 & P3);
    [done..|by left|].
  exists w', nd'. rewrite J in *. split_and!; [done|done| |]; intros He.
  - specialize (P2 Hp He). destruct S as [?|[? _]]; [done|congruence].
  - specialize (P3 Hk He). destruct S as [[? _]|?]; [congruence|done].
Qed.

(** C24: arming, re-arming and deleting a node that is neither on the expired
    list nor in the batch of a worker keep the wheel well formed (every node in
    one list, every pending node in the bucket of its deadline).  The deadline
    is the delay rounded up to a whole number of ticks: [timer_add] and
    [timer_mod] leave the node pending at [jiffies + ceil(ms / tick_ms)];
    [timer_add_periodic], whose period is rounded down, but to one tick at
    least, leaves it pending one period ahead; [timer_del] leaves it in no
    bucket.  (For a node in a batch see WheelRace.) *)
Theorem wheel_operations_ok {N C : Type} `{Countable N} (w : timer_wheel N C) n nd ms cb :
  wheel_good w → w_running w = true → w_nodes w !! n = Some nd →
  n ∉ w_expired_list w → n ∉ mjoin (w_batches w) → 0 ≤ ms < 2 ^ 32 →
  (∃ w' nd', timer_add w n ms cb = Some (0, w')
     ∧ armed w n (w_jiffies w + (ms + w_tick_ms w - 1) / w_tick_ms w) nd' w'
     ∧ tn_callback nd' = cb)
  ∧ (∃ w' nd', timer_mod w n ms = Some (0, w')
     ∧ armed w n (w_jiffies w + (ms + w_tick_ms w - 1) / w_tick_ms w) nd' w'
     ∧ tn_callback nd' = tn_callback nd)
  ∧ (if ms =? 0 then timer_add_periodic w n ms cb = Some (- EINVAL, w)
     else ∃ w' nd', timer_add_periodic w n ms cb = Some (0, w')
       ∧ armed w n (w_jiffies w + Z.max 1 (ms / w_tick_ms w)) nd' w'
       ∧ tn_callback nd' = cb ∧ tn_period nd' = Z.max 1 (ms / w_tick_ms w))
  ∧ (∃ rc w' nd', timer_del w n = Some (rc, w') ∧ wheel_good w' ∧ same_frame w w'
     ∧ w_nodes w' = <[n := nd']> (w_nodes w) ∧ ¬ linked w' n).
Proof.
  intros Hw Hr Hnd He Hb Hms. pose proof Hw as (Hi & Hj & Hj2).
  destruct (expiry_bound w ms) as [<- _]; [done|done|by destruct Hi|done|].
  split; [|split; [|split]].
  - destruct (timer_add_spec w n nd ms cb) as (w' & ? & ?); [done..|]. by do 2 eexists.
  - destruct (timer_mod_spec w n nd ms) as (w' & ? & ?); [done..|]. by do 2 eexists.
  - destruct (Z.eqb_spec ms 0) as [->|Hne]; [done|].
    destruct (timer_add_periodic_spec w n nd ms cb) as (w' & ? & ?); [done..|lia|]. by do 2 eexists.
  - destruct (timer_del_spec w n nd Hw Hnd) as (rc & w' & nd' & E & G & F & Hn & Hp & _).
    exists rc, w', nd'. do 4 (split; [done|]).
    destruct F as (_&_&_&FE&FB). rewrite linked_iff, FE, FB. intros [[k Hk]|[?|?]]; [|done..].
    destruct G as [[] _]. destruct (wi_pos0 k n Hk) as (nd2 & Hnd2 & ? & _).
    rewrite Hn, lookup_insert_eq in Hnd2. injection Hnd2 as <-. congruence.
Qed.

(** ** Witnesses *)

(** A wheel of 10 ms ticks with one node in memory, not armed. *)
Definition wheel_example : timer_wheel nat nat :=
  wheel_alloc (default (mk_timer_wheel 0 1 true [] [] [] ∅) (timer_wheel_create 10 2)) 7%nat.

Lemma wheel_example_good : wheel_good wheel_example.
Proof.
  apply wheel_alloc_good; [|done].
  by apply (timer_wheel_create_good (N := nat) (C := nat) 10 2).
Qed.

Lemma wheel_operations_ok_witness :
  ∃ w' nd', timer_add wheel_example 7%nat 15 (Some 1%nat) = Some (0, w')
    ∧ armed wheel_example 7%nat 2 nd' w' ∧ tn_callback nd' = Some 1%nat.
Proof.
  apply (wheel_operations_ok wheel_example 7%nat zero_node 15 (Some 1%nat));
    [exact wheel_example_good|done|done|by intros ?%elem_of_nil| |lia].
  simpl. by intros ?%elem_of_nil.
Defined.

(** The deadline of 2610 ms is tick 261, reached through a cascade of tv2. *)
Lemma wheel_fires_on_time_witness :
  ∃ w nd w' nd', timer_add wheel_example 7%nat 2610 None = Some (0, w)
    ∧ w_nodes w !! 7%nat = Some nd ∧ tn_expires nd = 261
    ∧ wheel_ticks 262 w = Some w' ∧ w_nodes w' !! 7%nat = Some nd' ∧ tn_pending nd' = false.
Proof.
  destruct (timer_add_spec wheel_example 7%nat zero_node 2610 None) as (w & E & G & F & Hn & Hp & He);
    [exact wheel_example_good|done|done|by intros ?%elem_of_nil|by intros ?%elem_of_nil|lia|].
  assert (w_nodes w !! 7%nat = Some (mk_timer_node 261 0 None true true false)) as Hnd
    by (rewrite Hn; reflexivity).
  destruct F as (FJ & _ & _ & FE & _).
  destruct (wheel_fires_on_time w 7%nat (mk_timer_node 261 0 None true true false) 262 G)
    as (w' & nd' & Ht & Hnd' & _ & Hl).
  - rewrite FJ. reflexivity.
  - lia.
  - exact Hnd.
  - reflexivity.
  - rewrite FE. by intros ?%elem_of_nil.
  - exists w, (mk_timer_node 261 0 None true true false), w', nd'.
    split_and!; try done. apply Hl. rewrite FJ. reflexivity.
Defined.

(** A deadline that is a multiple of 256 ticks and more than a turn of tv1 away
    is reached by a cascade that sees it as already due, so it fires one tick
    late: here the deadline is 256 and the node is still pending after it. *)
Example wheel_fires_late :
  ('(_, w) ← timer_add wheel_example 7%nat 2560 None;
   w ← wheel_ticks 256 w;
   nd ← w_nodes w !! 7%nat;
   Some (tn_expires nd, w_jiffies w, tn_pending nd)) = Some (256, 256, true).
Proof. vm_compute. reflexivity. Qed.
