(* ===== verification/DList.v ===== *)
(** * Intrusive doubly linked lists (wheel_timer/list.h)

    The memory is a finite map from addresses to [struct list_head]; a pointer
    is [Some] address or NULL, and an operation is [None] when it goes through
    NULL or outside the memory.  [dlist h hd l] says that the ring of the head
    [hd] holds the nodes [l]; each operation is shown to do to [l] what its
    name says, and to write to no node but those of its rings. *)

From stdpp Require Import base list option gmap sets.
From S2P Require Import Prelude.

Record list_head {L : Type} := mk_list_head { next : option L; prev : option L }.
Arguments list_head : clear implicits.
Arguments mk_list_head {L}.

Section dlist.
Context {L : Type} `{Countable L}.
Local Notation heap := (gmap L (list_head L)).
Local Notation ptr := (option L).
Implicit Types h : heap.
Implicit Types a b n hd x y : L.
Implicit Types l m : list L.

(** ** Access through a pointer *)

Definition deref h (p : ptr) : option (list_head L) := a ← p; h !! a.
Definition get_next h (p : ptr) : option ptr := next <$> deref h p.
Definition get_prev h (p : ptr) : option ptr := prev <$> deref h p.
Definition set_next h (p v : ptr) : option heap :=
  a ← p; c ← h !! a; Some (<[a := mk_list_head v (prev c)]> h).
Definition set_prev h (p v : ptr) : option heap :=
  a ← p; c ← h !! a; Some (<[a := mk_list_head (next c) v]> h).

(** ** The operations *)

Definition INIT_LIST_HEAD h (list : ptr) : option heap :=
  h ← set_next h list list; set_prev h list list.

Definition __list_add h (new_node prev next : ptr) : option heap :=
  h ← set_prev h next new_node;
  h ← set_next h new_node next;
  h ← set_prev h new_node prev;
  set_next h prev new_node.

Definition list_add h (new_node head : ptr) : option heap :=
  nx ← get_next h head; __list_add h new_node head nx.

Definition list_add_tail h (new_node head : ptr) : option heap :=
  pv ← get_prev h head; __list_add h new_node pv head.

Definition __list_del h (prev next : ptr) : option heap :=
  h ← set_prev h next prev; set_next h prev next.

Definition list_del h (entry : ptr) : option heap :=
  pv ← get_prev h entry; nx ← get_next h entry;
  h ← __list_del h pv nx;
  h ← set_next h entry None; set_prev h entry None.

Definition list_del_init h (entry : ptr) : option heap :=
  pv ← get_prev h entry; nx ← get_next h entry;
  h ← __list_del h pv nx; INIT_LIST_HEAD h entry.

Definition list_empty h (head : ptr) : option bool :=
  nx ← get_next h head; Some (bool_decide (nx = head)).

Definition list_replace h (old new_node : ptr) : option heap :=
  nx ← get_next h old; h ← set_next h new_node nx;
  nx ← get_next h new_node; h ← set_prev h nx new_node;
  pv ← get_prev h old; h ← set_prev h new_node pv;
  pv ← get_prev h new_node; set_next h pv new_node.

Definition list_move h (list head : ptr) : option heap :=
  pv ← get_prev h list; nx ← get_next h list;
  h ← __list_del h pv nx; list_add h list head.

Definition list_move_tail h (list head : ptr) : option heap :=
  pv ← get_prev h list; nx ← get_next h list;
  h ← __list_del h pv nx; list_add_tail h list head.

Definition list_splice_init h (list head : ptr) : option heap :=
  e ← list_empty h list;
  if e : bool then Some h
  else
    first ← get_next h list; last ← get_prev h list; at_ ← get_next h head;
    h ← set_prev h first head; h ← set_next h head first;
    h ← set_next h last at_; h ← set_prev h at_ last;
    INIT_LIST_HEAD h list.

(** [list_for_each_safe(pos, n, head) body]: the body may relink [pos]; [S] is
    the state of the loop, with its memory in [mem]. *)
Section loop.
Context {S : Type} (mem : S → heap) (body : S → L → option S).
Fixpoint for_each_from (fuel : nat) (s : S) (pos n head : ptr) : option S :=
  if decide (pos = head) then Some s
  else match fuel with
       | 0%nat => None
       | Datatypes.S fuel =>
           p ← pos; s ← body s p; n' ← get_next (mem s) n; for_each_from fuel s n n' head
       end.
Definition list_for_each_safe (fuel : nat) (s : S) (head : ptr) : option S :=
  pos ← get_next (mem s) head; n ← get_next (mem s) pos; for_each_from fuel s pos n head.
End loop.

(** ** Rings *)

Definition nxt h a : ptr := h !! a ≫= next.
Definition prv h a : ptr := h !! a ≫= prev.

(** From [a] the links lead through [l], and back. *)
Fixpoint chain h a l : Prop :=
  match l with
  | [] => True
  | b :: l => nxt h a = Some b ∧ prv h b = Some a ∧ chain h b l
  end.

Definition last_of a l : L := default a (last l).

Definition dlist h hd l : Prop := NoDup (hd :: l) ∧ chain h hd (l ++ [hd]).

(** Only the links of the nodes [s] have been written. *)
Definition only h h' (s : list L) : Prop :=
  (∀ x, x ∉ s → h' !! x = h !! x) ∧ ∀ x, is_Some (h !! x) → is_Some (h' !! x).
End dlist.

Section lemmas.
Context {L : Type} `{Countable L}.
Local Notation heap := (gmap L (list_head L)).
Local Notation ptr := (option L).
Implicit Types h : heap.
Implicit Types a b n hd x y : L.
Implicit Types l m : list L.
Implicit Types v : ptr.

(** ** Single writes *)

Lemma nxt_live h a b : nxt h a = Some b → is_Some (h !! a).
Proof. unfold nxt. destruct (h !! a); [by eexists|done]. Qed.
Lemma prv_live h a b : prv h a = Some b → is_Some (h !! a).
Proof. unfold prv. destruct (h !! a); [by eexists|done]. Qed.
Hint Resolve nxt_live prv_live : core.

Lemma get_next_eq h a : is_Some (h !! a) → get_next h (Some a) = Some (nxt h a).
Proof. intros [c E]. unfold get_next, deref, nxt. simpl. by rewrite E. Qed.
Lemma get_prev_eq h a : is_Some (h !! a) → get_prev h (Some a) = Some (prv h a).
Proof. intros [c E]. unfold get_prev, deref, prv. simpl. by rewrite E. Qed.

Lemma only_refl h s : only h h s.
Proof. by split. Qed.
Lemma only_trans h1 h2 h3 s : only h1 h2 s → only h2 h3 s → only h1 h3 s.
Proof. intros [A1 B1] [A2 B2]. split; [|auto]. intros x Hx. by rewrite A2, A1. Qed.
Lemma only_weaken h h' s s' : only h h' s → (∀ x, x ∈ s → x ∈ s') → only h h' s'.
Proof. intros [A B] Hs. split; [|done]. intros x Hx. apply A. auto. Qed.

Lemma only_app h1 h2 h3 s t : only h1 h2 s → only h2 h3 t → only h1 h3 (s ++ t).
Proof.
  intros H1 H2. eapply only_trans; [eapply only_weaken; [exact H1|]|eapply only_weaken; [exact H2|]];
    intros x; rewrite elem_of_app; tauto.
Qed.

Lemma only_insert h a c s : a ∈ s → only h (<[a := c]> h) s.
Proof.
  intros Ha. split; intros x Hx.
  - rewrite lookup_insert_ne; [done|]. by intros ->.
  - by apply lookup_insert_is_Some'; right.
Qed.

(** What a write to a link does to both links of every node. *)
Lemma set_next_spec h a v :
  is_Some (h !! a) → ∃ h', set_next h (Some a) v = Some h'
    ∧ (∀ x, nxt h' x = if decide (x = a) then v else nxt h x) ∧ (∀ x, prv h' x = prv h x)
    ∧ only h h' [a].
Proof.
  intros [c E]. unfold set_next, nxt, prv. simpl. rewrite E. simpl. eexists. split_and!; [done|..].
  - intros x. case_decide as Hx; [subst; by rewrite lookup_insert_eq|by rewrite lookup_insert_ne].
  - intros x. destruct (decide (a = x)) as [<-|]; [by rewrite lookup_insert_eq, E|].
    by rewrite lookup_insert_ne.
  - apply only_insert. left.
Qed.

Lemma set_prev_spec h a v :
  is_Some (h !! a) → ∃ h', set_prev h (Some a) v = Some h'
    ∧ (∀ x, nxt h' x = nxt h x) ∧ (∀ x, prv h' x = if decide (x = a) then v else prv h x)
    ∧ only h h' [a].
Proof.
  intros [c E]. unfold set_prev, nxt, prv. simpl. rewrite E. simpl. eexists. split_and!; [done|..].
  - intros x. destruct (decide (a = x)) as [<-|]; [by rewrite lookup_insert_eq, E|].
    by rewrite lookup_insert_ne.
  - intros x. case_decide as Hx; [subst; by rewrite lookup_insert_eq|by rewrite lookup_insert_ne].
  - apply only_insert. left.
Qed.

Lemma only_live h h' s x : only h h' s → is_Some (h !! x) → is_Some (h' !! x).
Proof. intros [_ Hd]. auto. Qed.

(** ** Chains *)

Lemma last_of_cons a b l : last_of a (b :: l) = last_of b l.
Proof. unfold last_of. rewrite last_cons. by destruct (last l). Qed.
Lemma last_of_snoc a l b : last_of a (l ++ [b]) = b.
Proof. unfold last_of. by rewrite last_snoc. Qed.
Lemma last_of_in a l : last_of a l ∈ a :: l.
Proof.
  unfold last_of. destruct (last l) eqn:E; simpl; [|left]. right.
  apply last_Some in E as [l' ->]. apply elem_of_app. right. left.
Qed.

Lemma chain_app h a l1 l2 : chain h a (l1 ++ l2) ↔ chain h a l1 ∧ chain h (last_of a l1) l2.
Proof.
  revert a. induction l1 as [|b l1 IH]; intros a; simpl; [unfold last_of; simpl; tauto|].
  rewrite IH, last_of_cons. tauto.
Qed.

(** A chain reads the forward links of all its nodes but the last, and the
    backward links of all but the first. *)
Lemma chain_frame h h' a l :
  NoDup (a :: l) → (∀ x, x ∈ a :: l → x ≠ last_of a l → nxt h' x = nxt h x) →
  (∀ x, x ∈ l → prv h' x = prv h x) → chain h a l → chain h' a l.
Proof.
  revert a. induction l as [|b l IH]; intros a Hnd Hn Hp; simpl; [done|].
  intros (E1 & E2 & Hc). apply NoDup_cons in Hnd as [Ha Hnd].
  assert (last_of b l ∈ b :: l) as Hl by apply last_of_in.
  rewrite last_of_cons in Hn. split_and!.
  - rewrite Hn; [done|left|]. by intros ->.
  - rewrite Hp; [done|left].
  - apply IH; [done|..|done]; intros x Hx; [|apply Hp; by right].
    apply Hn. by right.
Qed.

(** A chain is untouched when its nodes are. *)
Lemma chain_same h h' a l :
  (∀ x, x ∈ a :: l → h' !! x = h !! x) → chain h a l → chain h' a l.
Proof.
  revert a. induction l as [|b l IH]; intros a He; simpl; [done|]. intros (E1 & E2 & Hc).
  unfold nxt, prv in *. rewrite !He by (by repeat constructor). split_and!; [done..|].
  apply IH; [|done]. intros x Hx. apply He. by right.
Qed.

Lemma chain_live h a l x : chain h a l → x ∈ l → is_Some (h !! x).
Proof.
  revert a. induction l as [|b l IH]; intros a; simpl; [by intros _ ?%elem_of_nil|].
  intros (_ & E2 & Hc) [Hx|Hx]%elem_of_cons; [subst; eauto|by eapply IH].
Qed.

(** ** Rings *)

Lemma dlist_live h hd l x : dlist h hd l → x ∈ hd :: l → is_Some (h !! x).
Proof.
  intros [_ Hc] Hx. eapply chain_live; [exact Hc|].
  rewrite elem_of_app, list_elem_of_singleton. apply elem_of_cons in Hx. tauto.
Qed.

Lemma dlist_frame h h' s hd l :
  dlist h hd l → only h h' s → (∀ x, x ∈ hd :: l → x ∉ s) → dlist h' hd l.
Proof.
  intros [Hnd Hc] [Hs _] Hd. split; [done|]. eapply chain_same; [|exact Hc].
  intros x Hx. apply Hs, Hd. revert Hx. rewrite !elem_of_cons, elem_of_app, list_elem_of_singleton.
  tauto.
Qed.

(** The two neighbours of a place between [l1] and [l2] in a ring. *)
Definition first_of l b : L := default b (hd_error l).

Lemma first_of_app l b : ∃ r, l ++ [b] = first_of l b :: r.
Proof. destruct l; by eexists. Qed.
Lemma first_of_in l b : first_of l b ∈ l ++ [b].
Proof. destruct (first_of_app l b) as [r ->]. left. Qed.

Lemma dlist_split h hd l1 l2 :
  dlist h hd (l1 ++ l2) →
  NoDup (hd :: l1) ∧ NoDup (l2 ++ [hd]) ∧ (∀ x, x ∈ l1 → x ∉ l2 ++ [hd])
  ∧ chain h hd l1 ∧ chain h (first_of l2 hd) (tail (l2 ++ [hd]))
  ∧ nxt h (last_of hd l1) = Some (first_of l2 hd) ∧ prv h (first_of l2 hd) = Some (last_of hd l1).
Proof.
  intros [Hnd Hc]. apply NoDup_cons in Hnd as [Hh Hnd]. apply NoDup_app in Hnd as (N1 & N12 & N2).
  rewrite elem_of_app in Hh. rewrite <- app_assoc, chain_app in Hc. destruct Hc as [C1 C2].
  destruct (first_of_app l2 hd) as [r E]. rewrite E in C2 |- *. destruct C2 as (E1 & E2 & C2).
  split_and!; try done.
  - apply NoDup_cons; tauto.
  - rewrite <- E. apply NoDup_app. split_and!; [done| |apply NoDup_singleton].
    intros x Hx Hx2%list_elem_of_singleton. subst. tauto.
  - rewrite <- E. intros x Hx [Hx2|Hx2]%elem_of_app; [by eapply N12|]. apply list_elem_of_singleton in Hx2 as ->; tauto.
Qed.

(** A ring whose links have been redirected at one place, to lead through
    [mid] there. *)
Lemma dlist_relink h h' hd l1 mid l2 :
  NoDup (hd :: l1 ++ mid ++ l2) →
  chain h hd l1 → chain h (first_of l2 hd) (tail (l2 ++ [hd])) →
  (∀ x, x ∈ hd :: l1 ++ l2 → x ≠ last_of hd l1 → nxt h' x = nxt h x) →
  (∀ x, x ∈ hd :: l1 ++ l2 → x ≠ first_of l2 hd → prv h' x = prv h x) →
  chain h' (last_of hd l1) (mid ++ [first_of l2 hd]) → dlist h' hd (l1 ++ mid ++ l2).
Proof.
  intros Hnd C1 C2 Hn Hp Cm. split; [done|].
  apply NoDup_cons in Hnd as [Hh (N1 & N12 & N2)%NoDup_app].
  apply NoDup_app in N2 as (_ & _ & N2). rewrite !elem_of_app in Hh.
  assert (NoDup (l2 ++ [hd])) as Nq.
  { apply NoDup_app. split_and!; [done| |apply NoDup_singleton].
    intros x Hx Hx2%list_elem_of_singleton. subst. tauto. }
  assert (∀ x, x ∈ l1 → x ∉ l2 ++ [hd]) as Nd.
  { intros x Hx. rewrite elem_of_app, list_elem_of_singleton. intros [Hx2|Hx2]; [|subst; tauto].
    eapply N12; [done|]. rewrite elem_of_app. tauto. }
  pose proof (first_of_in l2 hd) as Hq. rewrite <- !app_assoc.
  destruct (first_of_app l2 hd) as [r E]. rewrite E in *. simpl in C2.
  rewrite chain_app. split.
  - eapply chain_frame; [|..|exact C1].
    + apply NoDup_cons. split; tauto.
    + intros x Hx. apply Hn. revert Hx. rewrite !elem_of_cons, elem_of_app. tauto.
    + intros x Hx. apply Hp; [rewrite elem_of_cons, elem_of_app; tauto|].
      intros ->. by eapply Nd.
  - change (first_of l2 hd :: r) with ([first_of l2 hd] ++ r). rewrite app_assoc, chain_app.
    split; [done|]. rewrite last_of_snoc.
    assert (∀ x, x ∈ first_of l2 hd :: r → x ∈ hd :: l1 ++ l2) as Hin.
    { intros x. rewrite <- E, elem_of_cons, !elem_of_app, list_elem_of_singleton. tauto. }
    eapply chain_frame; [done|..|exact C2].
    + intros x Hx Hl. apply Hn; [auto|]. intros ->.
      assert (last_of (first_of l2 hd) r = hd) as El
        by (rewrite <- (last_of_cons hd), <- E; apply last_of_snoc).
      pose proof (last_of_in hd l1) as Hl1. apply elem_of_cons in Hl1 as [Hl1|Hl1]; [congruence|].
      by eapply Nd.
    + intros x Hx. apply Hp; [apply Hin; by right|]. intros ->.
      by apply NoDup_cons in Nq as [? _].
Qed.

Ltac write :=
  match goal with
  | |- context [set_next ?h (Some ?a) ?v] =>
      destruct (set_next_spec h a v) as (?h & -> & ?N & ?P & ?O)
  | |- context [set_prev ?h (Some ?a) ?v] =>
      destruct (set_prev_spec h a v) as (?h & -> & ?N & ?P & ?O)
  end; cbn [mbind option_bind]; [eauto 6 using only_live|].

(** ** The primitives on the two sides of a place *)

Lemma __list_add_spec h n p q :
  is_Some (h !! n) → is_Some (h !! p) → is_Some (h !! q) →
  ∃ h', __list_add h (Some n) (Some p) (Some q) = Some h' ∧ only h h' [n; p; q]
    ∧ (∀ x, nxt h' x = if decide (x = p) then Some n else if decide (x = n) then Some q else nxt h x)
    ∧ ∀ x, prv h' x = if decide (x = n) then Some p else if decide (x = q) then Some n else prv h x.
Proof.
  intros Hn Hp Hq. unfold __list_add. do 4 write. eexists. split_and!; [done|..].
  - eapply only_weaken; [do 3 (eapply only_app; [eassumption|]); eassumption|].
    intros x. simpl. set_solver.
  - intros x. by rewrite N2, N1, N0, N.
  - intros x. by rewrite P2, P1, P0, P.
Qed.

Lemma __list_del_spec h p q :
  is_Some (h !! p) → is_Some (h !! q) →
  ∃ h', __list_del h (Some p) (Some q) = Some h' ∧ only h h' [p; q]
    ∧ (∀ x, nxt h' x = if decide (x = p) then Some q else nxt h x)
    ∧ ∀ x, prv h' x = if decide (x = q) then Some p else prv h x.
Proof.
  intros Hp Hq. unfold __list_del. do 2 write. eexists. split_and!; [done|..].
  - eapply only_weaken; [eapply only_app; eassumption|]. intros x. simpl. set_solver.
  - intros x. by rewrite N0, N.
  - intros x. by rewrite P0, P.
Qed.

(** ** Rings under the primitives *)

Lemma dlist_ends h hd l :
  dlist h hd l → nxt h hd = Some (first_of l hd) ∧ prv h hd = Some (last_of hd l).
Proof.
  intros Hd. split.
  - by destruct (dlist_split h hd [] l) as (_ & _ & _ & _ & _ & ? & _).
  - destruct (dlist_split h hd l []) as (_ & _ & _ & _ & _ & _ & ?); [by rewrite app_nil_r|done].
Qed.

Lemma dlist_at h hd l1 n l2 :
  dlist h hd (l1 ++ n :: l2) → nxt h n = Some (first_of l2 hd) ∧ prv h n = Some (last_of hd l1).
Proof.
  intros Hd. split.
  - destruct (dlist_split h hd (l1 ++ [n]) l2) as (_ & _ & _ & _ & _ & E & _);
      [by rewrite <- app_assoc|]. by rewrite last_of_snoc in E.
  - by destruct (dlist_split h hd l1 (n :: l2)) as (_ & _ & _ & _ & _ & _ & ?).
Qed.

Lemma ring_add h hd l1 l2 n :
  dlist h hd (l1 ++ l2) → n ∉ hd :: l1 ++ l2 → is_Some (h !! n) →
  ∃ h', __list_add h (Some n) (Some (last_of hd l1)) (Some (first_of l2 hd)) = Some h'
    ∧ dlist h' hd (l1 ++ n :: l2) ∧ only h h' (n :: hd :: l1 ++ l2).
Proof.
  intros Hd Hn Hl. pose proof (last_of_in hd l1) as Hp. pose proof (first_of_in l2 hd) as Hq.
  destruct (dlist_split h hd l1 l2 Hd) as (N1 & N2 & N12 & C1 & C2 & E1 & E2).
  destruct (__list_add_spec h n (last_of hd l1) (first_of l2 hd)) as (h' & -> & O & N & P);
    [eauto..|]. exists h'. split_and!; [done| |].
  - pose proof (proj1 Hd) as Hnd. apply (dlist_relink h h' hd l1 [n] l2); try done.
    + apply NoDup_cons in Hnd as [Hh Hnd]. rewrite elem_of_cons in Hn.
      apply NoDup_cons. split; [set_solver|].
      rewrite (Permutation_app_comm [n] l2), app_assoc. apply NoDup_app.
      split_and!; [done|set_solver|apply NoDup_singleton].
    + intros x Hx Hxp. rewrite N, !decide_False; [done|set_solver|done].
    + intros x Hx Hxq. rewrite P, !decide_False; [done|done|set_solver].
    + simpl. assert (last_of hd l1 ≠ n) by set_solver. assert (first_of l2 hd ≠ n) by set_solver.
      rewrite !N, !P. split_and!; repeat case_decide; done || congruence.
  - eapply only_weaken; [exact O|]. set_solver.
Qed.

(** The node that is taken out keeps its links. *)
Lemma ring_del h hd l1 n l2 :
  dlist h hd (l1 ++ n :: l2) →
  ∃ h', __list_del h (Some (last_of hd l1)) (Some (first_of l2 hd)) = Some h'
    ∧ dlist h' hd (l1 ++ l2) ∧ only h h' (hd :: l1 ++ l2).
Proof.
  intros Hd. pose proof (last_of_in hd l1) as Hp. pose proof (first_of_in l2 hd) as Hq.
  destruct (dlist_split h hd l1 (n :: l2) Hd) as (_ & _ & _ & C1 & C2 & _ & _).
  pose proof (proj1 Hd) as Hnd.
  assert (NoDup (hd :: l1 ++ l2)) as Hnd'.
  { revert Hnd. rewrite <- Permutation_middle, !NoDup_cons. set_solver. }
  destruct (__list_del_spec h (last_of hd l1) (first_of l2 hd)) as (h' & -> & O & N & P);
    [eapply dlist_live; [exact Hd|set_solver]..|]. exists h'. split_and!; [done| |].
  - apply (dlist_relink h h' hd l1 [] l2); try done.
    + simpl in C2. destruct (first_of_app l2 hd) as [r E]. rewrite E in *. apply C2.
    + intros x _ Hx. by rewrite N, decide_False.
    + intros x _ Hx. by rewrite P, decide_False.
    + simpl. by rewrite N, P, !decide_True.
  - eapply only_weaken; [exact O|]. set_solver.
Qed.

Lemma INIT_LIST_HEAD_spec h a :
  is_Some (h !! a) → ∃ h', INIT_LIST_HEAD h (Some a) = Some h' ∧ dlist h' a [] ∧ only h h' [a].
Proof.
  intros Ha. unfold INIT_LIST_HEAD. do 2 write. eexists. split_and!; [done| |].
  - split; [apply NoDup_singleton|]. simpl. rewrite N0, N, P0, !decide_True; done.
  - eapply only_trans; eassumption.
Qed.

(** ** The operations *)

Lemma list_add_spec h hd l n :
  dlist h hd l → n ∉ hd :: l → is_Some (h !! n) →
  ∃ h', list_add h (Some n) (Some hd) = Some h' ∧ dlist h' hd (n :: l) ∧ only h h' (n :: hd :: l).
Proof.
  intros Hd Hn Hl. destruct (dlist_ends h hd l Hd) as [E _]. unfold list_add.
  rewrite get_next_eq, E by (eapply dlist_live; [exact Hd|left]). by apply (ring_add h hd [] l n).
Qed.

Lemma list_add_tail_spec h hd l n :
  dlist h hd l → n ∉ hd :: l → is_Some (h !! n) →
  ∃ h', list_add_tail h (Some n) (Some hd) = Some h' ∧ dlist h' hd (l ++ [n])
    ∧ only h h' (n :: hd :: l).
Proof.
  intros Hd Hn Hl. destruct (dlist_ends h hd l Hd) as [_ E]. unfold list_add_tail.
  rewrite get_prev_eq, E by (eapply dlist_live; [exact Hd|left]).
  rewrite <- (app_nil_r l) in Hd, Hn. destruct (ring_add h hd l [] n) as (h' & Ea & Hd' & Ho);
    [done..|]. rewrite app_nil_r in Ho. eauto.
Qed.

(** The common part of the four operations that take a node out. *)
Lemma unlink_spec h hd l1 n l2 :
  dlist h hd (l1 ++ n :: l2) →
  ∃ h', (∀ B (k : heap → option B),
      (pv ← get_prev h (Some n); nx ← get_next h (Some n); h ← __list_del h pv nx; k h) = k h')
    ∧ dlist h' hd (l1 ++ l2) ∧ only h h' (hd :: l1 ++ l2) ∧ n ∉ hd :: l1 ++ l2 ∧ is_Some (h' !! n).
Proof.
  intros Hd. assert (is_Some (h !! n)) as Hn by (eapply dlist_live; [exact Hd|set_solver]).
  destruct (dlist_at h hd l1 n l2 Hd) as [E1 E2]. destruct (ring_del h hd l1 n l2 Hd) as (h' & E & Hd' & Ho).
  exists h'. split_and!; [|done|done| |by eapply only_live].
  - intros B k. rewrite get_prev_eq, get_next_eq, E1, E2 by done. cbn [mbind option_bind].
    by rewrite E.
  - pose proof (proj1 Hd) as Hnd. revert Hnd.
    rewrite <- Permutation_middle, !NoDup_cons. set_solver.
Qed.

Lemma list_del_spec h hd l1 n l2 :
  dlist h hd (l1 ++ n :: l2) →
  ∃ h', list_del h (Some n) = Some h' ∧ dlist h' hd (l1 ++ l2) ∧ nxt h' n = None ∧ prv h' n = None
    ∧ only h h' (n :: hd :: l1 ++ l2).
Proof.
  intros Hd. destruct (unlink_spec h hd l1 n l2 Hd) as (h1 & E & Hd1 & O1 & Hn & Hl).
  unfold list_del. rewrite E. do 2 write. eexists. split_and!; [done|..].
  - eapply dlist_frame; [eapply dlist_frame; [exact Hd1|exact O|]|exact O0|]; set_solver.
  - by rewrite N0, N, decide_True.
  - by rewrite P0, decide_True.
  - eapply only_weaken; [eapply only_app; [exact O1|eapply only_app; [exact O|exact O0]]|]. set_solver.
Qed.

Lemma list_del_init_spec h hd l1 n l2 :
  dlist h hd (l1 ++ n :: l2) →
  ∃ h', list_del_init h (Some n) = Some h' ∧ dlist h' hd (l1 ++ l2) ∧ dlist h' n []
    ∧ only h h' (n :: hd :: l1 ++ l2).
Proof.
  intros Hd. destruct (unlink_spec h hd l1 n l2 Hd) as (h1 & E & Hd1 & O1 & Hn & Hl).
  unfold list_del_init. rewrite E. destruct (INIT_LIST_HEAD_spec h1 n Hl) as (h2 & -> & Hd2 & O2).
  exists h2. split_and!; [done| |done|].
  - eapply dlist_frame; [exact Hd1|exact O2|]. set_solver.
  - eapply only_weaken; [eapply only_app; [exact O1|exact O2]|]. set_solver.
Qed.

Lemma list_move_spec h hd1 l1 n l2 hd2 m :
  dlist h hd1 (l1 ++ n :: l2) → dlist h hd2 m → (∀ x, x ∈ hd2 :: m → x ∉ hd1 :: l1 ++ n :: l2) →
  ∃ h', list_move h (Some n) (Some hd2) = Some h' ∧ dlist h' hd1 (l1 ++ l2) ∧ dlist h' hd2 (n :: m)
    ∧ only h h' (n :: hd2 :: m ++ hd1 :: l1 ++ l2).
Proof.
  intros Hd Hm Hdis. destruct (unlink_spec h hd1 l1 n l2 Hd) as (h1 & E & Hd1 & O1 & Hn & Hl).
  unfold list_move. rewrite E. destruct (list_add_spec h1 hd2 m n) as (h2 & -> & Hm2 & O2);
    [eapply dlist_frame; [exact Hm|exact O1|]; set_solver|set_solver|done|].
  exists h2. split_and!; [done| |done|].
  - eapply dlist_frame; [exact Hd1|exact O2|]. set_solver.
  - eapply only_weaken; [eapply only_app; [exact O1|exact O2]|]. set_solver.
Qed.

Lemma list_move_tail_spec h hd1 l1 n l2 hd2 m :
  dlist h hd1 (l1 ++ n :: l2) → dlist h hd2 m → (∀ x, x ∈ hd2 :: m → x ∉ hd1 :: l1 ++ n :: l2) →
  ∃ h', list_move_tail h (Some n) (Some hd2) = Some h' ∧ dlist h' hd1 (l1 ++ l2)
    ∧ dlist h' hd2 (m ++ [n]) ∧ only h h' (n :: hd2 :: m ++ hd1 :: l1 ++ l2).
Proof.
  intros Hd Hm Hdis. destruct (unlink_spec h hd1 l1 n l2 Hd) as (h1 & E & Hd1 & O1 & Hn & Hl).
  unfold list_move_tail. rewrite E. destruct (list_add_tail_spec h1 hd2 m n) as (h2 & -> & Hm2 & O2);
    [eapply dlist_frame; [exact Hm|exact O1|]; set_solver|set_solver|done|].
  exists h2. split_and!; [done| |done|].
  - eapply dlist_frame; [exact Hd1|exact O2|]. set_solver.
  - eapply only_weaken; [eapply only_app; [exact O1|exact O2]|]. set_solver.
Qed.

Lemma list_empty_spec h hd l :
  dlist h hd l → list_empty h (Some hd) = Some (bool_decide (l = [])).
Proof.
  intros Hd. unfold list_empty. destruct (dlist_ends h hd l Hd) as [E _].
  rewrite get_next_eq, E by (eapply dlist_live; [exact Hd|left]). cbn [mbind option_bind].
  f_equal. apply bool_decide_ext. destruct l as [|x l]; [done|]. split; [|done].
  unfold first_of. simpl. intros [= Ex]. destruct Hd as [Hnd _].
  apply NoDup_cons in Hnd as [Hh _]. destruct Hh. rewrite Ex. left.
Qed.

Lemma list_replace_spec h hd l1 n n' l2 :
  dlist h hd (l1 ++ n :: l2) → n' ∉ hd :: l1 ++ n :: l2 → is_Some (h !! n') →
  ∃ h', list_replace h (Some n) (Some n') = Some h' ∧ dlist h' hd (l1 ++ n' :: l2)
    ∧ only h h' (n' :: hd :: l1 ++ l2).
Proof.
  intros Hd Hn' Hl. destruct (dlist_at h hd l1 n l2 Hd) as [E1 E2].
  assert (∀ x, x ∈ hd :: l1 ++ n :: l2 → is_Some (h !! x)) as Hlive by (intros x; by eapply dlist_live).
  pose proof (last_of_in hd l1) as Hp. pose proof (first_of_in l2 hd) as Hq.
  destruct (dlist_split h hd l1 (n :: l2) Hd) as (_ & _ & _ & C1 & C2 & _ & _).
  pose proof (proj1 Hd) as Hnd. rewrite <- Permutation_middle, !NoDup_cons in Hnd.
  set (p := last_of hd l1) in *. set (q := first_of l2 hd) in *.
  assert (is_Some (h !! n) ∧ is_Some (h !! p) ∧ is_Some (h !! q)) as (Ln & Lp & Lq)
    by (split_and!; apply Hlive; set_solver).
  assert (n ≠ n' ∧ p ≠ n' ∧ q ≠ n' ∧ n ≠ p ∧ n ≠ q) as (D1 & D2 & D3 & D4 & D5)
    by (split_and!; set_solver).
  unfold list_replace. rewrite get_next_eq, E1 by done. cbn [mbind option_bind]. write.
  rewrite get_next_eq, N, decide_True by eauto using only_live. cbn [mbind option_bind]. write.
  rewrite get_prev_eq, P0, decide_False, P, E2 by eauto using only_live. cbn [mbind option_bind].
  write. rewrite get_prev_eq, P1, decide_True by eauto 6 using only_live. cbn [mbind option_bind].
  write. eexists. split_and!; [done| |].
  - apply (dlist_relink h _ hd l1 [n'] l2); try done.
    + simpl. rewrite <- Permutation_middle, !NoDup_cons. set_solver.
    + simpl in C2. subst q. destruct (first_of_app l2 hd) as [r E]. rewrite E in *. apply C2.
    + intros x Hx Hxp. rewrite N2, N1, N0, N, !decide_False; [done|set_solver|done].
    + intros x Hx Hxq. rewrite P2, P1, P0, P, !decide_False; [done|done|set_solver].
    + simpl. fold p q. rewrite !N2, !N1, !N0, !N, !P2, !P1, !P0, !P.
      split_and!; repeat case_decide; done || congruence.
  - eapply only_weaken; [do 3 (eapply only_app; [eassumption|]); eassumption|]. simpl. set_solver.
Qed.

Lemma list_splice_init_spec h a l hd m :
  dlist h a l → dlist h hd m → (∀ x, x ∈ a :: l → x ∉ hd :: m) →
  ∃ h', list_splice_init h (Some a) (Some hd) = Some h' ∧ dlist h' a [] ∧ dlist h' hd (l ++ m)
    ∧ only h h' (a :: l ++ hd :: m).
Proof.
  intros Ha Hm Hdis. unfold list_splice_init. rewrite (list_empty_spec h a l) by done.
  cbn [mbind option_bind]. case_bool_decide as El.
  { subst l. exists h. split_and!; [done..|]. apply only_refl. }
  assert (∀ x, x ∈ a :: l ∨ x ∈ hd :: m → is_Some (h !! x)) as Hlive
    by (intros x [?|?]; [by apply (dlist_live h a l)|by apply (dlist_live h hd m)]).
  destruct (dlist_ends h a l Ha) as [E1 E2]. destruct (dlist_ends h hd m Hm) as [E3 _].
  set (f := first_of l a) in *. set (z := last_of a l) in *. set (q := first_of m hd) in *.
  pose proof (first_of_in m hd) as Hq. fold q in Hq.
  assert (f ∈ l) as Hf by (destruct l; [done|left]).
  assert (z ∈ l) as Hz.
  { destruct (decide (z = a)) as [Eza|]; [|pose proof (last_of_in a l); set_solver].
    destruct l as [|x l]; [done|]. subst z. rewrite last_of_cons in *. apply last_of_in. }
  rewrite get_next_eq, get_prev_eq, get_next_eq, E1, E2, E3 by (apply Hlive; set_solver).
  cbn [mbind option_bind].
  assert (is_Some (h !! f) ∧ is_Some (h !! z) ∧ is_Some (h !! q) ∧ is_Some (h !! hd) ∧ is_Some (h !! a))
    as (L1 & L2 & L3 & L4 & L5).
  { split_and!; apply Hlive; rewrite ?elem_of_cons; try tauto. right.
    apply elem_of_app in Hq. rewrite list_elem_of_singleton in Hq. tauto. }
  do 4 write. destruct (INIT_LIST_HEAD_spec h3 a) as (h4 & -> & Da & O3); [eauto 6 using only_live|].
  exists h4. split_and!; [done|done| |].
  - eapply dlist_frame; [|exact O3|].
    2:{ intros x Hx Hxa%list_elem_of_singleton. subst x. clear -Ha Hdis Hx.
        destruct Ha as [[? _]%NoDup_cons _]. pose proof (Hdis a (list_elem_of_here _ _)). set_solver. }
    destruct Ha as [Na Ca]. rewrite chain_app in Ca. destruct Ca as [Ca _].
    destruct (dlist_split h hd [] m Hm) as (_ & _ & _ & _ & C2 & _ & _).
    pose proof (proj1 Hm) as Nm. apply NoDup_cons in Na as [Nal Nl]. apply NoDup_cons in Nm as [Nhm Nm].
    assert (∀ x, x ∈ l → x ≠ hd ∧ x ∉ m) as Hlm
      by (intros x Hx; pose proof (Hdis x (list_elem_of_further _ _ _ Hx)); set_solver).
    assert (q ∉ l) as Hql.
    { intros Hx. apply elem_of_app in Hq as [?|?%list_elem_of_singleton]; by apply Hlm in Hx as []. }
    apply (dlist_relink h _ hd [] l m); try done.
    + simpl. apply NoDup_cons. split; [|apply NoDup_app; split_and!; [done| |done]].
      * rewrite elem_of_app. intros [Hx|?]; [by apply Hlm in Hx as []|done].
      * intros x Hx. by apply Hlm.
    + intros x Hx Hxp. rewrite N2, N1, N0, N, !decide_False; [done|..].
      * done.
      * intros ->. apply elem_of_cons in Hx as [?|?]; by apply Hlm in Hz as [].
    + intros x Hx Hxq. rewrite P2, P1, P0, P, !decide_False; [done| |done].
      intros ->. apply elem_of_cons in Hx as [?|?]; by apply Hlm in Hf as [].
    + change (last_of hd []) with hd. fold q. apply chain_app.
      destruct l as [|x l]; [done|]. simpl in Ca. destruct Ca as (_ & _ & Ca).
      change f with x in *. rewrite last_of_cons. subst z. rewrite last_of_cons in *.
      assert (last_of x l ≠ hd ∧ hd ≠ last_of x l) as [D1 D2] by (by apply Hlm in Hz as []).
      assert (x ≠ q) by (intros <-; apply Hql; left).
      split; [split_and!|split_and!].
      * by rewrite N2, N1, N0, decide_False, decide_True.
      * by rewrite P2, decide_False, P1, P0, P, decide_True.
      * eapply chain_frame; [done|..|exact Ca].
        -- intros y Hy Hyl. rewrite N2, N1, N0, N, !decide_False; [done|..|done].
           intros ->. by apply Hlm in Hy as [].
        -- intros y Hy. rewrite P2, P1, P0, P, !decide_False; [done|..].
           ++ intros ->. by apply NoDup_cons in Nl as [? _].
           ++ intros ->. apply Hql. by right.
      * by rewrite N2, N1, decide_True.
      * by rewrite P2, decide_True.
      * done.
  - eapply only_weaken; [do 4 (eapply only_app; [eassumption|]); eassumption|].
    intros x. simpl. rewrite !elem_of_cons, !elem_of_app, !elem_of_cons, elem_of_nil.
    apply elem_of_app in Hq. rewrite list_elem_of_singleton in Hq. naive_solver.
Qed.

(** ** The loop *)

(** The forward links of [l] lead to [hd]. *)
Fixpoint leads h l hd : Prop :=
  match l with
  | [] => is_Some (h !! hd)
  | x :: l => nxt h x = Some (first_of l hd) ∧ leads h l hd
  end.

Lemma leads_frame h h' l hd :
  (∀ x, x ∈ l → nxt h' x = nxt h x) → (is_Some (h !! hd) → is_Some (h' !! hd)) →
  leads h l hd → leads h' l hd.
Proof.
  intros Hn Hl. induction l as [|x l IH]; simpl; [done|]. intros [E Hd]. split.
  - rewrite Hn; [done|left].
  - apply IH; [|done]. intros y Hy. apply Hn. by right.
Qed.

Lemma chain_leads h a l hd : chain h a (l ++ [hd]) → nxt h a = Some (first_of l hd) ∧ leads h l hd.
Proof.
  revert a. induction l as [|x l IH]; intros a; simpl.
  - intros (? & ? & _). eauto.
  - intros (? & _ & Hc). by apply IH in Hc.
Qed.

Lemma dlist_leads h hd l : dlist h hd l → nxt h hd = Some (first_of l hd) ∧ leads h l hd.
Proof. intros [_ Hc]. by apply chain_leads. Qed.

Lemma leads_next h l hd :
  leads h l hd →
  ∃ v, get_next h (Some (first_of l hd)) = Some v ∧ (l ≠ [] → v = Some (first_of (tail l) hd)).
Proof.
  destruct l as [|x l]; simpl.
  - intros [c E]. change (first_of [] hd) with hd. rewrite get_next_eq by (by eexists).
    eexists. by split.
  - intros [E _]. change (first_of (x :: l) hd) with x.
    rewrite get_next_eq, E by eauto. by eexists.
Qed.

Section loop_rule.
Context {S : Type} (mem : S → heap) (body : S → L → option S) (I : list L → S → Prop) (hd : L).

(** [I rest s]: the state between two rounds, [rest] being the nodes to come.
    The body finds the next node before it is run, and may do to its own node
    what it wants. *)
Hypothesis round : ∀ x rest s, I (x :: rest) s → ∃ s', body s x = Some s' ∧ I rest s'.
Hypothesis links : ∀ rest s, I rest s → leads (mem s) rest hd.

Lemma for_each_from_spec l fuel s v :
  (length l ≤ fuel)%nat → hd ∉ l → I l s → (l ≠ [] → v = Some (first_of (tail l) hd)) →
  ∃ s', for_each_from mem body fuel s (Some (first_of l hd)) v (Some hd) = Some s' ∧ I [] s'.
Proof.
  revert fuel s v. induction l as [|x l IH]; intros fuel s v Hf Hh Hi Hv.
  - exists s. split; [|done]. change (first_of [] hd) with hd.
    destruct fuel; simpl; by rewrite decide_True.
  - destruct fuel as [|fuel]; simpl in Hf; [lia|]. change (first_of (x :: l) hd) with x. simpl.
    apply not_elem_of_cons in Hh as [Hxh Hh]. rewrite decide_False by congruence.
    rewrite (Hv ltac:(done)). simpl.
    destruct (round x l s Hi) as (s1 & -> & Hi1). cbn [mbind option_bind].
    destruct (leads_next (mem s1) l hd) as (v1 & -> & Hv1); [by apply links|].
    cbn [mbind option_bind]. apply IH; [lia|done..].
Qed.

Lemma list_for_each_safe_spec l fuel s :
  (length l ≤ fuel)%nat → hd ∉ l → nxt (mem s) hd = Some (first_of l hd) → I l s →
  ∃ s', list_for_each_safe mem body fuel s (Some hd) = Some s' ∧ I [] s'.
Proof.
  intros Hf Hh E Hi. unfold list_for_each_safe. rewrite get_next_eq, E by eauto.
  cbn [mbind option_bind]. destruct (leads_next (mem s) l hd) as (v & -> & Hv); [by apply links|].
  cbn [mbind option_bind]. by apply for_each_from_spec.
Qed.
End loop_rule.
End lemmas.
