(* ===== verification/WheelLists.v ===== *)
(** * The lists of the timer wheel in memory (wheel_timer/wheel_timer.c, list.h)

    WheelTimer has the buckets of the wheel as lists of nodes.  Here they are
    what they are in the source: list heads linked through [node->entry], in
    one memory, and the operations are written with those of list.h (DList).
    A worker holds the position in its batch.  [represents m w] relates the
    two, and every operation of WheelTimer is shown to be carried out by its
    counterpart on the memory. *)

From stdpp Require Import base numbers list option gmap sets.
From S2P Require Import Prelude WheelTimer DList.

(** The list heads: the buckets, [expired_list], the [node_list] of a worker,
    the local lists of [cascade] and of the tick thread, and [entry] of a
    node. *)
Inductive laddr {N : Type} :=
| Slot (k : nat) | Expired | NodeList (i : nat) | CascadeList | TickList | Entry (n : N).
Arguments laddr : clear implicits.

#[export] Instance laddr_eq_dec N `{EqDecision N} : EqDecision (laddr N).
Proof. solve_decision. Defined.

#[export] Instance laddr_countable N `{Countable N} : Countable (laddr N).
Proof.
  refine (inj_countable'
    (λ a : laddr N, match a with
          | Slot k => inl (inl k) | Expired => inl (inr 0%nat) | NodeList i => inr (inl (inl i))
          | CascadeList => inl (inr 1%nat) | TickList => inl (inr 2%nat) | Entry n => inr (inr n)
          end)
    (λ x : (nat + nat) + ((nat + ()) + N), match x with
          | inl (inl k) => Slot k | inl (inr 0%nat) => Expired | inl (inr 1%nat) => CascadeList
          | inl (inr _) => TickList | inr (inl (inl i)) => NodeList i | inr (inl (inr _)) => Expired
          | inr (inr n) => Entry n
          end) _).
  by intros [].
Defined.

#[export] Instance Entry_inj N : Inj (=) (=) (@Entry N).
Proof. by intros ? ? [=]. Qed.

(** The loop of a worker over its list: [At pos tmp], with the variables of
    [list_for_each_safe], before the node at [pos] is started; [Running tmp],
    from then until the loop goes on to [tmp]. *)
Inductive loop_pos {N : Type} :=
| At (pos tmp : option (laddr N)) | Running (tmp : option (laddr N)).
Arguments loop_pos : clear implicits.

Record mem_wheel {N C : Type} `{Countable N} := mk_mem_wheel {
  mw_jiffies : Z;
  mw_tick_ms : Z;
  mw_running : bool;
  mw_nodes : gmap N (timer_node C);
  mw_mem : gmap (laddr N) (list_head (laddr N));
  mw_pos : list (loop_pos N);   (** the loop of each worker *)
}.
Arguments mem_wheel N C {_ _}.
Arguments mk_mem_wheel {N C _ _}.
#[export] Instance mem_wheel_settable N C `{Countable N} : Settable (mem_wheel N C) :=
  λ m, mk_mem_wheel (mw_jiffies m) (mw_tick_ms m) (mw_running m) (mw_nodes m) (mw_mem m) (mw_pos m).

(** ** The operations *)

Section operations.
Context {N C : Type} `{Countable N}.
Local Notation heap := (gmap (laddr N) (list_head (laddr N))).
Implicit Types m : mem_wheel N C.
Implicit Types n : N.

Definition mset_node n (f : timer_node C → timer_node C) m : mem_wheel N C := m <| mw_nodes ::= alter f n |>.

Definition mem_node_init m n : option (mem_wheel N C) :=
  match mw_nodes m !! n with
  | None => None
  | Some _ =>
      h ← INIT_LIST_HEAD (mw_mem m) (Some (Entry n));
      Some (m <| mw_mem := h |> <| mw_nodes ::= <[n := zero_node]> |>)
  end.

Definition mem_internal_add m n : option (mem_wheel N C) :=
  nd ← mw_nodes m !! n;
  let vec := slot_for (mw_jiffies m) (tn_expires nd) in
  h ← list_add_tail (mw_mem m) (Some (Entry n)) (Some (Slot (Z.to_nat vec)));
  Some (mset_node n (λ nd, nd <| tn_pending := true |>) (m <| mw_mem := h |>)).

(** [list_entry(pos, timer_node_t, entry)]. *)
Definition on_entry (f : mem_wheel N C → N → option (mem_wheel N C)) m (a : laddr N) : option (mem_wheel N C) :=
  match a with Entry n => f m n | _ => None end.

(** The number of list heads in memory bounds every walk over a list. *)
Definition mem_cascade m (tv index : Z) : option (Z * mem_wheel N C) :=
  h ← INIT_LIST_HEAD (mw_mem m) (Some CascadeList);
  h ← list_splice_init h (Some (Slot (Z.to_nat (tv + index)))) (Some CascadeList);
  m ← list_for_each_safe mw_mem (on_entry mem_internal_add) (size h) (m <| mw_mem := h |>) (Some CascadeList);
  Some (index, m).

Definition mem_cascade_levels m (next_jiffies index : Z) : option (mem_wheel N C) :=
  let ix bits := Z.land (Z.shiftr next_jiffies bits) WHEEL_TVN_MASK in
  if negb (index =? 0) then Some m
  else
    '(i, m) ← mem_cascade m tv2 (ix WHEEL_TVR_BITS);
    if negb (i =? 0) then Some m
    else
      '(i, m) ← mem_cascade m tv3 (ix (WHEEL_TVR_BITS + WHEEL_TVN_BITS));
      if negb (i =? 0) then Some m
      else
        '(i, m) ← mem_cascade m tv4 (ix (WHEEL_TVR_BITS + 2 * WHEEL_TVN_BITS));
        if negb (i =? 0) then Some m
        else
          '(_, m) ← mem_cascade m tv5 (ix (WHEEL_TVR_BITS + 3 * WHEEL_TVN_BITS));
          Some m.

Definition mem_expire_node m n : option (mem_wheel N C) :=
  let m := mset_node n (λ nd, nd <| tn_pending := false |>) m in
  h ← list_move_tail (mw_mem m) (Some (Entry n)) (Some TickList);
  Some (m <| mw_mem := h |>).

Definition mem_tick m : option (mem_wheel N C) :=
  let next_jiffies := u64 (mw_jiffies m + 1) in
  let index := Z.land next_jiffies WHEEL_TVR_MASK in
  m ← mem_cascade_levels (m <| mw_jiffies := next_jiffies |>) next_jiffies index;
  let bucket := Slot (Z.to_nat (tv1 + index)) in
  e ← list_empty (mw_mem m) (Some bucket);
  if e : bool then Some m
  else
    h ← INIT_LIST_HEAD (mw_mem m) (Some TickList);
    m ← list_for_each_safe mw_mem (on_entry mem_expire_node) (size h) (m <| mw_mem := h |>) (Some bucket);
    h ← list_splice_init (mw_mem m) (Some TickList) (Some Expired);
    Some (m <| mw_mem := h |>).

(** [list_del(&node->entry)]. *)
Definition mem_del m n : option (mem_wheel N C) :=
  h ← list_del (mw_mem m) (Some (Entry n)); Some (m <| mw_mem := h |>).

Definition mem_expiry m (expires_ms : Z) : Z :=
  let e := u64 (mw_jiffies m + expires_ms / mw_tick_ms m) in
  if (0 <? expires_ms) && negb (expires_ms mod mw_tick_ms m =? 0) then u64 (e + 1) else e.

Definition mem_timer_add m n (expires_ms : Z) (cb : option C) : option (Z * mem_wheel N C) :=
  if negb (mw_running m) then Some (- ESHUTDOWN, m)
  else
    nd ← mw_nodes m !! n;
    m ← (if tn_pending nd
         then m ← mem_del m n; Some (mset_node n (λ nd, nd <| tn_pending := false |>) m) else Some m);
    let m := mset_node n (λ nd, nd <| tn_wheel := true |>
                                  <| tn_expires := mem_expiry m expires_ms |>
                                  <| tn_period := 0 |> <| tn_callback := cb |>) m in
    m ← mem_internal_add m n;
    Some (0, m).

Definition mem_timer_add_periodic m n (period_ms : Z) (cb : option C) : option (Z * mem_wheel N C) :=
  if period_ms =? 0 then Some (- EINVAL, m)
  else if negb (mw_running m) then Some (- ESHUTDOWN, m)
  else
    nd ← mw_nodes m !! n;
    m ← (if tn_pending nd
         then m ← mem_del m n; Some (mset_node n (λ nd, nd <| tn_pending := false |>) m) else Some m);
    let period := period_ms / mw_tick_ms m in
    let period := if period =? 0 then 1 else period in
    let m := mset_node n (λ nd, nd <| tn_wheel := true |> <| tn_period := period |>
                                  <| tn_expires := u64 (mw_jiffies m + period) |>
                                  <| tn_callback := cb |>) m in
    m ← mem_internal_add m n;
    Some (0, m).

Definition mem_timer_del m n : option (Z * mem_wheel N C) :=
  nd ← mw_nodes m !! n;
  let m := mset_node n (λ nd, nd <| tn_period := 0 |>) m in
  if tn_pending nd then
    m ← mem_del m n;
    Some (0, mset_node n (λ nd, nd <| tn_pending := false |> <| tn_wheel := false |>) m)
  else if tn_executing nd then Some (0, m)
  else Some (1, m).

Definition mem_timer_mod m n (expires_ms : Z) : option (Z * mem_wheel N C) :=
  if negb (mw_running m) then Some (- ESHUTDOWN, m)
  else
    nd ← mw_nodes m !! n;
    m ← (if tn_pending nd then mem_del m n else Some m);
    let m := mset_node n (λ nd, nd <| tn_wheel := true |>
                                  <| tn_expires := mem_expiry m expires_ms |>) m in
    m ← mem_internal_add m n;
    Some (0, m).

(** Worker [i], whose loop has ended, empties [expired_list] into its own list
    and starts a loop over it. *)
Definition mem_worker_take m (i : nat) : option (mem_wheel N C) :=
  match mw_pos m !! i with
  | Some (At pos _) =>
      if decide (pos = Some (NodeList i)) then
        h ← INIT_LIST_HEAD (mw_mem m) (Some (NodeList i));
        e ← list_empty h (Some Expired);
        if e : bool then None
        else
          h ← list_splice_init h (Some Expired) (Some (NodeList i));
          pos ← get_next h (Some (NodeList i));
          tmp ← get_next h pos;
          Some (m <| mw_mem := h |> <| mw_pos ::= <[i := At pos tmp]> |>)
      else None
  | _ => None
  end.

(** It starts the node at [pos]. *)
Definition mem_worker_begin m (i : nat) : option (N * option C * mem_wheel N C) :=
  match mw_pos m !! i with
  | Some (At (Some (Entry n)) tmp) =>
      nd ← mw_nodes m !! n;
      Some (n, tn_callback nd, mset_node n (λ nd, nd <| tn_executing := true |>) (m <| mw_pos ::= <[i := Running tmp]> |>))
  | _ => None
  end.

(** [pos = tmp, tmp = pos->next], unless the loop is there already. *)
Definition mem_worker_next m (i : nat) : option (mem_wheel N C) :=
  match mw_pos m !! i with
  | Some (Running pos) =>
      tmp ← get_next (mw_mem m) pos;
      Some (m <| mw_pos ::= <[i := At pos tmp]> |>)
  | Some (At _ _) => Some m
  | None => None
  end.

Definition mem_worker_done m n : option (mem_wheel N C) :=
  nd ← mw_nodes m !! n;
  let m := mset_node n (λ nd, nd <| tn_executing := false |>) m in
  if mw_running m && (0 <? tn_period nd) && negb (tn_pending nd) then
    mem_internal_add (mset_node n (λ nd, nd <| tn_expires ::= λ e, u64 (e + tn_period nd) |>) m) n
  else if (tn_period nd =? 0) && negb (tn_pending nd) then
    Some (mset_node n (λ nd, nd <| tn_wheel := false |>) m)
  else Some m.
End operations.

(** ** The lists in a memory *)

(** Which lists there are: a ring, or the rest of a list that a loop is
    walking over ([Walk]), of which only the forward links are read. *)
Inductive shape := Ring | Walk.

Section lists.
Context {N : Type} `{Countable N}.
Local Notation addr := (laddr N).
Local Notation heap := (gmap addr (list_head addr)).
Local Notation table := (gmap addr (shape * list N)).
Implicit Types (h : heap) (T : table) (a b : addr) (n : N) (l : list N).

Definition is_entry a : bool := match a with Entry _ => true | _ => false end.

Definition in_list T a n : Prop := ∃ s l, T !! a = Some (s, l) ∧ n ∈ l.

Definition shape_ok h a (x : shape * list N) : Prop :=
  is_entry a = false ∧ NoDup x.2 ∧
  match x.1 with Ring => dlist h a (Entry <$> x.2) | Walk => leads h (Entry <$> x.2) a end.

Record lists_ok h T : Prop := {
  lo_shape : map_Forall (shape_ok h) T;
  lo_unique : ∀ a b n, in_list T a n → in_list T b n → a = b;
}.

Lemma in_list_lookup T a s l n : T !! a = Some (s, l) → in_list T a n ↔ n ∈ l.
Proof. intros E. split; [intros (s' & l' & E' & Hn)|intros Hn; by exists s, l]. congruence. Qed.

Lemma in_list_intro T a s l n : T !! a = Some (s, l) → n ∈ l → in_list T a n.
Proof. intros E Hn. by exists s, l. Qed.

Lemma in_list_insert T a s l b n :
  in_list (<[a := (s, l)]> T) b n ↔ (a = b ∧ n ∈ l) ∨ (a ≠ b ∧ in_list T b n).
Proof.
  unfold in_list. destruct (decide (a = b)) as [<-|Hne].
  - rewrite lookup_insert_eq. naive_solver.
  - rewrite lookup_insert_ne by done. naive_solver.
Qed.

Lemma entry_elem n l : Entry n ∈ Entry <$> l ↔ n ∈ l.
Proof. apply list_elem_of_fmap_inj. apply _. Qed.

(** A list that shares no node with the written ones is still there. *)
Lemma shape_frame h h' s a x :
  shape_ok h a x → only h h' s → (x.1 = Ring → a ∉ s) → (∀ n, n ∈ x.2 → Entry n ∉ s) →
  shape_ok h' a x.
Proof.
  intros (Ha & Hnd & Hx) Ho Has Hs. split_and!; [done..|]. destruct x as [[] l]; simpl in *.
  - eapply dlist_frame; [exact Hx|exact Ho|].
    intros y [->|(n & -> & Hn)%list_elem_of_fmap]%elem_of_cons; auto.
  - eapply leads_frame; [| |exact Hx]; [|apply Ho].
    intros y (n & -> & Hn)%list_elem_of_fmap. unfold nxt. by rewrite (proj1 Ho) by auto.
Qed.

(** What may be written when the list [a] becomes [l]: its nodes, old and new,
    and heads of lists that are no rings. *)
Definition may_write T a l (x : addr) : Prop :=
  x = a ∨ (∃ n, x = Entry n ∧ (n ∈ l ∨ in_list T a n))
  ∨ (is_entry x = false ∧ ∀ l', T !! x ≠ Some (Ring, l')).

Lemma lists_update h h' T a s l (w : list addr) :
  lists_ok h T → shape_ok h' a (s, l) →
  (∀ n, n ∈ l → in_list T a n ∨ ∀ b, ¬ in_list T b n) →
  only h h' w → (∀ x, x ∈ w → may_write T a l x) →
  lists_ok h' (<[a := (s, l)]> T).
Proof.
  intros [HT HU] Hx Hl Ho Hw.
  assert (∀ b n, a ≠ b → in_list T b n → n ∉ l ∧ ¬ in_list T a n) as Hdis.
  { intros b n Hne Hn. split.
    - intros Hn'. destruct (Hl n Hn') as [Hin|Hno]; [by eapply Hne, HU|by eapply Hno].
    - intros Hn'. apply Hne. by eapply HU. }
  split.
  - intros b x Hb. destruct (decide (a = b)) as [<-|Hne].
    { rewrite lookup_insert_eq in Hb. by injection Hb as <-. }
    rewrite lookup_insert_ne in Hb by done. pose proof (HT b x Hb) as Hbx.
    eapply shape_frame; [exact Hbx|exact Ho| |].
    + intros Hr Hin. destruct x as [s' l']. simpl in Hr. subst s'. destruct Hbx as [Hb' _].
      destruct (Hw b Hin) as [->|[(n & -> & _)|[_ Hno]]]; [done..|]. by eapply Hno.
    + intros n Hn Hin. destruct x as [s' l']. destruct (Hdis b n Hne) as [H1 H2]; [by exists s', l'|].
      destruct Hx as [Ha' _].
      destruct (Hw _ Hin) as [<-|[(n' & [= <-] & [?|?])|[? _]]]; done.
  - intros b1 b2 n. rewrite !in_list_insert.
    intros [[-> Hn1]|[Hne1 Hn1]] [[-> Hn2]|[Hne2 Hn2]]; [done|..].
    + by destruct (Hdis b2 n Hne2 Hn2).
    + by destruct (Hdis b1 n Hne1 Hn1).
    + by eapply HU.
Qed.

Lemma lists_ring h T a l : lists_ok h T → T !! a = Some (Ring, l) →
  dlist h a (Entry <$> l) ∧ is_entry a = false ∧ NoDup l.
Proof. intros [HT _] E. by destruct (HT a _ E) as (? & ? & ?). Qed.

Lemma lists_walk h T a l : lists_ok h T → T !! a = Some (Walk, l) →
  leads h (Entry <$> l) a ∧ is_entry a = false ∧ NoDup l.
Proof. intros [HT _] E. by destruct (HT a _ E) as (? & ? & ?). Qed.

(** ** The list operations on a table *)

Definition free_node T n : Prop := ∀ b, ¬ in_list T b n.

Lemma lists_add_tail h T a l n :
  lists_ok h T → T !! a = Some (Ring, l) → free_node T n → is_Some (h !! Entry n) →
  ∃ h', list_add_tail h (Some (Entry n)) (Some a) = Some h' ∧ lists_ok h' (<[a := (Ring, l ++ [n])]> T)
    ∧ only h h' (Entry n :: a :: (Entry <$> l)).
Proof.
  intros Hok E Hn Hl. destruct (lists_ring h T a l Hok E) as (Hd & Ha & Hnd).
  assert (n ∉ l) as Hnl by (rewrite <- in_list_lookup by done; apply Hn).
  destruct (list_add_tail_spec h a (Entry <$> l) (Entry n)) as (h' & -> & Hd' & Ho); [done| |done|].
  { rewrite elem_of_cons, entry_elem. intros [<-|?]; done. }
  exists h'. split_and!; [done| |done]. eapply lists_update; [exact Hok| | |exact Ho|].
  - split_and!; [done| |cbn [fst snd]; by rewrite fmap_app].
    apply NoDup_app. split_and!; [done| |apply NoDup_singleton]. intros x Hx Hx'%list_elem_of_singleton.
    congruence.
  - intros m [Hm| ->%list_elem_of_singleton]%elem_of_app; [left|by right]. by rewrite in_list_lookup.
  - intros x. rewrite !elem_of_cons, list_elem_of_fmap. unfold may_write.
    intros [->|[->|(m & -> & Hm)]]; [right; left|by left|right; left].
    + exists n. split; [done|]. left. apply elem_of_app. right. left.
    + exists m. split; [done|]. left. apply elem_of_app. by left.
Qed.

Lemma lists_del h T a l1 n l2 :
  lists_ok h T → T !! a = Some (Ring, l1 ++ n :: l2) →
  ∃ h', list_del h (Some (Entry n)) = Some h' ∧ lists_ok h' (<[a := (Ring, l1 ++ l2)]> T)
    ∧ (∀ x, is_Some (h !! x) → is_Some (h' !! x)).
Proof.
  intros Hok E. destruct (lists_ring h T a _ Hok E) as (Hd & Ha & Hnd).
  rewrite fmap_app in Hd. simpl in Hd.
  destruct (list_del_spec h a _ (Entry n) _ Hd) as (h' & -> & Hd' & _ & _ & Ho).
  exists h'. split_and!; [done| |apply Ho]. eapply lists_update; [exact Hok| | |exact Ho|].
  - split_and!; [done| |cbn [fst snd]; by rewrite fmap_app]. simpl.
    revert Hnd. rewrite <- Permutation_middle, NoDup_cons. by intros [_ ?].
  - intros m Hm. left. rewrite (in_list_lookup _ _ _ _ _ E). revert Hm. clear. set_solver.
  - intros x. rewrite <- fmap_app, !elem_of_cons, list_elem_of_fmap. unfold may_write.
    intros [->|[->|(m & -> & Hm)]]; [right; left|by left|right; left; by eauto].
    exists n. split; [done|]. right. rewrite (in_list_lookup _ _ _ _ _ E). set_solver.
Qed.

(** Nothing is written when a list is only looked at in another way. *)
Lemma lists_view h T a s l :
  lists_ok h T → shape_ok h a (s, l) → (∀ n, n ∈ l → in_list T a n ∨ ∀ b, ¬ in_list T b n) →
  lists_ok h (<[a := (s, l)]> T).
Proof.
  intros Hok Hs Hl. eapply (lists_update h h T a s l []); [done..|apply only_refl|].
  by intros x ?%elem_of_nil.
Qed.

Lemma lists_nil_walk h T a :
  lists_ok h T → is_entry a = false → is_Some (h !! a) → lists_ok h (<[a := (Walk, [])]> T).
Proof.
  intros Hok Ha Hl. apply lists_view; [done| |by intros n ?%elem_of_nil].
  split_and!; [done|apply NoDup_nil_2|done].
Qed.

Lemma lists_nil_ring h T a :
  lists_ok h T → is_entry a = false → dlist h a [] → lists_ok h (<[a := (Ring, [])]> T).
Proof.
  intros Hok Ha Hd. apply lists_view; [done| |by intros n ?%elem_of_nil].
  split_and!; [done|apply NoDup_nil_2|done].
Qed.

Lemma lists_ring_walk h T a l :
  lists_ok h T → T !! a = Some (Ring, l) → lists_ok h (<[a := (Walk, l)]> T).
Proof.
  intros Hok E. destruct (lists_ring h T a l Hok E) as (Hd & Ha & Hnd).
  apply lists_view; [done| |].
  - split_and!; [done..|]. by apply dlist_leads.
  - intros n Hn. left. by rewrite (in_list_lookup _ _ _ _ _ E).
Qed.

Lemma lists_walk_step h T a n l :
  lists_ok h T → T !! a = Some (Walk, n :: l) → lists_ok h (<[a := (Walk, l)]> T).
Proof.
  intros Hok E. destruct (lists_walk h T a _ Hok E) as (Hd & Ha & Hnd).
  apply lists_view; [done| |].
  - split_and!; [done|by apply NoDup_cons in Hnd as []|apply Hd].
  - intros m Hm. left. rewrite (in_list_lookup _ _ _ _ _ E). by right.
Qed.

(** The node that a walk has reached is free when the walk has gone on. *)
Lemma walk_step_free h T a s n l :
  lists_ok h T → T !! a = Some (s, n :: l) → free_node (<[a := (Walk, l)]> T) n.
Proof.
  intros [HT HU] E b. rewrite in_list_insert. destruct (HT a _ E) as (_ & Hnd & _).
  apply NoDup_cons in Hnd as [Hn _]. intros [[_ ?]|[Hne Hb]]; [done|].
  apply Hne. eapply HU; [|exact Hb]. exists s, (n :: l). split; [done|left].
Qed.

Lemma lists_init h T a :
  lists_ok h T → is_entry a = false → is_Some (h !! a) →
  ∃ h', INIT_LIST_HEAD h (Some a) = Some h' ∧ lists_ok h' (<[a := (Ring, [])]> T)
    ∧ only h h' [a].
Proof.
  intros Hok Ha Hl. destruct (INIT_LIST_HEAD_spec h a Hl) as (h' & -> & Hd & Ho).
  exists h'. split_and!; [done| |done]. eapply lists_update; [exact Hok| | |exact Ho|].
  - split_and!; [done|apply NoDup_nil_2|done].
  - by intros n ?%elem_of_nil.
  - intros x ->%list_elem_of_singleton. by left.
Qed.

(** The links of a node that no list holds are written. *)
Lemma lists_free_write h h' T n :
  lists_ok h T → free_node T n → only h h' [Entry n] → lists_ok h' T.
Proof.
  intros [HT HU] Hn Ho. split; [|done].
  intros a x Ha. pose proof (HT a x Ha) as Hx. eapply shape_frame; [exact Hx|exact Ho| |].
  - intros _ ->%list_elem_of_singleton. by destruct Hx.
  - intros m Hm [= ->]%list_elem_of_singleton. destruct x as [s l]. apply (Hn a). by exists s, l.
Qed.

Lemma lists_init_node h T n :
  lists_ok h T → free_node T n → is_Some (h !! Entry n) →
  ∃ h', INIT_LIST_HEAD h (Some (Entry n)) = Some h' ∧ lists_ok h' T ∧ only h h' [Entry n].
Proof.
  intros Hok Hn Hl. destruct (INIT_LIST_HEAD_spec h _ Hl) as (h' & -> & Hd & Ho).
  exists h'. split_and!; [done|by eapply lists_free_write|done].
Qed.

Lemma lists_splice h T a l b m :
  lists_ok h T → T !! a = Some (Ring, l) → T !! b = Some (Ring, m) → a ≠ b →
  ∃ h', list_splice_init h (Some a) (Some b) = Some h'
    ∧ lists_ok h' (<[a := (Ring, [])]> (<[b := (Ring, l ++ m)]> T))
    ∧ (∀ x, is_Some (h !! x) → is_Some (h' !! x)).
Proof.
  intros Hok Ea Eb Hne. destruct (lists_ring h T a l Hok Ea) as (Da & Ha & Na).
  destruct (lists_ring h T b m Hok Eb) as (Db & Hb & Nb).
  assert (∀ n, n ∈ l → n ∉ m) as Hlm.
  { intros n H1 H2. apply Hne. eapply (lo_unique _ _ Hok); by eapply in_list_intro. }
  destruct (list_splice_init_spec h a (Entry <$> l) b (Entry <$> m)) as (h' & -> & Da' & Db' & Ho);
    [done..| |].
  { intros x [->|(n & -> & Hn)%list_elem_of_fmap]%elem_of_cons; rewrite elem_of_cons.
    - intros [?|(n & -> & _)%list_elem_of_fmap]; done.
    - rewrite entry_elem. intros [<-|?]; [done|by eapply Hlm]. }
  exists h'. split_and!; [done| |apply Ho].
  assert (lists_ok h' (<[b := (Ring, l ++ m)]> (<[a := (Walk, [])]> T))) as Hok'.
  { eapply lists_update; [apply (lists_nil_walk h T a Hok Ha)| | |exact Ho|].
    - eapply dlist_live; [exact Da|left].
    - split_and!; [done|apply NoDup_app; by split_and!|cbn [fst snd]; by rewrite fmap_app].
    - intros n [Hn|Hn]%elem_of_app; [right|left].
      + intros c. rewrite in_list_insert. intros [[_ ?%elem_of_nil]|[Hac Hc]]; [done|].
        apply Hac. eapply (lo_unique _ _ Hok); [|exact Hc]. by eapply in_list_intro.
      + rewrite in_list_insert. right. split; [done|]. by eapply in_list_intro.
    - intros x. rewrite elem_of_cons, elem_of_app, elem_of_cons, !list_elem_of_fmap. unfold may_write.
      intros [->|[(n & -> & Hn)|[->|(n & -> & Hn)]]]; [right; right|right; left|by left|right; left].
      + split; [done|]. intros l'. by rewrite lookup_insert_eq.
      + exists n. split; [done|]. left. apply elem_of_app. by left.
      + exists n. split; [done|]. left. apply elem_of_app. by right. }
  pose proof (lists_nil_ring _ _ a Hok' Ha Da') as Hr.
  by rewrite (insert_insert_ne T b a), insert_insert_eq in Hr by done.
Qed.

(** The first node of ring [a] goes to the end of ring [b]. *)
Lemma lists_move_tail h T a n l b m :
  lists_ok h T → T !! a = Some (Ring, n :: l) → T !! b = Some (Ring, m) → a ≠ b →
  ∃ h', list_move_tail h (Some (Entry n)) (Some b) = Some h'
    ∧ lists_ok h' (<[b := (Ring, m ++ [n])]> (<[a := (Ring, l)]> T))
    ∧ (∀ x, is_Some (h !! x) → is_Some (h' !! x)).
Proof.
  intros Hok Ea Eb Hne. destruct (lists_ring h T a _ Hok Ea) as (Da & Ha & Na).
  destruct (unlink_spec h a [] (Entry n) (fmap (M := list) Entry l) Da) as (h1 & E & Da1 & O1 & _ & Hl1).
  unfold list_move_tail. rewrite E.
  assert (lists_ok h1 (<[a := (Ring, l)]> T)) as Hok1.
  { eapply lists_update; [exact Hok| | |exact O1|].
    - split_and!; [done|by apply NoDup_cons in Na as []|done].
    - intros x Hx. left. eapply in_list_intro; [exact Ea|by right].
    - intros x. cbn [app]. rewrite elem_of_cons, list_elem_of_fmap. intros [->|(k & -> & Hk)]; [by left|].
      right. left. eauto. }
  destruct (lists_add_tail h1 (<[a := (Ring, l)]> T) b m n Hok1) as (h2 & -> & Hok2 & O2).
  - by rewrite lookup_insert_ne.
  - intros c. rewrite in_list_insert. apply NoDup_cons in Na as [Hn _].
    intros [[_ ?]|[Hc Hin]]; [done|]. apply Hc. eapply (lo_unique _ _ Hok); [|exact Hin].
    eapply in_list_intro; [exact Ea|left].
  - done.
  - exists h2. split_and!; [done..|]. intros x Hx. by apply O2, O1.
Qed.
End lists.

(** ** The wheel in memory represents the wheel *)

Section represents.
Context {N C : Type} `{Countable N}.
Implicit Types m : mem_wheel N C.
Implicit Types w : timer_wheel N C.
Implicit Types n : N.
Implicit Types T : gmap (laddr N) (shape * list N).

(** [cl] are the nodes that [cascade] still has to add again, [tl] those that
    the tick thread has collected. *)
Record view w (cl : list N) (tl : shape * list N) T : Prop := {
  vw_slots : ∀ k, T !! Slot k = pair Ring <$> w_slots w !! k;
  vw_expired : T !! Expired = Some (Ring, w_expired_list w);
  vw_batches : ∀ i, T !! NodeList i = pair Walk <$> w_batches w !! i;
  vw_cascade : T !! CascadeList = Some (Walk, cl);
  vw_tick : T !! TickList = Some tl;
}.

(** The loop of worker [i] has the batch [l] before it. *)
Definition before (i : nat) (l : list N) (x : loop_pos N) : Prop :=
  match x with
  | At pos tmp =>
      pos = Some (first_of (Entry <$> l) (NodeList i))
      ∧ (l ≠ [] → tmp = Some (first_of (Entry <$> tail l) (NodeList i)))
  | Running tmp => tmp = Some (first_of (Entry <$> l) (NodeList i))
  end.
Definition positions_ok (batches : list (list N)) (pos : list (loop_pos N)) : Prop :=
  length pos = length batches
  ∧ ∀ i l x, batches !! i = Some l → pos !! i = Some x → before i l x.

Record repr (cl : list N) (tl : shape * list N) m w : Prop := {
  rp_jiffies : mw_jiffies m = w_jiffies w;
  rp_tick_ms : mw_tick_ms m = w_tick_ms w;
  rp_running : mw_running m = w_running w;
  rp_nodes : mw_nodes m = w_nodes w;
  rp_live : ∀ n, is_Some (w_nodes w !! n) → is_Some (mw_mem m !! Entry n);
  rp_lists : ∃ T, lists_ok (mw_mem m) T ∧ view w cl tl T;
  rp_pos : positions_ok (w_batches w) (mw_pos m);
}.

Definition represents m w : Prop := repr [] (Walk, []) m w.

Lemma repr_set_node cl tl m w n f : repr cl tl m w → repr cl tl (mset_node n f m) (set_node n f w).
Proof.
  intros []. split; try done; simpl; [by rewrite rp_nodes0| |].
  - intros n' [x Hx]. apply rp_live0. destruct (decide (n = n')) as [<-|].
    + rewrite lookup_alter, decide_True in Hx by done. destruct (w_nodes w !! n); [by eexists|done].
    + rewrite lookup_alter_ne in Hx by done. by eexists.
  - destruct rp_lists0 as (T & Hok & []). by exists T.
Qed.

(** Which lists hold a node. *)
Lemma view_in_list h w cl tl T a n :
  lists_ok h T → view w cl tl T → in_list T a n → linked w n ∨ n ∈ cl ∨ n ∈ tl.2.
Proof.
  intros Hok [] (s & l & E & Hn). destruct a as [k| |i| | |n'].
  - rewrite vw_slots0 in E. apply fmap_Some in E as (l' & El & [= -> ->]). left. left.
    apply list_elem_of_join. exists l'. split; [done|]. by apply list_elem_of_lookup_2 in El.
  - rewrite vw_expired0 in E. injection E as <- <-. left. right. by left.
  - rewrite vw_batches0 in E. apply fmap_Some in E as (l' & El & [= -> ->]). left. right. right.
    apply list_elem_of_join. exists l'. split; [done|]. by apply list_elem_of_lookup_2 in El.
  - rewrite vw_cascade0 in E. injection E as <- <-. auto.
  - rewrite vw_tick0 in E. injection E as ->. auto.
  - by destruct (lo_shape _ _ Hok _ _ E).
Qed.

Lemma view_free h w cl tl T n :
  lists_ok h T → view w cl tl T → ¬ linked w n → n ∉ cl → n ∉ tl.2 → free_node T n.
Proof. intros Hok Hv H1 H2 H3 a Ha. by destruct (view_in_list h w cl tl T a n Hok Hv Ha) as [?|[?|?]]. Qed.

(** ** Changes of one list *)

Lemma view_slot w cl tl T k l0 l w' :
  view w cl tl T → w_slots w !! k = Some l0 → w_slots w' = <[k := l]> (w_slots w) →
  w_expired_list w' = w_expired_list w → w_batches w' = w_batches w →
  view w' cl tl (<[Slot k := (Ring, l)]> T).
Proof.
  intros [] Hk ES EE EB. split; rewrite ?ES, ?EE, ?EB; try (intros; by rewrite lookup_insert_ne).
  intros k'. destruct (decide (k = k')) as [<-|].
  - rewrite lookup_insert_eq, list_lookup_insert_eq; [done|]. by eapply lookup_lt_Some.
  - rewrite lookup_insert_ne, list_lookup_insert_ne by congruence. done.
Qed.

Lemma view_cascade w cl cl' tl T : view w cl tl T → view w cl' tl (<[CascadeList := (Walk, cl')]> T).
Proof.
  intros []. split; try (intros; by rewrite lookup_insert_ne). by rewrite lookup_insert_eq.
Qed.

Lemma view_tick w cl tl tl' T : view w cl tl T → view w cl tl' (<[TickList := tl']> T).
Proof.
  intros []. split; try (intros; by rewrite lookup_insert_ne). by rewrite lookup_insert_eq.
Qed.

Lemma view_expired w cl tl T l w' :
  view w cl tl T → w_expired_list w' = l → w_slots w' = w_slots w → w_batches w' = w_batches w →
  view w' cl tl (<[Expired := (Ring, l)]> T).
Proof.
  intros [] EE ES EB. split; rewrite ?ES, ?EB, ?EE; try (intros; by rewrite lookup_insert_ne).
  by rewrite lookup_insert_eq.
Qed.

Lemma view_batch w cl tl T i l0 l w' :
  view w cl tl T → w_batches w !! i = Some l0 → w_batches w' = <[i := l]> (w_batches w) →
  w_slots w' = w_slots w → w_expired_list w' = w_expired_list w →
  view w' cl tl (<[NodeList i := (Walk, l)]> T).
Proof.
  intros [] Hi EB ES EE. split; rewrite ?ES, ?EE, ?EB; try (intros; by rewrite lookup_insert_ne).
  intros i'. destruct (decide (i = i')) as [<-|].
  - rewrite lookup_insert_eq, list_lookup_insert_eq; [done|]. by eapply lookup_lt_Some.
  - rewrite lookup_insert_ne, list_lookup_insert_ne by congruence. done.
Qed.

(** ** Adding a node *)

Lemma mem_internal_add_refines cl tl m w n w' :
  repr cl tl m w → n ∉ cl → n ∉ tl.2 → length (w_slots w) = Z.to_nat wheel_slots →
  internal_add_timer w n = Some w' →
  ∃ m', mem_internal_add m n = Some m' ∧ repr cl tl m' w'.
Proof.
  intros Hr Hc Ht Hlen Ha. pose proof Hr as [EJ ET ER EN HL (T & Hok & Hv) EP].
  unfold internal_add_timer in Ha. unfold mem_internal_add.
  destruct (w_nodes w !! n) as [nd|] eqn:End; [|done]. cbn [mbind option_bind] in Ha.
  destruct (decide (linked w n)) as [|Hn]; [done|]. injection Ha as <-.
  rewrite EN, End. cbn [mbind option_bind]. rewrite EJ. set (k := Z.to_nat _).
  destruct (w_slots w !! k) as [l|] eqn:Ek.
  2:{ apply lookup_ge_None in Ek. pose proof (slot_for_bound (w_jiffies w) (tn_expires nd)). lia. }
  destruct (lists_add_tail (mw_mem m) T (Slot k) l n) as (h' & -> & Hok' & Ho); [done|..].
  - by rewrite (vw_slots _ _ _ _ Hv), Ek.
  - by eapply view_free.
  - apply HL. by eexists.
  - cbn [mbind option_bind]. eexists. split; [reflexivity|]. apply repr_set_node.
    split; try done; simpl.
    + intros n' Hn'. by apply Ho, HL.
    + eexists. split; [exact Hok'|]. eapply view_slot; [exact Hv|exact Ek| |done..]. simpl.
      apply list_eq. intros j. destruct (decide (k = j)) as [<-|].
      * rewrite list_lookup_alter_eq, Ek, list_lookup_insert_eq; [done|]. by eapply lookup_lt_Some.
      * by rewrite list_lookup_alter_ne, list_lookup_insert_ne.
Qed.

(** ** Cascading *)

Lemma ring_size (h : gmap (laddr N) (list_head (laddr N))) T a l :
  lists_ok h T → T !! a = Some (Ring, l) → (length (Entry <$> l) ≤ size h)%nat.
Proof.
  intros Hok E. destruct (lists_ring h T a l Hok E) as (Hd & _ & Hnd).
  assert (NoDup (Entry <$> l)) as Hn by (by apply NoDup_fmap_2; [apply _|]).
  rewrite <- (size_list_to_set (C := gset (laddr N)) _ Hn), <- (size_dom (D := gset (laddr N)) h).
  apply subseteq_size. intros x Hx%elem_of_list_to_set. apply elem_of_dom.
  eapply dlist_live; [exact Hd|by right].
Qed.

Lemma internal_add_slots w n w' :
  internal_add_timer w n = Some w' → length (w_slots w') = length (w_slots w).
Proof.
  unfold internal_add_timer. destruct (w_nodes w !! n) as [nd|]; [|done]. cbn [mbind option_bind].
  destruct (decide _); [done|]. intros [= <-]. simpl. apply length_alter.
Qed.

Lemma add_all_slots w ns w' : add_all w ns = Some w' → length (w_slots w') = length (w_slots w).
Proof.
  revert w. induction ns as [|n ns IH]; intros w; simpl; [by intros [= <-]|].
  intros (w1 & E & Ha)%bind_Some. rewrite (IH _ Ha). by eapply internal_add_slots.
Qed.

Definition cascading tl w' (rest : list (laddr N)) m : Prop :=
  ∃ ns w, rest = Entry <$> ns ∧ add_all w ns = Some w' ∧ repr ns tl m w ∧ tl.2 = []
    ∧ length (w_slots w) = Z.to_nat wheel_slots.

Lemma cascade_round tl w' x rest m :
  cascading tl w' (x :: rest) m →
  ∃ m', on_entry mem_internal_add m x = Some m' ∧ cascading tl w' rest m'.
Proof.
  intros ([|n ns] & w & E & Ha & Hr & Ht & Hlen); [done|]. injection E as -> ->.
  simpl in Ha. apply bind_Some in Ha as (w1 & Hadd & Ha).
  destruct Hr as [EJ ET ER EN HL (T & Hok & Hv) EP].
  destruct (lists_walk _ _ _ _ Hok (vw_cascade _ _ _ _ Hv)) as (_ & _ & [Hn _]%NoDup_cons).
  destruct (mem_internal_add_refines ns tl m w n w1) as (m' & E & Hr'); try done.
  - split; try done. exists (<[CascadeList := (Walk, ns)]> T).
    split; [by eapply lists_walk_step, Hv|by eapply view_cascade].
  - rewrite Ht. apply not_elem_of_nil.
  - exists m'. split; [done|]. exists ns, w1. split_and!; try done.
    by rewrite (internal_add_slots _ _ _ Hadd).
Qed.

Lemma cascading_leads tl w' rest m : cascading tl w' rest m → leads (mw_mem m) rest CascadeList.
Proof.
  intros (ns & w & -> & _ & [_ _ _ _ _ (T & Hok & Hv) _] & _).
  by destruct (lists_walk _ _ _ _ Hok (vw_cascade _ _ _ _ Hv)).
Qed.

Lemma mem_cascade_refines m w tv index i w' :
  represents m w → length (w_slots w) = Z.to_nat wheel_slots →
  cascade w tv index = Some (i, w') →
  ∃ m', mem_cascade m tv index = Some (i, m') ∧ represents m' w'
    ∧ length (w_slots w') = Z.to_nat wheel_slots.
Proof.
  intros [EJ ET ER EN HL (T & Hok & Hv) EP] Hlen Hc. unfold cascade in Hc.
  apply bind_Some in Hc as (l & Ek & Hc). apply bind_Some in Hc as (w1 & Ha & Hc).
  injection Hc as <- <-. set (k := Z.to_nat (tv + index)) in *. unfold mem_cascade. fold k.
  pose proof (lists_walk _ _ _ _ Hok (vw_cascade _ _ _ _ Hv)) as (Hcl & _ & _).
  destruct (lists_init _ T CascadeList Hok) as (h1 & -> & Hok1 & O1); [done..|]. cbn [mbind option_bind].
  pose proof (vw_slots _ _ _ _ Hv k) as ESk. rewrite Ek in ESk. simpl in ESk.
  destruct (lists_splice h1 _ (Slot k) l CascadeList [] Hok1) as (h2 & -> & Hok2 & O2);
    [by rewrite lookup_insert_ne|by rewrite lookup_insert_eq|done|]. cbn [mbind option_bind].
  rewrite app_nil_r, insert_insert_eq in Hok2.
  assert (<[Slot k := (Ring, [])]> (<[CascadeList := (Ring, l)]> T) !! CascadeList = Some (Ring, l)) as EC
    by (by rewrite lookup_insert_ne, lookup_insert_eq).
  pose proof (lists_ring _ _ _ _ Hok2 EC) as (Hd & _ & _).
  pose proof (lists_ring_walk _ _ _ _ Hok2 EC) as Hok3.
  rewrite (insert_insert_ne _ CascadeList (Slot k)), insert_insert_eq in Hok3 by done.
  destruct (list_for_each_safe_spec mw_mem (on_entry mem_internal_add) (cascading (Walk, []) w1) CascadeList
    (cascade_round _ w1) (cascading_leads _ w1) (Entry <$> l) (size h2) (m <| mw_mem := h2 |>))
    as (m' & -> & Hend).
  - exact (ring_size _ _ _ _ Hok2 EC).
  - intros (? & ? & _)%list_elem_of_fmap. done.
  - by apply dlist_leads in Hd as [? _].
  - exists l, (w <| w_slots ::= <[k := []]> |>). split_and!; try done.
    + split; try done; simpl; [by intros n Hn; apply O2, O1, HL|].
      eexists. split; [exact Hok3|]. eapply view_slot; [by eapply view_cascade|exact Ek|done..].
    + simpl. by rewrite length_insert.
  - cbn [mbind option_bind]. exists m'. split; [done|].
    destruct Hend as ([|] & w2 & E & Ha2 & Hr & _ & Hlen2); [|done]. simpl in Ha2.
    injection Ha2 as ->. done.
Qed.

Lemma repr_jiffies m w j : represents m w → represents (m <| mw_jiffies := j |>) (w <| w_jiffies := j |>).
Proof. intros []. split; try done. destruct rp_lists0 as (T & Hok & []). by exists T. Qed.

Lemma mem_cascade_levels_refines m w nj index w' :
  represents m w → length (w_slots w) = Z.to_nat wheel_slots →
  cascade_levels w nj index = Some w' →
  ∃ m', mem_cascade_levels m nj index = Some m' ∧ represents m' w'
    ∧ length (w_slots w') = Z.to_nat wheel_slots.
Proof.
  intros Hr Hlen. unfold cascade_levels, mem_cascade_levels. cbv zeta.
  destruct (negb (index =? 0)); [intros [= <-]; by exists m|].
  do 4 (
    intros ([?i w1] & Hc & Hrest)%bind_Some;
    destruct (mem_cascade_refines _ _ _ _ _ _ Hr Hlen Hc) as (m1 & -> & Hr1 & Hlen1);
    clear Hr Hlen Hc m; rename Hr1 into Hr, Hlen1 into Hlen, m1 into m; cbn [mbind option_bind];
    revert Hrest; clear w; rename w1 into w;
    try (case_if; [intros [= <-]; by exists m|])).
  intros [= <-]. by exists m.
Qed.

(** ** Expiration *)

Definition clear_all w (l : list N) : timer_wheel N C :=
  foldr (λ n, set_node n (λ nd, nd <| tn_pending := false |>)) w l.

Lemma set_node_comm w n n' (f : timer_node C → timer_node C) :
  set_node n f (set_node n' f w) = set_node n' f (set_node n f w).
Proof.
  destruct (decide (n = n')) as [->|Hne]; [done|]. unfold set_node. simpl. by rewrite alter_alter_ne.
Qed.

Lemma clear_all_snoc w l n :
  clear_all w (l ++ [n]) = set_node n (λ nd, nd <| tn_pending := false |>) (clear_all w l).
Proof.
  induction l as [|x l IH]; [done|]. simpl. rewrite IH. apply set_node_comm.
Qed.

(** The loop of the tick thread over bucket [c], whose nodes were [l]. *)
Definition ticking w (c : nat) (l : list N) (rest : list (laddr N)) m : Prop :=
  ∃ gone ns, rest = Entry <$> ns ∧ l = gone ++ ns
    ∧ repr [] (Ring, gone) m (clear_all w gone <| w_slots ::= <[c := ns]> |>).

Lemma clear_all_slots w l : w_slots (clear_all w l) = w_slots w.
Proof. by induction l. Qed.

Lemma clear_all_expired w l : w_expired_list (clear_all w l) = w_expired_list w.
Proof. by induction l. Qed.

Lemma tick_round w c l x rest m :
  (c < length (w_slots w))%nat → ticking w c l (x :: rest) m →
  ∃ m', on_entry mem_expire_node m x = Some m' ∧ ticking w c l rest m'.
Proof.
  intros Hc (gone & [|n ns] & E & El & Hr); [done|]. injection E as -> ->. simpl.
  apply (repr_set_node _ _ _ _ n (λ nd, nd <| tn_pending := false |>)) in Hr.
  unfold mem_expire_node. set (m1 := mset_node n _ m) in *.
  destruct Hr as [EJ ET ER EN HL (T & Hok & Hv) EP].
  destruct (lists_move_tail _ T (Slot c) n ns TickList gone Hok) as (h' & -> & Hok' & Ho); [|by apply Hv|done|].
  { rewrite (vw_slots _ _ _ _ Hv). simpl. rewrite clear_all_slots, list_lookup_insert_eq by done. done. }
  cbn [mbind option_bind]. eexists. split; [reflexivity|].
  exists (gone ++ [n]), ns. split_and!; [done|by rewrite <- app_assoc|].
  rewrite clear_all_snoc. split; try done.
  - intros n' Hn'. apply Ho, HL, Hn'.
  - eexists. split; [exact Hok'|]. eapply view_tick, view_slot; [exact Hv| | |done..]; simpl.
    + by rewrite clear_all_slots, list_lookup_insert_eq.
    + by rewrite list_insert_insert_eq.
Qed.

Lemma ticking_leads w c l rest m :
  (c < length (w_slots w))%nat → ticking w c l rest m → leads (mw_mem m) rest (Slot c).
Proof.
  intros Hc (gone & ns & -> & _ & [_ _ _ _ _ (T & Hok & Hv) _]).
  apply dlist_leads. eapply lists_ring; [exact Hok|]. rewrite (vw_slots _ _ _ _ Hv). simpl.
  by rewrite clear_all_slots, list_lookup_insert_eq by done.
Qed.

Lemma mem_tick_loop m w c l :
  represents m w → w_slots w !! c = Some l →
  ∃ h m', INIT_LIST_HEAD (mw_mem m) (Some TickList) = Some h
    ∧ list_for_each_safe mw_mem (on_entry mem_expire_node) (size h) (m <| mw_mem := h |>) (Some (Slot c))
      = Some m'
    ∧ repr [] (Ring, l) m' (clear_all w l <| w_slots ::= <[c := []]> |>).
Proof.
  intros [EJ ET ER EN HL (T & Hok & Hv) EP] Ek.
  pose proof (lookup_lt_Some _ _ _ Ek) as Hc.
  pose proof (lists_walk _ _ _ _ Hok (vw_tick _ _ _ _ Hv)) as (Htl & _ & _).
  destruct (lists_init _ T TickList Hok) as (h & -> & Hok1 & O1); [done..|]. exists h.
  pose proof (view_tick _ _ _ (Ring, []) _ Hv) as Hv1.
  assert (repr [] (Ring, []) (m <| mw_mem := h |>) w) as Hr1.
  { split; try done; [by intros n Hn; apply O1, HL|]. eauto. }
  pose proof (vw_slots _ _ _ _ Hv1 c) as Ec. rewrite Ek in Ec.
  destruct (list_for_each_safe_spec mw_mem (on_entry mem_expire_node) (ticking w c l) (Slot c)
    (λ x rest s, tick_round w c l x rest s Hc) (λ rest s, ticking_leads w c l rest s Hc)
    (Entry <$> l) (size h) (m <| mw_mem := h |>)) as (m' & -> & Hend).
  - exact (ring_size _ _ _ _ Hok1 Ec).
  - intros (? & ? & _)%list_elem_of_fmap. done.
  - by destruct (dlist_leads h (Slot c) (Entry <$> l)); [eapply lists_ring|].
  - exists [], l. split_and!; [done..|]. simpl. destruct w. simpl in *. by rewrite list_insert_id.
  - exists m'. split_and!; [done..|]. destruct Hend as (gone & [|] & E & El & Hr); [|done].
    rewrite app_nil_r in El. by subst gone.
Qed.

Lemma mem_tick_refines m w w' :
  represents m w → length (w_slots w) = Z.to_nat wheel_slots → wheel_tick w = Some w' →
  ∃ m', mem_tick m = Some m' ∧ represents m' w'.
Proof.
  intros Hr Hlen Ht. unfold wheel_tick in Ht. unfold mem_tick.
  rewrite (rp_jiffies _ _ _ _ Hr). set (nj := u64 _) in *. set (index := Z.land _ _) in *.
  apply bind_Some in Ht as (w1 & Hc & Ht). apply bind_Some in Ht as (l & Ek & Ht). injection Ht as <-.
  destruct (mem_cascade_levels_refines (m <| mw_jiffies := nj |>) (w <| w_jiffies := nj |>) nj index w1)
    as (m1 & -> & Hr1 & Hlen1); [by apply repr_jiffies|done..|]. cbn [mbind option_bind].
  set (c := Z.to_nat (tv1 + index)) in *.
  assert (list_empty (mw_mem m1) (Some (Slot c)) = Some (bool_decide (l = []))) as ->.
  { destruct (rp_lists _ _ _ _ Hr1) as (T & Hok & Hv).
    assert (dlist (mw_mem m1) (Slot c) (Entry <$> l)) as Hd.
    { eapply lists_ring; [exact Hok|]. by rewrite (vw_slots _ _ _ _ Hv), Ek. }
    rewrite (list_empty_spec _ _ _ Hd). f_equal. apply bool_decide_ext. by destruct l. }
  cbn [mbind option_bind]. case_bool_decide as El.
  - exists m1. split; [done|]. subst l. simpl. destruct w1. simpl in *. by rewrite list_insert_id.
  - destruct (mem_tick_loop m1 w1 c l Hr1 Ek) as (h & m2 & -> & E2 & [EJ ET ER EN HL (T & Hok & Hv) EP]).
    cbn [mbind option_bind]. rewrite E2. cbn [mbind option_bind].
    destruct (lists_splice _ T TickList l Expired (w_expired_list w1) Hok) as (h3 & -> & Hok3 & O3);
      [by apply Hv| |done|].
    { rewrite (vw_expired _ _ _ _ Hv). simpl. by rewrite clear_all_expired. }
    cbn [mbind option_bind]. eexists. split; [reflexivity|]. split; try done.
    + intros n Hn. apply O3, HL, Hn.
    + eexists. split; [eapply (lists_nil_walk _ _ TickList); [exact Hok3|done|]|].
      * eapply dlist_live; [eapply lists_ring; [exact Hok3|apply lookup_insert_eq]|left].
      * rewrite insert_insert_eq. eapply view_tick, view_expired; [exact Hv| |done..]. simpl.
        f_equal. apply clear_all_expired.
Qed.

(** ** Taking a node out of its bucket *)

Lemma filter_ne_absent (l : list N) n : n ∉ l → filter (λ x, x ≠ n) l = l.
Proof.
  induction l as [|x l IH]; [done|]. intros [Hx Hl]%not_elem_of_cons.
  rewrite filter_cons_True, IH; done.
Qed.

(** No node is in two places of the buckets. *)
Definition buckets_apart w : Prop :=
  (∀ k, NoDup (bucket w k)) ∧ ∀ k1 k2 n, n ∈ bucket w k1 → n ∈ bucket w k2 → k1 = k2.

Lemma wheel_inv_apart ok fl w : wheel_inv ok fl w → buckets_apart w.
Proof. intros []. by split. Qed.

Lemma unlink_slots w n k l1 l2 :
  buckets_apart w → w_slots w !! k = Some (l1 ++ n :: l2) →
  w_slots (unlink w n) = <[k := l1 ++ l2]> (w_slots w).
Proof.
  intros Hi Ek. simpl. assert (n ∈ bucket w k) as Hb by (unfold bucket; rewrite Ek; simpl; set_solver).
  apply list_eq. intros j. rewrite list_lookup_fmap. destruct (decide (k = j)) as [<-|Hne].
  - rewrite Ek, list_lookup_insert_eq by (by eapply lookup_lt_Some). simpl. f_equal.
    pose proof (proj1 Hi k) as Hnd. unfold bucket in Hnd. rewrite Ek in Hnd. simpl in Hnd.
    rewrite <- Permutation_middle, NoDup_cons in Hnd. destruct Hnd as [Hn _].
    rewrite filter_app, filter_cons_False, <- filter_app by auto. by apply filter_ne_absent.
  - rewrite list_lookup_insert_ne by done. destruct (w_slots w !! j) as [l|] eqn:Ej; [|done].
    simpl. f_equal. apply filter_ne_absent. intros Hn. apply Hne.
    eapply (proj2 Hi); [exact Hb|]. unfold bucket. by rewrite Ej.
Qed.

Lemma mem_del_refines m w n k :
  represents m w → buckets_apart w → n ∈ bucket w k →
  ∃ m', mem_del m n = Some m' ∧ represents m' (unlink w n).
Proof.
  intros [EJ ET ER EN HL (T & Hok & Hv) EP] Hi Hn. unfold bucket in Hn.
  destruct (w_slots w !! k) as [l|] eqn:Ek; [|by apply elem_of_nil in Hn]. simpl in Hn.
  apply list_elem_of_split in Hn as (l1 & l2 & ->).
  destruct (lists_del _ T (Slot k) l1 n l2 Hok) as (h' & E & Hok' & Ho);
    [by rewrite (vw_slots _ _ _ _ Hv), Ek|].
  unfold mem_del. rewrite E. cbn [mbind option_bind]. eexists. split; [reflexivity|]. split; try done.
  - intros n' Hn'. by apply Ho, HL.
  - eexists. split; [exact Hok'|]. eapply view_slot; [exact Hv|exact Ek| |done..].
    by eapply unlink_slots.
Qed.

(** The first half of arming a node: a pending one is taken out. *)
Lemma unlink_pending_refines ok m w n nd (f : timer_node C → timer_node C) :
  represents m w → wheel_inv ok [] w → w_nodes w !! n = Some nd →
  ∃ m', (if tn_pending nd then m ← mem_del m n; Some (mset_node n f m) else Some m) = Some m'
    ∧ represents m' (if tn_pending nd then set_node n f (unlink w n) else w).
Proof.
  intros Hr Hi Hn. destruct (tn_pending nd) eqn:Ep; [|by exists m].
  destruct (wi_pending _ _ _ Hi n nd Hn Ep) as [?%elem_of_nil|[k Hk]]; [done|].
  destruct (mem_del_refines m w n k Hr (wheel_inv_apart _ _ _ Hi) Hk) as (m' & -> & Hr'). cbn [mbind option_bind].
  eexists. split; [reflexivity|]. by apply repr_set_node.
Qed.

Lemma unlink_length w n : length (w_slots (unlink w n)) = length (w_slots w).
Proof. simpl. apply length_fmap. Qed.

(** ** Every operation *)

Lemma mem_timer_add_refines ok m w n ms cb rc w' :
  represents m w → wheel_inv ok [] w → timer_add w n ms cb = Some (rc, w') →
  ∃ m', mem_timer_add m n ms cb = Some (rc, m') ∧ represents m' w'.
Proof.
  intros Hr Hi Ht. unfold timer_add in Ht. unfold mem_timer_add.
  rewrite (rp_running _ _ _ _ Hr). case_if; [injection Ht as <- <-; by exists m|].
  apply bind_Some in Ht as (nd & En & Ht). apply bind_Some in Ht as (w1 & Ha & Ht).
  injection Ht as <- <-. rewrite (rp_nodes _ _ _ _ Hr), En. cbn [mbind option_bind].
  destruct (unlink_pending_refines ok m w n nd (λ nd, nd <| tn_pending := false |>) Hr Hi En)
    as (m1 & -> & Hr1). cbn [mbind option_bind].
  unfold mem_expiry. rewrite (rp_jiffies _ _ _ _ Hr1), (rp_tick_ms _ _ _ _ Hr1).
  eapply mem_internal_add_refines in Ha as (m2 & E2 & Hr2);
    [|by apply repr_set_node|apply not_elem_of_nil..|].
  - unfold expiry in E2. rewrite E2. by exists m2.
  - destruct (tn_pending nd); simpl; rewrite ?length_fmap; apply Hi.
Qed.

Lemma mem_timer_add_periodic_refines ok m w n ms cb rc w' :
  represents m w → wheel_inv ok [] w → timer_add_periodic w n ms cb = Some (rc, w') →
  ∃ m', mem_timer_add_periodic m n ms cb = Some (rc, m') ∧ represents m' w'.
Proof.
  intros Hr Hi Ht. unfold timer_add_periodic in Ht. unfold mem_timer_add_periodic.
  destruct (ms =? 0); [injection Ht as <- <-; by exists m|].
  rewrite (rp_running _ _ _ _ Hr). destruct (negb _); [injection Ht as <- <-; by exists m|].
  apply bind_Some in Ht as (nd & En & Ht). apply bind_Some in Ht as (w1 & Ha & Ht).
  injection Ht as <- <-. rewrite (rp_nodes _ _ _ _ Hr), En. cbn [mbind option_bind].
  destruct (unlink_pending_refines ok m w n nd (λ nd, nd <| tn_pending := false |>) Hr Hi En)
    as (m1 & -> & Hr1). cbn [mbind option_bind].
  rewrite (rp_jiffies _ _ _ _ Hr1), (rp_tick_ms _ _ _ _ Hr1).
  eapply mem_internal_add_refines in Ha as (m2 & E2 & Hr2);
    [|by apply repr_set_node|apply not_elem_of_nil..|].
  - rewrite E2. by exists m2.
  - destruct (tn_pending nd); simpl; rewrite ?length_fmap; apply Hi.
Qed.

Lemma mem_timer_mod_refines ok m w n ms rc w' :
  represents m w → wheel_inv ok [] w → timer_mod w n ms = Some (rc, w') →
  ∃ m', mem_timer_mod m n ms = Some (rc, m') ∧ represents m' w'.
Proof.
  intros Hr Hi Ht. unfold timer_mod in Ht. unfold mem_timer_mod.
  rewrite (rp_running _ _ _ _ Hr). destruct (negb _); [injection Ht as <- <-; by exists m|].
  apply bind_Some in Ht as (nd & En & Ht). apply bind_Some in Ht as (w1 & Ha & Ht).
  injection Ht as <- <-. rewrite (rp_nodes _ _ _ _ Hr), En. cbn [mbind option_bind].
  assert (∃ m1, (if tn_pending nd then mem_del m n else Some m) = Some m1
    ∧ represents m1 (if tn_pending nd then unlink w n else w)) as (m1 & -> & Hr1).
  { destruct (tn_pending nd) eqn:Ep; [|by exists m].
    destruct (wi_pending _ _ _ Hi n nd En Ep) as [?%elem_of_nil|[k Hk]]; [done|].
    eapply mem_del_refines; [done|by eapply wheel_inv_apart|done]. }
  cbn [mbind option_bind]. unfold mem_expiry. rewrite (rp_jiffies _ _ _ _ Hr1), (rp_tick_ms _ _ _ _ Hr1).
  eapply mem_internal_add_refines in Ha as (m2 & E2 & Hr2);
    [|by apply repr_set_node|apply not_elem_of_nil..|].
  - unfold expiry in E2. rewrite E2. by exists m2.
  - destruct (tn_pending nd); simpl; rewrite ?length_fmap; apply Hi.
Qed.

Lemma mem_timer_del_refines ok m w n rc w' :
  represents m w → wheel_inv ok [] w → timer_del w n = Some (rc, w') →
  ∃ m', mem_timer_del m n = Some (rc, m') ∧ represents m' w'.
Proof.
  intros Hr Hi Ht. unfold timer_del in Ht. unfold mem_timer_del.
  apply bind_Some in Ht as (nd & En & Ht). rewrite (rp_nodes _ _ _ _ Hr), En. cbn [mbind option_bind].
  pose proof (repr_set_node _ _ _ _ n (λ nd, nd <| tn_period := 0 |>) Hr) as Hr1.
  destruct (tn_pending nd) eqn:Ep.
  - injection Ht as <- <-.
    destruct (wi_pending _ _ _ Hi n nd En Ep) as [?%elem_of_nil|[k Hk]]; [done|].
    destruct (mem_del_refines _ _ n k Hr1 (wheel_inv_apart _ _ _ Hi) Hk) as (m2 & -> & Hr2). cbn [mbind option_bind].
    eexists. split; [reflexivity|]. by apply repr_set_node.
  - destruct (tn_executing nd); injection Ht as <- <-; by eexists.
Qed.

Lemma position_lookup m w i l :
  represents m w → w_batches w !! i = Some l → ∃ x, mw_pos m !! i = Some x ∧ before i l x.
Proof.
  intros Hr Hi. destruct (rp_pos _ _ _ _ Hr) as [Hl Hp].
  destruct (lookup_lt_is_Some_2 (mw_pos m) i) as [x Hx]; [rewrite Hl; by eapply lookup_lt_Some|].
  exists x. split; [done|]. by eapply Hp.
Qed.

Lemma positions_insert (B : list (list N)) ps i l x :
  positions_ok B ps → before i l x → positions_ok (<[i := l]> B) (<[i := x]> ps).
Proof.
  intros [Hl Hp] Hx. split; [by rewrite !length_insert|]. intros j l' x' HB Hj.
  apply list_lookup_insert_Some in HB as [(<- & <- & ?)|[Hne HB]].
  - rewrite list_lookup_insert_eq in Hj by lia. by injection Hj as <-.
  - rewrite list_lookup_insert_ne in Hj by done. by eapply Hp.
Qed.

(** The batch of a worker in memory: the link of its first node. *)
Lemma batch_next m w i n l :
  represents m w → w_batches w !! i = Some (n :: l) →
  get_next (mw_mem m) (Some (Entry n)) = Some (Some (first_of (Entry <$> l) (NodeList i))).
Proof.
  intros Hr Ei. destruct (rp_lists _ _ _ _ Hr) as (T & Hok & Hv).
  pose proof (vw_batches _ _ _ _ Hv i) as Hw. rewrite Ei in Hw. simpl in Hw.
  destruct (lists_walk _ _ _ _ Hok Hw) as ([E Hl] & _ & _).
  rewrite get_next_eq, E by (by eapply nxt_live). done.
Qed.
Lemma batch_head m w i l :
  represents m w → w_batches w !! i = Some l →
  ∃ tmp, get_next (mw_mem m) (Some (first_of (Entry <$> l) (NodeList i))) = Some tmp
    ∧ (l ≠ [] → tmp = Some (first_of (Entry <$> tail l) (NodeList i))).
Proof.
  intros Hr Ei. destruct l as [|n l].
  - destruct (rp_lists _ _ _ _ Hr) as (T & Hok & Hv).
    pose proof (vw_batches _ _ _ _ Hv i) as Hw. rewrite Ei in Hw. simpl in Hw.
    destruct (lists_walk _ _ _ _ Hok Hw) as (Hl & _ & _). cbn in Hl.
    change (first_of (Entry <$> []) (NodeList i)) with (@NodeList N i).
    rewrite get_next_eq by exact Hl. eexists. split; [reflexivity|]. by intros [].
  - eexists. split; [exact (batch_next m w i n l Hr Ei)|done].
Qed.

Lemma mem_worker_next_refines m w i l :
  represents m w → w_batches w !! i = Some l →
  ∃ m' tmp, mem_worker_next m i = Some m' ∧ represents m' w
    ∧ mw_pos m' !! i = Some (At (Some (first_of (Entry <$> l) (NodeList i))) tmp)
    ∧ mw_nodes m' = mw_nodes m.
Proof.
  intros Hr Hi. destruct (position_lookup m w i l Hr Hi) as (x & Hx & Hb).
  unfold mem_worker_next. rewrite Hx. destruct x as [pos tmp|tmp]; cbn in Hb.
  - destruct Hb as [-> Ht]. by exists m, tmp.
  - subst tmp. destruct (batch_head m w i l Hr Hi) as (tmp & -> & Ht). cbn [mbind option_bind].
    eexists _, tmp. split; [reflexivity|]. split; [|split; [|done]].
    + destruct Hr as [EJ ET ER EN HL HT EP]. split; try done. simpl.
      rewrite <- (list_insert_id (w_batches w) i l) by done. by apply positions_insert.
    + simpl. apply list_lookup_insert_eq. by eapply lookup_lt_Some.
Qed.

Lemma mem_worker_take_refines m w i w' :
  represents m w → worker_take w i = Some w' →
  ∃ m', (m ← mem_worker_next m i; mem_worker_take m i) = Some m' ∧ represents m' w'.
Proof.
  intros Hr Ht. unfold worker_take in Ht.
  destruct (w_batches w !! i) as [[|]|] eqn:Ei; try done.
  destruct (w_expired_list w) as [|x E] eqn:EE; [done|]. injection Ht as <-.
  destruct (mem_worker_next_refines m w i [] Hr Ei) as (m1 & tmp1 & E1 & Hr1 & Hp & _).
  rewrite E1. cbn [mbind option_bind]. clear Hr E1 m. rename m1 into m, Hr1 into Hr.
  pose proof Hr as [EJ ET ER EN HL (T & Hok & Hv) EP].
  change (first_of (Entry <$> []) (NodeList i)) with (@NodeList N i) in Hp.
  unfold mem_worker_take. rewrite Hp, decide_True by done.
  pose proof (vw_batches _ _ _ _ Hv i) as Hw. rewrite Ei in Hw. simpl in Hw.
  destruct (lists_init _ T (NodeList i) Hok) as (h1 & -> & Hok1 & O1);
    [done|by destruct (lists_walk _ _ _ _ Hok Hw)|]. cbn [mbind option_bind].
  pose proof (vw_expired _ _ _ _ Hv) as Hx. rewrite EE in Hx.
  assert (<[NodeList i := (Ring, [])]> T !! Expired = Some (Ring, x :: E)) as Hx1 by (by rewrite lookup_insert_ne).
  destruct (lists_ring _ _ _ _ Hok1 Hx1) as (Dx & _ & _). rewrite (list_empty_spec _ _ _ Dx).
  cbn [mbind option_bind bool_decide fmap list_fmap].
  destruct (lists_splice h1 _ Expired (x :: E) (NodeList i) [] Hok1 Hx1) as (h2 & -> & Hok2 & O2);
    [by rewrite lookup_insert_eq|done|]. cbn [mbind option_bind].
  rewrite app_nil_r, insert_insert_eq in Hok2.
  assert (<[Expired := (Ring, [])]> (<[NodeList i := (Ring, x :: E)]> T) !! NodeList i = Some (Ring, x :: E))
    as EC by (by rewrite lookup_insert_ne, lookup_insert_eq).
  destruct (lists_ring _ _ _ _ Hok2 EC) as (Dn & _ & _).
  destruct (dlist_leads _ _ _ Dn) as [En [En2 _]].
  rewrite get_next_eq, En by (by eapply nxt_live). cbn [mbind option_bind].
  change (first_of (Entry <$> x :: E) (NodeList i)) with (Entry x).
  rewrite get_next_eq, En2 by (by eapply nxt_live). cbn [mbind option_bind].
  eexists. split; [reflexivity|]. split; try done; simpl.
  - intros n Hn. by apply O2, O1, HL.
  - eexists. split; [by eapply lists_ring_walk|]. rewrite insert_insert_ne, insert_insert_eq by done.
    eapply (view_expired (w <| w_batches ::= <[i := x :: E]> |>)); [|done..].
    by eapply (view_batch w _ _ _ i [] (x :: E)).
  - by apply positions_insert.
Qed.

Lemma mem_worker_begin_refines m w i n cb w' :
  represents m w → worker_begin w i = Some (n, cb, w') →
  ∃ m', (m ← mem_worker_next m i; mem_worker_begin m i) = Some (n, cb, m') ∧ represents m' w'.
Proof.
  intros Hr Ht. unfold worker_begin in Ht.
  destruct (w_batches w !! i) as [[|x rest]|] eqn:Ei; try done.
  apply bind_Some in Ht as (nd & End & Ht). injection Ht as -> <- <-.
  destruct (mem_worker_next_refines m w i _ Hr Ei) as (m1 & tmp & E1 & Hr1 & Hp & _).
  rewrite E1. cbn [mbind option_bind]. clear Hr E1 m. rename m1 into m, Hr1 into Hr.
  pose proof Hr as [EJ ET ER EN HL (T & Hok & Hv) EP].
  change (first_of (Entry <$> n :: rest) (NodeList i)) with (Entry n) in Hp.
  unfold mem_worker_begin. rewrite Hp, EN, End. cbn [mbind option_bind].
  eexists. split; [reflexivity|].
  apply repr_set_node. split; try done; simpl.
  - exists (<[NodeList i := (Walk, rest)]> T).
    pose proof (vw_batches _ _ _ _ Hv i) as Hw. rewrite Ei in Hw. simpl in Hw.
    split; [by eapply lists_walk_step|].
    by eapply (view_batch w _ _ _ i (n :: rest) rest).
  - apply positions_insert; [done|]. destruct EP as [_ EP].
    by destruct (EP i _ _ Ei Hp) as [_ ->].
Qed.

Lemma mem_worker_done_refines ok m w n w' :
  represents m w → wheel_inv ok [] w → worker_done w n = Some w' →
  ∃ m', mem_worker_done m n = Some m' ∧ represents m' w'.
Proof.
  intros Hr Hi Ht. unfold worker_done in Ht. unfold mem_worker_done.
  apply bind_Some in Ht as (nd & En & Ht). rewrite (rp_nodes _ _ _ _ Hr), En. cbn [mbind option_bind].
  pose proof (repr_set_node _ _ _ _ n (λ nd, nd <| tn_executing := false |>) Hr) as Hr1.
  set (m1 := mset_node n _ m) in *. set (w1 := set_node n _ w) in *.
  rewrite (rp_running _ _ _ _ Hr1). case_if.
  2:{ case_if; injection Ht as <-; eexists; (split; [reflexivity|]); [by apply repr_set_node|done]. }
  eapply mem_internal_add_refines; [by apply repr_set_node|apply not_elem_of_nil..| |exact Ht]. apply Hi.
Qed.

Lemma mem_node_init_refines m w n w' :
  represents m w → timer_node_init w n = Some w' →
  ∃ m', mem_node_init m n = Some m' ∧ represents m' w'.
Proof.
  intros [EJ ET ER EN HL (T & Hok & Hv) EP] Ht. unfold timer_node_init in Ht. unfold mem_node_init.
  destruct (decide _) as [|Hn]; [done|]. destruct (w_nodes w !! n) as [nd|] eqn:E; [|done].
  injection Ht as <-. rewrite EN, E.
  destruct (lists_init_node _ T n Hok) as (h' & -> & Hok' & Ho);
    [by eapply (view_free _ w [] (Walk, [])); first [exact Hok|exact Hv|exact Hn|apply not_elem_of_nil]
    |by apply HL; eexists|].
  cbn [mbind option_bind]. eexists. split; [reflexivity|]. split; try done; simpl.
  - by rewrite EN.
  - intros n' [-> |[_ ?]]%lookup_insert_is_Some; apply Ho, HL; [by eexists|done].
  - exists T. split; [done|]. by destruct Hv.
Qed.
End represents.

(** ** The start of a wheel *)

Section create.
Context {N C : Type} `{Countable N}.
Local Notation heap := (gmap (laddr N) (list_head (laddr N))).
Implicit Types h : heap.
Implicit Types n : N.

(** The loops of [timer_wheel_create] over the heads. *)
Definition wheel_heads : list (laddr N) :=
  ((λ i, Slot i) <$> seq 0 256)
  ++ (seq 0 64 ≫= λ i, [Slot (256 + i); Slot (320 + i); Slot (384 + i); Slot (448 + i)])
  ++ [Expired].

Fixpoint init_heads h (l : list (laddr N)) : option heap :=
  match l with
  | [] => Some h
  | a :: l => h ← INIT_LIST_HEAD h (Some a); init_heads h l
  end.

(** Memory from [calloc], and the local variables of the threads. *)
Definition raw_heads (worker_count : nat) : list (laddr N) :=
  wheel_heads ++ (NodeList <$> seq 0 worker_count) ++ [CascadeList; TickList].
Definition raw_memory (worker_count : nat) : heap :=
  list_to_map ((λ a, (a, mk_list_head None None)) <$> raw_heads worker_count).

Definition mem_wheel_create (tick_ms worker_count : Z) : option (mem_wheel N C) :=
  if (tick_ms =? 0) || (worker_count <=? 0) then None
  else
    h ← init_heads (raw_memory (Z.to_nat worker_count)) wheel_heads;
    Some (mk_mem_wheel 0 tick_ms true ∅ h ((λ i, At (Some (NodeList i)) None) <$> seq 0 (Z.to_nat worker_count))).

(** A zeroed node, as in a fresh block. *)
Definition mem_alloc (m : mem_wheel N C) n : mem_wheel N C :=
  m <| mw_nodes ::= <[n := zero_node]> |> <| mw_mem ::= <[Entry n := mk_list_head None None]> |>.

Lemma init_heads_spec l h T :
  lists_ok h T → (∀ a, a ∈ l → is_entry a = false ∧ is_Some (h !! a)) →
  ∃ h', init_heads h l = Some h' ∧ lists_ok h' (foldl (λ T a, <[a := (Ring, [])]> T) T l)
    ∧ ∀ x, is_Some (h !! x) → is_Some (h' !! x).
Proof.
  revert h T. induction l as [|a l IH]; intros h T Hok Hl; simpl; [by exists h|].
  destruct (Hl a) as [Ha Hs]; [left|].
  destruct (lists_init h T a Hok Ha Hs) as (h1 & -> & Hok1 & O1). cbn [mbind option_bind].
  destruct (IH h1 _ Hok1) as (h2 & -> & Hok2 & O2).
  - intros b Hb. destruct (Hl b) as [? ?]; [by right|]. split; [done|by apply O1].
  - exists h2. split_and!; [done..|]. intros x Hx. by apply O2, O1.
Qed.

Lemma foldl_rings (l : list (laddr N)) (T : gmap (laddr N) (shape * list N)) a :
  foldl (λ T a, <[a := (Ring, [])]> T) T l !! a = if decide (a ∈ l) then Some (Ring, []) else T !! a.
Proof.
  revert T. induction l as [|b l IH]; intros T; simpl; [done|]. rewrite IH.
  destruct (decide (a = b)) as [->|Hne].
  - rewrite lookup_insert_eq, (decide_True (P := b ∈ b :: l)) by left. by case_decide.
  - rewrite lookup_insert_ne by done. apply decide_ext. rewrite elem_of_cons. tauto.
Qed.

Lemma wheel_heads_slot k : Slot k ∈ wheel_heads ↔ (k < 512)%nat.
Proof.
  unfold wheel_heads. rewrite !elem_of_app, list_elem_of_singleton, list_elem_of_fmap, list_elem_of_bind.
  setoid_rewrite elem_of_seq. split.
  - intros [(i & [= ->] & ?)|[(i & Hi & ?)|?]]; [lia| |done].
    rewrite !elem_of_cons, elem_of_nil in Hi.
    destruct Hi as [[= ->]|[[= ->]|[[= ->]|[[= ->]|[]]]]]; lia.
  - intros Hk. destruct (decide (k < 256)%nat); [left; exists k; split; [done|lia]|]. right. left.
    exists ((k - 256) mod 64)%nat. rewrite !elem_of_cons, elem_of_nil. split; [|dlia].
    destruct (decide (k < 320)%nat); [left; f_equal; dlia|].
    destruct (decide (k < 384)%nat); [right; left; f_equal; dlia|].
    destruct (decide (k < 448)%nat); [right; right; left; f_equal; dlia|].
    right. right. right. left. f_equal. dlia.
Qed.

Lemma wheel_heads_other a : a ∈ wheel_heads → is_entry a = false ∧ ((∃ k, a = Slot k) ∨ a = Expired).
Proof.
  unfold wheel_heads. rewrite !elem_of_app, list_elem_of_singleton, list_elem_of_fmap, list_elem_of_bind.
  intros [(i & -> & _)|[(i & Hi & _)| ->]]; [by eauto| |by eauto].
  rewrite !elem_of_cons, elem_of_nil in Hi. destruct Hi as [->|[->|[->|[->|[]]]]]; eauto.
Qed.

Lemma raw_memory_live workers a : a ∈ raw_heads workers → is_Some (raw_memory workers !! a).
Proof.
  intros Ha. apply not_eq_None_Some. intros E. apply not_elem_of_list_to_map in E. apply E.
  rewrite <- list_fmap_compose. apply list_elem_of_fmap. by exists a.
Qed.

Lemma wheel_heads_expired : Expired ∈ wheel_heads.
Proof. unfold wheel_heads. rewrite !elem_of_app, list_elem_of_singleton. auto. Qed.

Local Opaque wheel_heads.

(** The lists of the threads, all empty at the start. *)
Definition walk_heads (workers : nat) : list (laddr N) :=
  (NodeList <$> seq 0 workers) ++ [CascadeList; TickList].
Definition walk_table (workers : nat) : gmap (laddr N) (shape * list N) :=
  list_to_map ((λ a, (a, (Walk, []))) <$> walk_heads workers).

Lemma walk_heads_elem workers a :
  a ∈ walk_heads workers ↔
    (∃ i, a = NodeList i ∧ (i < workers)%nat) ∨ a = CascadeList ∨ a = TickList.
Proof.
  unfold walk_heads. rewrite elem_of_app, list_elem_of_fmap, !elem_of_cons, elem_of_nil.
  setoid_rewrite elem_of_seq. split.
  - intros [(i & -> & Hi)|[?|[?|[]]]]; [left; exists i; split; [done|lia]|by auto..].
  - intros [(i & -> & Hi)|[?|?]]; [left; exists i; split; [done|lia]|by auto..].
Qed.

Lemma walk_table_lookup workers a :
  walk_table workers !! a = if decide (a ∈ walk_heads workers) then Some (Walk, []) else None.
Proof.
  unfold walk_table. destruct (list_to_map _ !! a) as [x|] eqn:E.
  - apply elem_of_list_to_map_2, list_elem_of_fmap in E as (b & [= -> ->] & Hb). by rewrite decide_True.
  - apply not_elem_of_list_to_map in E. rewrite <- list_fmap_compose in E. rewrite decide_False; [done|].
    intros Ha. apply E, list_elem_of_fmap. by exists a.
Qed.

Lemma walk_table_ok workers : lists_ok (raw_memory workers) (walk_table workers).
Proof.
  split.
  - intros a x. rewrite walk_table_lookup. case_decide as Ha; [|done]. intros [= <-].
    split_and!; [|apply NoDup_nil_2|].
    + by apply walk_heads_elem in Ha as [(i & -> & _)|[->| ->]].
    + apply raw_memory_live. unfold raw_heads. rewrite elem_of_app. by right.
  - intros a b n (s & l & E & Hn). rewrite walk_table_lookup in E. case_decide; [|done].
    injection E as <- <-. by apply elem_of_nil in Hn.
Qed.

(** The table of the lists of a new wheel is the view of the wheel. *)
Lemma new_view tick_ms workers T :
  (∀ a, T !! a = if decide (a ∈ wheel_heads) then Some (Ring, [])
                 else if decide (a ∈ walk_heads workers) then Some (Walk, []) else None) →
  view (mk_timer_wheel 0 tick_ms true (replicate (Z.to_nat wheel_slots) []) [] (replicate workers []) ∅
    : timer_wheel N C) [] (Walk, []) T.
Proof.
  intros HT. assert (∀ a, a ∈ walk_heads workers → T !! a = Some (Walk, [])) as Hw.
  { intros a Ha. rewrite HT, decide_False, decide_True; [done|done|]. intros Hh.
    apply wheel_heads_other in Hh as [_ [[k ->]| ->]];
      apply walk_heads_elem in Ha as [(? & ? & _)|[?|?]]; done. }
  assert (Z.to_nat wheel_slots = 512%nat) as E by done.
  split; cbn [w_slots w_expired_list w_batches].
  - intros k. rewrite HT, E. destruct (decide (k < 512)%nat) as [Hk|Hk].
    + rewrite decide_True by (by apply wheel_heads_slot). by rewrite lookup_replicate_2.
    + rewrite decide_False by (by rewrite wheel_heads_slot).
      rewrite (proj2 (lookup_ge_None _ _)) by (rewrite length_replicate; lia).
      rewrite decide_False; [done|]. by intros [(? & ? & _)|[?|?]]%walk_heads_elem.
  - rewrite HT, decide_True; [done|apply wheel_heads_expired].
  - intros i. destruct (decide (i < workers)%nat) as [Hi|Hi].
    + rewrite Hw, lookup_replicate_2 by (done || apply walk_heads_elem; eauto). done.
    + rewrite (proj2 (lookup_ge_None _ _)) by (rewrite length_replicate; lia).
      rewrite HT, !decide_False; [done|..].
      * by intros [(? & [= <-] & ?)|[?|?]]%walk_heads_elem.
      * by intros [_ [[k ?]|?]]%wheel_heads_other.
  - apply Hw, walk_heads_elem. auto.
  - apply Hw, walk_heads_elem. auto.
Qed.

Lemma mem_wheel_create_refines tick_ms workers (w : timer_wheel N C) :
  timer_wheel_create tick_ms workers = Some w →
  ∃ m, mem_wheel_create tick_ms workers = Some m ∧ represents m w.
Proof.
  unfold timer_wheel_create, mem_wheel_create. case_if; [done|]. intros [= <-].
  destruct (init_heads_spec wheel_heads _ _ (walk_table_ok (Z.to_nat workers))) as (h & -> & Hok & _).
  { intros a Ha. split; [by apply wheel_heads_other|]. apply raw_memory_live. unfold raw_heads.
    rewrite elem_of_app. by left. }
  cbn [mbind option_bind]. eexists. split; [reflexivity|].
  split; [done..| | |]; [intros n; simpl; rewrite lookup_empty; by intros []| |].
  2:{ split; cbn; [by rewrite length_fmap, length_seq, length_replicate|].
      intros i l x [-> Hi]%lookup_replicate. rewrite list_lookup_fmap, lookup_seq_lt by done.
      by intros [= <-]. }
  eexists. split; [exact Hok|]. apply new_view. intros a. by rewrite foldl_rings, walk_table_lookup.
Qed.

Lemma mem_alloc_refines m (w : timer_wheel N C) n :
  represents m w → ¬ linked w n → represents (mem_alloc m n) (wheel_alloc w n).
Proof.
  intros [EJ ET ER EN HL (T & Hok & Hv) EP] Hn. split; try done; simpl.
  - by rewrite EN.
  - intros n' Hn'. destruct (decide (n = n')) as [<-|]; [rewrite lookup_insert_eq; by eexists|].
    rewrite !lookup_insert_ne in * by congruence. by apply HL.
  - exists T. split; [|by destruct Hv]. eapply lists_free_write; [exact Hok| |apply only_insert; left].
    eapply (view_free _ w [] (Walk, [])); first [exact Hok|exact Hv|exact Hn|apply not_elem_of_nil].
Qed.
End create.

(** ** The simulation *)

Inductive wheel_op {N C : Type} :=
| OpNodeInit (n : N) | OpAdd (n : N) (ms : Z) (cb : option C) | OpAddPeriodic (n : N) (ms : Z) (cb : option C)
| OpDel (n : N) | OpMod (n : N) (ms : Z) | OpTick | OpTake (i : nat) | OpNext (i : nat) | OpBegin (i : nat) | OpDone (n : N).
Arguments wheel_op : clear implicits.

Inductive wheel_res {N C : Type} := Done | Code (rc : Z) | Started (n : N) (cb : option C).
Arguments wheel_res : clear implicits.

Section simulation.
Context {N C : Type} `{Countable N}.

Definition run_wheel (w : timer_wheel N C) (op : wheel_op N C) : option (wheel_res N C * timer_wheel N C) :=
  match op with
  | OpNodeInit n => pair Done <$> timer_node_init w n
  | OpAdd n ms cb => '(rc, w) ← timer_add w n ms cb; Some (Code rc, w)
  | OpAddPeriodic n ms cb => '(rc, w) ← timer_add_periodic w n ms cb; Some (Code rc, w)
  | OpDel n => '(rc, w) ← timer_del w n; Some (Code rc, w)
  | OpMod n ms => '(rc, w) ← timer_mod w n ms; Some (Code rc, w)
  | OpTick => pair Done <$> wheel_tick w
  | OpTake i => pair Done <$> worker_take w i
  | OpNext i => pair Done <$> (_ ← w_batches w !! i; Some w)
  | OpBegin i => '(n, cb, w) ← worker_begin w i; Some (Started n cb, w)
  | OpDone n => pair Done <$> worker_done w n
  end.

(** The loop goes on when it is asked to ([OpNext]), at the latest when the worker
    starts a node or finds the end of its list. *)
Definition run_mem (m : mem_wheel N C) (op : wheel_op N C) : option (wheel_res N C * mem_wheel N C) :=
  match op with
  | OpNodeInit n => pair Done <$> mem_node_init m n
  | OpAdd n ms cb => '(rc, m) ← mem_timer_add m n ms cb; Some (Code rc, m)
  | OpAddPeriodic n ms cb => '(rc, m) ← mem_timer_add_periodic m n ms cb; Some (Code rc, m)
  | OpDel n => '(rc, m) ← mem_timer_del m n; Some (Code rc, m)
  | OpMod n ms => '(rc, m) ← mem_timer_mod m n ms; Some (Code rc, m)
  | OpTick => pair Done <$> mem_tick m
  | OpTake i => pair Done <$> (m ← mem_worker_next m i; mem_worker_take m i)
  | OpNext i => pair Done <$> mem_worker_next m i
  | OpBegin i => '(n, cb, m) ← (m ← mem_worker_next m i; mem_worker_begin m i); Some (Started n cb, m)
  | OpDone n => pair Done <$> mem_worker_done m n
  end.


(** C25: the wheel in memory does what the wheel of lists does: from a memory
    whose list heads and links hold the lists of the wheel, every operation,
    tick and worker step, written with the pointer operations of list.h,
    completes without a null or stray pointer, returns what the list version
    returns, and leaves a memory that holds its lists; in particular the loops
    that relink the nodes they walk over visit every node once. *)
Theorem wheel_lists_refined (m : mem_wheel N C) (w : timer_wheel N C) op r w' :
  represents m w → wheel_good w → run_wheel w op = Some (r, w') →
  ∃ m', run_mem m op = Some (r, m') ∧ represents m' w'.
Proof.
  intros Hr [Hi _] E. destruct op; simpl in *;
    first [apply fmap_Some in E as (w1 & E & [= -> ->])
          |apply bind_Some in E as ([[n1 cb1] w1] & E & [= <- <-])
          |apply bind_Some in E as ([rc w1] & E & [= <- <-])].
  - eapply mem_node_init_refines in E as (m' & -> & ?); eauto.
  - eapply mem_timer_add_refines in E as (m' & -> & ?); eauto.
  - eapply mem_timer_add_periodic_refines in E as (m' & -> & ?); eauto.
  - eapply mem_timer_del_refines in E as (m' & -> & ?); eauto.
  - eapply mem_timer_mod_refines in E as (m' & -> & ?); eauto.
  - eapply mem_tick_refines in E as (m' & -> & ?); eauto. apply Hi.
  - eapply mem_worker_take_refines in E as (m' & -> & ?); eauto.
  - apply bind_Some in E as (l & E & [= <-]).
    destruct (mem_worker_next_refines m w i l Hr E) as (m' & _ & -> & Hr' & _).
    by exists m'.
  - eapply mem_worker_begin_refines in E as (m' & -> & ?); eauto.
  - eapply mem_worker_done_refines in E as (m' & -> & ?); eauto.
Qed.
End simulation.

(** ** Witness *)

Definition mem_example : mem_wheel nat nat :=
  mem_alloc (default (mk_mem_wheel 0 1 true ∅ ∅ []) (mem_wheel_create 10 2)) 7%nat.

Lemma mem_example_represents : represents mem_example wheel_example.
Proof.
  unfold mem_example, wheel_example.
  destruct (mem_wheel_create_refines 10 2 _ (eq_refl (timer_wheel_create (N := nat) (C := nat) 10 2)))
    as (m & -> & Hr).
  apply mem_alloc_refines; [exact Hr|]. apply (bool_decide_eq_false_1 (linked _ _)). by vm_compute.
Qed.

Lemma wheel_lists_refined_witness :
  ∃ m' w', run_wheel wheel_example (OpAdd 7%nat 15 (Some 1%nat)) = Some (Code 0, w')
    ∧ run_mem mem_example (OpAdd 7%nat 15 (Some 1%nat)) = Some (Code 0, m') ∧ represents m' w'.
Proof.
  destruct (timer_add_spec wheel_example 7%nat zero_node 15 (Some 1%nat)) as (w & E & _);
    [exact wheel_example_good|done|done|by intros ?%elem_of_nil|by intros ?%elem_of_nil|lia|].
  assert (run_wheel wheel_example (OpAdd 7%nat 15 (Some 1%nat)) = Some (Code 0, w)) as Ew
    by (simpl; by rewrite E).
  destruct (wheel_lists_refined mem_example wheel_example (OpAdd 7%nat 15 (Some 1%nat)) (Code 0) w)
    as (m' & Em & Hr); [exact mem_example_represents|exact wheel_example_good|exact Ew|].
  exists m', w. split_and!; [exact Ew|exact Em|exact Hr].
Defined.

(** The memory runs: a tick moves the node to the workers, one of which starts
    it with the callback 1. *)
Example mem_example_runs :
  (foldl (λ o op, '(_, m) ← o; run_mem m op) (Some (Done, mem_example))
     [OpAdd 7%nat 5 (Some 1%nat); OpTick; OpTake 0; OpBegin 0]) ≫= (λ x, Some x.1)
  = Some (Started 7%nat (Some 1%nat)).
Proof. vm_compute. reflexivity. Qed.
