(* ===== verification/WheelRace.v ===== *)
(** * Re-arming a timer that waits in a worker's batch (wheel_timer/wheel_timer.c)

    Between the tick that expires a node and the worker that starts it, the
    node is not pending but its links still join it to the local list of the
    worker.  [timer_add] and [timer_mod] test only [pending]: here is what the
    worker's loop over its list does after one of them, when it has not read
    the links of the node yet (it runs the callback of the node before), and
    when it has (it is about to start the node). *)

From stdpp Require Import base numbers list option gmap sets.
From S2P Require Import Prelude WheelTimer DList WheelLists.

Section race.
Context {N C : Type} `{Countable N}.
Implicit Types m : mem_wheel N C.
Implicit Types w : timer_wheel N C.
Implicit Types n : N.

(** The buckets are rings without the node. *)
Definition off_rings m n : Prop :=
  is_Some (mw_mem m !! Entry n)
  ∧ ∀ k, (k < Z.to_nat wheel_slots)%nat →
      ∃ l, dlist (mw_mem m) (Slot k) l ∧ Entry n ∉ Slot k :: l.

(** The worker goes on to [n] and starts it with [cb]; then its loop goes on in
    the array of the wheel: [pos] is the head of a bucket, which is neither a
    node nor the end of its list. *)
Definition runs_off m (i : nat) n (cb : option C) : Prop :=
  ∃ m1 m2 m3 k tmp, mem_worker_next m i = Some m1 ∧ mem_worker_begin m1 i = Some (n, cb, m2)
    ∧ mem_worker_next m2 i = Some m3 ∧ mw_pos m3 !! i = Some (At (Some (Slot k)) tmp)
    ∧ mem_worker_begin m3 i = None ∧ mem_worker_take m3 i = None.

(** The worker starts [n] with [cb] at once. *)
Definition runs_early m (i : nat) n (cb : option C) : Prop :=
  ∃ m', mem_worker_begin m i = Some (n, cb, m').

Lemma batch_off_rings m w i n rest :
  represents m w → wheel_good w → w_batches w !! i = Some (n :: rest) → is_Some (w_nodes w !! n) →
  off_rings m n.
Proof.
  intros Hr [Hi _] Hb Hn. split; [by apply (rp_live _ _ _ _ Hr)|]. intros k Hk.
  destruct (rp_lists _ _ _ _ Hr) as (T & Hok & Hv). rewrite <- (wi_slots _ _ _ Hi) in Hk.
  apply lookup_lt_is_Some_2 in Hk as [l El].
  pose proof (vw_slots _ _ _ _ Hv k) as Ek. rewrite El in Ek.
  destruct (lists_ring _ _ _ _ Hok Ek) as (Hd & _). exists (Entry <$> l). split; [exact Hd|].
  intros [?|Hin]%elem_of_cons; [done|]. rewrite entry_elem in Hin.
  pose proof (vw_batches _ _ _ _ Hv i) as Ei. rewrite Hb in Ei.
  assert (NodeList i = Slot k :> laddr N); [|done].
  eapply (lo_unique _ _ Hok); [eapply in_list_intro; [exact Ei|left]|eapply in_list_intro; [exact Ek|done]].
Qed.

Lemma off_rings_node m n n' f : off_rings m n → off_rings (mset_node n' f m) n.
Proof. done. Qed.

(** What the loop at [x] does with the node [n] in the memory [m]. *)
Definition loop_starts (x : loop_pos N) m (i : nat) n (cb : option C) : Prop :=
  match x with Running _ => runs_off m i n cb | At _ _ => runs_early m i n cb end.

Lemma relink_runs m i n x nd rest :
  off_rings m n → mw_pos m !! i = Some x → before i (n :: rest) x → mw_nodes m !! n = Some nd →
  ∃ m', mem_internal_add m n = Some m' ∧ loop_starts x m' i n (tn_callback nd).
Proof.
  intros [Hl Hr] Hp Hb En. unfold mem_internal_add. rewrite En. cbn [mbind option_bind].
  set (k := Z.to_nat _).
  destruct (Hr k) as (l & Hd & Hn).
  { pose proof (slot_for_bound (mw_jiffies m) (tn_expires nd)). subst k. lia. }
  destruct (list_add_tail_spec _ _ _ _ Hd Hn Hl) as (h & -> & Hd' & Ho). cbn [mbind option_bind].
  eexists. split; [reflexivity|].
  assert (i < length (mw_pos m))%nat as Hi by (by eapply lookup_lt_Some).
  destruct x as [pos tmp|tmp]; cbn in Hb.
  - destruct Hb as [-> _]. cbn. unfold runs_early, mem_worker_begin. cbn. rewrite Hp.
    rewrite lookup_alter, decide_True, En by done. by eexists.
  - subst tmp. change (first_of (Entry <$> n :: rest) (NodeList i)) with (Entry n) in Hp.
    destruct (dlist_split h (Slot k) (l ++ [Entry n]) []) as (_ & _ & _ & _ & _ & E & _); [by rewrite app_nil_r|].
    unfold last_of, first_of in E. rewrite last_snoc in E. simpl in E.
    assert (is_Some (nxt h (Slot k))) as [e Ee].
    { destruct (dlist_leads _ _ _ Hd') as [Hf _]. destruct l; cbn in Hf; rewrite Hf; by eexists. }
    cbn. unfold runs_off, mem_worker_next, mem_worker_begin, mem_worker_take. cbn. rewrite Hp.
    rewrite (get_next_eq h (Entry n)), E by (by eapply nxt_live). cbn [mbind option_bind].
    eexists _, _, _, k, (Some e). split; [reflexivity|]. cbn. rewrite list_lookup_insert_eq by done.
    rewrite lookup_alter, decide_True, En by done. cbn [fmap option_fmap option_map mbind option_bind].
    split; [reflexivity|]. cbn. rewrite list_lookup_insert_eq by (by rewrite length_insert).
    rewrite (get_next_eq h (Slot k)), Ee by (by eapply nxt_live). cbn [mbind option_bind].
    split; [reflexivity|]. cbn. rewrite list_lookup_insert_eq by (by rewrite !length_insert).
    split; [done|]. split; [done|]. by rewrite decide_False.
Qed.

Lemma init_off_rings m n nd :
  off_rings m n → mw_nodes m !! n = Some nd →
  ∃ m', mem_node_init m n = Some m' ∧ off_rings m' n
    ∧ mw_nodes m' = <[n := zero_node]> (mw_nodes m) ∧ mw_pos m' = mw_pos m ∧ mw_running m' = mw_running m.
Proof.
  intros [Hl Hr] En. unfold mem_node_init. rewrite En.
  destruct (INIT_LIST_HEAD_spec (mw_mem m) (Entry n) Hl) as (h & -> & _ & Ho). cbn [mbind option_bind].
  eexists. split; [reflexivity|]. split; [|done]. split; [by apply Ho|]. intros k Hk.
  destruct (Hr k Hk) as (l & Hd & Hn). exists l. split; [|done].
  eapply dlist_frame; [exact Hd|exact Ho|]. intros y Hy ->%list_elem_of_singleton. done.
Qed.

(** C26: re-arming a timer that waits in a worker's batch.  If the next node of
    the worker is initialised and added again, as rsvp_timer_start does after
    its timer_del found nothing to remove, or only modified, as
    rsvp_timer_reset does, the call returns 0, but the worker starts the node
    all the same, whatever the new timeout.  And when the loop has not read the
    links of the node yet, because the worker still runs the callback of the
    node before, it then follows the new links into the bucket and takes the
    head of the bucket for a node: it does not reach the rest of its batch, nor
    the end. *)
Theorem rearm_in_batch_runs_off m w i n rest nd ms cb x :
  represents m w → wheel_good w → w_running w = true →
  w_batches w !! i = Some (n :: rest) → w_nodes w !! n = Some nd → tn_pending nd = false →
  mw_pos m !! i = Some x →
  let outcome m' cb := match x with Running _ => runs_off m' i n cb | At _ _ => runs_early m' i n cb end in
  (∃ m1 m2, mem_node_init m n = Some m1 ∧ mem_timer_add m1 n ms cb = Some (0, m2) ∧ outcome m2 cb)
  ∧ ∃ m2, mem_timer_mod m n ms = Some (0, m2) ∧ outcome m2 (tn_callback nd).
Proof.
  intros Hr Hg Hrun Hb Hn Hp Hx outcome.
  assert (off_rings m n) as Hoff by (eapply batch_off_rings; [done..|by eexists]).
  destruct (position_lookup m w i _ Hr Hb) as (x' & Hx' & Hbef).
  rewrite Hx in Hx'. injection Hx' as <-.
  rewrite <- (rp_running _ _ _ _ Hr) in Hrun. rewrite <- (rp_nodes _ _ _ _ Hr) in Hn. split.
  - destruct (init_off_rings m n nd Hoff Hn) as (m1 & E1 & Hoff1 & En1 & Ep1 & Er1).
    exists m1. unfold mem_timer_add. rewrite Er1, Hrun, En1, lookup_insert_eq.
    cbn [negb mbind option_bind tn_pending zero_node].
    edestruct (relink_runs (mset_node n (λ nd, nd <| tn_wheel := true |>
        <| tn_expires := mem_expiry m1 ms |> <| tn_period := 0 |> <| tn_callback := cb |>) m1) i n x)
      as (m2 & E2 & Hoff2); [by apply off_rings_node|simpl; by rewrite Ep1|exact Hbef| |].
    { simpl. by rewrite En1, lookup_alter, decide_True, lookup_insert_eq. }
    exists m2. rewrite E2. split; [done|]. split; [done|exact Hoff2].
  - unfold mem_timer_mod. rewrite Hrun, Hn. cbn [negb mbind option_bind]. rewrite Hp. cbn [mbind option_bind].
    edestruct (relink_runs (mset_node n (λ nd, nd <| tn_wheel := true |>
        <| tn_expires := mem_expiry m ms |>) m) i n x) as (m2 & E2 & Hoff2);
      [by apply off_rings_node|exact Hx|exact Hbef| |].
    { simpl. by rewrite lookup_alter, decide_True, Hn. }
    exists m2. rewrite E2. split; [done|exact Hoff2].
Qed.
End race.

(** ** Witness *)

(** A worker that takes its batch leaves the wheel good. *)
Lemma worker_take_good {N C : Type} `{Countable N} (w w' : timer_wheel N C) i :
  wheel_good w → worker_take w i = Some w' → wheel_good w'.
Proof.
  intros [[? ? ? Hout _ ? ? ?] Hj]. unfold worker_take.
  destruct (w_batches w !! i) as [[|]|] eqn:Ei; [|done..].
  destruct (w_expired_list w) as [|x l] eqn:Ee; [done|]. intros [= <-]. split; [|done].
  split; try done.
  2:{ split; [by apply NoDup_nil|]. by intros n ?%elem_of_nil. }
  intros k n Hn. destruct (Hout k n Hn) as [He Hb]. split; [apply not_elem_of_nil|]. simpl.
  rewrite list_elem_of_join. intros (l' & Hl & Hin). apply list_elem_of_lookup in Hin as [j Hj'].
  destruct (decide (i = j)) as [<-|Hne].
  - rewrite list_lookup_insert_eq in Hj' by (by eapply lookup_lt_Some). injection Hj' as <-.
    by apply He.
  - rewrite list_lookup_insert_ne in Hj' by done. apply Hb, list_elem_of_join. exists l'.
    split; [done|]. by apply list_elem_of_lookup_2 in Hj'.
Qed.

(** Two timers expire at the same tick and a worker takes both. *)
Definition expire_two (w : timer_wheel nat nat) : option (timer_wheel nat nat) :=
  '(_, w) ← timer_add w 7%nat 10 (Some 1%nat);
  '(_, w) ← timer_add w 8%nat 10 (Some 2%nat);
  w ← wheel_tick w;
  worker_take w 0.

Definition two_timers : timer_wheel nat nat := wheel_alloc wheel_example 8%nat.
Definition two_expired : timer_wheel nat nat := default two_timers (expire_two two_timers).

Lemma two_expired_ok : wheel_good two_expired ∧ ∃ m, represents m two_expired.
Proof.
  assert (wheel_good two_timers) as G0 by (apply wheel_alloc_good; [exact wheel_example_good|done]).
  assert (∃ m, represents m two_timers) as [m0 R0].
  { exists (mem_alloc mem_example 8%nat). apply mem_alloc_refines; [exact mem_example_represents|].
    apply (bool_decide_eq_false_1 (linked _ _)). by vm_compute. }
  destruct (expire_two two_timers) as [w4|] eqn:E.
  2:{ assert (is_Some (expire_two two_timers)) as [? ?]; [|congruence]. vm_compute. by eexists. }
  unfold two_expired. rewrite E. simpl. unfold expire_two in E.
  apply bind_Some in E as ([rc1 w1] & E1 & E). apply bind_Some in E as ([rc2 w2] & E2 & E).
  apply bind_Some in E as (w3 & E3 & E4).
  destruct (timer_add_spec two_timers 7%nat zero_node 10 (Some 1%nat)) as (w1' & E1' & G1 & F1 & N1 & _);
    [exact G0|done|done|by intros ?%elem_of_nil|by intros ?%elem_of_nil|lia|].
  rewrite E1 in E1'. injection E1' as -> <-. pose proof F1 as (J1 & _ & Run1 & X1 & B1).
  destruct (timer_add_spec w1 8%nat zero_node 10 (Some 2%nat)) as (w2' & E2' & G2 & F2 & _);
    [exact G1|by rewrite Run1|by rewrite N1|rewrite X1; by intros ?%elem_of_nil
    |rewrite B1; by intros ?%elem_of_nil|lia|].
  rewrite E2 in E2'. injection E2' as -> <-. destruct F2 as (J2 & _).
  destruct (wheel_tick_spec w2) as (w3' & fired & E3' & G3 & _); [exact G2|by rewrite J2, J1|].
  rewrite E3 in E3'. injection E3' as <-. split; [by eapply worker_take_good|].
  destruct (mem_timer_add_refines _ _ _ _ _ _ _ _ R0 (proj1 G0) E1) as (m1 & _ & R1).
  destruct (mem_timer_add_refines _ _ _ _ _ _ _ _ R1 (proj1 G1) E2) as (m2 & _ & R2).
  destruct (mem_tick_refines _ _ _ R2 (wi_slots _ _ _ (proj1 G2)) E3) as (m3 & _ & R3).
  destruct (mem_worker_take_refines _ _ _ _ R3 E4) as (m4 & _ & R4). by exists m4.
Qed.

(** A worker that starts a node leaves the wheel good. *)
Lemma worker_begin_good {N C : Type} `{Countable N} (w w' : timer_wheel N C) i n cb :
  wheel_good w → worker_begin w i = Some (n, cb, w') → wheel_good w'.
Proof.
  intros [[? ? ? Hout _ Hpos Hpend ?] Hj]. unfold worker_begin.
  destruct (w_batches w !! i) as [[|x rest]|] eqn:Ei; [done| |done].
  intros (nd & End & [= <- <- <-])%bind_Some. split; [|done].
  split; try done; simpl.
  - intros k y Hy. destruct (Hout k y Hy) as [He Hb]. split; [exact He|].
    rewrite list_elem_of_join. intros (l' & Hl & Hin). apply list_elem_of_lookup in Hin as [j Hj'].
    apply Hb, list_elem_of_join. destruct (decide (i = j)) as [<-|Hne].
    + rewrite list_lookup_insert_eq in Hj' by (by eapply lookup_lt_Some). injection Hj' as <-.
      exists (x :: rest). split; [by right|]. by apply list_elem_of_lookup_2 in Ei.
    + rewrite list_lookup_insert_ne in Hj' by done. exists l'.
      split; [done|]. by apply list_elem_of_lookup_2 in Hj'.
  - split; [by apply NoDup_nil|]. by intros y ?%elem_of_nil.
  - intros k y Hy. destruct (Hpos k y Hy) as (yd & Ey & Hp & Ho).
    destruct (decide (x = y)) as [<-|Hne].
    + rewrite lookup_alter, decide_True, Ey by done. eexists. by split_and!.
    + rewrite lookup_alter_ne by done. by exists yd.
  - intros y yd. destruct (decide (x = y)) as [<-|Hne].
    + rewrite lookup_alter, decide_True by done. intros (yd' & Ey & ->)%fmap_Some. intros Hp. exact (Hpend x yd' Ey Hp).
    + rewrite lookup_alter_ne by done. apply Hpend.
Qed.

(** The worker runs the callback of the first of the two. *)
Definition one_running : timer_wheel nat nat :=
  default two_expired ('(_, _, w) ← worker_begin two_expired 0; Some w).

Lemma one_running_ok :
  wheel_good one_running
  ∧ ∃ m tmp, represents m one_running ∧ mw_pos m !! 0%nat = Some (Running tmp).
Proof.
  destruct two_expired_ok as [G [m R]].
  destruct (worker_begin two_expired 0) as [[[n cb] w]|] eqn:E.
  2:{ assert (is_Some (worker_begin two_expired 0)) as [? ?]; [|congruence]. vm_compute. by eexists. }
  unfold one_running. rewrite E. cbn [mbind option_bind default].
  split; [by eapply worker_begin_good|].
  destruct (mem_worker_begin_refines m two_expired 0 n cb w R E) as (m' & E' & R').
  apply bind_Some in E' as (m1 & _ & E'). unfold mem_worker_begin in E'.
  destruct (mw_pos m1 !! 0%nat) as [[[[]|] tmp|]|] eqn:Ep; try done.
  apply bind_Some in E' as (nd & _ & [= _ _ <-]).
  eexists _, tmp. split; [exact R'|]. simpl. apply list_lookup_insert_eq. by eapply lookup_lt_Some.
Qed.

(** Meanwhile the second is armed again to fire in ten seconds. *)
Lemma rearm_in_batch_runs_off_witness :
  ∃ m m1 m2, represents m one_running ∧ mem_node_init m 8%nat = Some m1
    ∧ mem_timer_add m1 8%nat 10000 (Some 3%nat) = Some (0, m2) ∧ runs_off m2 0 8%nat (Some 3%nat).
Proof.
  destruct one_running_ok as [G (m & tmp & R & Hp)].
  assert (w_nodes one_running !! 8%nat = Some (mk_timer_node 1 0 (Some 2%nat) true false false)) as En
    by (vm_compute; reflexivity).
  destruct (rearm_in_batch_runs_off m one_running 0 8%nat [] _ 10000 (Some 3%nat) (Running tmp) R G
    ltac:(vm_compute; reflexivity) ltac:(vm_compute; reflexivity) En eq_refl Hp) as [(m1 & m2 & E1 & E2 & Hoff) _].
  exists m, m1, m2. split; [exact R|]. split; [exact E1|]. split; [exact E2|exact Hoff].
Defined.
