(* ===== verification/WheelLife.v ===== *)
(** * Creation and destruction of the timer wheel (wheel_timer/wheel_timer.c)

    [timer_wheel_create] and [timer_wheel_destroy] as what they do to the
    resources of the wheel (memory, locks, threads), for any answers of the
    system; and the end of the threads, as the steps of the tick thread, the
    workers and the thread that destroys the wheel, with the lock and the
    condition variable of the dispatch: [pthread_cond_wait] gives the lock up
    and a broadcast, or nothing at all, wakes it. *)

From stdpp Require Import base numbers list option gmap sets relations.
From S2P Require Import Prelude.

(** ** Resources *)

Inductive resource :=
| WheelBlock | Lock | DispatchLock | WaitLock | DispatchCond | WaitCond | WorkersArray
| Wargs (i : nat) | WorkerThread (i : nat) | TickThread.
#[export] Instance resource_eq_dec : EqDecision resource.
Proof. solve_decision. Defined.
#[export] Instance resource_countable : Countable resource.
Proof.
  refine (inj_countable'
    (λ r, match r with
          | WheelBlock => (0, 0) | Lock => (1, 0) | DispatchLock => (2, 0) | WaitLock => (3, 0)
          | DispatchCond => (4, 0) | WaitCond => (5, 0) | WorkersArray => (6, 0)
          | Wargs i => (7, i) | WorkerThread i => (8, i) | TickThread => (9, 0)
          end%nat)
    (λ x, match x with
          | (0, _) => WheelBlock | (1, _) => Lock | (2, _) => DispatchLock | (3, _) => WaitLock
          | (4, _) => DispatchCond | (5, _) => WaitCond | (6, _) => WorkersArray
          | (7, i) => Wargs i | (8, i) => WorkerThread i | _ => TickThread
          end%nat) _).
  by intros [].
Defined.

(** What is live; the release of something else is [None]. *)
Definition acquire (r : resource) (live : gset resource) : gset resource := {[ r ]} ∪ live.
Definition release (r : resource) (live : gset resource) : option (gset resource) :=
  if decide (r ∈ live) then Some (live ∖ {[ r ]}) else None.

Fixpoint release_all (rs : list resource) (live : gset resource) : option (gset resource) :=
  match rs with
  | [] => Some live
  | r :: rs => live ← release r live; release_all rs live
  end.

(** [ans k] is the success of the [k]-th call; [started] and [tick] are
    [workers_started] and [tick_thread_created]. *)
Section lifecycle.
Implicit Types live : gset resource.

Definition timer_wheel_destroy (started : nat) (tick : bool) live : option (gset resource) :=
  live ← (if tick then release TickThread live else Some live);
  live ← release_all (WorkerThread <$> seq 0 started) live;
  live ← (if decide (WorkersArray ∈ live) then release WorkersArray live else Some live);
  release_all [Lock; DispatchLock; WaitLock; DispatchCond; WaitCond; WheelBlock] live.

(** The loop that starts the workers: how many have been started, and whether
    all could be.  A worker that starts frees its arguments. *)
Fixpoint start_workers (n i k : nat) (ans : nat → bool) live : option (bool * nat * gset resource) :=
  match n with
  | 0%nat => Some (true, i, live)
  | S n =>
      if negb (ans k) then Some (false, i, live)
      else
        let live := acquire (Wargs i) live in
        if negb (ans (k + 1)%nat) then
          live ← release (Wargs i) live; Some (false, i, live)
        else
          live ← release (Wargs i) live;
          start_workers n (S i) (k + 2) ans (acquire (WorkerThread i) live)
  end.

(** The labels at the end of [timer_wheel_create], each falling through to the
    next. *)
Definition err_free_wheel live := release WheelBlock live.
Definition err_destroy_lock live := live ← release Lock live; err_free_wheel live.
Definition err_destroy_dispatch_lock live := live ← release DispatchLock live; err_destroy_lock live.
Definition err_destroy_wait_lock live := live ← release WaitLock live; err_destroy_dispatch_lock live.
Definition err_destroy_dispatch_cond live := live ← release DispatchCond live; err_destroy_wait_lock live.
Definition err_destroy_wait_cond live := live ← release WaitCond live; err_destroy_dispatch_cond live.

Definition null (o : option (gset resource)) : option (bool * gset resource) := pair false <$> o.

(** [true]: the wheel, [false]: NULL. *)
Definition create_wheel (tick_ms worker_count : Z) (ans : nat → bool) : option (bool * gset resource) :=
  if (tick_ms =? 0) || (worker_count <=? 0) then Some (false, ∅)
  else if negb (ans 0%nat) then Some (false, ∅)
  else
    let live := acquire WheelBlock ∅ in
    if negb (ans 1%nat) then null (err_free_wheel live) else
    let live := acquire Lock live in
    if negb (ans 2%nat) then null (err_destroy_lock live) else
    let live := acquire DispatchLock live in
    if negb (ans 3%nat) then null (err_destroy_dispatch_lock live) else
    let live := acquire WaitLock live in
    if negb (ans 4%nat) then null (err_destroy_wait_lock live) else
    let live := acquire DispatchCond live in
    if negb (ans 5%nat) then null (err_destroy_dispatch_cond live) else
    let live := acquire WaitCond live in
    if negb (ans 6%nat) then null (err_destroy_wait_cond live) else
    let live := acquire WorkersArray live in
    '(ok, started, live) ← start_workers (Z.to_nat worker_count) 0 7 ans live;
    if negb ok || negb (ans (7 + 2 * Z.to_nat worker_count)%nat) then
      null (timer_wheel_destroy started false live)
    else Some (true, acquire TickThread live).

(** The resources of a running wheel. *)
Definition base_resources : list resource :=
  [WheelBlock; Lock; DispatchLock; WaitLock; DispatchCond; WaitCond; WorkersArray].
Definition running_wheel (started : nat) : gset resource :=
  list_to_set base_resources ∪ list_to_set (WorkerThread <$> seq 0 started).

Lemma release_elem r live : r ∈ live → release r live = Some (live ∖ {[ r ]}).
Proof. intros. unfold release. by rewrite decide_True. Qed.

Lemma release_acquire r live : r ∉ live → release r (acquire r live) = Some live.
Proof.
  intros. unfold acquire. rewrite release_elem by set_solver. f_equal. set_solver.
Qed.

Lemma release_all_spec rs live :
  NoDup rs → (∀ r, r ∈ rs → r ∈ live) → release_all rs live = Some (live ∖ list_to_set rs).
Proof.
  revert live. induction rs as [|r rs IH]; intros live Hnd Hin; simpl.
  - f_equal. set_solver.
  - apply NoDup_cons in Hnd as [Hr Hnd]. rewrite release_elem by (apply Hin; left).
    cbn [mbind option_bind]. rewrite IH; [f_equal; set_solver|done|].
    intros x Hx. apply elem_of_difference. split; [apply Hin; by right|set_solver].
Qed.
End lifecycle.

Section lifecycle_rules.
Implicit Types live : gset resource.

Lemma running_wheel_elem started r :
  r ∈ running_wheel started ↔
    r ∈ base_resources ∨ ∃ i, r = WorkerThread i ∧ (i < started)%nat.
Proof.
  unfold running_wheel. rewrite elem_of_union, !elem_of_list_to_set, list_elem_of_fmap.
  setoid_rewrite elem_of_seq. split; [intros [?|(i & ? & ?)]|intros [?|(i & ? & ?)]]; eauto 6 with lia.
Qed.

Lemma running_wheel_S started :
  acquire (WorkerThread started) (running_wheel started) = running_wheel (S started).
Proof.
  apply set_eq. intros r. unfold acquire. rewrite elem_of_union, elem_of_singleton, !running_wheel_elem.
  split.
  - intros [->|[?|(i & -> & ?)]]; [right; exists started; eauto with lia|by left|].
    right. exists i. eauto with lia.
  - intros [?|(i & -> & Hi)]; [auto|]. destruct (decide (i = started)) as [->|]; [by left|].
    right. right. exists i. split; [done|lia].
Qed.

Lemma start_workers_spec n i k ans :
  ∃ ok j, start_workers n i k ans (running_wheel i) = Some (ok, j, running_wheel j)
    ∧ (ok = true → j = (i + n)%nat).
Proof.
  revert i k. induction n as [|n IH]; intros i k; simpl.
  - exists true, i. split; [done|lia].
  - assert (Wargs i ∉ running_wheel i) as Hw.
    { rewrite running_wheel_elem. unfold base_resources. intros [Hb|(? & ? & _)]; [|done].
      rewrite !elem_of_cons, elem_of_nil in Hb. naive_solver. }
    destruct (negb (ans k)); [by exists false, i|].
    destruct (negb (ans (k + 1)%nat)); rewrite release_acquire by done; cbn [mbind option_bind].
    + by exists false, i.
    + rewrite running_wheel_S. destruct (IH (S i) (k + 2)%nat) as (ok & j & E & Hj).
      exists ok, j. split; [exact E|]. intros ->. rewrite Hj by done. lia.
Qed.

Lemma destroy_base live started :
  live = running_wheel started → timer_wheel_destroy started false live = Some ∅.
Proof.
  intros ->. unfold timer_wheel_destroy. cbn [mbind option_bind].
  assert (∀ r, r ∈ base_resources → r ∉ list_to_set (C := gset resource) (WorkerThread <$> seq 0 started)) as Hb.
  { intros r. unfold base_resources. rewrite elem_of_list_to_set, list_elem_of_fmap, !elem_of_cons, elem_of_nil.
    naive_solver. }
  rewrite release_all_spec.
  - cbn [mbind option_bind].
    assert (running_wheel started ∖ list_to_set (WorkerThread <$> seq 0 started)
      = list_to_set base_resources) as -> by (unfold running_wheel; set_solver).
    vm_compute. done.
  - apply NoDup_fmap_2; [intros ? ? [=]; done|apply NoDup_seq].
  - intros r Hr. unfold running_wheel. rewrite elem_of_union, !elem_of_list_to_set. by right.
Qed.

Lemma destroy_tick started :
  timer_wheel_destroy started true (acquire TickThread (running_wheel started)) = Some ∅.
Proof.
  assert (TickThread ∉ running_wheel started) as Ht.
  { rewrite running_wheel_elem. unfold base_resources. intros [Hb|(? & ? & _)]; [|done].
    rewrite !elem_of_cons, elem_of_nil in Hb. naive_solver. }
  unfold timer_wheel_destroy. rewrite release_acquire by done. cbn [mbind option_bind].
  pose proof (destroy_base _ started eq_refl) as E. exact E.
Qed.
End lifecycle_rules.

(** C28: creating a wheel leaks nothing and frees nothing twice, whichever of
    its calls fails: it either returns a wheel with its locks, all its workers
    and the tick thread, which [timer_wheel_destroy] takes down completely, or
    returns NULL with everything released that had been acquired. *)
Theorem create_wheel_balanced tick_ms worker_count ans :
  ∃ ok live, create_wheel tick_ms worker_count ans = Some (ok, live)
    ∧ (ok = true → live = acquire TickThread (running_wheel (Z.to_nat worker_count))
         ∧ timer_wheel_destroy (Z.to_nat worker_count) true live = Some ∅)
    ∧ (ok = false → live = ∅).
Proof.
  unfold create_wheel. case_if; [by exists false, ∅|].
  destruct (negb (ans 0%nat)); [by exists false, ∅|]. cbv zeta.
  do 6 (match goal with |- context [negb (ans ?k)] => destruct (negb (ans k)) end;
    [exists false, ∅; split; [vm_compute; done|done]|]).
  set (live := acquire WorkersArray _).
  assert (live = running_wheel 0) as -> by (vm_compute; reflexivity).
  destruct (start_workers_spec (Z.to_nat worker_count) 0 7 ans) as (ok & j & -> & Hj).
  cbn [mbind option_bind].
  destruct (negb ok || _) eqn:E0.
  - exists false, ∅. by rewrite (destroy_base _ j eq_refl).
  - apply orb_false_elim in E0 as [Eok%negb_false_iff _]. rewrite (Hj Eok). simpl.
    exists true. eexists. split; [reflexivity|]. split; [|done]. intros _. split; [done|].
    apply destroy_tick.
Qed.

(** ** The end of the threads *)

(** Where a worker is: before it locks [dispatch_lock], testing its conditions
    with the lock held, in [pthread_cond_wait], woken and about to take the
    lock again, running callbacks, returned. *)
Inductive worker_pc := WLock | WTest | WWait | WWake | WRun | WExit.
#[export] Instance worker_pc_eq_dec : EqDecision worker_pc.
Proof. solve_decision. Defined.

(** The tick thread: testing [running], sleeping, at work on the wheel, about
    to lock [dispatch_lock], handing over with the lock held, returned. *)
Inductive tick_pc := TTest | TSleep | TWork | TLock | TPush | TExit.
#[export] Instance tick_pc_eq_dec : EqDecision tick_pc.
Proof. solve_decision. Defined.

(** [timer_wheel_destroy]: before it stops the wheel, joining the tick thread,
    about to lock, locked, after the broadcast, joining worker [i], done. *)
Inductive main_pc := DStop | DJoinTick | DLock | DBroadcast | DUnlock | DJoin (i : nat) | DFree.

Inductive thread := Worker (i : nat) | Tick | Main.

Record threads := mk_threads {
  running : bool;
  expired : bool;              (** [expired_list] is not empty *)
  dispatch : option thread;    (** who holds [dispatch_lock] *)
  wpc : list worker_pc;
  tpc : tick_pc;
  dpc : main_pc;
}.
#[export] Instance threads_settable : Settable threads :=
  λ s, mk_threads (running s) (expired s) (dispatch s) (wpc s) (tpc s) (dpc s).

Definition wake (p : worker_pc) : worker_pc := match p with WWait => WWake | p => p end.
Definition broadcast (s : threads) : threads := s <| wpc ::= fmap wake |>.
Definition set_worker (i : nat) (p : worker_pc) (s : threads) : threads := s <| wpc ::= <[i := p]> |>.

(** A step of worker [i] ([worker_thread_func]). *)
Inductive worker_step (i : nat) (s : threads) : threads → Prop :=
| w_lock : wpc s !! i = Some WLock → dispatch s = None →
    worker_step i s (set_worker i WTest (s <| dispatch := Some (Worker i) |>))
| w_wait : wpc s !! i = Some WTest → running s = true → expired s = false →
    worker_step i s (set_worker i WWait (s <| dispatch := None |>))
| w_exit : wpc s !! i = Some WTest → running s = false → expired s = false →
    worker_step i s (set_worker i WExit (s <| dispatch := None |>))
| w_take : wpc s !! i = Some WTest → expired s = true →
    worker_step i s (set_worker i WRun (s <| expired := false |> <| dispatch := None |>))
| w_wake : wpc s !! i = Some WWake → dispatch s = None →
    worker_step i s (set_worker i WTest (s <| dispatch := Some (Worker i) |>))
| w_done : wpc s !! i = Some WRun → worker_step i s (set_worker i WLock s).

(** A step of the tick thread ([tick_thread_func]). *)
Inductive tick_step (s : threads) : threads → Prop :=
| t_test : tpc s = TTest → running s = true → tick_step s (s <| tpc := TSleep |>)
| t_exit : tpc s = TTest → running s = false → tick_step s (s <| tpc := TExit |>)
| t_sleep : tpc s = TSleep → tick_step s (s <| tpc := TWork |>)
| t_intr : tpc s = TSleep → running s = false → tick_step s (s <| tpc := TExit |>)
| t_idle : tpc s = TWork → tick_step s (s <| tpc := TTest |>)
| t_work : tpc s = TWork → tick_step s (s <| tpc := TLock |>)
| t_lock : tpc s = TLock → dispatch s = None →
    tick_step s (s <| tpc := TPush |> <| dispatch := Some Tick |>)
| t_push : tpc s = TPush →
    tick_step s (broadcast (s <| expired := true |>) <| dispatch := None |> <| tpc := TTest |>).

(** A step of the thread that destroys the wheel. *)
Inductive main_step (s : threads) : threads → Prop :=
| d_stop : dpc s = DStop → main_step s (s <| running := false |> <| dpc := DJoinTick |>)
| d_join_tick : dpc s = DJoinTick → tpc s = TExit → main_step s (s <| dpc := DLock |>)
| d_lock : dpc s = DLock → dispatch s = None →
    main_step s (s <| dispatch := Some Main |> <| dpc := DBroadcast |>)
| d_broadcast : dpc s = DBroadcast → main_step s (broadcast s <| dpc := DUnlock |>)
| d_unlock : dpc s = DUnlock → main_step s (s <| dispatch := None |> <| dpc := DJoin 0 |>)
| d_join i : dpc s = DJoin i → wpc s !! i = Some WExit → main_step s (s <| dpc := DJoin (S i) |>)
| d_free i : dpc s = DJoin i → i = length (wpc s) → main_step s (s <| dpc := DFree |>).

Inductive thread_step (s s' : threads) : Prop :=
| step_worker i : worker_step i s s' → thread_step s s'
| step_tick : tick_step s s' → thread_step s s'
| step_main : main_step s s' → thread_step s s'.

(** A wait may also end without a broadcast. *)
Inductive any_step (s s' : threads) : Prop :=
| step_thread : thread_step s s' → any_step s s'
| step_spurious i : wpc s !! i = Some WWait → s' = set_worker i WWake s → any_step s s'.

(** The wheel runs with [n] workers; without its tick thread when
    [timer_wheel_create] gives up. *)
Definition start_threads (n : nat) (tick : bool) : threads :=
  mk_threads true false None (replicate n WLock) (if tick then TTest else TExit) DStop.

Inductive threads_reach : threads → Prop :=
| reach_start n tick : threads_reach (start_threads n tick)
| reach_step s s' : threads_reach s → any_step s s' → threads_reach s'.

(** ** Invariant *)

Definition past_broadcast (d : main_pc) : Prop :=
  match d with DUnlock | DJoin _ | DFree => True | _ => False end.
Definition past_tick (d : main_pc) : Prop :=
  match d with DStop | DJoinTick => False | _ => True end.
Definition joined (d : main_pc) (n : nat) : nat :=
  match d with DJoin i => i | DFree => n | _ => 0%nat end.

Record threads_ok (s : threads) : Prop := {
  th_worker : ∀ i, dispatch s = Some (Worker i) ↔ wpc s !! i = Some WTest;
  th_tick : dispatch s = Some Tick ↔ tpc s = TPush;
  th_main : dispatch s = Some Main ↔ dpc s = DBroadcast ∨ dpc s = DUnlock;
  th_running : running s = false ↔ dpc s ≠ DStop;
  th_awake : past_broadcast (dpc s) → ∀ i, wpc s !! i ≠ Some WWait;
  th_tick_done : past_tick (dpc s) → tpc s = TExit;
  th_joined : ∀ i, (i < joined (dpc s) (length (wpc s)))%nat → wpc s !! i = Some WExit;
  th_bound : (joined (dpc s) (length (wpc s)) ≤ length (wpc s))%nat;
}.

Lemma set_worker_ok s i p0 p ex d' :
  threads_ok s → wpc s !! i = Some p0 → p0 ≠ WExit →
  (p = WTest ↔ d' = Some (Worker i)) →
  (∀ t, t ≠ Worker i → d' = Some t ↔ dispatch s = Some t) →
  (p = WWait → running s = true) →
  threads_ok (set_worker i p (s <| expired := ex |> <| dispatch := d' |>)).
Proof.
  intros [HW HT HM HR HA HD HJ HB] Hi Hx Hp Hd Hw.
  assert (∀ j, <[i := p]> (wpc s) !! j = if decide (i = j) then Some p else wpc s !! j) as Hl.
  { intros j. case_decide as E; [subst; apply list_lookup_insert_eq; by eapply lookup_lt_Some|].
    by apply list_lookup_insert_ne. }
  split; simpl; rewrite ?length_insert; try done.
  - intros j. rewrite Hl. case_decide as E; [subst; rewrite <- Hp; naive_solver|].
    rewrite Hd by congruence. apply HW.
  - by rewrite Hd.
  - by rewrite Hd.
  - intros Hpb j. rewrite Hl. case_decide; [|by apply HA]. intros [= ->].
    assert (running s = false) as R; [|rewrite Hw in R; done].
    apply HR. intros Ed. by rewrite Ed in Hpb.
  - intros j Hj. rewrite Hl. case_decide as E; [|by apply HJ]. subst j.
    specialize (HJ i Hj). congruence.
Qed.

Lemma lookup_wake (l : list worker_pc) i : (wake <$> l) !! i = wake <$> l !! i.
Proof. apply list_lookup_fmap. Qed.

Lemma wake_test (l : list worker_pc) i : (wake <$> l) !! i = Some WTest ↔ l !! i = Some WTest.
Proof. rewrite lookup_wake. destruct (l !! i) as [[]|]; simpl; naive_solver. Qed.
Lemma wake_exit (l : list worker_pc) i : l !! i = Some WExit → (wake <$> l) !! i = Some WExit.
Proof. rewrite lookup_wake. by intros ->. Qed.
Lemma wake_wait (l : list worker_pc) i : (wake <$> l) !! i ≠ Some WWait.
Proof. rewrite lookup_wake. by destruct (l !! i) as [[]|]. Qed.

Lemma worker_step_ok i s s' : threads_ok s → worker_step i s s' → threads_ok s'.
Proof.
  intros Hok Hs. pose proof (th_worker s Hok i) as HW.
  destruct Hs as [E D|E R X|E R X|E X|E D|E].
  - eapply (set_worker_ok s i WLock WTest (expired s)); try done. intros t Ht. rewrite D. naive_solver.
  - eapply (set_worker_ok s i WTest WWait (expired s)); try done.
    intros t Ht. rewrite (proj2 HW E). naive_solver.
  - eapply (set_worker_ok s i WTest WExit (expired s)); try done.
    intros t Ht. rewrite (proj2 HW E). naive_solver.
  - eapply (set_worker_ok s i WTest WRun false); try done.
    intros t Ht. rewrite (proj2 HW E). naive_solver.
  - eapply (set_worker_ok s i WWake WTest (expired s)); try done. intros t Ht. rewrite D. naive_solver.
  - eapply (set_worker_ok s i WRun WLock (expired s) (dispatch s)); try done.
    split; [done|]. intros Hd%HW. congruence.
Qed.

Lemma tick_step_ok s s' : threads_ok s → tick_step s s' → threads_ok s'.
Proof.
  intros [HW HT HM HR HA HD HJ HB] Hs.
  assert (past_tick (dpc s) → tpc s ≠ TExit → False) as Hlate by (intros Hp Hn; by apply Hn, HD).
  destruct Hs as [E R|E R|E|E R|E|E|E D|E]; rewrite E in HT, Hlate;
    (split; simpl; rewrite ?length_fmap; try done;
     try (intros Hp; exfalso; by apply (Hlate Hp)); try (rewrite HT; split; congruence)).
  - intros i. rewrite <- HW, D. split; congruence.
  - rewrite <- HM, D. split; congruence.
  - intros i. rewrite wake_test, <- HW, (proj2 HT eq_refl). split; congruence.
  - rewrite <- HM, (proj2 HT eq_refl). split; congruence.
  - intros _ i. apply wake_wait.
  - intros i Hi. by apply wake_exit, HJ.
Qed.

Lemma main_step_ok s s' : threads_ok s → main_step s s' → threads_ok s'.
Proof.
  intros [HW HT HM HR HA HD HJ HB] Hs.
  destruct Hs as [E|E ET|E ED|E|E|i E Ei|i E Ei]; rewrite E in HM, HR, HA, HD, HJ, HB; simpl in *;
    (split; simpl; rewrite ?length_fmap; try done; try lia; try (intuition congruence)).
  - intros i. rewrite <- HW, ED. intuition congruence.
  - intros i. by rewrite wake_test.
  - intros _ i. apply wake_wait.
  - intros i. rewrite <- HW, (proj2 HM (or_intror eq_refl)). intuition congruence.
  - intros j Hj. destruct (decide (j = i)) as [->|]; [done|]. apply HJ. lia.
  - apply lookup_lt_Some in Ei. lia.
  - intros j Hj. apply HJ. lia.
Qed.

Lemma start_ok n tick : threads_ok (start_threads n tick).
Proof.
  split; simpl; try done; try lia.
  - intros i. split; [done|]. intros [? _]%lookup_replicate. done.
  - by destruct tick.
  - split; [done|]. by intros [?|?].
Qed.

Lemma reach_ok s : threads_reach s → threads_ok s.
Proof.
  induction 1 as [n tick|s s' _ IH [[i Hs|Hs|Hs]|i Hi ->]]; [apply start_ok|..].
  - by eapply worker_step_ok.
  - by eapply tick_step_ok.
  - by eapply main_step_ok.
  - pose proof (th_worker s IH i) as HW.
    apply (set_worker_ok s i WWait WWake (expired s) (dispatch s)); try done.
    split; [done|]. intros Hd%HW. congruence.
Qed.

(** ** The shutdown completes *)

(** How many steps the threads can still make once the wheel is stopped. *)
Definition worker_weight (p : worker_pc) : nat :=
  match p with WExit => 0 | WTest => 1 | WLock | WWake => 2 | WWait | WRun => 3 end.
Definition tick_weight (p : tick_pc) : nat :=
  match p with TExit => 0 | TTest => 1 | TPush => 5 | TLock => 6 | TWork => 7 | TSleep => 8 end.
Definition main_weight (p : main_pc) (n : nat) : nat :=
  match p with
  | DFree => 0 | DJoin i => S (n - i) | DUnlock => n + 2 | DBroadcast => n + 3 | DLock => n + 4
  | DJoinTick => n + 5 | DStop => n + 6
  end.
Definition weight (s : threads) : nat :=
  sum_list_with worker_weight (wpc s) + tick_weight (tpc s) + main_weight (dpc s) (length (wpc s))
  + (if expired s then 3 else 0).

Lemma sum_insert (l : list worker_pc) i p p' :
  l !! i = Some p →
  (sum_list_with worker_weight (<[i := p']> l) + worker_weight p
   = sum_list_with worker_weight l + worker_weight p')%nat.
Proof.
  revert i. induction l as [|q l IH]; intros [|i]; simpl; [done..|intros [= ->]; lia|].
  intros Hi%IH. lia.
Qed.

Lemma sum_wake (l : list worker_pc) :
  (sum_list_with worker_weight (wake <$> l) ≤ sum_list_with worker_weight l)%nat.
Proof. induction l as [|p l IH]; csimpl; [lia|]. destruct p; simpl; lia. Qed.

Lemma weight_decreases s s' :
  running s = false → any_step s s' → (weight s' < weight s)%nat.
Proof.
  intros HR Hs. unfold weight.
  assert (∀ i p p', wpc s !! i = Some p → (worker_weight p' < worker_weight p)%nat →
    (sum_list_with worker_weight (<[i := p']> (wpc s)) < sum_list_with worker_weight (wpc s))%nat) as Hw.
  { intros i p p' Hi. pose proof (sum_insert _ i p p' Hi). lia. }
  destruct Hs as [[i [E D|E R X|E R X|E X|E D|E]|[E R|E R|E|E R|E|E|E D|E]|Hm]|i E ->]; simpl;
    rewrite ?length_insert, ?length_fmap; try congruence;
    try (specialize (Hw i _ WTest E ltac:(simpl; lia)); lia);
    try (specialize (Hw i _ WExit E ltac:(simpl; lia)); lia);
    try (specialize (Hw i _ WLock E ltac:(simpl; lia)); lia);
    try (specialize (Hw i _ WWake E ltac:(simpl; lia)); lia);
    try (rewrite E; simpl; lia).
  - rewrite X. pose proof (sum_insert _ i _ WRun E). simpl in *. lia.
  - rewrite E. simpl. pose proof (sum_wake (wpc s)). destruct (expired s); lia.
  - destruct Hm as [E|E ET|E ED|E|E|i E Ei|i E Ei]; simpl; rewrite ?length_fmap, E; simpl;
      try (pose proof (sum_wake (wpc s))); try lia.
    apply lookup_lt_Some in Ei. lia.
Qed.

(** A thread that does not wait for the lock can go on. *)
Lemma holder_moves s t : threads_ok s → dispatch s = Some t → ∃ s', thread_step s s'.
Proof.
  intros Hok Hd. destruct t as [i| |].
  - apply (th_worker s Hok) in Hd. destruct (expired s) eqn:X; [eexists; by eapply step_worker, w_take|].
    destruct (running s) eqn:R; eexists; eapply step_worker; [by apply w_wait|by apply w_exit].
  - apply (th_tick s Hok) in Hd. eexists. by eapply step_tick, t_push.
  - apply (th_main s Hok) in Hd as [E|E]; eexists; eapply step_main; [by apply d_broadcast|by apply d_unlock].
Qed.

Lemma lock_or_moves s : threads_ok s → dispatch s = None ∨ ∃ s', thread_step s s'.
Proof. intros Hok. destruct (dispatch s) eqn:E; [right; by eapply holder_moves|by left]. Qed.

Lemma tick_moves s : threads_ok s → running s = false → tpc s ≠ TExit → ∃ s', thread_step s s'.
Proof.
  intros Hok R Ht. destruct (lock_or_moves s Hok) as [D|]; [|done].
  destruct (tpc s) eqn:E; try done; eexists; eapply step_tick;
    [by apply t_exit|by apply t_intr|by apply t_work|by apply t_lock|by apply t_push].
Qed.

Lemma worker_moves s i p :
  threads_ok s → running s = false → wpc s !! i = Some p → p ≠ WExit → p ≠ WWait →
  ∃ s', thread_step s s'.
Proof.
  intros Hok R Hi Hx Hw. destruct (lock_or_moves s Hok) as [D|]; [|done].
  destruct (decide (p = WTest)) as [->|Ht]; [apply (th_worker s Hok) in Hi; congruence|].
  destruct p; try done; eexists; eapply step_worker;
    [by apply w_lock|by apply w_wake|by apply w_done].
Qed.

Lemma shutdown_moves s :
  threads_ok s → running s = false → dpc s ≠ DFree → ∃ s', thread_step s s'.
Proof.
  intros Hok R Hd. destruct (dpc s) as [| | | | |i|] eqn:E; try done.
  - by apply (th_running s Hok) in R.
  - destruct (decide (tpc s = TExit)) as [Et|Et]; [eexists; by apply step_main, d_join_tick|].
    by apply tick_moves.
  - destruct (lock_or_moves s Hok) as [D|]; [|done]. eexists. by apply step_main, d_lock.
  - eexists. by apply step_main, d_broadcast.
  - eexists. by apply step_main, d_unlock.
  - destruct (wpc s !! i) as [p|] eqn:Ei.
    + destruct (decide (p = WExit)) as [->|Hp]; [eexists; by eapply step_main, d_join|].
      eapply worker_moves; try done. intros ->. eapply (th_awake s Hok); [by rewrite E|done].
    + apply lookup_ge_None in Ei. pose proof (th_bound s Hok) as Hb. rewrite E in Hb. simpl in Hb.
      eexists. eapply step_main, (d_free s i); [done|lia].
Qed.

Lemma stopped_stays s s' : running s = false → any_step s s' → running s' = false.
Proof.
  intros R [[i []|[]|[]]|i _ ->]; done.
Qed.

Lemma shutdown_ends n s :
  (weight s ≤ n)%nat → threads_reach s → running s = false →
  ∃ s', rtc thread_step s s' ∧ dpc s' = DFree.
Proof.
  revert s. induction n as [|n IH]; intros s Hn Hr R; (destruct (decide (weight s = 0%nat)) as [E0|E0];
    [exists s; split; [done|]; unfold weight in E0; destruct (dpc s); simpl in E0; (lia || done)|]); [lia|].
  destruct (dpc s) eqn:E; try (destruct (shutdown_moves s (reach_ok s Hr) R) as [s1 Hs]; [by rewrite E|];
    destruct (IH s1) as (s' & Hs' & Ed);
    [pose proof (weight_decreases s s1 R (step_thread _ _ Hs)); lia
    |by eapply reach_step, step_thread|by eapply stopped_stays, step_thread|];
    exists s'; split; [by eapply rtc_l|done]).
  by exists s.
Qed.

(** C27: the threads of a wheel end and are not left behind: whenever the wheel
    has been stopped, every run of its threads is finite, even with spurious
    wake-ups; no run gets stuck before the wheel is freed, so no wake-up of a
    worker is lost and no thread waits for a lock for ever; and when it is
    freed, the tick thread and all workers have returned. *)
Theorem destroy_completes s :
  threads_reach s → running s = false →
  (∃ s', rtc thread_step s s' ∧ dpc s' = DFree)
  ∧ (∀ s', any_step s s' → (weight s' < weight s)%nat ∧ running s' = false)
  ∧ (dpc s ≠ DFree → ∃ s', thread_step s s')
  ∧ (dpc s = DFree → tpc s = TExit ∧ ∀ i p, wpc s !! i = Some p → p = WExit).
Proof.
  intros Hr R. pose proof (reach_ok s Hr) as Hok. split_and!.
  - by eapply (shutdown_ends (weight s)).
  - intros s' Hs. split; [by apply weight_decreases|by eapply stopped_stays].
  - by apply shutdown_moves.
  - intros E. split; [apply (th_tick_done s Hok); by rewrite E|]. intros i p Hi.
    pose proof (th_joined s Hok i) as Hj. rewrite E in Hj. simpl in Hj.
    rewrite Hj in Hi by (by eapply lookup_lt_Some). congruence.
Qed.

Lemma destroy_completes_witness :
  ∃ s', rtc thread_step (start_threads 2 true <| running := false |> <| dpc := DJoinTick |>) s' ∧ dpc s' = DFree.
Proof.
  apply (destroy_completes (start_threads 2 true <| running := false |> <| dpc := DJoinTick |>)); [|done].
  eapply reach_step; [apply (reach_start 2 true)|]. apply step_thread, step_main, d_stop. done.
Defined.
