(* ===== verification/WheelSync.v ===== *)
(** * Waiting for a callback: timer_del_sync (wheel_timer/wheel_timer.c)

    One node, the worker threads of the wheel, and the thread that calls
    [timer_del_sync], as steps that interleave at the mutexes.  A periodic node
    is added again by the worker that has run it; it may also be armed again
    while its callback runs, by the callback itself or by another thread.  The
    mark [executing] is one for the node, whichever worker runs it. *)

From stdpp Require Import base numbers list option relations.
From S2P Require Import Prelude.

(** ** State *)

(** A worker: without the node, with the node in its batch, with [wait_lock] to
    mark the node, in the callback, about to lock again, with the lock to clear
    the mark, about to add a periodic node again.  The caller: before
    [timer_del], about to lock, testing with the lock held, waiting, woken,
    returned. *)
Inductive exec_pc := XIdle | XBatch | XSet | XRun | XLock | XClear | XAdd.
Inductive sync_pc := SDel | SLock | STest | SWait | SWake | SDone.
#[export] Instance exec_pc_eq_dec : EqDecision exec_pc.
Proof. solve_decision. Defined.
#[export] Instance sync_pc_eq_dec : EqDecision sync_pc.
Proof. solve_decision. Defined.

Inductive holder := HeldByWorker (i : nat) | HeldByCaller.

Record del_sync := mk_del_sync {
  executing : bool;
  pending : bool;
  periodic : bool;               (** [period > 0] *)
  wait_lock : option holder;
  xpcs : list exec_pc;           (** one for each worker *)
  spc : sync_pc;
}.
#[export] Instance del_sync_settable : Settable del_sync :=
  λ s, mk_del_sync (executing s) (pending s) (periodic s) (wait_lock s) (xpcs s) (spc s).

(** ** Steps *)

(** Worker [i].  The tick that expires a pending node and the taking of the
    expired list are the step out of [XIdle]. *)
Definition exec_step (s : del_sync) (i : nat) : list del_sync :=
  match xpcs s !! i with
  | None => []
  | Some pc =>
      let go pc' := s <| xpcs ::= <[i := pc']> |> in
      match pc, wait_lock s with
      | XIdle, _ => if pending s then [go XBatch <| pending := false |>] else []
      | XBatch, None => [go XSet <| wait_lock := Some (HeldByWorker i) |>]
      | XSet, _ => [go XRun <| executing := true |> <| wait_lock := None |>]
      | XRun, _ => [go XLock]
      | XLock, None => [go XClear <| wait_lock := Some (HeldByWorker i) |>]
      | XClear, _ => [go XAdd <| executing := false |> <| wait_lock := None |>
                        <| spc ::= λ p, match p with SWait => SWake | p => p end |>]
      | XAdd, _ => [go XIdle <| pending ::= λ p, p || periodic s |>]
      | _, _ => []
      end
  end.

(** [timer_add] arms the node again while worker [i] runs its callback. *)
Definition rearm_step (s : del_sync) (i : nat) : list del_sync :=
  match xpcs s !! i with
  | Some XRun => [s <| pending := true |> <| periodic := false |>]
  | _ => []
  end.

(** [timer_del_sync]: [timer_del] takes a pending node off the wheel and ends
    its period; it leaves the mark alone. *)
Definition sync_step (s : del_sync) : list del_sync :=
  match spc s, wait_lock s with
  | SDel, _ => [s <| pending := false |> <| periodic := false |> <| spc := SLock |>]
  | SLock, None | SWake, None => [s <| wait_lock := Some HeldByCaller |> <| spc := STest |>]
  | STest, _ => [s <| wait_lock := None |> <| spc := if executing s then SWait else SDone |>]
  | _, _ => []
  end.

(** [pthread_cond_wait] may return without a broadcast. *)
Definition spurious_step (s : del_sync) : list del_sync :=
  match spc s with SWait => [s <| spc := SWake |>] | _ => [] end.

(** [rearm] tells whether the node is armed again while a callback runs. *)
Inductive sync_moves (rearm : bool) (s s' : del_sync) : Prop :=
| mv_worker i : s' ∈ exec_step s i → sync_moves rearm s s'
| mv_caller : s' ∈ sync_step s → sync_moves rearm s s'
| mv_spurious : s' ∈ spurious_step s → sync_moves rearm s s'
| mv_rearm i : rearm = true → s' ∈ rearm_step s i → sync_moves rearm s s'.

(** The node is armed or not, no worker has it yet. *)
Definition sync_start (workers : nat) (armed every : bool) : del_sync :=
  mk_del_sync false armed every None (replicate workers XIdle) SDel.
Definition sync_reach (rearm : bool) (workers : nat) (s : del_sync) : Prop :=
  ∃ armed every, rtc (sync_moves rearm) (sync_start workers armed every) s.

(** ** The node has one place *)

Definition marked (p : exec_pc) : bool :=
  match p with XRun | XLock | XClear => true | _ => false end.
Definition locking (p : exec_pc) : bool :=
  match p with XSet | XClear => true | _ => false end.

(** Unless the node is armed again while its callback runs, worker [i] alone may
    have the node, at [p], and all the rest is told by [p] and by the caller. *)
Record one_place (workers : nat) (s : del_sync) (i : nat) (p : exec_pc) : Prop := {
  op_workers : xpcs s = <[i := p]> (replicate workers XIdle);
  op_worker : (i < workers)%nat ∨ p = XIdle;
  op_pending : pending s = true → p = XIdle;
  op_mark : executing s = marked p;
  op_lock : wait_lock s = if locking p then Some (HeldByWorker i)
                          else if bool_decide (spc s = STest) then Some HeldByCaller else None;
  op_test : spc s = STest → locking p = false;
  op_wait : spc s = SWait → marked p = true;
}.

Lemma one_place_start n armed every : one_place n (sync_start n armed every) 0 XIdle.
Proof.
  split; try done; [|by right]. simpl. destruct n; done.
Qed.

(** The step of a worker that has the node; of one that takes it. *)
Lemma exec_one_place n s i p j s' :
  one_place n s i p → s' ∈ exec_step s j → ∃ i' p', one_place n s' i' p'.
Proof.
  intros [Ew Hw Hp Hm Hl Ht Hs] Hin. unfold exec_step in Hin.
  destruct (xpcs s !! j) as [pc|] eqn:Ej; [|by apply elem_of_nil in Hin].
  destruct (decide (pc = XIdle)) as [->|Hpc].
  - destruct (pending s) eqn:Ep; [|by apply elem_of_nil in Hin].
    apply list_elem_of_singleton in Hin as ->. specialize (Hp eq_refl). subst p.
    assert (xpcs s = replicate n XIdle) as Ew'.
    { rewrite Ew. apply list_eq. intros k. destruct (decide (i = k)) as [<-|].
      - destruct (decide (i < n)%nat).
        + by rewrite list_lookup_insert_eq, lookup_replicate_2 by (by rewrite ?length_replicate).
        + by rewrite !(proj2 (lookup_ge_None _ _)) by (rewrite ?length_insert, length_replicate; lia).
      - by rewrite list_lookup_insert_ne. }
    rewrite Ew' in Ej. apply lookup_replicate in Ej as [_ Hj].
    exists j, XBatch. split; simpl; try done; [by rewrite Ew'|by left].
  - assert (j = i ∧ pc = p ∧ (i < n)%nat) as (-> & -> & Hi).
    { rewrite Ew in Ej. apply list_lookup_insert_Some in Ej as [(<- & <- & Hl')|[_ Ej]].
      - by rewrite length_replicate in Hl'.
      - by apply lookup_replicate in Ej as [-> _]. }
    assert (∀ q, <[i := q]> (xpcs s) = <[i := q]> (replicate n XIdle)) as Hq
      by (intros q; by rewrite Ew, list_insert_insert_eq).
    assert (locking p = true → spc s ≠ STest) as Ht' by (intros Ek Et; rewrite (Ht Et) in Ek; done).
    assert (pending s = false) as Ep by (destruct (pending s); [by specialize (Hp eq_refl)|done]).
    destruct p; try done; cbn in Hl; try (destruct (wait_lock s) eqn:El; [by apply elem_of_nil in Hin|]);
      apply list_elem_of_singleton in Hin as ->.
    + exists i, XSet.
      split; simpl; rewrite ?Ep, ?Hq; try done; [by left|intros Et; by rewrite Et in Hl].
    + exists i, XRun.
      split; simpl; rewrite ?Ep, ?Hq; try done; [by left|]. rewrite bool_decide_eq_false_2; [done|by apply Ht'].
    + exists i, XLock. split; simpl; rewrite ?Ep, ?Hq; try done. by left.
    + exists i, XClear.
      split; simpl; rewrite ?Ep, ?Hq; try done; [by left|intros Et; by rewrite Et in Hl].
    + specialize (Ht' eq_refl). exists i, XAdd.
      split; simpl; rewrite ?Ep, ?Hq; try done; [by left|..]; by destruct (spc s).
    + exists i, XIdle.
      split; simpl; rewrite ?Hq; try done. by right.
Qed.

Lemma caller_one_place n s i p s' : one_place n s i p → s' ∈ sync_step s → one_place n s' i p.
Proof.
  intros [Ew Hw Hp Hm Hl Ht Hs] Hin. unfold sync_step in Hin.
  destruct (spc s) eqn:Es; cbn in Hl.
  - apply list_elem_of_singleton in Hin as ->. by split.
  - destruct (wait_lock s) as [h|] eqn:El; [by apply elem_of_nil in Hin|].
    apply list_elem_of_singleton in Hin as ->. split; simpl; try done; by destruct (locking p).
  - specialize (Ht eq_refl). rewrite Ht in Hl.
    apply list_elem_of_singleton in Hin as ->. split; simpl; rewrite ?Ht; try done.
    + by destruct (executing s).
    + rewrite <- Hm. by destruct (executing s).
  - destruct (wait_lock s); by apply elem_of_nil in Hin.
  - destruct (wait_lock s) as [h|] eqn:El; [by apply elem_of_nil in Hin|].
    apply list_elem_of_singleton in Hin as ->. split; simpl; try done; by destruct (locking p).
  - destruct (wait_lock s); by apply elem_of_nil in Hin.
Qed.

Lemma sync_one_place n s s' :
  (∃ i p, one_place n s i p) → sync_moves false s s' → ∃ i p, one_place n s' i p.
Proof.
  intros (i & p & Hop) Hmv. destruct Hmv as [j Hin|Hin|Hin|j [=]].
  - by eapply exec_one_place.
  - exists i, p. by eapply caller_one_place.
  - exists i, p. destruct Hop as [Ew Hw Hp Hm Hl Ht Hs]. unfold spurious_step in Hin.
    destruct (spc s) eqn:Es; try (by apply elem_of_nil in Hin).
    apply list_elem_of_singleton in Hin as ->. by split.
Qed.

Lemma reach_one_place n s : sync_reach false n s → ∃ i p, one_place n s i p.
Proof.
  intros (armed & every & Hr). remember (sync_start n armed every) as s0 eqn:E.
  assert (∃ i p, one_place n s0 i p) as H0 by (subst; exists 0%nat, XIdle; apply one_place_start).
  clear E. induction Hr as [|s0 s1 s2 Hm _ IH]; [done|]. apply IH. by eapply sync_one_place.
Qed.

(** ** Schedules *)

Inductive move := MWorker (i : nat) | MCaller | MRearm (i : nat).
Definition move_step (s : del_sync) (m : move) : list del_sync :=
  match m with MWorker i => exec_step s i | MCaller => sync_step s | MRearm i => rearm_step s i end.
Fixpoint schedule (s : del_sync) (ms : list move) : option del_sync :=
  match ms with [] => Some s | m :: ms => s ← head (move_step s m); schedule s ms end.

Lemma schedule_reach rearm ms s s' :
  (rearm = true ∨ Forall (λ m, match m with MRearm _ => False | _ => True end) ms) →
  schedule s ms = Some s' → rtc (sync_moves rearm) s s'.
Proof.
  revert s. induction ms as [|m ms IH]; intros s Hm; simpl; [by intros [= ->]|].
  intros (s1 & Hh & Hs)%bind_Some.
  apply (rtc_l _ _ s1); [|apply IH; [|done]; by destruct Hm as [?|[_ ?]%Forall_cons]; auto].
  assert (s1 ∈ move_step s m) as Hin.
  { destruct (move_step s m); [done|]. injection Hh as ->. left. }
  destruct m as [i| |i]; simpl in Hin; [by eapply mv_worker|by eapply mv_caller|].
  eapply mv_rearm; [|exact Hin]. by destruct Hm as [?|[[] _]%Forall_cons].
Qed.

(** ** The property *)

(** C29: [timer_del_sync], with any number of workers, for a one-shot or a
    periodic node. As long as no one arms the node again, but the worker that
    has run a periodic one, it sleeps only while a worker runs the callback or
    is about to clear the mark, it is never stuck, and at the moment it returns
    no worker runs the callback. But a node that a worker has taken and not
    started yet is not waited for: its callback runs after the return. And a
    node that is armed again while its callback runs can come to run on two
    workers at once; the first to end clears the mark for both, and
    [timer_del_sync] returns while the other runs the callback. *)
Theorem timer_del_sync_waits :
  (∀ workers s, sync_reach false workers s →
     (spc s = SWait → ∃ i p, xpcs s !! i = Some p ∧ (p = XRun ∨ p = XLock ∨ p = XClear))
     ∧ (spc s ≠ SDone → (∃ s', s' ∈ sync_step s) ∨ ∃ i s', s' ∈ exec_step s i)
     ∧ ∀ s', s' ∈ sync_step s → spc s' = SDone →
         ∀ i p, xpcs s' !! i = Some p → p = XIdle ∨ p = XBatch ∨ p = XAdd)
  ∧ (∃ s, sync_reach false 2 s ∧ spc s = SDone ∧ xpcs s !! 0%nat = Some XRun)
  ∧ ∃ s s', sync_reach true 2 s ∧ s' ∈ sync_step s ∧ spc s' = SDone ∧ xpcs s' !! 1%nat = Some XRun.
Proof.
  split_and!.
  - intros n s (i & p & [Ew Hw Hp Hm Hl Ht Hs])%reach_one_place.
    assert ((p ≠ XIdle → xpcs s !! i = Some p)) as Hi.
    { intros Hne. destruct Hw as [Hw|?]; [|done]. rewrite Ew.
      apply list_lookup_insert_eq. by rewrite length_replicate. }
    split_and!.
    + intros Es. specialize (Hs Es). exists i, p. destruct p; try done; (split; [by apply Hi|auto]).
    + intros Hne. unfold sync_step. destruct (spc s) eqn:Es; [left; by eexists; left| | |right| |done].
      * rewrite Hl. destruct (locking p) eqn:Ek; [right|left; by eexists; left].
        exists i. unfold exec_step. rewrite Hi by (by intros ->). destruct p; try done; by eexists; left.
      * left. by eexists; left.
      * exists i. specialize (Hs eq_refl). unfold exec_step. rewrite Hi by (by intros ->).
        destruct p; try done; rewrite ?Hl; by eexists; left.
      * rewrite Hl. destruct (locking p) eqn:Ek; [right|left; by eexists; left].
        exists i. unfold exec_step. rewrite Hi by (by intros ->). destruct p; try done; by eexists; left.
    + intros s' Hin Ed j q Hj. unfold sync_step in Hin.
      destruct (spc s) eqn:Es, (wait_lock s); try (by apply elem_of_nil in Hin);
        apply list_elem_of_singleton in Hin as ->; try done; simpl in Ed, Hj.
      all: destruct (executing s) eqn:Ex; [done|]; specialize (Ht eq_refl); rewrite Ew in Hj;
        apply list_lookup_insert_Some in Hj as [(<- & <- & _)|[_ [-> _]%lookup_replicate]]; [|by left].
      all: destruct p; try discriminate Hm; try discriminate Ht; auto.
  - exists (mk_del_sync true false false None [XRun; XIdle] SDone). split; [|done].
    exists true, false. apply (schedule_reach false
      [MWorker 0; MCaller; MCaller; MCaller; MWorker 0; MWorker 0]); [right; by repeat constructor|].
    reflexivity.
  - exists (mk_del_sync false false false (Some HeldByCaller) [XAdd; XRun] STest),
      (mk_del_sync false false false None [XAdd; XRun] SDone). split; [|split; [by left|done]].
    exists true, false. apply (schedule_reach true
      [MWorker 0; MWorker 0; MWorker 0; MRearm 0; MWorker 1; MWorker 1; MWorker 1; MCaller; MCaller;
       MCaller; MWorker 0; MWorker 0; MWorker 0; MCaller]); [by left|]. reflexivity.
Qed.
