(* ===== verification/Timers.v ===== *)
(** * Timers of the daemon (src/pi/rsvp_timers.c)

    The main thread starts, stops and resets timers; a worker thread of the
    wheel runs [internal_wheel_cb], which writes the expiration into a pipe;
    the main thread reads the pipe ([rsvp_timer_handle_exp]) and runs the user
    callback of the expirations that the registry still knows.

    [T] is the address of a [rsvp_timer_t], [K] a user callback with its
    argument.  [None] from an operation is a use of freed memory or a corrupted
    wheel list. *)

From stdpp Require Import base numbers list option gmap sets.
From S2P Require Import Prelude WheelTimer.

Inductive rsvp_timer_type_t := RSVP_TIMER_REFRESH | RSVP_TIMER_CLEANUP.

Record rsvp_timer {K : Type} := mk_rsvp_timer {
  tm_type : rsvp_timer_type_t;
  tm_cb : option K;
  tm_active : bool;
  tm_seq : Z;
}.
Arguments rsvp_timer : clear implicits.
Arguments mk_rsvp_timer {K}.
#[export] Instance rsvp_timer_settable K : Settable (rsvp_timer K) :=
  λ t, mk_rsvp_timer (tm_type t) (tm_cb t) (tm_active t) (tm_seq t).

Definition zero_timer {K} : rsvp_timer K := mk_rsvp_timer RSVP_TIMER_REFRESH None false 0.

Definition MAX_ACTIVE_TIMERS : nat := Z.to_nat 2048.

(** The node of a timer is [ts_wheel]'s node of the same address. *)
Record rsvp_timers {T K : Type} `{Countable T} := mk_rsvp_timers {
  ts_wheel : timer_wheel T T;
  ts_mem : gmap T (rsvp_timer K);
  ts_registry : list (option T * Z);
  ts_seq_next : Z;
  ts_pipe : list (T * Z);
}.
Arguments rsvp_timers T K {_ _}.
Arguments mk_rsvp_timers {T K _ _}.
#[export] Instance rsvp_timers_settable T K `{Countable T} : Settable (rsvp_timers T K) :=
  λ s, mk_rsvp_timers (ts_wheel s) (ts_mem s) (ts_registry s) (ts_seq_next s) (ts_pipe s).

Section timers.
Context {T K : Type} `{Countable T}.
Implicit Types ts : rsvp_timers T K.
Implicit Types t : T.

(** The static memory before [rsvp_timer_init], with no timer in it yet. *)
Definition rsvp_timers_zero : rsvp_timers T K :=
  mk_rsvp_timers (mk_timer_wheel 0 0 false [] [] [] ∅) ∅ (replicate MAX_ACTIVE_TIMERS (None, 0)) 1 [].

(** [pipe_ok]: [pipe] succeeds; [wheel_ok]: the allocations and the threads of
    [timer_wheel_create] do.  [None] is [exit(EXIT_FAILURE)].  The nodes lie
    inside the timers, in the memory of the daemon. *)
Definition rsvp_timer_init (pipe_ok wheel_ok : bool) ts : option (rsvp_timers T K) :=
  let ts := ts <| ts_registry := replicate MAX_ACTIVE_TIMERS (None, 0) |> in
  if negb pipe_ok then None
  else
    let ts := ts <| ts_pipe := [] |> in
    w ← (if wheel_ok then timer_wheel_create 10 2 else None);
    Some (ts <| ts_wheel := w <| w_nodes := w_nodes (ts_wheel ts) |> |>).

(** ** The registry *)

Definition register_active_timer (r : list (option T * Z)) t (seq : Z) : list (option T * Z) :=
  match list_find (λ e, e.1 = None) r with
  | Some (i, _) => <[i := (Some t, seq)]> r
  | None => r
  end.

Definition unregister_active_timer (r : list (option T * Z)) t : list (option T * Z) :=
  match list_find (λ e, e.1 = Some t) r with
  | Some (i, _) => <[i := (None, 0)]> r
  | None => r
  end.

Definition is_timer_active_and_matches (r : list (option T * Z)) t (seq : Z) : bool :=
  match list_find (λ e, e.1 = Some t) r with
  | Some (_, e) => e.2 =? seq
  | None => false
  end.

(** ** The worker's callback *)

Definition set_timer t (f : rsvp_timer K → rsvp_timer K) ts : rsvp_timers T K :=
  ts <| ts_mem ::= alter f t |>.

(** [write_ok]: the pipe takes the message. *)
Definition internal_wheel_cb (write_ok : bool) ts t : option (rsvp_timers T K) :=
  tm ← ts_mem ts !! t;
  let ts := set_timer t (λ tm, tm <| tm_active := false |>) ts in
  Some (if write_ok then ts <| ts_pipe ::= λ p, p ++ [(t, tm_seq tm)] |> else ts).

(** ** Operations of the main thread *)

Definition rsvp_timer_stop ts t : option (rsvp_timers T K) :=
  tm ← ts_mem ts !! t;
  if negb (tm_active tm) then Some ts
  else
    '(_, w) ← timer_del (ts_wheel ts) t;
    Some (set_timer t (λ tm, tm <| tm_active := false |>)
            (ts <| ts_wheel := w |> <| ts_registry ::= λ r, unregister_active_timer r t |>)).

Definition rsvp_timer_start ts t (type : rsvp_timer_type_t) (timeout_ms : Z) (cb : option K)
    : option (rsvp_timers T K) :=
  tm ← ts_mem ts !! t;
  ts ← (if tm_active tm then rsvp_timer_stop ts t else Some ts);
  w ← timer_node_init (ts_wheel ts) t;
  let seq := u64 (ts_seq_next ts + 1) in
  let ts := set_timer t (λ _, mk_rsvp_timer type cb true seq)
              (ts <| ts_wheel := w |> <| ts_seq_next := seq |>
                  <| ts_registry ::= λ r, register_active_timer r t seq |>) in
  '(rc, w) ← timer_add (ts_wheel ts) t timeout_ms (Some t);
  let ts := ts <| ts_wheel := w |> in
  Some (if rc <? 0 then
          set_timer t (λ tm, tm <| tm_active := false |>)
            (ts <| ts_registry ::= λ r, unregister_active_timer r t |>)
        else ts).

Definition rsvp_timer_reset ts t (timeout_ms : Z) : option (bool * rsvp_timers T K) :=
  tm ← ts_mem ts !! t;
  if negb (tm_active tm) then Some (false, ts)
  else
    '(rc, w) ← timer_mod (ts_wheel ts) t timeout_ms;
    Some (rc =? 0, ts <| ts_wheel := w |>).

(** [timer->active], as the clients read it. *)
Definition rsvp_timer_active ts t : option bool := tm_active <$> ts_mem ts !! t.

(** One round of the loop of [rsvp_timer_handle_exp]: the message read, and
    the callback to run, if any. *)
Definition rsvp_timer_read ts : option (option K * rsvp_timers T K) :=
  match ts_pipe ts with
  | [] => None
  | (t, seq) :: rest =>
      let ts := ts <| ts_pipe := rest |> in
      if is_timer_active_and_matches (ts_registry ts) t seq then
        let ts := ts <| ts_registry ::= λ r, unregister_active_timer r t |> in
        tm ← ts_mem ts !! t;
        Some (tm_cb tm, ts)
      else Some (None, ts)
  end.

(** The memory of a structure with a timer inside: zeroed by [calloc], and
    given back; giving back a node that a list still holds corrupts it. *)
Definition timer_alloc t ts : rsvp_timers T K :=
  ts <| ts_mem ::= <[t := zero_timer]> |> <| ts_wheel ::= λ w, wheel_alloc w t |>.
Definition timer_free t ts : option (rsvp_timers T K) :=
  if decide (linked (ts_wheel ts) t) then None
  else Some (ts <| ts_mem ::= delete t |> <| ts_wheel ::= λ w, wheel_free w t |>).

(** ** The other threads, as steps *)

Inductive timers_step : rsvp_timers T K → rsvp_timers T K → Prop :=
| step_tick ts w :
    wheel_tick (ts_wheel ts) = Some w → timers_step ts (ts <| ts_wheel := w |>)
| step_take ts i w :
    worker_take (ts_wheel ts) i = Some w → timers_step ts (ts <| ts_wheel := w |>)
| step_callback ts i t c w ok ts' :
    worker_begin (ts_wheel ts) i = Some (t, Some c, w) →
    internal_wheel_cb ok (ts <| ts_wheel := w |>) c = Some ts' → timers_step ts ts'
| step_done ts t w :
    worker_done (ts_wheel ts) t = Some w → timers_step ts (ts <| ts_wheel := w |>).

(** ** The state the main thread sees when no expiration is in flight *)

Record timers_ok ts : Prop := {
  tok_wheel : wheel_good (ts_wheel ts);
  tok_running : w_running (ts_wheel ts) = true;
  tok_idle : w_expired_list (ts_wheel ts) = [] ∧ mjoin (w_batches (ts_wheel ts)) = [];
  tok_node : ∀ t tm, ts_mem ts !! t = Some tm →
    ∃ nd, w_nodes (ts_wheel ts) !! t = Some nd ∧ tn_pending nd = tm_active tm;
  tok_mem : ∀ t, ts_mem ts !! t = None → w_nodes (ts_wheel ts) !! t = None;
}.

(** Zeroed memory with the timers [S] in it. *)
Record timers_blank (S : T → Prop) ts : Prop := {
  tz_mem : ∀ t tm, ts_mem ts !! t = Some tm ↔ S t ∧ tm = zero_timer;
  tz_nodes : ∀ t nd, w_nodes (ts_wheel ts) !! t = Some nd ↔ S t ∧ nd = zero_node;
}.

Lemma rsvp_timer_init_spec S pipe_ok wheel_ok ts :
  timers_blank S ts →
  if pipe_ok && wheel_ok
  then ∃ ts', rsvp_timer_init pipe_ok wheel_ok ts = Some ts' ∧ timers_ok ts' ∧ ts_mem ts' = ts_mem ts
  else rsvp_timer_init pipe_ok wheel_ok ts = None.
Proof.
  intros [Hm Hn]. unfold rsvp_timer_init. destruct pipe_ok, wheel_ok; cbn [negb andb]; [|done..].
  destruct (timer_wheel_create 10 2) as [w|] eqn:E; [|done].
  cbn [mbind option_bind]. eexists. split; [reflexivity|]. split; [|done].
  assert (wheel_good w) as Hw by (by apply (timer_wheel_create_good 10 2)).
  assert (w_running w = true ∧ w_expired_list w = [] ∧ mjoin (w_batches w) = [] ∧ w_nodes w = ∅)
    as (E1 & E2 & E3 & E4) by (unfold timer_wheel_create in E; by injection E as <-).
  clear E. split; [|exact E1|exact (conj E2 E3)|..].
  - apply (wheel_nodes_good w); [exact Hw|exact E4|]. by intros t nd [_ ->]%Hn.
  - intros t tm [Ht ->]%Hm. exists zero_node. split; [by apply Hn|done].
  - intros t Ht. apply eq_None_not_Some. intros [nd [Hs _]%Hn].
    discriminate (eq_trans (eq_sym Ht) (proj2 (Hm t zero_timer) (conj Hs eq_refl))).
Qed.

Lemma not_linked_ok ts t tm :
  timers_ok ts → ts_mem ts !! t = Some tm → tm_active tm = false → ¬ linked (ts_wheel ts) t.
Proof.
  intros [Hw _ [HE HB] Hn _] Ht Ha. rewrite linked_iff, HE, HB.
  intros [[k Hk]|[?%elem_of_nil|?%elem_of_nil]]; [|done..].
  destruct (wi_pos _ _ _ (proj1 Hw) k t Hk) as (nd & Hnd & Hp & _).
  destruct (Hn t tm Ht) as (nd' & Hnd' & ?). congruence.
Qed.

(** What an operation on timer [t] leaves alone. *)
Definition only_timer t ts ts' : Prop :=
  ts_pipe ts' = ts_pipe ts
  ∧ (∀ t', t' ≠ t → ts_mem ts' !! t' = ts_mem ts !! t'
     ∧ w_nodes (ts_wheel ts') !! t' = w_nodes (ts_wheel ts) !! t')
  ∧ (is_Some (ts_mem ts !! t) → is_Some (ts_mem ts' !! t)).

Lemma only_timer_refl t ts : only_timer t ts ts.
Proof. done. Qed.

Lemma only_timer_trans t ts1 ts2 ts3 :
  only_timer t ts1 ts2 → only_timer t ts2 ts3 → only_timer t ts1 ts3.
Proof.
  intros (P1&M1&S1) (P2&M2&S2). split_and!; [congruence| |auto].
  intros t' Ht. destruct (M1 t' Ht), (M2 t' Ht). split; congruence.
Qed.

(** Replacing the timer [t] and its node keeps the state consistent. *)
Lemma timers_ok_update ts ts' t tm nd w :
  timers_ok ts → wheel_good w → same_frame (ts_wheel ts) w →
  w_nodes w = <[t := nd]> (w_nodes (ts_wheel ts)) → tn_pending nd = tm_active tm →
  is_Some (ts_mem ts !! t) →
  ts_wheel ts' = w → ts_mem ts' = <[t := tm]> (ts_mem ts) → ts_pipe ts' = ts_pipe ts →
  timers_ok ts' ∧ only_timer t ts ts'.
Proof.
  intros [] Hw (_&_&FR&FE&FB) Hn Hp [tm0 Ht] E1 E2 E3. split.
  - split; rewrite ?E1, ?E2, ?FR, ?FE, ?FB; try done.
    + intros t' tm'. rewrite Hn. destruct (decide (t = t')) as [<-|].
      * rewrite !lookup_insert_eq. intros [= <-]. eauto.
      * rewrite !lookup_insert_ne by done. apply tok_node0.
    + intros t'. rewrite Hn. destruct (decide (t = t')) as [<-|].
      * by rewrite lookup_insert_eq.
      * rewrite !lookup_insert_ne by done. apply tok_mem0.
  - split; [done|]. rewrite E1, E2, Hn. split.
    + intros t' Hne. by rewrite !lookup_insert_ne by done.
    + rewrite lookup_insert_eq. eauto.
Qed.

Lemma alter_insert_eq {A} (f : A → A) (m : gmap T A) t x :
  m !! t = Some x → alter f t m = <[t := f x]> m.
Proof.
  intros Hx. apply map_eq. intros i. destruct (decide (t = i)) as [<-|].
  - by rewrite lookup_alter, decide_True, Hx, lookup_insert_eq.
  - by rewrite lookup_alter_ne, lookup_insert_ne by done.
Qed.

Lemma rsvp_timer_stop_spec ts t :
  timers_ok ts → is_Some (ts_mem ts !! t) →
  ∃ ts', rsvp_timer_stop ts t = Some ts' ∧ timers_ok ts' ∧ only_timer t ts ts'
    ∧ rsvp_timer_active ts' t = Some false.
Proof.
  intros Hok [tm Ht]. unfold rsvp_timer_stop. rewrite Ht. cbn [mbind option_bind].
  destruct (tm_active tm) eqn:Ha; cbn [negb].
  - destruct (tok_node ts Hok t tm Ht) as (nd & Hnd & Hp).
    destruct (timer_del_spec (ts_wheel ts) t nd) as (rc & w & nd' & -> & Hw & HF & Hn & Hp' & _);
      [apply Hok|done|]. cbn [mbind option_bind].
    set (ts' := set_timer _ _ _).
    assert (ts_mem ts' = <[t := tm <| tm_active := false |>]> (ts_mem ts)) as Hm
      by (by apply (alter_insert_eq _ (ts_mem ts))).
    exists ts'. split; [done|].
    destruct (timers_ok_update ts ts' t (tm <| tm_active := false |>) nd' w) as [? ?];
      [done..|by rewrite Hp'|by eexists|done|done|done|].
    split_and!; [done..|]. unfold rsvp_timer_active. by rewrite Hm, lookup_insert_eq.
  - exists ts. split_and!; [done..|]. unfold rsvp_timer_active. by rewrite Ht; simpl; rewrite Ha.
Qed.

Lemma timer_node_init_spec (w : timer_wheel T T) t nd :
  wheel_good w → w_nodes w !! t = Some nd → ¬ linked w t →
  ∃ w', timer_node_init w t = Some w' ∧ wheel_good w' ∧ same_frame w w'
    ∧ w_nodes w' = <[t := zero_node]> (w_nodes w).
Proof.
  intros [Hw Hj] Hnd Hl. unfold timer_node_init. rewrite decide_False, Hnd by done.
  eexists. split; [reflexivity|]. split_and!; try done. split; [|done].
  assert (∀ k, t ∉ bucket w k) as Hnb by (intros k Hk; apply Hl, linked_iff; eauto).
  destruct Hw as [? ? ? ? ? Hpos Hpend ?]. split; try done; simpl.
  - intros k m Hm. destruct (Hpos k m Hm) as (md & ? & ? & ?). exists md.
    rewrite lookup_insert_ne; [done|]. intros <-. by apply (Hnb k).
  - intros m md. destruct (decide (t = m)) as [<-|].
    + rewrite lookup_insert_eq. by intros [= <-].
    + rewrite lookup_insert_ne by done. apply Hpend.
Qed.

Lemma rsvp_timer_start_spec ts t type ms cb :
  timers_ok ts → is_Some (ts_mem ts !! t) → 0 ≤ ms < 2 ^ 32 →
  ∃ ts', rsvp_timer_start ts t type ms cb = Some ts' ∧ timers_ok ts' ∧ only_timer t ts ts'
    ∧ rsvp_timer_active ts' t = Some true.
Proof.
  intros Hok [tm Ht] Hms. unfold rsvp_timer_start. rewrite Ht. cbn [mbind option_bind].
  assert (∃ ts1 tm1, (if tm_active tm then rsvp_timer_stop ts t else Some ts) = Some ts1
    ∧ timers_ok ts1 ∧ only_timer t ts ts1 ∧ ts_mem ts1 !! t = Some tm1 ∧ tm_active tm1 = false)
    as (ts1 & tm1 & -> & Hok1 & Ho1 & Ht1 & Ha1).
  { destruct (tm_active tm) eqn:Ha; [|by exists ts, tm].
    destruct (rsvp_timer_stop_spec ts t) as (ts1 & E & ? & ? & Hact); [done|by eexists|].
    unfold rsvp_timer_active in Hact. apply fmap_Some in Hact as (tm1 & ? & ?). eauto 10. }
  cbn [mbind option_bind].
  destruct (tok_node ts1 Hok1 t tm1 Ht1) as (nd & Hnd & Hp).
  destruct (timer_node_init_spec (ts_wheel ts1) t nd) as (w1 & -> & Hw1 & F1 & N1);
    [apply Hok1|done|by eapply not_linked_ok|]. cbn [mbind option_bind].
  set (seq := u64 _). set (ts2 := set_timer _ _ _).
  destruct F1 as (J1&T1&R1&E1&B1).
  destruct (tok_idle ts1 Hok1) as [HE HB].
  destruct (timer_add_spec w1 t zero_node ms (Some t)) as (w2 & E2 & Hw2 & F2 & N2 & Hp2 & _);
    [done|rewrite R1; apply Hok1|by rewrite N1, lookup_insert_eq
    |rewrite E1, HE; by intros ?%elem_of_nil|rewrite B1, HB; by intros ?%elem_of_nil|done|].
  change (ts_wheel ts2) with w1. rewrite E2. cbn [mbind option_bind].
  change (0 <? 0) with false. cbn iota.
  set (tm2 := mk_rsvp_timer type cb true seq).
  assert (ts_mem ts2 = <[t := tm2]> (ts_mem ts1)) as Hm
    by (by apply (alter_insert_eq (λ _, tm2) (ts_mem ts1) t tm1)).
  eexists. split; [reflexivity|].
  destruct (timers_ok_update ts1 (ts2 <| ts_wheel := w2 |>) t tm2
    (mk_timer_node (expiry w1 ms) 0 (Some t) true true (tn_executing (zero_node (C := T)))) w2)
    as [Hok2 Ho2]; try done.
  - by eapply same_frame_trans.
  - rewrite N2, N1. by rewrite insert_insert_eq.
  - split; [done|split; [by eapply only_timer_trans|]].
    unfold rsvp_timer_active. change (ts_mem (ts2 <| ts_wheel := w2 |>)) with (ts_mem ts2).
      by rewrite Hm, lookup_insert_eq.
Qed.

Lemma rsvp_timer_reset_spec ts t ms :
  timers_ok ts → is_Some (ts_mem ts !! t) → 0 ≤ ms < 2 ^ 32 →
  ∃ b ts', rsvp_timer_reset ts t ms = Some (b, ts') ∧ timers_ok ts' ∧ only_timer t ts ts'
    ∧ rsvp_timer_active ts t = Some b ∧ ts_mem ts' = ts_mem ts.
Proof.
  intros Hok [tm Ht] Hms. unfold rsvp_timer_reset, rsvp_timer_active.
  rewrite Ht. cbn [mbind option_bind].
  destruct (tm_active tm) eqn:Ha; cbn [negb].
  - destruct (tok_node ts Hok t tm Ht) as (nd & Hnd & Hp).
    destruct (tok_idle ts Hok) as [HE HB].
    destruct (timer_mod_spec (ts_wheel ts) t nd ms) as (w & -> & Hw & HF & Hn & Hp' & _);
      [apply Hok|apply Hok|done|rewrite HE; by intros ?%elem_of_nil
      |rewrite HB; by intros ?%elem_of_nil|done|]. cbn [mbind option_bind].
    eexists _, _. split; [reflexivity|]. simpl. rewrite Ha.
    destruct (timers_ok_update ts (ts <| ts_wheel := w |>) t tm
      (nd <| tn_wheel := true |> <| tn_expires := expiry (ts_wheel ts) ms |>
          <| tn_pending := true |>) w) as [? ?]; try done.
    simpl. by rewrite insert_id.
  - exists false, ts. simpl. rewrite Ha. done.
Qed.

Lemma timer_alloc_spec ts t :
  timers_ok ts → ts_mem ts !! t = None →
  timers_ok (timer_alloc t ts) ∧ only_timer t ts (timer_alloc t ts)
  ∧ is_Some (ts_mem (timer_alloc t ts) !! t).
Proof.
  intros Hok Ht. pose proof (tok_mem ts Hok t Ht) as Hn. destruct Hok.
  split; [|split; [split; [done|split]|]]; simpl.
  - split; simpl; try done.
    + by apply wheel_alloc_good.
    + intros t' tm'. destruct (decide (t = t')) as [<-|].
      * rewrite !lookup_insert_eq. intros [= <-]. by eexists.
      * rewrite !lookup_insert_ne by done. apply tok_node0.
    + intros t'. destruct (decide (t = t')) as [<-|].
      * by rewrite lookup_insert_eq.
      * rewrite !lookup_insert_ne by done. apply tok_mem0.
  - intros t' Hne. by rewrite !lookup_insert_ne by done.
  - rewrite lookup_insert_eq. eauto.
  - rewrite lookup_insert_eq. eauto.
Qed.

Lemma timer_free_spec ts t :
  timers_ok ts → rsvp_timer_active ts t = Some false →
  ∃ ts', timer_free t ts = Some ts' ∧ timers_ok ts' ∧ ts_pipe ts' = ts_pipe ts
    ∧ (∀ t', t' ≠ t → ts_mem ts' !! t' = ts_mem ts !! t')
    ∧ ts_mem ts' !! t = None.
Proof.
  intros Hok Ha. unfold rsvp_timer_active in Ha. apply fmap_Some in Ha as (tm & Ht & Ha).
  unfold timer_free. rewrite decide_False by (eapply not_linked_ok; eauto).
  eexists. split; [reflexivity|]. destruct (tok_node ts Hok t tm Ht) as (nd & Hnd & Hp).
  destruct Hok. split_and!; simpl.
  - split; simpl; try done.
    + eapply wheel_free_good; [done..|]. congruence.
    + intros t' tm' [? Hm]%lookup_delete_Some. rewrite lookup_delete_ne by done. eauto.
    + intros t'. destruct (decide (t = t')) as [<-|]; [by rewrite !lookup_delete_eq|].
      rewrite !lookup_delete_ne by done. apply tok_mem0.
  - done.
  - intros t' Hne. by rewrite lookup_delete_ne by done.
  - by rewrite lookup_delete_eq.
Qed.

(** ** Runs: the main thread interleaved with the other threads *)

Inductive main_op :=
| OpStart (t : T) (type : rsvp_timer_type_t) (ms : Z) (cb : option K)
| OpStop (t : T)
| OpReset (t : T) (ms : Z)
| OpRead.

(** The state after an operation of the main thread, and the timer whose
    callback it runs. *)
Definition main_step ts (op : main_op) : option (list T * rsvp_timers T K) :=
  match op with
  | OpStart t type ms cb => ts ← rsvp_timer_start ts t type ms cb; Some ([], ts)
  | OpStop t => ts ← rsvp_timer_stop ts t; Some ([], ts)
  | OpReset t ms => '(_, ts) ← rsvp_timer_reset ts t ms; Some ([], ts)
  | OpRead =>
      '(cb, ts') ← rsvp_timer_read ts;
      Some (match cb, ts_pipe ts with Some _, (t, _) :: _ => [t] | _, _ => [] end, ts')
  end.

Inductive timers_run : rsvp_timers T K → list main_op → list T → rsvp_timers T K → Prop :=
| run_nil ts : timers_run ts [] [] ts
| run_env ts ts' ops ran ts'' :
    timers_step ts ts' → timers_run ts' ops ran ts'' → timers_run ts ops ran ts''
| run_main ts op r ts' ops ran ts'' :
    main_step ts op = Some (r, ts') → timers_run ts' ops ran ts'' →
    timers_run ts (op :: ops) (r ++ ran) ts''.

Definition starts t (op : main_op) : Prop :=
  match op with OpStart t' _ _ _ => t' = t | _ => False end.

(** [t] is not in the registry. *)
Definition silent t (r : list (option T * Z)) : Prop := Forall (λ e, e.1 ≠ Some t) r.

Lemma silent_register r t t' seq :
  t' ≠ t → silent t r → silent t (register_active_timer r t' seq).
Proof.
  intros Hne Hs. unfold register_active_timer.
  destruct (list_find _ r) as [[i e]|]; [|done]. apply Forall_insert; [done|].
  simpl. congruence.
Qed.

Lemma silent_unregister r t t' : silent t r → silent t (unregister_active_timer r t').
Proof.
  intros Hs. unfold unregister_active_timer.
  destruct (list_find _ r) as [[i e]|]; [|done]. by apply Forall_insert.
Qed.

Lemma silent_no_match r t seq : silent t r → is_timer_active_and_matches r t seq = false.
Proof.
  intros Hs. unfold is_timer_active_and_matches.
  destruct (list_find _ r) as [[i e]|] eqn:E; [|done].
  apply list_find_Some in E as (He & Ht & _).
  by eapply Forall_lookup_1 in Hs; [|done].
Qed.

(** Unregistering the only entry of a timer. *)
Definition registered_once t (r : list (option T * Z)) : Prop :=
  ∀ i j x y, r !! i = Some (Some t, x) → r !! j = Some (Some t, y) → i = j.

Lemma unregister_silent r t : registered_once t r → silent t (unregister_active_timer r t).
Proof.
  intros Ho. unfold unregister_active_timer. destruct (list_find _ r) as [[i [p x]]|] eqn:E.
  - apply list_find_Some in E as (He & Ht & _). simpl in Ht. subst p.
    apply Forall_lookup. intros j [p y] Hj. simpl. intros ->.
    destruct (decide (i = j)) as [<-|Hne].
    + rewrite list_lookup_insert_eq in Hj; [done|]. by eapply lookup_lt_Some.
    + rewrite list_lookup_insert_ne in Hj by done. eauto.
  - by apply list_find_None in E.
Qed.

Lemma rsvp_timer_stop_registry ts t ts' :
  rsvp_timer_stop ts t = Some ts' →
  ts_registry ts' = if decide (rsvp_timer_active ts t = Some true)
                    then unregister_active_timer (ts_registry ts) t else ts_registry ts.
Proof.
  unfold rsvp_timer_stop, rsvp_timer_active.
  destruct (ts_mem ts !! t) as [tm|]; [|done]. cbn [mbind option_bind fmap option_fmap option_map].
  destruct (tm_active tm); cbn [negb].
  - destruct (timer_del _ _) as [[rc w]|]; [|done]. intros [= <-]. by rewrite decide_True.
  - intros [= <-]. by rewrite decide_False.
Qed.

Lemma rsvp_timer_start_registry ts t type ms cb ts' :
  rsvp_timer_start ts t type ms cb = Some ts' →
  ∃ r, (r = ts_registry ts ∨ r = unregister_active_timer (ts_registry ts) t)
    ∧ (ts_registry ts' = register_active_timer r t (u64 (ts_seq_next ts + 1))
       ∨ ts_registry ts'
         = unregister_active_timer (register_active_timer r t (u64 (ts_seq_next ts + 1))) t).
Proof.
  unfold rsvp_timer_start. intros (tm & _ & (ts1 & E1 & (w & _ & ([rc w2] & _ & H2)
    %bind_Some)%bind_Some)%bind_Some)%bind_Some.
  injection H2 as <-. exists (ts_registry ts1).
  assert (ts_seq_next ts1 = ts_seq_next ts) as ->.
  { destruct (tm_active tm); [|congruence]. revert E1. unfold rsvp_timer_stop.
    intros (tm' & _ & E1)%bind_Some. case_if_in E1; [congruence|].
    apply bind_Some in E1 as ([? ?] & _ & E1). by injection E1 as <-. }
  split; [|case_if; auto].
  destruct (tm_active tm); [|left; congruence].
  apply rsvp_timer_stop_registry in E1. rewrite E1. case_decide; auto.
Qed.

(** One operation of the main thread keeps a timer that it does not start out
    of the registry, and does not run its callback. *)
Lemma main_step_silent ts op r ts' t :
  main_step ts op = Some (r, ts') → ¬ starts t op → silent t (ts_registry ts) →
  silent t (ts_registry ts') ∧ t ∉ r.
Proof.
  intros Hm Hst Hs. destruct op as [t' type ms cb|t'|t' ms|]; simpl in Hm, Hst.
  - apply bind_Some in Hm as (ts1 & E & [= <- <-]). split; [|by intros ?%elem_of_nil].
    apply rsvp_timer_start_registry in E as (q & Hq & Hr).
    assert (silent t q) by (destruct Hq as [->| ->]; auto using silent_unregister).
    destruct Hr as [->| ->]; repeat apply silent_unregister; by apply silent_register.
  - apply bind_Some in Hm as (ts1 & E & [= <- <-]). split; [|by intros ?%elem_of_nil].
    apply rsvp_timer_stop_registry in E as ->. case_decide; auto using silent_unregister.
  - apply bind_Some in Hm as ([b ts1] & E & [= <- <-]). split; [|by intros ?%elem_of_nil].
    revert E. unfold rsvp_timer_reset. intros (tm & _ & E)%bind_Some.
    case_if_in E; [by injection E as _ <-|].
    apply bind_Some in E as ([rc w] & _ & [= _ <-]). done.
  - apply bind_Some in Hm as ([cb ts1] & E & [= <- <-]). unfold rsvp_timer_read in E.
    destruct (ts_pipe ts) as [|[t' seq] rest]; [done|]. simpl in E.
    destruct (is_timer_active_and_matches (ts_registry ts) t' seq) eqn:Em.
    + apply bind_Some in E as (tm & _ & [= <- <-]). simpl.
      split; [by apply silent_unregister|].
      destruct (tm_cb tm); [|by intros ?%elem_of_nil]. intros <-%list_elem_of_singleton.
      rewrite silent_no_match in Em; done.
    + injection E as <- <-. split; [done|by intros ?%elem_of_nil].
Qed.

Lemma timers_step_registry ts ts' : timers_step ts ts' → ts_registry ts' = ts_registry ts.
Proof.
  intros []; try done. revert H1. unfold internal_wheel_cb.
  intros (tm & _ & [= <-])%bind_Some. by destruct ok.
Qed.

Lemma timers_run_silent ts ops ran ts' t :
  timers_run ts ops ran ts' → Forall (λ op, ¬ starts t op) ops → silent t (ts_registry ts) →
  t ∉ ran.
Proof.
  induction 1 as [ts|ts ts1 ops ran ts2 Hs Hr IH|ts op r ts1 ops ran ts2 Hm Hr IH]; intros Ho Hq.
  - by intros ?%elem_of_nil.
  - apply IH; [done|]. by rewrite (timers_step_registry _ _ Hs).
  - apply Forall_cons in Ho as [Hop Ho].
    destruct (main_step_silent _ _ _ _ t Hm Hop Hq) as [Hq' Hn].
    rewrite elem_of_app. intros [?|?]; [done|]. by apply IH.
Qed.
End timers.

Arguments main_op : clear implicits.

(** ** Properties *)

(** C21: stopping is final for a timer that is active and has at most one entry
    in the registry: once [rsvp_timer_stop] has returned, its callback never
    runs until the timer is started again, whatever the tick thread, the
    workers and the main thread do in between, with expirations of it already
    in the pipe or on their way there. (The early return of [rsvp_timer_stop]
    for a timer that a worker has just marked inactive leaves its entry; a
    timer started after that has two, and is not covered.) *)
Theorem rsvp_timer_stop_final {T K : Type} `{Countable T} (ts : rsvp_timers T K) t ts1
    ops ran ts2 :
  rsvp_timer_active ts t = Some true → registered_once t (ts_registry ts) →
  rsvp_timer_stop ts t = Some ts1 →
  Forall (λ op, ¬ starts t op) ops → timers_run ts1 ops ran ts2 → t ∉ ran.
Proof.
  intros Ha Ho Hs Hops Hr. eapply timers_run_silent; [done..|].
  rewrite (rsvp_timer_stop_registry _ _ _ Hs), decide_True by done.
  by apply unregister_silent.
Qed.

(** With no expiration in flight every timer operation of the main thread
    succeeds on allocated timers and keeps the timer system consistent: a timer
    is in the wheel exactly when it is active, [start] leaves it active,
    [stop] inactive, [reset] re-arms it exactly if it was active, and no other
    timer is touched. *)
Theorem rsvp_timer_operations_ok {T K : Type} `{Countable T} (ts : rsvp_timers T K) t type ms cb :
  timers_ok ts → is_Some (ts_mem ts !! t) → 0 ≤ ms < 2 ^ 32 →
  (∃ ts', rsvp_timer_start ts t type ms cb = Some ts' ∧ timers_ok ts' ∧ only_timer t ts ts'
     ∧ rsvp_timer_active ts' t = Some true)
  ∧ (∃ ts', rsvp_timer_stop ts t = Some ts' ∧ timers_ok ts' ∧ only_timer t ts ts'
     ∧ rsvp_timer_active ts' t = Some false)
  ∧ (∃ b ts', rsvp_timer_reset ts t ms = Some (b, ts') ∧ timers_ok ts' ∧ only_timer t ts ts'
     ∧ rsvp_timer_active ts t = Some b ∧ ts_mem ts' = ts_mem ts).
Proof.
  intros Hok Ht Hms. split_and!.
  - by apply rsvp_timer_start_spec.
  - by apply rsvp_timer_stop_spec.
  - by apply rsvp_timer_reset_spec.
Qed.


(** ** Witnesses and the race of an expiration with the main thread *)

(** The initial timer system with the timer 5 allocated. *)
Definition timers_example : rsvp_timers nat nat :=
  timer_alloc 5%nat (default rsvp_timers_zero (rsvp_timer_init true true rsvp_timers_zero)).

Lemma timers_example_ok : timers_ok timers_example.
Proof.
  apply timer_alloc_spec; [|done].
  split; [|done|done| |done].
  - by apply (timer_wheel_create_good (N := nat) (C := nat) 10 2).
  - intros t tm. simpl. by rewrite lookup_empty.
Qed.

Lemma rsvp_timer_operations_ok_witness :
  ∃ ts', rsvp_timer_start timers_example 5%nat RSVP_TIMER_CLEANUP 15000 (Some 1%nat) = Some ts'
    ∧ timers_ok ts' ∧ rsvp_timer_active ts' 5%nat = Some true.
Proof.
  destruct (rsvp_timer_operations_ok timers_example 5%nat RSVP_TIMER_CLEANUP 15000 (Some 1%nat)
              timers_example_ok) as [(ts' & E & Hok & _ & Ha) _]; [by eexists|lia|].
  exists ts'. done.
Defined.

(** The timer 5 started for one tick, expired and taken by worker 0, its
    message in the pipe: [None] if anything failed. *)
Definition timers_expired : option (rsvp_timers nat nat) :=
  ts ← rsvp_timer_start timers_example 5%nat RSVP_TIMER_CLEANUP 10 (Some 1%nat);
  w ← wheel_tick (ts_wheel ts);
  w ← worker_take w 0;
  '(_, _, w) ← worker_begin w 0;
  ts ← internal_wheel_cb true (ts <| ts_wheel := w |>) 5%nat;
  w ← worker_done (ts_wheel ts) 5%nat;
  Some (ts <| ts_wheel := w |>).

(** The hypothesis that the timer is active cannot be dropped: the expiration
    has cleared the flag, so [rsvp_timer_stop] returns at once and leaves the
    registry entry, and the old expiration still runs the callback, even after
    the timer was restarted with a long timeout. *)
Example rsvp_timer_stop_stale :
  (ts ← timers_expired;
   '(_, ts) ← main_step ts (OpStop 5%nat);
   '(_, ts) ← main_step ts (OpStart 5%nat RSVP_TIMER_CLEANUP 15000 (Some 1%nat));
   '(ran, _) ← main_step ts OpRead;
   Some ran) = Some [5%nat].
Proof. vm_compute. reflexivity. Qed.

(** And if the structure is freed instead, reading the pipe uses freed memory. *)
Example rsvp_timer_read_after_free :
  (ts ← timers_expired;
   '(_, ts) ← main_step ts (OpStop 5%nat);
   timer_free 5%nat ts) ≠ None
  ∧ (ts ← timers_expired;
     '(_, ts) ← main_step ts (OpStop 5%nat);
     ts ← timer_free 5%nat ts;
     main_step ts OpRead) = None.
Proof. split; vm_compute; [discriminate|reflexivity]. Qed.

(** The timer 5 started, and then stopped. *)
Definition timers_started : rsvp_timers nat nat :=
  default timers_example
    (rsvp_timer_start timers_example 5%nat RSVP_TIMER_REFRESH 10 (Some 1%nat)).
Definition timers_stopped : rsvp_timers nat nat :=
  default timers_example (rsvp_timer_stop timers_started 5%nat).

Lemma rsvp_timer_stop_final_witness :
  timers_run timers_stopped [OpStop 5%nat] [] timers_stopped ∧ 5%nat ∉ @nil nat.
Proof.
  assert (timers_run timers_stopped [OpStop 5%nat] ([] ++ []) timers_stopped) as Hrun.
  { apply (run_main timers_stopped (OpStop 5%nat) [] timers_stopped [] [] timers_stopped);
      [|constructor]. vm_compute. reflexivity. }
  split; [exact Hrun|].
  apply (rsvp_timer_stop_final timers_started 5%nat timers_stopped [OpStop 5%nat] [] timers_stopped).
  - vm_compute. reflexivity.
  - assert (ts_registry timers_started = (Some 5%nat, 2) :: replicate 2047 (None, 0)) as ->
      by (vm_compute; reflexivity).
    intros i j x y Hi Hj. destruct i as [|i], j as [|j]; [done|..];
      exfalso; [|revert Hi|revert Hi].
    + apply lookup_replicate in Hj as [? _]. discriminate.
    + intros [? _]%lookup_replicate. discriminate.
    + intros [? _]%lookup_replicate. discriminate.
  - vm_compute. reflexivity.
  - repeat constructor. intros [].
  - exact Hrun.
Defined.

