(* ===== verification/Timing.v ===== *)
(** * Timing and floating point (src/pi/rsvp_state_machine.c)

    The state lifetime [RSVP_CLEANUP_MS], the jittered refresh interval
    [get_jittered_refresh], and the single-precision operations the daemon
    applies to them and to traffic specifications.

    A [float] that is copied, compared or sent is its IEEE 754 bit pattern; a
    [float] inside an arithmetic expression is the exact value it holds, scaled
    to an integer.  Rounding is to nearest, ties to even.  A conversion to
    [uint32_t] of a value that does not fit is undefined behaviour: [None]. *)

From stdpp Require Import base numbers list option.
From S2P Require Import Prelude.

Definition RSVP_REFRESH_MS : Z := 30000.
Definition RSVP_K_VALUE : Z := 3.

(** ** Single precision *)

(** The nearest integer with at most 24 significant bits; scaling by a power of
    two does not change the result, so this rounds products too. *)
Definition rne24 (n : Z) : Z :=
  if n <? 2 ^ 24 then n
  else
    let e := Z.log2 n - 23 in
    let q := n / 2 ^ e in
    let r := n mod 2 ^ e in
    let up := (2 ^ (e - 1) <? r) || ((r =? 2 ^ (e - 1)) && Z.odd q) in
    (if up then q + 1 else q) * 2 ^ e.

(** Conversion of a non-negative value [n / d], truncated, to [uint32_t]. *)
Definition trunc_u32 (n d : Z) : option Z :=
  if n / d <? 2 ^ 32 then Some (n / d) else None.

Definition float_is_nan (b : Z) : bool := 2139095040 <? b mod 2 ^ 31.
(** Orders the bit patterns of the numbers as the numbers; both zeros are 0. *)
Definition float_rank (b : Z) : Z := if b <? 2 ^ 31 then b else - (b - 2 ^ 31).
Definition float_ge (a b : Z) : bool :=
  negb (float_is_nan a) && negb (float_is_nan b) && (float_rank b <=? float_rank a).
Definition float_eq0 (a : Z) : bool := negb (float_is_nan a) && (float_rank a =? 0).

(** [(uint32_t)f] of a bit pattern. *)
Definition float_to_u32 (b : Z) : option Z :=
  let e := b / 2 ^ 23 mod 256 in
  let m := 2 ^ 23 + b mod 2 ^ 23 in
  if e <? 127 then Some 0
  else if (2 ^ 31 <=? b) || (159 <=? e) then None
  else Some (m * 2 ^ (e - 127) / 2 ^ 23).

(** [(float)n], as a bit pattern. *)
Definition u32_to_float (n : Z) : Z :=
  if n =? 0 then 0
  else
    let r := rne24 n in
    let e := Z.log2 r in
    (e + 127) * 2 ^ 23 + (r * 2 ^ 23 / 2 ^ e - 2 ^ 23).

(** ** The daemon's intervals *)

(** [RSVP_CLEANUP_MS(R)]: [(uint32_t)((3u + 0.5f) * R)]. *)
Definition RSVP_CLEANUP_MS (R : Z) : option Z :=
  trunc_u32 (rne24 ((2 * RSVP_K_VALUE + 1) * rne24 R)) 2.

(** [(uint32_t)(base_ms * c)] for the float constant [c = m / 2^k]. *)
Definition scale_u32 (base_ms m k : Z) : option Z :=
  trunc_u32 (rne24 (rne24 base_ms * m)) (2 ^ k).

(** The constants 0.8f, 1.1f, 1.2f and 1.3f are 13421773 / 2^24, 9227469 / 2^23,
    10066330 / 2^23 and 10905190 / 2^23; [rnd] is the result of [rand()]. *)
Definition get_jittered_refresh (rnd base_ms : Z) (is_backup : bool) : option Z :=
  let base_ms := if base_ms =? 0 then RSVP_REFRESH_MS else base_ms in
  lo ← (if is_backup then scale_u32 base_ms 9227469 23 else scale_u32 base_ms 13421773 24);
  hi ← (if is_backup then scale_u32 base_ms 10905190 23 else scale_u32 base_ms 10066330 23);
  let range := if lo <? hi then hi - lo else 1 in
  Some ((lo + rnd mod range) mod 2 ^ 32).

(** ** Rounding error *)

Lemma rne24_error n :
  0 ≤ n → (2 ^ 24 - 1) * n ≤ 2 ^ 24 * rne24 n ≤ (2 ^ 24 + 1) * n.
Proof.
  intros Hn. unfold rne24. case_if; [lia|]. bools.
  set (e := Z.log2 n - 23).
  assert (24 ≤ Z.log2 n) by (apply Z.log2_le_pow2; lia).
  assert (2 ^ e * 2 ^ 23 ≤ n).
  { rewrite <- Z.pow_add_r by lia. replace (e + 23) with (Z.log2 n) by lia.
    apply Z.log2_spec. lia. }
  assert (2 ^ e = 2 * 2 ^ (e - 1)) as He
    by (rewrite <- Z.pow_succ_r by lia; f_equal; lia).
  assert (0 < 2 ^ (e - 1)) by (apply Z.pow_pos_nonneg; lia).
  pose proof (Z.div_mod n (2 ^ e) ltac:(lia)) as Hdm.
  pose proof (Z.mod_pos_bound n (2 ^ e) ltac:(lia)) as Hmb.
  set (q := n / 2 ^ e) in *. set (r := n mod 2 ^ e) in *.
  set (h := 2 ^ (e - 1)) in *. rewrite He in *. clearbody q r h. clear He e.
  change (2 ^ 24) with 16777216. change (2 ^ 23) with 8388608 in *.
  destruct (h <? r) eqn:E1; simpl; bools; [nia|].
  destruct (r =? h) eqn:E2; simpl; bools; [|nia].
  destruct (Z.odd q); nia.
Qed.

Lemma rne24_small n : n < 2 ^ 24 → rne24 n = n.
Proof. intros. unfold rne24. by rewrite (proj2 (Z.ltb_lt _ _)). Qed.

Lemma rne24_nonneg n : 0 ≤ n → 0 ≤ rne24 n.
Proof. intros H. pose proof (rne24_error n H). lia. Qed.

(** A refresh period below 2^30 ms (12 days) is safe for every conversion. *)
Definition refresh_ok (R : Z) : Prop := 0 ≤ R < 2 ^ 30.

Lemma scale_u32_spec R m k :
  refresh_ok R → 0 < m → 0 ≤ k → m ≤ 2 * 2 ^ k →
  ∃ v, scale_u32 R m k = Some v ∧ 0 ≤ v
    ∧ 2 ^ k * v * 2 ^ 22 ≤ R * m * (2 ^ 22 + 1)
    ∧ R * m * (2 ^ 22 - 1) < 2 ^ k * (v + 1) * 2 ^ 22.
Proof.
  intros [H0 H1] Hm Hk Hle. unfold scale_u32, trunc_u32.
  pose proof (rne24_error R H0) as [E1 E2].
  pose proof (rne24_error (rne24 R * m)) as [E3 E4];
    [pose proof (rne24_nonneg R H0); nia|].
  set (p := rne24 (rne24 R * m)) in *. set (f := rne24 R) in *. clearbody p f.
  assert (0 < 2 ^ k) by (by apply Z.pow_pos_nonneg). set (d := 2 ^ k) in *.
  assert (0 ≤ f) by lia. assert (0 ≤ f * m) by nia. assert (0 ≤ p) by nia.
  assert (p < 2 ^ 32 * d) as Hp.
  { change (2 ^ 24) with 16777216 in *. change (2 ^ 30) with 1073741824 in *.
    change (2 ^ 32) with 4294967296. assert (f ≤ 1073741824 + 64) by lia. nia. }
  rewrite (proj2 (Z.ltb_lt _ _)) by (apply Z.div_lt_upper_bound; nia).
  eexists. split; [reflexivity|].
  pose proof (Z.div_mod p d ltac:(lia)). pose proof (Z.mod_pos_bound p d ltac:(lia)).
  set (v := p / d) in *. split; [by apply Z.div_pos|].
  change (2 ^ 24) with 16777216 in *. change (2 ^ 22) with 4194304.
  assert (16777216 * (f * m) ≤ 16777217 * (R * m)) as A1 by nia.
  assert (16777215 * (R * m) ≤ 16777216 * (f * m)) as A2 by nia.
  rewrite Z.mul_add_distr_l. set (X := R * m) in *. set (D := d * v) in *.
  clearbody X D. clear E1 E2. split; lia.
Qed.

Lemma RSVP_CLEANUP_MS_spec R :
  refresh_ok R →
  ∃ c, RSVP_CLEANUP_MS R = Some c ∧ 0 ≤ c < 2 ^ 32
    ∧ 2 * c * 2 ^ 22 ≤ 7 * R * (2 ^ 22 + 1) ∧ 7 * R * (2 ^ 22 - 1) < 2 * (c + 1) * 2 ^ 22.
Proof.
  intros [H0 H1]. unfold RSVP_CLEANUP_MS, trunc_u32, RSVP_K_VALUE.
  change (2 * 3 + 1) with 7.
  pose proof (rne24_error R H0) as [E1 E2].
  pose proof (rne24_error (7 * rne24 R)) as [E3 E4];
    [pose proof (rne24_nonneg R H0); lia|].
  set (p := rne24 (7 * rne24 R)) in *. set (f := rne24 R) in *. clearbody p f.
  change (2 ^ 24) with 16777216 in *. change (2 ^ 22) with 4194304.
  change (2 ^ 30) with 1073741824 in *. change (2 ^ 32) with 4294967296.
  rewrite (proj2 (Z.ltb_lt _ _)) by dlia.
  eexists. split; [reflexivity|]. split; [dlia|]. split; dlia.
Qed.

Lemma get_jittered_refresh_spec rnd R b :
  refresh_ok R → 0 ≤ rnd →
  ∃ j, get_jittered_refresh rnd R b = Some j ∧ 0 ≤ j < 2 ^ 32
    ∧ (0 < R → j * 1000 ≤ R * (if b then 1301 else 1201)
               ∧ R * (if b then 1099 else 799) < j * 1000 + 1001).
Proof.
  intros HR Hr. unfold get_jittered_refresh.
  set (B := if R =? 0 then RSVP_REFRESH_MS else R).
  assert (refresh_ok B) as HB by (unfold B, refresh_ok, RSVP_REFRESH_MS in *; case_if; lia).
  assert (0 < R → B = R) as HBR by (intros; unfold B; rewrite (proj2 (Z.eqb_neq _ _)); lia).
  assert (∃ lo hi, (if b then scale_u32 B 9227469 23 else scale_u32 B 13421773 24) = Some lo
    ∧ (if b then scale_u32 B 10905190 23 else scale_u32 B 10066330 23) = Some hi
    ∧ 0 ≤ lo ∧ hi * 1000 ≤ B * (if b then 1301 else 1201)
    ∧ lo * 1000 ≤ B * (if b then 1301 else 1201)
    ∧ B * (if b then 1099 else 799) < lo * 1000 + 1001)
    as (lo & hi & -> & -> & H0 & H1 & H2 & H3).
  { unfold refresh_ok in HB. change (2 ^ 30) with 1073741824 in HB.
    destruct b.
    - destruct (scale_u32_spec B 9227469 23) as (lo & -> & ? & ? & ?); [done|lia..|].
      destruct (scale_u32_spec B 10905190 23) as (hi & -> & ? & ? & ?); [done|lia..|].
      exists lo, hi. change (2 ^ 23) with 8388608 in *. change (2 ^ 22) with 4194304 in *. split_and!; try done; lia.
    - destruct (scale_u32_spec B 13421773 24) as (lo & -> & ? & ? & ?); [done|lia..|].
      destruct (scale_u32_spec B 10066330 23) as (hi & -> & ? & ? & ?); [done|lia..|].
      exists lo, hi. change (2 ^ 23) with 8388608 in *. change (2 ^ 22) with 4194304 in *.
      change (2 ^ 24) with 16777216 in *.
      split_and!; try done; lia. }
  cbn [mbind option_bind].
  set (range := if lo <? hi then hi - lo else 1).
  assert (0 < range ∧ (lo + range ≤ hi ∨ range = 1)) as [Hpos Hle]
    by (unfold range; case_if; blia).
  pose proof (Z.mod_pos_bound rnd range Hpos).
  unfold refresh_ok in HB. change (2 ^ 30) with 1073741824 in HB.
  change (2 ^ 32) with 4294967296.
  assert (0 ≤ lo + rnd mod range < 4294967296) as Hj by (destruct b; lia).
  eexists. split; [reflexivity|]. rewrite Z.mod_small by done. split; [done|].
  intros HRpos. rewrite (HBR HRpos) in *. destruct b; lia.
Qed.

(** ** Property *)

(** C32: for every refresh period R of at least one and less than 2^30 ms the
    lifetime (K + 0.5) R and the jittered interval are computed without
    overflow, the interval stays within 0.8R..1.2R (1.1R..1.3R on transit) up
    to 0.1% and a millisecond, and the state survives one lost refresh whatever
    the jitter: two refresh intervals are shorter than the lifetime. (R comes
    from the network and is not checked: 0 gives a lifetime of 0, and see
    [refresh_period_overflows] for large ones.) *)
Theorem lifetime_survives_loss R rnd1 rnd2 b :
  1 ≤ R < 2 ^ 30 → 0 ≤ rnd1 → 0 ≤ rnd2 →
  ∃ c j1 j2, RSVP_CLEANUP_MS R = Some c
    ∧ get_jittered_refresh rnd1 R b = Some j1 ∧ get_jittered_refresh rnd2 R b = Some j2
    ∧ R * (if b then 1099 else 799) - 1001 < j1 * 1000 ≤ R * (if b then 1301 else 1201)
    ∧ j1 + j2 < c.
Proof.
  intros HR H1 H2. assert (refresh_ok R) as HR' by (unfold refresh_ok; lia).
  destruct (RSVP_CLEANUP_MS_spec R HR') as (c & -> & _ & ? & ?).
  destruct (get_jittered_refresh_spec rnd1 R b HR' H1) as (j1 & -> & ? & []); [lia|].
  destruct (get_jittered_refresh_spec rnd2 R b HR' H2) as (j2 & -> & ? & []); [lia|].
  exists c, j1, j2. change (2 ^ 22) with 4194304 in *.
  split_and!; try done; destruct b; lia.
Qed.

Lemma lifetime_survives_loss_witness :
  ∃ c j1 j2, RSVP_CLEANUP_MS 30000 = Some c ∧ get_jittered_refresh 7 30000 false = Some j1
    ∧ get_jittered_refresh 2147483647 30000 false = Some j2 ∧ j1 + j2 < c.
Proof.
  destruct (lifetime_survives_loss 30000 7 2147483647 false) as (c & j1 & j2 & H1 & H2 & H3 & _ & H4);
    [lia..|]. exists c, j1, j2. exact (conj H1 (conj H2 (conj H3 H4))).
Defined.

Example cleanup_default : RSVP_CLEANUP_MS RSVP_REFRESH_MS = Some 105000.
Proof. vm_compute. reflexivity. Qed.
(** A period announced by a neighbour can overflow the conversion. *)
Example cleanup_overflow : RSVP_CLEANUP_MS (2 ^ 31) = None.
Proof. vm_compute. reflexivity. Qed.
(** A period of zero is refreshed every 30 s but its state lives 0 ms. *)
Example cleanup_zero : RSVP_CLEANUP_MS 0 = Some 0 ∧ get_jittered_refresh 0 0 false = Some 24000.
Proof. split; vm_compute; reflexivity. Qed.
Example jitter_default : get_jittered_refresh 12000 30000 false = Some 24000.
Proof. vm_compute. reflexivity. Qed.
Example float_one_mbps : u32_to_float 1000000 = 1232348160 ∧ float_to_u32 1232348160 = Some 1000000.
Proof. split; vm_compute; reflexivity. Qed.
