(* ===== verification/StateDb.v ===== *)
(** * The state database (src/pi/rsvp_state.h, src/pi/rsvp_state_db.c)

    The path, reservation and blockade state blocks, and the hash tables that
    hold them.  A block lives at an address ([loc]) of the heap of its table; a
    bucket is the chain of the addresses linked through [next_hash], from the
    head.  [None] from a lookup is a read of freed memory.

    The theorems show that a table behaves like a finite map from path keys to
    addresses: finding, inserting and removing a block are the operations of
    that map. *)

From stdpp Require Import base numbers list option gmap sets.
From S2P Require Import Prelude Wire Protocol.

Definition MAX_ERO_HOPS : nat := 32.
Definition MAX_RRO_HOPS : nat := 32.

Inductive rsvp_frr_mode_t := RSVP_FRR_NONE | RSVP_FRR_ONE_TO_ONE | RSVP_FRR_FACILITY.
#[export] Instance rsvp_frr_mode_t_eq_dec : EqDecision rsvp_frr_mode_t.
Proof. solve_decision. Defined.

(** ** The state blocks

    [psb_ero] and [psb_rro] hold the first [ero_count] and [rro_count] entries
    of their arrays; a C string is the list of its bytes before the
    terminator.  The timers of a block are in the timer system, at addresses
    derived from the block's. *)

Record rsvp_psb := mk_rsvp_psb {
  psb_key : rsvp_path_key;
  psb_prev_hop : rsvp_hop_ipv4;
  psb_ifindex_in : Z;
  psb_ifindex_out : Z;
  psb_lsp_name : option (list Z);
  psb_ero : list rsvp_ero_ipv4_subobj;
  psb_rro : list rsvp_ero_ipv4_subobj;
  psb_tspec : rsvp_sender_tspec;
  psb_setup_prio : Z;
  psb_holding_prio : Z;
  psb_refresh_ms : Z;
  psb_ttl : Z;
  psb_refresh_count : Z;
  psb_is_ingress : bool;
  psb_frr_mode : rsvp_frr_mode_t;
  psb_is_bypass_tunnel : bool;
  psb_frr_active : bool;
  psb_bypass_tunnel_id : Z;
  psb_bypass_psb : option loc;
  psb_frr_bandwidth : Z;
  psb_frr_protected_ifindex : Z;
  psb_is_mbb_pending : bool;
  psb_mbb_old_lsp_id : Z;
  psb_associated_rsb : option loc;
}.
#[export] Instance rsvp_psb_settable : Settable rsvp_psb :=
  λ p, mk_rsvp_psb (psb_key p) (psb_prev_hop p) (psb_ifindex_in p) (psb_ifindex_out p)
    (psb_lsp_name p) (psb_ero p) (psb_rro p) (psb_tspec p) (psb_setup_prio p)
    (psb_holding_prio p) (psb_refresh_ms p) (psb_ttl p) (psb_refresh_count p)
    (psb_is_ingress p) (psb_frr_mode p) (psb_is_bypass_tunnel p) (psb_frr_active p)
    (psb_bypass_tunnel_id p) (psb_bypass_psb p) (psb_frr_bandwidth p)
    (psb_frr_protected_ifindex p) (psb_is_mbb_pending p) (psb_mbb_old_lsp_id p)
    (psb_associated_rsb p).

Record rsvp_rsb := mk_rsvp_rsb {
  rsb_key : rsvp_path_key;
  rsb_next_hop : rsvp_hop_ipv4;
  rsb_label_in : Z;
  rsb_label_out : Z;
  rsb_flowspec : rsvp_sender_tspec;
  rsb_style : Z;
  rsb_refresh_ms : Z;
  rsb_ttl : Z;
  rsb_refresh_count : Z;
  rsb_associated_psb : option loc;
}.
#[export] Instance rsvp_rsb_settable : Settable rsvp_rsb :=
  λ r, mk_rsvp_rsb (rsb_key r) (rsb_next_hop r) (rsb_label_in r) (rsb_label_out r)
    (rsb_flowspec r) (rsb_style r) (rsb_refresh_ms r) (rsb_ttl r) (rsb_refresh_count r)
    (rsb_associated_psb r).

Record rsvp_bsb := mk_rsvp_bsb {
  bsb_key : rsvp_path_key;
  bsb_flowspec_qb : rsvp_sender_tspec;
}.
#[export] Instance rsvp_bsb_settable : Settable rsvp_bsb :=
  λ b, mk_rsvp_bsb (bsb_key b) (bsb_flowspec_qb b).

(** [calloc] and the copy of the key. *)
Definition zero_hop : rsvp_hop_ipv4 := mk_rsvp_hop_ipv4 0 0.
Definition zero_tspec : rsvp_sender_tspec := mk_rsvp_sender_tspec 0 0 0 0 0 0 0 0 0 0 0 0 0 0.
Definition new_psb (key : rsvp_path_key) : rsvp_psb :=
  mk_rsvp_psb key zero_hop 0 0 None [] [] zero_tspec 0 0 0 0 0 false RSVP_FRR_NONE false false
    0 None 0 0 false 0 None.
Definition new_rsb (key : rsvp_path_key) : rsvp_rsb :=
  mk_rsvp_rsb key zero_hop 0 0 zero_tspec 0 0 0 0 None.
Definition new_bsb (key : rsvp_path_key) : rsvp_bsb := mk_rsvp_bsb key zero_tspec.

(** What the three kinds of block have in common. *)
Class Keyed (A : Type) := key_of : A → rsvp_path_key.
#[export] Instance psb_keyed : Keyed rsvp_psb := psb_key.
#[export] Instance rsb_keyed : Keyed rsvp_rsb := rsb_key.
#[export] Instance bsb_keyed : Keyed rsvp_bsb := bsb_key.

(** ** Hash tables *)

Definition HASH_SIZE : nat := Z.to_nat 1024.

(** [uint32_t] arithmetic over the fields in memory order. *)
Definition rsvp_key_hash (key : rsvp_path_key) : nat :=
  let step hash field := (hash * 31 + field) mod 2 ^ 32 in
  let hash := step 0 (sess_dest_addr (key_session key)) in
  let hash := step hash (sess_tunnel_id (key_session key)) in
  let hash := step hash (sess_extended_tunnel_id (key_session key)) in
  let hash := step hash (snd_source_addr (key_sender key)) in
  let hash := step hash (snd_lsp_id (key_sender key)) in
  Z.to_nat (hash mod 1024).

Record table (A : Type) := mk_table {
  tb_heap : gmap loc A;
  tb_buckets : list (list loc);
}.
Arguments mk_table {A}.
Arguments tb_heap {A}.
Arguments tb_buckets {A}.
#[export] Instance table_settable A : Settable (table A) :=
  λ t, mk_table (tb_heap t) (tb_buckets t).

Definition empty_table {A} : table A := mk_table ∅ (replicate HASH_SIZE []).

Section table.
Context {A : Type} `{Keyed A}.
Implicit Types t : table A.
Implicit Types k : rsvp_path_key.
Implicit Types l : loc.

Definition bucket t (h : nat) : list loc := default [] (tb_buckets t !! h).

(** The first block of a chain that satisfies [p]. *)
Fixpoint chain_find (heap : gmap loc A) (p : A → bool) (chain : list loc) : option (option loc) :=
  match chain with
  | [] => Some None
  | l :: chain =>
      a ← heap !! l;
      if p a then Some (Some l) else chain_find heap p chain
  end.

(** [memcmp] of the keys, in the bucket of the hash. *)
Definition table_find t k : option (option loc) :=
  chain_find (tb_heap t) (λ a, bool_decide (key_of a = k)) (bucket t (rsvp_key_hash k)).

(** The scan of all buckets in order. *)
Definition table_scan t (p : A → bool) : option (option loc) :=
  chain_find (tb_heap t) p (mjoin (tb_buckets t)).

(** A new block at the head of its bucket. *)
Definition table_insert t l (a : A) : table A :=
  mk_table (<[l := a]> (tb_heap t))
    (alter (λ chain, l :: chain) (rsvp_key_hash (key_of a)) (tb_buckets t)).

(** The walk of [rsvp_*_delete] along a chain: the chain without [l], [None]
    if it is not there (the C function does nothing then). *)
Fixpoint chain_unlink l (chain : list loc) : option (list loc) :=
  match chain with
  | [] => None
  | curr :: chain =>
      if decide (curr = l) then Some chain else (λ c, curr :: c) <$> chain_unlink l chain
  end.

Definition table_unlink t l (a : A) : option (table A) :=
  let h := rsvp_key_hash (key_of a) in
  chain ← chain_unlink l (bucket t h);
  Some (t <| tb_buckets ::= λ bs, <[h := chain]> bs |>).

Definition table_free t l : table A := t <| tb_heap ::= delete l |>.

Definition table_update t l (f : A → A) : table A := t <| tb_heap ::= alter f l |>.

(** ** Well-formed tables *)

Record table_ok t : Prop := {
  tab_length : length (tb_buckets t) = HASH_SIZE;
  tab_chain : ∀ h l, l ∈ bucket t h → ∃ a, tb_heap t !! l = Some a ∧ rsvp_key_hash (key_of a) = h;
  tab_nodup : ∀ h, NoDup (bucket t h);
  tab_linked : ∀ l a, tb_heap t !! l = Some a → l ∈ bucket t (rsvp_key_hash (key_of a));
  tab_unique : ∀ l1 l2 a1 a2, tb_heap t !! l1 = Some a1 → tb_heap t !! l2 = Some a2 →
    key_of a1 = key_of a2 → l1 = l2;
}.

Lemma rsvp_key_hash_lt k : (rsvp_key_hash k < HASH_SIZE)%nat.
Proof.
  unfold rsvp_key_hash, HASH_SIZE. apply Z2Nat.inj_lt; try lia;
    by apply Z.mod_pos_bound.
Qed.

Lemma bucket_alter t h f h' heap :
  length (tb_buckets t) = HASH_SIZE → (h < HASH_SIZE)%nat →
  bucket (mk_table heap (alter f h (tb_buckets t))) h'
  = if decide (h' = h) then f (bucket t h) else bucket t h'.
Proof.
  intros Hl Hh. unfold bucket. simpl. case_decide as Hd.
  - subst h'. rewrite list_lookup_alter_eq.
    destruct (lookup_lt_is_Some_2 (tb_buckets t) h) as [c ->]; [lia|done].
  - by rewrite list_lookup_alter_ne by done.
Qed.

Lemma bucket_insert t h c h' heap :
  length (tb_buckets t) = HASH_SIZE → (h < HASH_SIZE)%nat →
  bucket (mk_table heap (<[h := c]> (tb_buckets t))) h' = if decide (h' = h) then c else bucket t h'.
Proof.
  intros Hl Hh. unfold bucket. simpl. case_decide as Hd.
  - subst h'. rewrite list_lookup_insert_eq; [done|lia].
  - by rewrite list_lookup_insert_ne by done.
Qed.

Lemma bucket_heap t heap h : bucket (mk_table heap (tb_buckets t)) h = bucket t h.
Proof. done. Qed.

Lemma elem_of_buckets t l : l ∈ mjoin (tb_buckets t) ↔ ∃ h, l ∈ bucket t h.
Proof.
  rewrite list_elem_of_join. split.
  - intros (c & Hl & [h Hc]%list_elem_of_lookup). exists h. unfold bucket. by rewrite Hc.
  - unfold bucket. intros [h Hl]. destruct (tb_buckets t !! h) as [c|] eqn:E; simpl in Hl.
    + exists c. split; [done|]. by eapply list_elem_of_lookup_2.
    + by apply elem_of_nil in Hl.
Qed.

Lemma chain_find_spec heap p chain :
  (∀ l, l ∈ chain → is_Some (heap !! l)) →
  ∃ r, chain_find heap p chain = Some r
    ∧ match r with
      | Some l => l ∈ chain ∧ ∃ a, heap !! l = Some a ∧ p a = true
      | None => ∀ l a, l ∈ chain → heap !! l = Some a → p a = false
      end.
Proof.
  induction chain as [|l chain IH]; intros Hs; simpl.
  - eexists. split; [done|]. intros l a []%elem_of_nil.
  - destruct (Hs l) as [a Ha]; [by left|]. rewrite Ha. simpl.
    destruct (p a) eqn:Hp.
    + eexists. split; [done|]. split; [by left|eauto].
    + destruct IH as (r & -> & Hr); [intros; apply Hs; by right|].
      eexists. split; [done|]. destruct r as [l'|].
      * destruct Hr. split; [by right|done].
      * intros l' a' [->|Hl']%elem_of_cons Ha'; [congruence|eauto].
Qed.

Lemma table_find_spec t k :
  table_ok t →
  ∃ r, table_find t k = Some r
    ∧ match r with
      | Some l => ∃ a, tb_heap t !! l = Some a ∧ key_of a = k
      | None => ∀ l a, tb_heap t !! l = Some a → key_of a ≠ k
      end.
Proof.
  intros Hok. unfold table_find.
  destruct (chain_find_spec (tb_heap t) (λ a, bool_decide (key_of a = k))
              (bucket t (rsvp_key_hash k))) as (r & -> & Hr).
  { intros l Hl. destruct (tab_chain t Hok _ _ Hl) as (a & -> & _). eauto. }
  eexists. split; [done|]. destruct r as [l|].
  - destruct Hr as (_ & a & ? & ?%bool_decide_eq_true). eauto.
  - intros l a Ha <-. pose proof (tab_linked t Hok l a Ha) as Hin.
    specialize (Hr l a Hin Ha). by apply bool_decide_eq_false in Hr.
Qed.

Lemma table_scan_spec t p :
  table_ok t →
  ∃ r, table_scan t p = Some r
    ∧ match r with
      | Some l => ∃ a, tb_heap t !! l = Some a ∧ p a = true
      | None => ∀ l a, tb_heap t !! l = Some a → p a = false
      end.
Proof.
  intros Hok. unfold table_scan.
  destruct (chain_find_spec (tb_heap t) p (mjoin (tb_buckets t))) as (r & -> & Hr).
  { intros l [h Hl]%elem_of_buckets. destruct (tab_chain t Hok _ _ Hl) as (a & -> & _). eauto. }
  eexists. split; [done|]. destruct r as [l|]; [by destruct Hr|].
  intros l a Ha. eapply Hr; [|done]. apply elem_of_buckets. eexists. by eapply tab_linked.
Qed.

(** The block with key [k] is what [table_find] returns. *)
Lemma table_find_iff t k l :
  table_ok t →
  table_find t k = Some (Some l) ↔ ∃ a, tb_heap t !! l = Some a ∧ key_of a = k.
Proof.
  intros Hok. destruct (table_find_spec t k Hok) as (r & -> & Hr). split.
  - intros [= ->]. done.
  - intros (a & Ha & Hk). destruct r as [l'|]; [|by destruct (Hr l a Ha)].
    destruct Hr as (a' & Ha' & Hk'). do 2 f_equal. eapply tab_unique; [done..|congruence].
Qed.

Lemma table_find_none t k :
  table_ok t →
  table_find t k = Some None ↔ ∀ l a, tb_heap t !! l = Some a → key_of a ≠ k.
Proof.
  intros Hok. destruct (table_find_spec t k Hok) as (r & -> & Hr). split; [by intros [= ->]|].
  intros Hn. destruct r as [l|]; [|done]. destruct Hr as (a & Ha & Hk). by destruct (Hn l a Ha).
Qed.

(** ** Operations preserve well-formedness *)

Lemma empty_table_ok : table_ok (@empty_table A).
Proof.
  assert (∀ h, bucket (@empty_table A) h = []) as Hb.
  { intros h. unfold bucket, empty_table, tb_buckets.
    destruct (replicate HASH_SIZE [] !! h) eqn:E; [|done]. by apply lookup_replicate in E as [-> _]. }
  split.
  - unfold empty_table, tb_buckets. by rewrite length_replicate.
  - intros h l. rewrite Hb. by intros ?%elem_of_nil.
  - intros h. rewrite Hb. constructor.
  - intros l a. simpl. by rewrite lookup_empty.
  - intros l1 l2 a1 a2. simpl. by rewrite lookup_empty.
Qed.

Lemma table_update_ok t l f :
  table_ok t → (∀ a, tb_heap t !! l = Some a → key_of (f a) = key_of a) → table_ok (table_update t l f).
Proof.
  intros [] Hf.
  assert (∀ l' a', tb_heap (table_update t l f) !! l' = Some a' →
    ∃ a, tb_heap t !! l' = Some a ∧ key_of a' = key_of a) as Hinv.
  { intros l' a'. simpl. destruct (decide (l = l')) as [<-|].
    - rewrite lookup_alter, decide_True by done. intros (a & Ha & ->)%fmap_Some. rewrite Hf; eauto.
    - rewrite lookup_alter_ne by done. eauto. }
  split; try done.
  - intros h l' Hl'. destruct (tab_chain0 h l' Hl') as (a & Ha & Hh). simpl.
    destruct (decide (l = l')) as [<-|].
    + rewrite lookup_alter, decide_True, Ha by done. eexists. split; [done|]. by rewrite Hf.
    + rewrite lookup_alter_ne by done. eauto.
  - intros l' a' Ha'. destruct (Hinv l' a' Ha') as (a & Ha & ->). by apply tab_linked0.
  - intros l1 l2 a1 a2 H1 H2 Hk.
    destruct (Hinv l1 a1 H1) as (b1 & ? & ?), (Hinv l2 a2 H2) as (b2 & ? & ?).
    eapply tab_unique0; [done..|congruence].
Qed.

Lemma table_insert_ok t l a :
  table_ok t → tb_heap t !! l = None → (∀ l' a', tb_heap t !! l' = Some a' → key_of a' ≠ key_of a) →
  table_ok (table_insert t l a).
Proof.
  intros Hok Hl Hk. pose proof (rsvp_key_hash_lt (key_of a)) as Hh. destruct Hok.
  unfold table_insert. split; simpl.
  - by rewrite length_alter.
  - intros h l'. rewrite bucket_alter by done. case_decide as Hd.
    + intros [->|Hin]%elem_of_cons; [exists a; by rewrite lookup_insert_eq|].
      destruct (tab_chain0 _ _ Hin) as (a' & Ha' & ?). exists a'.
      rewrite lookup_insert_ne by (intros <-; congruence). by subst.
    + intros Hin. destruct (tab_chain0 _ _ Hin) as (a' & Ha' & ?). exists a'.
      by rewrite lookup_insert_ne by (intros <-; congruence).
  - intros h. rewrite bucket_alter by done. case_decide as Hd; [|done].
    constructor; [|done]. intros Hin. destruct (tab_chain0 _ _ Hin) as (? & ? & _). congruence.
  - intros l' a'. rewrite bucket_alter by done. destruct (decide (l = l')) as [<-|].
    + rewrite lookup_insert_eq. intros [= <-]. rewrite decide_True by done. by left.
    + rewrite lookup_insert_ne by done. intros Ha'. case_decide as Hd; [|by apply tab_linked0].
      right. rewrite <- Hd. by apply tab_linked0.
  - intros l1 l2 a1 a2. destruct (decide (l = l1)) as [<-|], (decide (l = l2)) as [<-|];
      rewrite ?lookup_insert_eq, ?lookup_insert_ne by done; [done|..].
    + intros [= <-] H2 E. by destruct (Hk l2 a2).
    + intros H1 [= <-] E. by destruct (Hk l1 a1).
    + by apply tab_unique0.
Qed.

Lemma chain_unlink_spec l chain :
  l ∈ chain → NoDup chain →
  ∃ c, chain_unlink l chain = Some c ∧ NoDup c ∧ ∀ l', l' ∈ c ↔ l' ∈ chain ∧ l' ≠ l.
Proof.
  induction chain as [|x chain IH]; [by intros ?%elem_of_nil|].
  intros Hin [Hx Hnd]%NoDup_cons. simpl. case_decide as Hd.
  - subst x. eexists. split_and!; [done..|]. intros l'. rewrite elem_of_cons.
    split; [|naive_solver]. intros ?. split; [by right|]. by intros ->.
  - apply elem_of_cons in Hin as [->|Hin]; [done|].
    destruct IH as (c & -> & Hc & Hiff); [done..|]. eexists. split; [done|]. split.
    + constructor; [|done]. rewrite Hiff. naive_solver.
    + intros l'. rewrite !elem_of_cons, Hiff. naive_solver.
Qed.

Lemma table_remove_ok t l a :
  table_ok t → tb_heap t !! l = Some a →
  ∃ t', table_unlink t l a = Some t' ∧ tb_heap t' = tb_heap t ∧ table_ok (table_free t' l)
    ∧ tb_heap (table_free t' l) = delete l (tb_heap t).
Proof.
  intros Hok Ha. pose proof (rsvp_key_hash_lt (key_of a)) as Hh. destruct Hok.
  unfold table_unlink. set (h := rsvp_key_hash (key_of a)) in *.
  destruct (chain_unlink_spec l (bucket t h)) as (c & -> & Hnd & Hc); [by apply tab_linked0|done|].
  eexists. split; [done|]. split; [done|]. split; [|done].
  change (table_ok (mk_table (delete l (tb_heap t)) (<[h := c]> (tb_buckets t)))).
  split; simpl.
  - by rewrite length_insert.
  - intros h' l'. rewrite bucket_insert by done. case_decide as Hd.
    + subst h'. intros [Hin Hne]%Hc. destruct (tab_chain0 _ _ Hin) as (a' & ? & ?).
      exists a'. by rewrite lookup_delete_ne by done.
    + intros Hin. destruct (tab_chain0 _ _ Hin) as (a' & Ha' & Hh').
      exists a'. rewrite lookup_delete_ne; [done|]. intros <-. apply Hd. subst h h'. congruence.
  - intros h'. rewrite bucket_insert by done. case_decide; [done|apply tab_nodup0].
  - intros l' a' [Hne Ha']%lookup_delete_Some. rewrite bucket_insert by done.
    case_decide as Hd; [|by apply tab_linked0]. apply Hc. rewrite <- Hd. split; [by apply tab_linked0|done].
  - intros l1 l2 a1 a2 [_ H1]%lookup_delete_Some [_ H2]%lookup_delete_Some. by apply tab_unique0.
Qed.
(** The chains hold every block once. *)
Lemma buckets_nodup t : table_ok t → NoDup (mjoin (tb_buckets t)).
Proof.
  intros Hok.
  assert (∀ bs (k : nat), (∀ h, NoDup (default [] (bs !! h))) →
    (∀ h l, l ∈ default [] (bs !! h) → ∃ a, tb_heap t !! l = Some a ∧ rsvp_key_hash (key_of a) = (k + h)%nat) →
    NoDup (mjoin bs)) as Hbs.
  { induction bs as [|b bs IH]; intros k Hn Hl; [constructor|]. simpl.
    apply NoDup_app. split_and!; [apply (Hn 0%nat)| |].
    - intros l Hb (c & Hlc & [h Hc]%list_elem_of_lookup)%list_elem_of_join.
      destruct (Hl 0%nat l Hb) as (a & Ea & Eh). destruct (Hl (S h) l) as (a' & Ea' & Eh');
        [simpl; by rewrite Hc|]. simplify_eq. lia.
    - apply (IH (S k)); [intros h; apply (Hn (S h))|].
      intros h l Hin. destruct (Hl (S h) l Hin) as (a & ? & Eh). exists a. rewrite Eh. split; [done|lia]. }
  apply (Hbs (tb_buckets t) 0%nat); [apply (tab_nodup t Hok)|]. intros h l Hin.
  by apply (tab_chain t Hok).
Qed.

Lemma buckets_linked t l : table_ok t → l ∈ mjoin (tb_buckets t) ↔ is_Some (tb_heap t !! l).
Proof.
  intros Hok. rewrite elem_of_buckets. split.
  - intros [h (a & Ha & _)%(tab_chain t Hok)]. by eexists.
  - intros [a Ha]. eexists. by eapply tab_linked.
Qed.
End table.

(** ** Property *)

(** C31: a hash table is a finite map from path keys to blocks, for any hash
    values: in a well-formed table, after inserting a block under a new key
    exactly that key finds it and every other key finds what it found before;
    after unlinking and freeing a block its key finds nothing and every other
    key what it found before; both leave the table well formed. *)
Theorem table_is_map {A} `{Keyed A} (t : table A) l a k :
  table_ok t →
  (tb_heap t !! l = None → table_find t (key_of a) = Some None →
     table_ok (table_insert t l a)
     ∧ table_find (table_insert t l a) k
       = if decide (k = key_of a) then Some (Some l) else table_find t k)
  ∧ (tb_heap t !! l = Some a →
     table_find t (key_of a) = Some (Some l)
     ∧ ∃ t', table_unlink t l a = Some t' ∧ table_ok (table_free t' l)
       ∧ table_find (table_free t' l) k
         = if decide (k = key_of a) then Some None else table_find t k).
Proof.
  intros Hok. split.
  - intros Hl Hk. rewrite table_find_none in Hk by done.
    pose proof (table_insert_ok t l a Hok Hl Hk) as Hok'. split; [done|].
    destruct (table_find_spec (table_insert t l a) k Hok') as (r & -> & Hr).
    case_decide as Hd.
    + destruct r as [l'|]; [|by destruct (Hr l a (lookup_insert_eq _ _ _))].
      destruct Hr as (a' & Ha' & Hk'). do 2 f_equal.
      eapply (tab_unique _ Hok'); [done|apply lookup_insert_eq|congruence].
    + symmetry. destruct r as [l'|].
      * destruct Hr as (a' & Ha' & Hk'). apply table_find_iff; [done|]. exists a'. simpl in Ha'.
        rewrite lookup_insert_ne in Ha'; [done|]. intros <-. rewrite lookup_insert_eq in Ha'. congruence.
      * apply table_find_none; [done|]. intros l' a' Ha'. apply (Hr l').
        simpl. rewrite lookup_insert_ne; [done|]. intros <-. congruence.
  - intros Ha. split; [apply table_find_iff; eauto|].
    destruct (table_remove_ok t l a Hok Ha) as (t' & -> & _ & Hok' & Hh).
    exists t'. split; [done|]. split; [done|].
    destruct (table_find_spec (table_free t' l) k Hok') as (r & -> & Hr). rewrite Hh in Hr.
    case_decide as Hd.
    + destruct r as [l'|]; [|done]. destruct Hr as (a' & [Hne Ha']%lookup_delete_Some & Hk').
      destruct Hne. eapply (tab_unique _ Hok); [done..|congruence].
    + symmetry. destruct r as [l'|].
      * destruct Hr as (a' & [Hne Ha']%lookup_delete_Some & Hk'). apply table_find_iff; eauto.
      * apply table_find_none; [done|]. intros l' a' Ha' Hk'. apply (Hr l' a'); [|done].
        rewrite lookup_delete_ne; [done|]. intros <-. congruence.
Qed.

Lemma table_is_map_witness :
  table_find (table_insert empty_table 7%positive (new_psb zero_key)) zero_key
  = Some (Some 7%positive).
Proof.
  assert (table_find (@empty_table rsvp_psb) zero_key = Some None) as Hn
    by (vm_compute; reflexivity).
  destruct (proj1 (table_is_map empty_table 7%positive (new_psb zero_key) zero_key empty_table_ok)
              (lookup_empty _) Hn) as [_ Hf].
  exact Hf.
Defined.
