(* ===== verification/Interfaces.v ===== *)
(** * Interfaces of the state machine

    What the state machine (src/pi/rsvp_state_machine.c, rsvp_hello.c) uses of
    the other parts of the daemon, as classes of operations with their laws:
    the timers of src/pi/rsvp_timers.c ([TimerSys]), the labels of
    src/pi/label_mgr.c ([LabelSys]), and the host: the netlink layer of
    src/hal/hal_netlink.h, the C library and the raw socket ([Env]).  The
    theorems about the state machine are proved from the laws; the instances
    at the end discharge the laws of the timers and of the labels. *)

From stdpp Require Import base numbers list option gmap sets.
From S2P Require Import Prelude LabelMgr WheelTimer Timers.

(** ** Timers *)

Class TimerSys (TS T K : Type) := {
  ti_start : TS → T → rsvp_timer_type_t → Z → option K → option TS;
  ti_stop : TS → T → option TS;
  ti_reset : TS → T → Z → option (bool * TS);
  ti_active : TS → T → option bool;
  ti_alloc : T → TS → TS;
  ti_free : T → TS → option TS;
  ti_read : TS → option (option K * TS);
  ti_expired : TS → nat;
}.

(** The view of a timer system: the timers in allocated memory, each with its
    active flag and its callback.  The laws hold while no expiration is on its
    way through the wheel's workers ([ti_ok]); expirations may wait to be
    read.  [ti_expired] is the number of those, [ti_read] takes the first. *)
Class TimerLaws (TS T K : Type) `{Countable T} `{TimerSys TS T K} := {
  ti_ok : TS → Prop;
  ti_view : TS → gmap T (bool * option K);
  ti_start_law : ∀ ts t type ms cb,
    ti_ok ts → is_Some (ti_view ts !! t) → 0 ≤ ms < 2 ^ 32 →
    ∃ ts', ti_start ts t type ms cb = Some ts' ∧ ti_ok ts'
      ∧ ti_view ts' = <[t := (true, cb)]> (ti_view ts);
  ti_stop_law : ∀ ts t a cb,
    ti_ok ts → ti_view ts !! t = Some (a, cb) →
    ∃ ts', ti_stop ts t = Some ts' ∧ ti_ok ts'
      ∧ ti_view ts' = <[t := (false, cb)]> (ti_view ts);
  ti_reset_law : ∀ ts t a cb ms,
    ti_ok ts → ti_view ts !! t = Some (a, cb) → 0 ≤ ms < 2 ^ 32 →
    ∃ ts', ti_reset ts t ms = Some (a, ts') ∧ ti_ok ts' ∧ ti_view ts' = ti_view ts;
  ti_active_law : ∀ ts t, ti_active ts t = fst <$> ti_view ts !! t;
  ti_alloc_law : ∀ ts t,
    ti_ok ts → ti_view ts !! t = None →
    ti_ok (ti_alloc t ts) ∧ ti_view (ti_alloc t ts) = <[t := (false, None)]> (ti_view ts);
  ti_free_law : ∀ ts t cb,
    ti_ok ts → ti_view ts !! t = Some (false, cb) →
    ∃ ts', ti_free t ts = Some ts' ∧ ti_ok ts' ∧ ti_view ts' = delete t (ti_view ts);
  ti_read_law : ∀ ts r ts',
    ti_ok ts → ti_read ts = Some (r, ts') →
    ti_ok ts' ∧ ti_view ts' = ti_view ts
    ∧ ∀ cb, r = Some cb → ∃ t a, ti_view ts !! t = Some (a, Some cb);
}.

(** The unread expirations: only a read takes one, and the other operations
    leave them alone; only the worker threads add some. *)
Class TimerPipeLaws (TS T K : Type) `{TimerSys TS T K} := {
  ti_start_keeps : ∀ ts t type ms cb ts',
    ti_start ts t type ms cb = Some ts' → ti_expired ts' = ti_expired ts;
  ti_stop_keeps : ∀ ts t ts', ti_stop ts t = Some ts' → ti_expired ts' = ti_expired ts;
  ti_reset_keeps : ∀ ts t ms b ts', ti_reset ts t ms = Some (b, ts') → ti_expired ts' = ti_expired ts;
  ti_alloc_keeps : ∀ ts t, ti_expired (ti_alloc t ts) = ti_expired ts;
  ti_free_keeps : ∀ ts t ts', ti_free t ts = Some ts' → ti_expired ts' = ti_expired ts;
  ti_read_takes : ∀ ts r ts', ti_read ts = Some (r, ts') → ti_expired ts = S (ti_expired ts');
}.

(** The start of the timers, from zeroed memory with the timers [S] in it
    ([ti_blank]); the arguments say whether [pipe] and the creation of the wheel
    succeed, without which the program exits. *)
Class TimerInit (TS : Type) := ti_init : bool → bool → TS → option TS.
Class TimerInitLaws (TS T K : Type) `{TimerLaws TS T K, !TimerInit TS} := {
  ti_blank : TS → (T → Prop) → Prop;
  ti_init_law : ∀ ts S pipe_ok wheel_ok, ti_blank ts S →
    if pipe_ok && wheel_ok
    then ∃ ts', ti_init pipe_ok wheel_ok ts = Some ts' ∧ ti_ok ts'
      ∧ ∀ t x, ti_view ts' !! t = Some x ↔ S t ∧ x = (false, None)
    else ti_init pipe_ok wheel_ok ts = None;
}.

(** ** Labels *)

Class LabelSys (LS : Type) := {
  lb_alloc : LS → option (Z * LS);
  lb_free : LS → Z → option LS;
}.

(** [lb_rel s H]: exactly the labels of [H] are held.  [lb_range s n]: [n] is
    one of the labels there are to give; 0 is given when all of them are held. *)
Class LabelLaws (LS : Type) `{LabelSys LS} := {
  lb_rel : LS → gset Z → Prop;
  lb_range : LS → Z → Prop;
  lb_nonzero : ∀ s H, lb_rel s H → 0 ∉ H;
  lb_bound : ∀ s H n, lb_rel s H → n ∈ H → 0 ≤ n < 2 ^ 32;
  lb_alloc_law : ∀ s H, lb_rel s H →
    ∃ l s', lb_alloc s = Some (l, s')
      ∧ ((l = 0 ∧ lb_rel s' H ∧ ∀ n, lb_range s n → n ∈ H)
         ∨ (l ≠ 0 ∧ l ∉ H ∧ lb_rel s' ({[l]} ∪ H)));
  lb_free_law : ∀ s H l, lb_rel s H → l ∈ H →
    ∃ s', lb_free s l = Some s' ∧ lb_rel s' (H ∖ {[l]});
}.

(** The start of the labels: no label is held, whether [calloc] gives memory or
    not. *)
Class LabelInit (LS : Type) := lb_init : bool → Z → Z → LS → LS.
Class LabelInitLaws (LS : Type) `{LabelLaws LS, !LabelInit LS} := {
  lb_init_law : ∀ calloc_ok min max s,
    0 < min ≤ max → 2 * max - min < 2 ^ 32 - 1 → lb_rel (lb_init calloc_ok min max s) ∅;
}.

(** ** The host

    Each call gets the number of host calls made before it, so a host can give
    any sequence of answers.  [env_local_addr] is [None] when the lookup fails
    and leaves the address alone; [env_egress_if] is negative without a route;
    [env_calloc] is given the addresses in use, [None] is NULL; [env_send] says
    whether the raw socket is open and whether [sendto] succeeds;
    [env_rand_fuel] bounds the draws of zero in a row. *)
Class Env := {
  env_local_addr : nat → Z → option Z;
  env_egress_if : nat → Z → Z;
  env_is_local_addr : nat → Z → bool;
  env_rand : nat → Z;
  env_rand_fuel : nat;
  env_calloc : nat → gset loc → option loc;
  env_strdup : nat → bool;
  env_send : nat → bool * bool;
  env_time : nat → Z;
}.

Class EnvLaws `{Env} := {
  env_egress_range : ∀ n d, - 2 ^ 31 ≤ env_egress_if n d < 2 ^ 31;
  env_rand_range : ∀ n, 0 ≤ env_rand n < 2 ^ 31;
  env_rand_nonzero : ∀ n, ∃ k, (k < env_rand_fuel)%nat ∧ env_rand (n + k) ≠ 0;
  env_calloc_fresh : ∀ n D l, env_calloc n D = Some l → l ∉ D;
}.

(** ** The daemon's timers implement the interface *)

Section timers_instance.
Context {T K : Type} `{Countable T}.
Implicit Types ts : rsvp_timers T K.
Implicit Types t : T.

#[export] Instance rsvp_timers_sys : TimerSys (rsvp_timers T K) T K := {
  ti_start := rsvp_timer_start;
  ti_stop := rsvp_timer_stop;
  ti_reset := rsvp_timer_reset;
  ti_active := rsvp_timer_active;
  ti_alloc := timer_alloc;
  ti_free := timer_free;
  ti_read := rsvp_timer_read;
  ti_expired ts := length (ts_pipe ts);
}.

Definition timers_view (ts : rsvp_timers T K) : gmap T (bool * option K) :=
  (λ tm, (tm_active tm, tm_cb tm)) <$> ts_mem ts.

Lemma timers_view_lookup ts t :
  timers_view ts !! t = (λ tm, (tm_active tm, tm_cb tm)) <$> ts_mem ts !! t.
Proof. apply lookup_fmap. Qed.

Lemma timers_view_mem ts t : is_Some (timers_view ts !! t) → is_Some (ts_mem ts !! t).
Proof. rewrite timers_view_lookup. by rewrite fmap_is_Some. Qed.

Lemma timers_view_active ts t : rsvp_timer_active ts t = fst <$> timers_view ts !! t.
Proof.
  rewrite timers_view_lookup. unfold rsvp_timer_active. by destruct (ts_mem ts !! t).
Qed.

(** The view after an operation on [t] alone. *)
Lemma timers_view_update ts ts' t tm :
  (∀ t', t' ≠ t → ts_mem ts' !! t' = ts_mem ts !! t') → ts_mem ts' !! t = Some tm →
  timers_view ts' = <[t := (tm_active tm, tm_cb tm)]> (timers_view ts).
Proof.
  intros Ho Ht. apply map_eq. intros t'. rewrite timers_view_lookup.
  destruct (decide (t = t')) as [<-|].
  - by rewrite Ht, lookup_insert_eq.
  - by rewrite Ho, lookup_insert_ne, timers_view_lookup by done.
Qed.

Lemma set_timer_lookup t (f : rsvp_timer K → rsvp_timer K) ts tm :
  ts_mem ts !! t = Some tm → ts_mem (set_timer t f ts) !! t = Some (f tm).
Proof. intros Ht. unfold set_timer. simpl. by rewrite lookup_alter, decide_True, Ht by done. Qed.

Lemma set_timer_cb t (f : rsvp_timer K → rsvp_timer K) ts cb :
  (∀ tm, tm_cb (f tm) = tm_cb tm) → tm_cb <$> ts_mem ts !! t = Some cb →
  tm_cb <$> ts_mem (set_timer t f ts) !! t = Some cb.
Proof.
  intros Hf (tm & Ht & ->)%fmap_Some. rewrite (set_timer_lookup t f ts tm Ht). simpl. by rewrite Hf.
Qed.

Lemma rsvp_timer_stop_cb ts t ts' cb :
  rsvp_timer_stop ts t = Some ts' → tm_cb <$> ts_mem ts !! t = Some cb →
  tm_cb <$> ts_mem ts' !! t = Some cb.
Proof.
  unfold rsvp_timer_stop. intros (tm & Ht & Hs)%bind_Some Hcb. case_if_in Hs.
  - by injection Hs as <-.
  - apply bind_Some in Hs as ([rc w] & _ & [= <-]). by apply set_timer_cb.
Qed.

Lemma rsvp_timer_start_cb ts t type ms cb ts' :
  rsvp_timer_start ts t type ms cb = Some ts' → tm_cb <$> ts_mem ts' !! t = Some cb.
Proof.
  unfold rsvp_timer_start.
  intros (tm & Ht & (ts1 & E1 & (w & _ & ([rc w2] & _ & H2)%bind_Some)%bind_Some)%bind_Some)%bind_Some.
  assert (is_Some (ts_mem ts1 !! t)) as [tm1 Ht1].
  { destruct (tm_active tm); [|injection E1 as <-; by rewrite Ht; eexists].
    assert (tm_cb <$> ts_mem ts !! t = Some (tm_cb tm)) as Hc by (by rewrite Ht).
    pose proof (rsvp_timer_stop_cb _ _ _ _ E1 Hc) as (tm1 & Ht1 & _)%fmap_Some.
    by rewrite Ht1; eexists. }
  injection H2 as <-.
  case_if; [apply set_timer_cb; [done|]|]; simpl; by rewrite lookup_alter, decide_True, Ht1.
Qed.

#[export] Program Instance rsvp_timers_laws : TimerLaws (rsvp_timers T K) T K := {
  ti_ok := timers_ok;
  ti_view := timers_view;
}.
Next Obligation.
  intros ts t type ms cb Hok Hs%timers_view_mem Hms.
  destruct (rsvp_timer_start_spec ts t type ms cb) as (ts' & E & Hok' & Ho & Ha); [done..|].
  exists ts'. split; [done|]. split; [done|]. pose proof (rsvp_timer_start_cb _ _ _ _ _ _ E) as Hcb.
  apply fmap_Some in Hcb as (tm & Ht & ->). unfold rsvp_timer_active in Ha.
  rewrite Ht in Ha. injection Ha as Ha. rewrite <- Ha. apply timers_view_update; [|done].
  intros t' Hne. by apply Ho.
Qed.
Next Obligation.
  intros ts t a cb Hok Hv. rewrite timers_view_lookup in Hv.
  assert (tm_cb <$> ts_mem ts !! t = Some cb) as Hcb by (by destruct (ts_mem ts !! t); naive_solver).
  destruct (rsvp_timer_stop_spec ts t) as (ts' & E & Hok' & Ho & Ha);
    [done|by destruct (ts_mem ts !! t)|].
  exists ts'. split; [done|]. split; [done|].
  pose proof (rsvp_timer_stop_cb _ _ _ _ E Hcb) as (tm & Ht & ->)%fmap_Some.
  unfold rsvp_timer_active in Ha. rewrite Ht in Ha. injection Ha as Ha. rewrite <- Ha.
  apply timers_view_update; [|done]. intros t' Hne. by apply Ho.
Qed.
Next Obligation.
  intros ts t a cb ms Hok Hv Hms. 
  destruct (rsvp_timer_reset_spec ts t ms) as (b & ts' & E & Hok' & _ & Ha & Hm);
    [done|apply timers_view_mem; by eexists|done|].
  exists ts'. rewrite timers_view_active, Hv in Ha. injection Ha as ->.
  split; [done|]. split; [done|]. unfold timers_view. by rewrite Hm.
Qed.
Next Obligation. apply timers_view_active. Qed.
Next Obligation.
  intros ts t Hok Hv. rewrite timers_view_lookup in Hv. apply fmap_None in Hv.
  destruct (timer_alloc_spec ts t Hok Hv) as (? & Ho & _). split; [done|].
  apply (timers_view_update ts _ t zero_timer); [by apply Ho|]. simpl. apply lookup_insert_eq.
Qed.
Next Obligation.
  intros ts t cb Hok Hv.
  destruct (timer_free_spec ts t) as (ts' & E & Hok' & _ & Ho & Hn);
    [done|by rewrite timers_view_active, Hv|].
  exists ts'. split; [done|]. split; [done|]. apply map_eq. intros t'. rewrite timers_view_lookup.
  destruct (decide (t = t')) as [<-|].
  - by rewrite Hn, lookup_delete_eq.
  - by rewrite Ho, lookup_delete_ne, timers_view_lookup by done.
Qed.
Next Obligation.
  intros ts r ts' Hok. change (ti_read ts) with (rsvp_timer_read ts). unfold rsvp_timer_read.
  destruct (ts_pipe ts) as [|[t seq] rest]; [done|].
  case_if; [|by intros [= <- <-]; destruct Hok].
  intros (tm & Ht & [= <- <-])%bind_Some. split; [by destruct Hok|]. split; [done|].
  intros cb Hcb. exists t, (tm_active tm). simpl in Ht. rewrite timers_view_lookup, Ht. simpl.
  by rewrite Hcb.
Qed.

Lemma rsvp_timer_stop_pipe ts t ts' : rsvp_timer_stop ts t = Some ts' → ts_pipe ts' = ts_pipe ts.
Proof.
  unfold rsvp_timer_stop. intros (tm & _ & Hs)%bind_Some. case_if_in Hs.
  - by injection Hs as <-.
  - by apply bind_Some in Hs as ([rc w] & _ & [= <-]).
Qed.

#[export] Program Instance rsvp_timers_pipe_laws : TimerPipeLaws (rsvp_timers T K) T K.
Next Obligation.
  simpl. unfold rsvp_timer_start. intros ts t type ms cb ts'.
  intros (tm & _ & (ts1 & E1 & (w & _ & ([rc w2] & _ & H2)%bind_Some)%bind_Some)%bind_Some)%bind_Some.
  assert (ts_pipe ts1 = ts_pipe ts) as <-.
  { destruct (tm_active tm); [by eapply rsvp_timer_stop_pipe|by injection E1 as ->]. }
  injection H2 as <-. by case_if.
Qed.
Next Obligation. simpl. intros ts t ts' E. by rewrite (rsvp_timer_stop_pipe ts t ts' E). Qed.
Next Obligation.
  simpl. unfold rsvp_timer_reset. intros ts t ms b ts' (tm & _ & Hs)%bind_Some. case_if_in Hs.
  - by injection Hs as <- <-.
  - by apply bind_Some in Hs as ([rc w] & _ & [= <- <-]).
Qed.
Next Obligation. done. Qed.
Next Obligation. simpl. unfold timer_free. intros ts t ts'. case_decide; [done|]. by intros [= <-]. Qed.
Next Obligation.
  simpl. unfold rsvp_timer_read. intros ts r ts'. destruct (ts_pipe ts) as [|[t seq] rest]; [done|].
  case_if; [|by intros [= <- <-]]. by intros (tm & _ & [= <- <-])%bind_Some.
Qed.

#[export] Instance rsvp_timers_init : TimerInit (rsvp_timers T K) := rsvp_timer_init.
#[export] Program Instance rsvp_timers_init_laws : TimerInitLaws (rsvp_timers T K) T K := {
  ti_blank ts S := timers_blank S ts;
}.
Next Obligation.
  intros ts S pipe_ok wheel_ok Hb. unfold ti_init, rsvp_timers_init.
  pose proof (rsvp_timer_init_spec S pipe_ok wheel_ok ts Hb) as Hi.
  destruct (pipe_ok && wheel_ok); [|exact Hi]. destruct Hi as (ts' & E & Hok & Hm).
  exists ts'. split; [exact E|]. split; [exact Hok|]. intros t x. unfold ti_view, rsvp_timers_laws.
  rewrite timers_view_lookup, Hm. split.
  - intros (tm & Ht & ->)%fmap_Some. by apply (tz_mem _ _ Hb) in Ht as [? ->].
  - intros [Hs ->]. by rewrite (proj2 (tz_mem _ _ Hb t zero_timer) (conj Hs eq_refl)).
Qed.
End timers_instance.

(** ** The label allocator implements the interface *)

#[export] Instance label_mgr_sys : LabelSys label_mgr := {
  lb_alloc := label_mgr_alloc;
  lb_free := label_mgr_free;
}.

(** Without a bitmap, when [calloc] failed in [label_mgr_init], there are no
    labels to give. *)
#[export] Program Instance label_mgr_laws : LabelLaws label_mgr := {
  lb_rel s H := (∃ p, label_refines s p ∧ pool_used p = H) ∨ (label_bitmap s = None ∧ H = ∅);
  lb_range s n := is_Some (label_bitmap s) ∧ label_min s ≤ n ≤ label_max s;
}.
Next Obligation.
  intros s ? [(p & Hp & <-)|[_ ->]]; [|set_solver]. intros Hin%(lr_used _ _ Hp).
  pose proof (lr_range _ _ Hp). lia.
Qed.
Next Obligation.
  intros s ? n [(p & Hp & <-)|[_ ->]]; [|set_solver]. intros Hin%(lr_used _ _ Hp).
  pose proof (lr_range _ _ Hp). pose proof (lr_bound _ _ Hp). lia.
Qed.
Next Obligation.
  intros s ? [(p & Hp & <-)|[Hn ->]].
  - destruct (label_mgr_alloc_refines s p Hp) as (s' & E & Hp').
    exists (pool_alloc p).1, s'. split; [done|].
    destruct (pool_alloc_cases p) as [(-> & E1 & Hfull)|(Hl & Hf & Hu)]; [apply Hp..| |]; [rewrite E1 in Hp'|].
    + left. split; [done|]. split; [left; by exists p|].
      intros n [_ Hn]. apply Hfull. by rewrite (lr_min _ _ Hp), (lr_max _ _ Hp) in Hn.
    + right. split; [done|]. split; [done|]. left. by exists (pool_alloc p).2.
  - exists 0, s. unfold lb_alloc, label_mgr_sys, label_mgr_alloc. rewrite Hn. split; [done|].
    left. split; [done|]. split; [by right|]. intros n [[? ?] _]. congruence.
Qed.
Next Obligation.
  intros s ? l [(p & Hp & <-)|[_ ->]] Hl; [|set_solver].
  destruct (label_mgr_free_refines s p l Hp) as (s' & E & Hp').
  exists s'. split; [done|]. left. eexists. split; [done|]. unfold pool_free. by rewrite decide_True by done.
Qed.

#[export] Instance label_mgr_inits : LabelInit label_mgr := label_mgr_init.
#[export] Program Instance label_mgr_init_laws : LabelInitLaws label_mgr.
Next Obligation.
  intros [|] min max s Hr Hb; [left|by right].
  exists (pool_init min max). split; [by apply label_mgr_init_refines|done].
Qed.
