(* ===== verification/State.v ===== *)
(** * The state of the daemon and its monad

    The state that src/pi/rsvp_state_machine.c, rsvp_state_db.c and
    rsvp_hello.c work on, and the monad [M] their functions are written in: a
    function takes the state and returns its result with the new state, or
    [None] when it uses freed memory, corrupts a list or converts a float out
    of range.  [wp m Q s] says that [m] does none of that from [s] and ends with
    a result and a state that satisfy [Q].

    The second part is src/pi/rsvp_state_db.c: creation and deletion of blocks,
    with their timers and cross pointers. *)

From stdpp Require Import base numbers list option gmap sets countable.
From S2P Require Import Prelude Wire Protocol LabelMgr WheelTimer Timers Builder SendPacket.
From S2P Require Import Interfaces StateDb.

(** ** Timers and callbacks of the state blocks *)

Inductive timer_id :=
| PsbRefresh (psb : loc) | PsbCleanup (psb : loc)
| RsbRefresh (rsb : loc) | RsbCleanup (rsb : loc)
| BsbBlockade (bsb : loc)
| NborHello (nbor : nat) | NborDead (nbor : nat).
#[export] Instance timer_id_eq_dec : EqDecision timer_id.
Proof. solve_decision. Defined.

Definition timer_id_encode (t : timer_id) : nat * positive + nat * nat :=
  match t with
  | PsbRefresh l => inl (0%nat, l) | PsbCleanup l => inl (1%nat, l)
  | RsbRefresh l => inl (2%nat, l) | RsbCleanup l => inl (3%nat, l)
  | BsbBlockade l => inl (4%nat, l)
  | NborHello i => inr (0%nat, i) | NborDead i => inr (1%nat, i)
  end.
Definition timer_id_decode (c : nat * positive + nat * nat) : option timer_id :=
  match c with
  | inl (0%nat, l) => Some (PsbRefresh l) | inl (1%nat, l) => Some (PsbCleanup l)
  | inl (2%nat, l) => Some (RsbRefresh l) | inl (3%nat, l) => Some (RsbCleanup l)
  | inl (4%nat, l) => Some (BsbBlockade l)
  | inr (0%nat, i) => Some (NborHello i) | inr (1%nat, i) => Some (NborDead i)
  | _ => None
  end.
Lemma timer_id_decode_encode t : timer_id_decode (timer_id_encode t) = Some t.
Proof. by destruct t. Qed.
#[export] Instance timer_id_countable : Countable timer_id :=
  inj_countable timer_id_encode timer_id_decode timer_id_decode_encode.

(** A callback with its argument. *)
Inductive timer_cb :=
| psb_refresh_timer_cb (arg : loc) | psb_cleanup_timer_cb (arg : loc)
| rsb_refresh_timer_cb (arg : loc) | rsb_cleanup_timer_cb (arg : loc)
| bsb_cleanup_timer_cb (arg : loc)
| hello_timer_cb (arg : nat) | dead_timer_cb (arg : nat).

(** ** Neighbours (src/pi/rsvp_hello.h) *)

Definition RSVP_HELLO_INTERVAL_MS : Z := 5000.
Definition RSVP_HELLO_DEAD_FACTOR : Z := 3.
Definition RSVP_MAX_NEIGHBORS : nat := 128.

Inductive rsvp_nbor_state_t := RSVP_NBOR_IDLE | RSVP_NBOR_UP | RSVP_NBOR_DOWN.
#[export] Instance rsvp_nbor_state_t_eq_dec : EqDecision rsvp_nbor_state_t.
Proof. solve_decision. Defined.

Record rsvp_neighbor := mk_rsvp_neighbor {
  nb_addr : Z;
  nb_local_addr : Z;
  nb_ifindex : Z;
  nb_src_instance : Z;
  nb_dst_instance : Z;
  nb_state : rsvp_nbor_state_t;
  nb_hello_interval_ms : Z;
  nb_dead_interval_ms : Z;
  nb_up_since : Z;
  nb_last_hello_rx : Z;
  nb_hellos_sent : Z;
  nb_hellos_rcvd : Z;
  nb_active : bool;
}.
#[export] Instance rsvp_neighbor_settable : Settable rsvp_neighbor :=
  λ n, mk_rsvp_neighbor (nb_addr n) (nb_local_addr n) (nb_ifindex n) (nb_src_instance n)
    (nb_dst_instance n) (nb_state n) (nb_hello_interval_ms n) (nb_dead_interval_ms n)
    (nb_up_since n) (nb_last_hello_rx n) (nb_hellos_sent n) (nb_hellos_rcvd n) (nb_active n).
Definition zero_neighbor : rsvp_neighbor :=
  mk_rsvp_neighbor 0 0 0 0 0 RSVP_NBOR_IDLE 0 0 0 0 0 0 false.

(** ** The state *)

(** What leaves the daemon: a packet on the raw socket, and the requests to the
    MPLS forwarding table ([dest = None] is a NULL pointer). *)
Inductive output :=
| Packet (bytes : list Z)
| MplsInstall (in_label out_label ifindex next_hop dest : Z)
| MplsRemove (in_label : Z) (dest : option Z).

Record state {TS LS : Type} := mk_state {
  st_psb : table rsvp_psb;
  st_rsb : table rsvp_rsb;
  st_bsb : table rsvp_bsb;
  st_timers : TS;
  st_labels : LS;
  st_next_lsp_id : Z;
  st_neighbors : list rsvp_neighbor;
  st_nbor_count : nat;
  st_clock : nat;
  st_out : list output;
}.
Arguments state : clear implicits.
Arguments mk_state {TS LS}.
#[export] Instance state_settable TS LS : Settable (state TS LS) :=
  λ s, mk_state (st_psb s) (st_rsb s) (st_bsb s) (st_timers s) (st_labels s) (st_next_lsp_id s)
    (st_neighbors s) (st_nbor_count s) (st_clock s) (st_out s).

(** ** The monad *)

Definition M (S A : Type) := S → option (A * S).
#[export] Instance M_ret S : MRet (M S) := λ A a s, Some (a, s).
#[export] Instance M_bind S : MBind (M S) := λ A B f m s, '(a, s') ← m s; f a s'.

Section monad.
Context {S : Type}.
Definition gets {A} (f : S → A) : M S A := λ s, Some (f s, s).
Definition modify (f : S → S) : M S () := λ s, Some ((), f s).
(** A partial operation of the state, and a partial pure one. *)
Definition update (f : S → option S) : M S () := λ s, s' ← f s; Some ((), s').
Definition lift {A} (o : option A) : M S A := λ s, a ← o; Some (a, s).
Definition when (b : bool) (m : M S ()) : M S () := if b then m else mret ().
Fixpoint iter {A} (f : A → M S ()) (l : list A) : M S () :=
  match l with [] => mret () | a :: l => f a ;; iter f l end.

Definition wp {A} (m : M S A) (Q : A → S → Prop) (s : S) : Prop :=
  match m s with Some (a, s') => Q a s' | None => False end.

Lemma wp_ret {A} (a : A) Q s : Q a s → wp (mret a) Q s.
Proof. done. Qed.

Lemma wp_bind {A B} (m : M S A) (f : A → M S B) Q s :
  wp m (λ a s', wp (f a) Q s') s → wp (m ≫= f) Q s.
Proof. unfold wp, mbind, M_bind. simpl. by destruct (m s) as [[a s']|]. Qed.

Lemma wp_mono {A} (m : M S A) (Q R : A → S → Prop) s :
  wp m Q s → (∀ a s', Q a s' → R a s') → wp m R s.
Proof. unfold wp. destruct (m s) as [[a s']|]; auto. Qed.

Lemma wp_gets {A} (f : S → A) Q s : Q (f s) s → wp (gets f) Q s.
Proof. done. Qed.
Lemma wp_modify f Q s : Q () (f s) → wp (modify f) Q s.
Proof. done. Qed.
Lemma wp_update f Q s s' : f s = Some s' → Q () s' → wp (update f) Q s.
Proof. unfold wp, update. by intros ->. Qed.
Lemma wp_lift {A} (o : option A) a Q s : o = Some a → Q a s → wp (lift o) Q s.
Proof. intros ->. done. Qed.

Lemma wp_iter {A} (f : A → M S ()) (l : list A) (I : S → Prop) s :
  I s → (∀ a s, a ∈ l → I s → wp (f a) (λ _, I) s) → wp (iter f l) (λ _, I) s.
Proof.
  revert s. induction l as [|a l IH]; intros s Hs Hf; [done|]. simpl. apply wp_bind.
  eapply wp_mono; [apply Hf; [by left|done]|]. intros [] s' Hs'. apply IH; [done|].
  intros. apply Hf; [by right|done].
Qed.

(** A run that ends is what [wp] describes. *)
Lemma wp_run {A} (m : M S A) Q s : wp m Q s ↔ ∃ a s', m s = Some (a, s') ∧ Q a s'.
Proof.
  unfold wp. destruct (m s) as [[a s']|]; [|naive_solver].
  split; [eauto|]. by intros (? & ? & [= <- <-] & ?).
Qed.
End monad.

(** ** Access to the state *)

Section access.
Context {TS LS : Type} `{TimerSys TS timer_id timer_cb} `{LabelSys LS} `{Env}.
Local Notation state := (state TS LS).
Local Notation M := (M state).
Implicit Types s : state.

(** A call of the host: the answer at this point of the run. *)
Definition host {A} (f : nat → A) : M A :=
  n ← gets st_clock; modify (λ s, s <| st_clock ::= Nat.succ |>) ;; mret (f n).
Definition emit (o : output) : M () := modify (λ s, s <| st_out ::= λ os, os ++ [o] |>).

(** [hal_netlink_get_local_addr(ifindex, &addr)]: the return code and [addr]
    after the call. *)
Definition hal_netlink_get_local_addr (ifindex addr : Z) : M (Z * Z) :=
  r ← host env_local_addr;
  mret (match r ifindex with Some a => (0, a) | None => (-1, addr) end).
Definition hal_netlink_get_egress_if (dest : Z) : M Z := f ← host env_egress_if; mret (f dest).
Definition hal_netlink_is_local_addr (addr : Z) : M bool :=
  f ← host env_is_local_addr; mret (f addr).
Definition hal_mpls_install (in_label out_label ifindex next_hop dest : Z) : M () :=
  emit (MplsInstall in_label out_label ifindex next_hop dest).
Definition hal_mpls_remove (in_label : Z) (dest : option Z) : M () :=
  emit (MplsRemove in_label dest).
Definition rand : M Z := host env_rand.
Definition time : M Z := host env_time.
Definition strdup (str : list Z) : M (option (list Z)) :=
  ok ← host env_strdup; mret (if ok : bool then Some str else None).

(** [rsvp_send_packet] of the dispatcher, the packet going out. *)
Definition send_packet (src dest : Z) (buffer : list Z) (len : nat) (use_rao : bool)
    : M rsvp_error_t :=
  '(sock_open, sendto_ok) ← host env_send;
  '(rc, packet) ← lift (rsvp_send_packet sock_open sendto_ok src dest buffer len use_rao);
  match packet with Some bytes => emit (Packet bytes) | None => mret () end ;;
  mret rc.

(** Reads and writes through a block pointer; a freed block is [None]. *)
Definition psb_get (l : loc) : M rsvp_psb := p ← gets (λ s, tb_heap (st_psb s) !! l); lift p.
Definition rsb_get (l : loc) : M rsvp_rsb := r ← gets (λ s, tb_heap (st_rsb s) !! l); lift r.
Definition bsb_get (l : loc) : M rsvp_bsb := b ← gets (λ s, tb_heap (st_bsb s) !! l); lift b.
Definition psb_set (l : loc) (f : rsvp_psb → rsvp_psb) : M () :=
  psb_get l ;; modify (λ s, s <| st_psb ::= λ t, table_update t l f |>).
Definition rsb_set (l : loc) (f : rsvp_rsb → rsvp_rsb) : M () :=
  rsb_get l ;; modify (λ s, s <| st_rsb ::= λ t, table_update t l f |>).
Definition bsb_set (l : loc) (f : rsvp_bsb → rsvp_bsb) : M () :=
  bsb_get l ;; modify (λ s, s <| st_bsb ::= λ t, table_update t l f |>).

(** The timers. *)
Definition timer_start (t : timer_id) (type : rsvp_timer_type_t) (ms : Z) (cb : timer_cb) : M () :=
  update (λ s, ts ← ti_start (st_timers s) t type ms (Some cb); Some (s <| st_timers := ts |>)).
Definition timer_stop (t : timer_id) : M () :=
  update (λ s, ts ← ti_stop (st_timers s) t; Some (s <| st_timers := ts |>)).
Definition timer_reset (t : timer_id) (ms : Z) : M bool :=
  λ s, '(b, ts) ← ti_reset (st_timers s) t ms; Some (b, s <| st_timers := ts |>).
Definition timer_active (t : timer_id) : M bool :=
  a ← gets (λ s, ti_active (st_timers s) t); lift a.
Definition timer_calloc (t : timer_id) : M () :=
  modify (λ s, s <| st_timers ::= ti_alloc t |>).
Definition timer_release (t : timer_id) : M () :=
  update (λ s, ts ← ti_free t (st_timers s); Some (s <| st_timers := ts |>)).

(** ** The state database (src/pi/rsvp_state_db.c) *)

Definition rsvp_psb_find (key : rsvp_path_key) : M (option loc) :=
  r ← gets (λ s, table_find (st_psb s) key); lift r.
Definition rsvp_rsb_find (key : rsvp_path_key) : M (option loc) :=
  r ← gets (λ s, table_find (st_rsb s) key); lift r.
Definition rsvp_bsb_find (key : rsvp_path_key) : M (option loc) :=
  r ← gets (λ s, table_find (st_bsb s) key); lift r.

(** The head of a bucket, NULL when it is empty or out of range. *)
Definition rsvp_psb_find_by_bucket (b : Z) : M (option loc) :=
  if (b <? 0) || (1024 <=? b) then mret None
  else gets (λ s, head (bucket (st_psb s) (Z.to_nat b))).

Definition rsvp_psb_find_by_id (tunnel_id lsp_id : Z) : M (option loc) :=
  r ← gets (λ s, table_scan (st_psb s) (λ p,
         (ntohs (sess_tunnel_id (key_session (psb_key p))) =? tunnel_id)
         && (ntohs (snd_lsp_id (key_sender (psb_key p))) =? lsp_id)));
  lift r.

Definition rsvp_psb_create (key : rsvp_path_key) : M (option loc) :=
  calloc ← host env_calloc;
  live ← gets (λ s, dom (tb_heap (st_psb s)));
  match calloc live with
  | None => mret None
  | Some l =>
      timer_calloc (PsbRefresh l) ;; timer_calloc (PsbCleanup l) ;;
      modify (λ s, s <| st_psb ::= λ t, table_insert t l (new_psb key) |>) ;;
      mret (Some l)
  end.

Definition rsvp_rsb_create (key : rsvp_path_key) : M (option loc) :=
  calloc ← host env_calloc;
  live ← gets (λ s, dom (tb_heap (st_rsb s)));
  match calloc live with
  | None => mret None
  | Some l =>
      timer_calloc (RsbRefresh l) ;; timer_calloc (RsbCleanup l) ;;
      modify (λ s, s <| st_rsb ::= λ t, table_insert t l (new_rsb key) |>) ;;
      mret (Some l)
  end.

Definition rsvp_bsb_create (key : rsvp_path_key) : M (option loc) :=
  calloc ← host env_calloc;
  live ← gets (λ s, dom (tb_heap (st_bsb s)));
  match calloc live with
  | None => mret None
  | Some l =>
      timer_calloc (BsbBlockade l) ;;
      modify (λ s, s <| st_bsb ::= λ t, table_insert t l (new_bsb key) |>) ;;
      mret (Some l)
  end.

Definition rsvp_psb_delete (psb : loc) : M () :=
  p ← psb_get psb;
  t ← gets (λ s, table_unlink (st_psb s) psb p);
  match t with
  | None => mret ()
  | Some t =>
      modify (λ s, s <| st_psb := t |>) ;;
      timer_stop (PsbRefresh psb) ;; timer_stop (PsbCleanup psb) ;;
      match psb_associated_rsb p with
      | Some rsb => rsb_set rsb (λ r, r <| rsb_associated_psb := None |>)
      | None => mret ()
      end ;;
      timer_release (PsbRefresh psb) ;; timer_release (PsbCleanup psb) ;;
      modify (λ s, s <| st_psb ::= λ t, table_free t psb |>)
  end.

Definition rsvp_rsb_delete (rsb : loc) : M () :=
  r ← rsb_get rsb;
  t ← gets (λ s, table_unlink (st_rsb s) rsb r);
  match t with
  | None => mret ()
  | Some t =>
      modify (λ s, s <| st_rsb := t |>) ;;
      timer_stop (RsbRefresh rsb) ;; timer_stop (RsbCleanup rsb) ;;
      match rsb_associated_psb r with
      | Some psb => psb_set psb (λ p, p <| psb_associated_rsb := None |>)
      | None => mret ()
      end ;;
      timer_release (RsbRefresh rsb) ;; timer_release (RsbCleanup rsb) ;;
      modify (λ s, s <| st_rsb ::= λ t, table_free t rsb |>)
  end.

Definition rsvp_bsb_delete (bsb : loc) : M () :=
  b ← bsb_get bsb;
  t ← gets (λ s, table_unlink (st_bsb s) bsb b);
  match t with
  | None => mret ()
  | Some t =>
      modify (λ s, s <| st_bsb := t |>) ;;
      timer_stop (BsbBlockade bsb) ;;
      timer_release (BsbBlockade bsb) ;;
      modify (λ s, s <| st_bsb ::= λ t, table_free t bsb |>)
  end.

(** [while (table[i]) delete(table[i]);] on one bucket: a deletion takes the
    head away, so the number of blocks of the chain bounds the rounds. *)
Fixpoint delete_bucket (head_of : state → option loc) (delete : loc → M ()) (fuel : nat) : M () :=
  h ← gets head_of;
  match h, fuel with
  | None, _ => mret ()
  | Some _, O => lift None
  | Some l, Datatypes.S fuel => delete l ;; delete_bucket head_of delete fuel
  end.

Definition rsvp_state_db_init : M () :=
  modify (λ s, s <| st_psb ::= λ t, t <| tb_buckets := replicate HASH_SIZE [] |> |>
                 <| st_rsb ::= λ t, t <| tb_buckets := replicate HASH_SIZE [] |> |>
                 <| st_bsb ::= λ t, t <| tb_buckets := replicate HASH_SIZE [] |> |>).

Definition rsvp_state_db_cleanup : M () :=
  iter (λ i,
    n ← gets (λ s, length (bucket (st_psb s) i));
    delete_bucket (λ s, head (bucket (st_psb s) i)) rsvp_psb_delete n ;;
    n ← gets (λ s, length (bucket (st_rsb s) i));
    delete_bucket (λ s, head (bucket (st_rsb s) i)) rsvp_rsb_delete n ;;
    n ← gets (λ s, length (bucket (st_bsb s) i));
    delete_bucket (λ s, head (bucket (st_bsb s) i)) rsvp_bsb_delete n)
  (seq 0 HASH_SIZE).
End access.
