(* ===== verification/Messages.v ===== *)
(** * Messages the state machine sends (src/pi/rsvp_state_machine.c)

    The contents of every message, as pure functions from the state blocks to
    a builder, and the functions that send them. *)

From stdpp Require Import base numbers list option gmap sets.
From S2P Require Import Prelude Wire Protocol WheelTimer Timers Builder SendPacket Parser.
From S2P Require Import Interfaces StateDb Timing State.

(** ** Contents *)

(** [rsvp_builder_add_*] called for its effect, the return code dropped. *)
Notation "b ▷ f" := (snd (f b)) (at level 50, left associativity, only parsing).

Definition add_session (k : rsvp_path_key) (b : rsvp_builder) :=
  rsvp_builder_add_session_ipv4 b (sess_dest_addr (key_session k))
    (ntohs (sess_tunnel_id (key_session k))) (sess_extended_tunnel_id (key_session k)).
Definition add_sender_template (k : rsvp_path_key) (b : rsvp_builder) :=
  rsvp_builder_add_obj b RSVP_CLASS_SENDER_TEMPLATE 7 (store_struct (key_sender k)).
Definition add_filter_spec (k : rsvp_path_key) (b : rsvp_builder) :=
  rsvp_builder_add_obj b RSVP_CLASS_FILTER_SPEC 7 (store_struct (key_sender k)).
Definition add_error_spec (e : rsvp_error_spec_ipv4) (b : rsvp_builder) :=
  rsvp_builder_add_obj b RSVP_CLASS_ERROR_SPEC 1 (store_struct e).
Definition add_hop (addr ifindex : Z) (b : rsvp_builder) := rsvp_builder_add_hop_ipv4 b addr ifindex.
Definition add_style (style : Z) (b : rsvp_builder) := rsvp_builder_add_style b style.

(** [if (cond) add(...)]. *)
Definition add_if (c : bool) (f : rsvp_builder → Z * rsvp_builder) (b : rsvp_builder) :=
  if c then f b else (0, b).

(** [msg->ttl = (ttl > 0) ? ttl - 1 : 255]. *)
Definition forward_ttl (ttl : Z) : Z := if 0 <? ttl then ttl - 1 else 255.

Definition local_error_spec (local_node code value : Z) : rsvp_error_spec_ipv4 :=
  mk_rsvp_error_spec_ipv4 local_node 0 code (htons value).

Definition path_err_message (key : rsvp_path_key) (local_node code value : Z) : rsvp_builder :=
  hdr_set_ttl (rsvp_builder_init 1024 RSVP_MSG_PATHERR) 255
  ▷ add_session key
  ▷ add_error_spec (local_error_spec local_node code value)
  ▷ add_sender_template key.

Definition resv_err_message (key : rsvp_path_key) (local_node code value : Z) : rsvp_builder :=
  hdr_set_ttl (rsvp_builder_init 1024 RSVP_MSG_RESVERR) 255
  ▷ add_session key
  ▷ add_error_spec (local_error_spec local_node code value)
  ▷ add_style RSVP_STYLE_FF
  ▷ add_filter_spec key.

(** The SESSION_ATTRIBUTE flags of a PATH. *)
Definition path_sa_flags (p : rsvp_psb) : Z :=
  let sa_flags := Z.lor RSVP_SESSATTR_LOCAL_PROT_DESIRED RSVP_SESSATTR_SE_STYLE in
  if psb_frr_active p then
    let sa_flags := Z.lor sa_flags RSVP_SESSATTR_LOCAL_PROT_IN_USE in
    if decide (psb_frr_mode p = RSVP_FRR_FACILITY)
    then Z.lor sa_flags RSVP_SESSATTR_BW_PROTECTION else sa_flags
  else sa_flags.

(** The SENDER_TSPEC of a PATH: 1 Mbps when the block has none yet. *)
Definition path_tspec (p : rsvp_psb) : rsvp_sender_tspec :=
  let tspec := psb_tspec p in
  if float_eq0 (ts_token_bucket_rate tspec) then
    tspec <| ts_version := 0 |>
          <| ts_length := Z.of_nat (sizeof rsvp_sender_tspec / 4 - 1) |>
          <| ts_service_hdr := 5 |>
          <| ts_svc_length := 6 |>
          <| ts_param_id := 127 |>
          <| ts_param_length := 5 |>
          <| ts_token_bucket_rate := u32_to_float 1000000 |>
          <| ts_token_bucket_size := u32_to_float 1000 |>
          <| ts_peak_data_rate := u32_to_float 1000000 |>
          <| ts_min_policed_unit := 64 |>
          <| ts_max_packet_size := 1500 |>
  else tspec.

Definition path_rro (p : rsvp_psb) (local_addr : Z) : list rsvp_ero_ipv4_subobj :=
  psb_rro p ++ [mk_rsvp_ero_ipv4_subobj RSVP_ERO_IPV4 (Z.of_nat (sizeof rsvp_ero_ipv4_subobj))
                  local_addr 32 0].

Definition path_message (p : rsvp_psb) (local_addr ifindex : Z) : rsvp_builder :=
  hdr_set_ttl (rsvp_builder_init 1500 RSVP_MSG_PATH) (forward_ttl (psb_ttl p))
  ▷ add_session (psb_key p)
  ▷ add_hop local_addr ifindex
  ▷ (λ b, rsvp_builder_add_time_values b (psb_refresh_ms p))
  ▷ add_if (0 <? length (psb_ero p))%nat (λ b, rsvp_builder_add_ero b (psb_ero p))
  ▷ (λ b, rsvp_builder_add_label_request b 2048)
  ▷ (λ b, rsvp_builder_add_session_attribute_ex b (psb_lsp_name p) (psb_setup_prio p)
            (psb_holding_prio p) (path_sa_flags p))
  ▷ add_if (negb (bool_decide (psb_frr_mode p = RSVP_FRR_NONE)) && negb (psb_is_bypass_tunnel p))
      (λ b, rsvp_builder_add_fast_reroute b (psb_setup_prio p) (psb_holding_prio p) 32
              RSVP_FRR_FLAG_FACILITY (u32_to_float (psb_frr_bandwidth p)))
  ▷ add_sender_template (psb_key p)
  ▷ (λ b, rsvp_builder_add_tspec b (path_tspec p))
  ▷ add_if (length (psb_rro p) <? MAX_RRO_HOPS)%nat
      (λ b, rsvp_builder_add_rro b (path_rro p local_addr)).

Definition rsb_out_style (r : rsvp_rsb) : Z :=
  if rsb_style r =? 0 then RSVP_STYLE_FF else rsb_style r.

Definition resv_message (p : rsvp_psb) (r : rsvp_rsb) (merged : rsvp_sender_tspec)
    (local_addr out_if : Z) : rsvp_builder :=
  hdr_set_ttl (rsvp_builder_init 1024 RSVP_MSG_RESV) (forward_ttl (rsb_ttl r))
  ▷ add_session (psb_key p)
  ▷ add_hop local_addr out_if
  ▷ (λ b, rsvp_builder_add_time_values b (rsb_refresh_ms r))
  ▷ add_style (rsb_out_style r)
  ▷ (λ b, rsvp_builder_add_flowspec b merged)
  ▷ add_filter_spec (psb_key p)
  ▷ (λ b, rsvp_builder_add_label_ipv4 b (rsb_label_in r)).

Definition path_tear_message (p : rsvp_psb) (local_addr ifindex : Z) : rsvp_builder :=
  hdr_set_ttl (rsvp_builder_init 1024 RSVP_MSG_PATHTEAR) (forward_ttl (psb_ttl p))
  ▷ add_session (psb_key p)
  ▷ add_hop local_addr ifindex
  ▷ add_sender_template (psb_key p).

Definition resv_tear_message (p : rsvp_psb) (r : rsvp_rsb) (local_addr out_if : Z) : rsvp_builder :=
  rsvp_builder_init 1024 RSVP_MSG_RESVTEAR
  ▷ add_session (psb_key p)
  ▷ add_hop local_addr out_if
  ▷ add_style (rsb_out_style r)
  ▷ add_filter_spec (psb_key p).

(** The error messages that are passed on; [err] is NULL when the message had
    no ERROR_SPEC. *)
Definition forward_path_err (p : rsvp_psb) (local_addr out_if : Z)
    (err : option rsvp_error_spec_ipv4) : rsvp_builder :=
  hdr_set_ttl (rsvp_builder_init 1024 RSVP_MSG_PATHERR) 255
  ▷ add_session (psb_key p)
  ▷ add_hop local_addr out_if
  ▷ (λ b, match err with Some e => add_error_spec e b | None => (0, b) end)
  ▷ add_sender_template (psb_key p).

Definition forward_resv_err (p : rsvp_psb) (local_addr ifindex : Z)
    (err : option rsvp_error_spec_ipv4) : rsvp_builder :=
  hdr_set_ttl (rsvp_builder_init 1024 RSVP_MSG_RESVERR) 255
  ▷ add_session (psb_key p)
  ▷ add_hop local_addr ifindex
  ▷ (λ b, match err with Some e => add_error_spec e b | None => (0, b) end)
  ▷ add_style RSVP_STYLE_FF
  ▷ add_filter_spec (psb_key p).

(** A SENDER_TSPEC or FLOWSPEC in host order; the three length fields stay in
    network order. *)
Definition tspec_copy_and_ntoh (src : rsvp_sender_tspec) : rsvp_sender_tspec :=
  src <| ts_token_bucket_rate ::= rsvp_net_to_float |>
      <| ts_token_bucket_size ::= rsvp_net_to_float |>
      <| ts_peak_data_rate ::= rsvp_net_to_float |>
      <| ts_min_policed_unit ::= ntohl |>
      <| ts_max_packet_size ::= ntohl |>.

Definition is_flowspec_gte (a b : rsvp_sender_tspec) : bool :=
  float_ge (ts_token_bucket_rate a) (ts_token_bucket_rate b)
  && float_ge (ts_token_bucket_size a) (ts_token_bucket_size b).

(** The flowspec without its parameters, and with those of [r]. *)
Definition empty_flowspec : rsvp_sender_tspec :=
  zero_tspec <| ts_service_hdr := 5 |> <| ts_svc_length := 6 |> <| ts_param_id := 127 |>
             <| ts_param_length := 5 |>
             <| ts_length := Z.of_nat (sizeof rsvp_sender_tspec / 4 - 1) |>.
Definition merged_flowspec (r : rsvp_rsb) : rsvp_sender_tspec :=
  empty_flowspec
    <| ts_token_bucket_rate := ts_token_bucket_rate (rsb_flowspec r) |>
    <| ts_token_bucket_size := ts_token_bucket_size (rsb_flowspec r) |>
    <| ts_peak_data_rate := ts_peak_data_rate (rsb_flowspec r) |>
    <| ts_min_policed_unit := ts_min_policed_unit (rsb_flowspec r) |>
    <| ts_max_packet_size := ts_max_packet_size (rsb_flowspec r) |>.

(** ** Sending *)

Section messages.
Context {TS LS : Type} `{TimerSys TS timer_id timer_cb} `{LabelSys LS} `{Env}.
Local Notation state := (state TS LS).
Local Notation M := (M state).

Definition finalize_and_send (b : rsvp_builder) (src dest : Z) (use_rao : bool) : M rsvp_error_t :=
  let '(len, b) := rsvp_builder_finalize b in
  send_packet src dest (b_buffer b) len use_rao.

Definition jittered_refresh (base_ms : Z) (is_backup : bool) : M Z :=
  r ← rand; lift (get_jittered_refresh r base_ms is_backup).

Definition resolve_path_next_hop (psb : loc) : M (Z * Z) :=
  p ← psb_get psb;
  let dest := sess_dest_addr (key_session (psb_key p)) in
  ip_dest ←
    (match psb_ero p with
     | [] => mret dest
     | hop :: rest =>
         '(_, local_addr) ← hal_netlink_get_local_addr 0 0;
         when (subobj_addr hop =? local_addr) (psb_set psb (λ p, p <| psb_ero := rest |>)) ;;
         p ← psb_get psb;
         mret (match psb_ero p with hop :: _ => subobj_addr hop | [] => dest end)
     end);
  out_ifindex ← hal_netlink_get_egress_if ip_dest;
  mret (ip_dest, out_ifindex).

Definition send_path_err (info : rsvp_message_info) (error_code error_value : Z) : M () :=
  '(_, local_node) ← hal_netlink_get_local_addr 0 0;
  finalize_and_send (path_err_message (info_key info) local_node error_code error_value)
    0 (info_src_ip info) false ;;
  mret ().

Definition send_resv_err (info : rsvp_message_info) (error_code error_value : Z) : M () :=
  '(_, local_node) ← hal_netlink_get_local_addr 0 0;
  finalize_and_send (resv_err_message (info_key info) local_node error_code error_value)
    0 (info_src_ip info) false ;;
  mret ().

Definition rsvp_is_blockaded (rsb : loc) : M bool :=
  r ← rsb_get rsb;
  bsb ← rsvp_bsb_find (rsb_key r);
  match bsb with
  | None => mret false
  | Some bsb => b ← bsb_get bsb; mret (is_flowspec_gte (rsb_flowspec r) (bsb_flowspec_qb b))
  end.

Definition rsvp_compute_merged_flowspec (psb : loc) : M rsvp_sender_tspec :=
  p ← psb_get psb;
  match psb_associated_rsb p with
  | None => mret empty_flowspec
  | Some rsb =>
      blockaded ← rsvp_is_blockaded rsb;
      if blockaded : bool then mret empty_flowspec
      else r ← rsb_get rsb; mret (merged_flowspec r)
  end.

Definition send_path_downstream (psb : loc) : M () :=
  '(ip_dest, ifindex) ← resolve_path_next_hop psb;
  if ifindex <? 0 then mret ()
  else
    psb_set psb (λ p, p <| psb_ifindex_out := ifindex |>) ;;
    '(rc, local_addr) ← hal_netlink_get_local_addr ifindex 0;
    p ← psb_get psb;
    let local_addr :=
      if rc <? 0 then snd_source_addr (key_sender (psb_key p)) else local_addr in
    finalize_and_send (path_message p local_addr ifindex) local_addr ip_dest true ;;
    mret ().

(** [out_idx >= 0 ? (uint32_t)out_idx : fallback]. *)
Definition if_or (out_idx fallback : Z) : Z := if 0 <=? out_idx then out_idx else fallback.

(** The egress interface toward [addr] and its address (0.0.0.0 without a
    route). *)
Definition egress_toward (addr : Z) : M (Z * Z) :=
  out_idx ← hal_netlink_get_egress_if addr;
  if 0 <=? out_idx then
    '(_, local_addr) ← hal_netlink_get_local_addr out_idx 0;
    mret (out_idx, local_addr)
  else mret (out_idx, 0).

Definition label_alloc : M Z :=
  λ s, '(l, ls) ← lb_alloc (st_labels s); Some (l, s <| st_labels := ls |>).
Definition label_free (l : Z) : M () :=
  update (λ s, ls ← lb_free (st_labels s) l; Some (s <| st_labels := ls |>)).

(** [if (rsb->label_in == 0) rsb->label_in = label_mgr_alloc();]: the label, 0
    when there is none left. *)
Definition rsb_ensure_label (rsb : loc) : M Z :=
  r ← rsb_get rsb;
  if rsb_label_in r =? 0 then
    l ← label_alloc;
    rsb_set rsb (λ r, r <| rsb_label_in := l |>) ;;
    mret l
  else mret (rsb_label_in r).

Definition send_resv_upstream (rsb : loc) : M () :=
  r ← rsb_get rsb;
  match rsb_associated_psb r with
  | None => mret ()
  | Some psb =>
      l ← rsb_ensure_label rsb;
      if l =? 0 then mret ()
      else
        p ← psb_get psb;
        let nbr := hop_neighbor_addr (psb_prev_hop p) in
        '(out_idx, local_addr) ← egress_toward nbr;
        merged ← rsvp_compute_merged_flowspec psb;
        r ← rsb_get rsb;
        finalize_and_send
          (resv_message p r merged local_addr (if_or out_idx (psb_ifindex_in p)))
          local_addr nbr false ;;
        mret ()
  end.

Definition propagate_path_tear (psb : loc) : M () :=
  '(ip_dest, ifindex) ← resolve_path_next_hop psb;
  if ifindex <? 0 then mret ()
  else
    '(rc, local_addr) ← hal_netlink_get_local_addr ifindex 0;
    p ← psb_get psb;
    let local_addr :=
      if rc <? 0 then snd_source_addr (key_sender (psb_key p)) else local_addr in
    finalize_and_send (path_tear_message p local_addr ifindex) local_addr ip_dest true ;;
    mret ().

Definition propagate_resv_tear (rsb : loc) : M () :=
  r ← rsb_get rsb;
  match rsb_associated_psb r with
  | None => mret ()
  | Some psb =>
      p ← psb_get psb;
      let prev := hop_neighbor_addr (psb_prev_hop p) in
      if prev =? 0 then mret ()
      else
        '(ifindex, local_addr) ← egress_toward prev;
        finalize_and_send
          (resv_tear_message p r local_addr
             (if_or ifindex (ntohl (hop_logical_interface (psb_prev_hop p)))))
          local_addr prev false ;;
        mret ()
  end.

Definition propagate_resv_err (rsb : loc) (err : option rsvp_error_spec_ipv4) : M () :=
  r ← rsb_get rsb;
  match rsb_associated_psb r with
  | None => mret ()
  | Some psb =>
      p ← psb_get psb;
      let dest := sess_dest_addr (key_session (psb_key p)) in
      ifindex ← hal_netlink_get_egress_if dest;
      if ifindex <? 0 then mret ()
      else
        '(_, local_addr) ← hal_netlink_get_local_addr ifindex 0;
        finalize_and_send (forward_resv_err p local_addr ifindex err) local_addr dest false ;;
        mret ()
  end.
End messages.
