(* ===== verification/StateMachine.v ===== *)
(** * The state machine (src/pi/rsvp_state_machine.c)

    Teardown, fast reroute, make-before-break, the message handlers, the timer
    callbacks and the operations of the command line.  A handler gets the
    packet [m] and the message information, whose pointers are offsets into
    [m]. *)

From stdpp Require Import base numbers list option gmap sets.
From S2P Require Import Prelude Wire Protocol WheelTimer Timers Builder SendPacket Parser.
From S2P Require Import Interfaces StateDb Timing State Messages.

(** ** Pure parts of the handlers *)

(** An object the message may lack. *)
Definition load_opt (T : Type) `{Wire T} (m : list Z) (p : option nat) : option (option T) :=
  match p with None => Some None | Some o => Some <$> load_struct T m o end.

(** The loop over the subobjects of an EXPLICIT_ROUTE or RECORD_ROUTE: the
    IPv4 hops, at most [max], [rem] bytes left at [ptr].  Every round takes two
    bytes or more, so [rem] rounds are enough. *)
Fixpoint parse_subobjs (fuel : nat) (m : list Z) (ptr rem max : nat)
    (acc : list rsvp_ero_ipv4_subobj) : option (list rsvp_ero_ipv4_subobj) :=
  if (rem <? 2)%nat || (max <=? length acc)%nat then Some acc
  else
    match fuel with
    | O => None
    | S fuel =>
        type ← load 1 m ptr;
        len ← load 1 m (ptr + 1);
        if (len <? 2) || (Z.of_nat rem <? len) then Some acc
        else
          acc ← (if (Z.land type 127 =? RSVP_ERO_IPV4)
                    && (len =? Z.of_nat (sizeof rsvp_ero_ipv4_subobj))
                 then sub ← load_struct rsvp_ero_ipv4_subobj m ptr; Some (acc ++ [sub])
                 else Some acc);
          parse_subobjs fuel m (ptr + Z.to_nat len) (rem - Z.to_nat len) max acc
    end.

Definition route_update (m : list Z) (obj : option nat) (len max : nat)
    (old : list rsvp_ero_ipv4_subobj) : option (list rsvp_ero_ipv4_subobj) :=
  match obj with
  | Some ptr => if (0 <? len)%nat then parse_subobjs len m ptr len max [] else Some old
  | None => Some old
  end.

(** The FRR request of a PATH; the bandwidth is a float of the sender. *)
Definition frr_update (fr : option rsvp_fast_reroute) (p : rsvp_psb) : option rsvp_psb :=
  match fr with
  | None => Some p
  | Some fr =>
      if psb_is_bypass_tunnel p then Some p
      else if negb (Z.land (frr_flags fr) RSVP_FRR_FLAG_FACILITY =? 0) then
        bw ← float_to_u32 (rsvp_net_to_float (frr_bandwidth fr));
        Some (p <| psb_frr_mode := RSVP_FRR_FACILITY |> <| psb_frr_bandwidth := bw |>)
      else if negb (Z.land (frr_flags fr) RSVP_FRR_FLAG_ONE_TO_ONE =? 0) then
        Some (p <| psb_frr_mode := RSVP_FRR_ONE_TO_ONE |>)
      else Some p
  end.

(** The part of [handle_path_message] that copies the message into the block;
    [name] is the duplicated LSP name when the message has one. *)
Definition path_update (m : list Z) (info : rsvp_message_info)
    (name : option (option (list Z))) (p : rsvp_psb) : option rsvp_psb :=
  tv ← load_opt rsvp_time_values m (info_time_values info);
  let p := match tv with Some tv => p <| psb_refresh_ms := ntohl (tv_refresh_ms tv) |> | None => p end in
  hdr ← load_opt rsvp_common_hdr m (info_common_hdr info);
  let p := match hdr with Some hdr => p <| psb_ttl := hdr_ttl hdr |> | None => p end in
  let p := p <| psb_refresh_count := 0 |> in
  ero ← route_update m (info_ero info) (info_ero_len info) MAX_ERO_HOPS (psb_ero p);
  let p := p <| psb_ero := ero |> in
  rro ← route_update m (info_rro info) (info_rro_len info) MAX_RRO_HOPS (psb_rro p);
  let p := p <| psb_rro := rro |> in
  tspec ← load_opt rsvp_sender_tspec m (info_tspec info);
  let p := match tspec with Some t => p <| psb_tspec := tspec_copy_and_ntoh t |> | None => p end in
  sa ← load_opt rsvp_session_attribute m (info_sess_attr info);
  let p := match sa with
           | Some sa => p <| psb_setup_prio := sa_setup_prio sa |>
                          <| psb_holding_prio := sa_holding_prio sa |>
           | None => p
           end in
  fr ← load_opt rsvp_fast_reroute m (info_fast_reroute info);
  p ← frr_update fr p;
  let p := match name with Some n => p <| psb_lsp_name := n |> | None => p end in
  hop ← info_hop_v4 info;
  hop ← load_struct rsvp_hop_ipv4 m hop;
  Some (p <| psb_prev_hop := hop |> <| psb_ifindex_in := ntohl (hop_logical_interface hop) |>).

(** The first part of [handle_resv_message] that copies the message. *)
Definition resv_update (m : list Z) (info : rsvp_message_info) (r : rsvp_rsb) : option rsvp_rsb :=
  tv ← load_opt rsvp_time_values m (info_time_values info);
  let r := match tv with Some tv => r <| rsb_refresh_ms := ntohl (tv_refresh_ms tv) |> | None => r end in
  fs ← load_opt rsvp_sender_tspec m (info_flowspec info);
  let r := match fs with Some fs => r <| rsb_flowspec := tspec_copy_and_ntoh fs |> | None => r end in
  st ← load_opt rsvp_style m (info_style info);
  Some match st with
       | Some st => r <| rsb_style := Z.land (ntohl (sty_style st)) 255 |>
       | None => r
       end.

(** [info->lsp_name] as a C string. *)
Fixpoint c_string (bytes : list Z) : list Z :=
  match bytes with
  | [] => []
  | b :: bytes => if b =? 0 then [] else b :: c_string bytes
  end.

Definition rsvp_validate_path_message (info : rsvp_message_info) (existing : bool)
    : rsvp_error_t * Z * Z :=
  if null (info_hop_v4 info) then (RSVP_ERR_MALFORMED_OBJ, RSVP_PROTO_ERR_ROUTING_PROBLEM, 0)
  else if null (info_sender_v4 info) then
    (RSVP_ERR_MALFORMED_OBJ, RSVP_PROTO_ERR_ROUTING_PROBLEM, 0)
  else if null (info_label_req info) && negb existing then
    (RSVP_ERR_MALFORMED_OBJ, RSVP_PROTO_ERR_ROUTING_PROBLEM, 0)
  else (RSVP_SUCCESS, 0, 0).

Definition is_Some_b {A} (o : option A) : bool := match o with Some _ => true | None => false end.

Section machine.
Context {TS LS : Type} `{TimerSys TS timer_id timer_cb} `{LabelSys LS} `{Env}.
Local Notation state := (state TS LS).
Local Notation M := (M state).
Implicit Types psb rsb bsb : loc.

(** ** Timers of the state blocks *)

(** [if (!timer.active || !rsvp_timer_reset(...)) rsvp_timer_start(...)]. *)
Definition timer_rearm (t : timer_id) (ms : Z) (cb : timer_cb) : M () :=
  a ← timer_active t;
  ok ← (if a : bool then timer_reset t ms else mret false);
  when (negb ok) (timer_start t RSVP_TIMER_CLEANUP ms cb).

Definition psb_update psb (f : rsvp_psb → option rsvp_psb) : M () :=
  p ← psb_get psb; p' ← lift (f p); psb_set psb (λ _, p').
Definition rsb_update rsb (f : rsvp_rsb → option rsvp_rsb) : M () :=
  r ← rsb_get rsb; r' ← lift (f r); rsb_set rsb (λ _, r').

(** ** Teardown *)

Definition rsb_is_ingress rsb : M bool :=
  r ← rsb_get rsb;
  match rsb_associated_psb r with
  | None => mret false
  | Some psb => p ← psb_get psb; mret (psb_is_ingress p)
  end.

Definition rsb_cleanup_resources rsb : M () :=
  r ← rsb_get rsb;
  is_ingress ← rsb_is_ingress rsb;
  dest_ptr ←
    match rsb_associated_psb r with
    | None => mret None
    | Some psb => p ← psb_get psb; mret (Some (sess_dest_addr (key_session (psb_key p))))
    end;
  (if negb (rsb_label_in r =? 0) then
     hal_mpls_remove (rsb_label_in r) dest_ptr ;;
     label_free (rsb_label_in r) ;;
     rsb_set rsb (λ r, r <| rsb_label_in := 0 |>)
   else if is_ingress : bool then hal_mpls_remove 0 dest_ptr
   else mret ()) ;;
  timer_stop (RsbRefresh rsb) ;;
  timer_stop (RsbCleanup rsb).

Definition rsvp_rsb_cleanup rsb (propagate : bool) : M () :=
  is_ingress ← rsb_is_ingress rsb;
  when (propagate && negb is_ingress) (propagate_resv_tear rsb) ;;
  rsb_cleanup_resources rsb ;;
  r ← rsb_get rsb;
  match rsb_associated_psb r with
  | None => mret ()
  | Some psb => psb_set psb (λ p, p <| psb_associated_rsb := None |>)
  end ;;
  rsvp_rsb_delete rsb.

Definition rsvp_psb_cleanup psb (propagate : bool) : M () :=
  p ← psb_get psb;
  is_egress ← hal_netlink_is_local_addr (sess_dest_addr (key_session (psb_key p)));
  when (propagate && negb is_egress) (propagate_path_tear psb) ;;
  p ← psb_get psb;
  match psb_associated_rsb p with
  | None => mret ()
  | Some rsb => rsvp_rsb_cleanup rsb false
  end ;;
  timer_stop (PsbRefresh psb) ;;
  timer_stop (PsbCleanup psb) ;;
  rsvp_psb_delete psb.

(** ** Fast reroute: association with a bypass tunnel *)

(** The chains of all buckets in the order of the scans
    [for (bkt = 0; bkt < 1024; bkt++) for (c = bucket; c; c = c->next_hash)];
    no scan below changes the chains while it runs. *)
Definition all_psbs : M (list loc) := gets (λ s, mjoin (tb_buckets (st_psb s))).

(** A reservation with a label for the bypass with this key. *)
Definition bypass_ready (key : rsvp_path_key) : M (option rsvp_rsb) :=
  brsb ← rsvp_rsb_find key;
  match brsb with
  | None => mret None
  | Some brsb => r ← rsb_get brsb; mret (if rsb_label_out r =? 0 then None else Some r)
  end.

Fixpoint frr_arm psb (chain : list loc) : M () :=
  match chain with
  | [] => mret ()
  | c :: chain =>
      cp ← psb_get c;
      p ← psb_get psb;
      if negb (psb_is_bypass_tunnel cp) then frr_arm psb chain
      else if negb (psb_frr_protected_ifindex cp =? psb_ifindex_out p) then frr_arm psb chain
      else
        ready ← bypass_ready (psb_key cp);
        match ready with
        | None => frr_arm psb chain
        | Some _ =>
            psb_set psb (λ p, p <| psb_bypass_psb := Some c |>
              <| psb_bypass_tunnel_id := ntohs (sess_tunnel_id (key_session (psb_key cp))) |>)
        end
  end.

Definition rsvp_frr_auto_associate psb : M () :=
  p ← psb_get psb;
  if negb (bool_decide (psb_frr_mode p = RSVP_FRR_FACILITY)) || is_Some_b (psb_bypass_psb p)
     || (psb_ifindex_out p =? 0) || psb_is_bypass_tunnel p
  then mret ()
  else chain ← all_psbs; frr_arm psb chain.

Definition rsvp_frr_auto_associate_all (protected_ifindex : Z) : M () :=
  chain ← all_psbs;
  iter (λ c,
    p ← psb_get c;
    when (negb (psb_is_bypass_tunnel p)
          && bool_decide (psb_frr_mode p = RSVP_FRR_FACILITY)
          && (psb_ifindex_out p =? protected_ifindex)
          && negb (is_Some_b (psb_bypass_psb p)))
      (rsvp_frr_auto_associate c)) chain.

(** ** Make-before-break *)

Definition rsvp_mbb_complete (new_psb : loc) : M () :=
  p ← psb_get new_psb;
  old ← rsvp_psb_find_by_id (ntohs (sess_tunnel_id (key_session (psb_key p))))
          (psb_mbb_old_lsp_id p);
  match old with
  | Some old_psb => rsvp_psb_cleanup old_psb true
  | None => mret ()
  end ;;
  psb_set new_psb (λ p, p <| psb_is_mbb_pending := false |> <| psb_mbb_old_lsp_id := 0 |>).

(** ** PATH *)

(** The egress role: a reservation is created and sent upstream if there is
    none yet. *)
Definition handle_path_egress (info : rsvp_message_info) psb : M () :=
  rsb ← rsvp_rsb_find (info_key info);
  match rsb with
  | None =>
      rsb ← rsvp_rsb_create (info_key info);
      match rsb with
      | None => mret ()
      | Some rsb =>
          p ← psb_get psb;
          rsb_set rsb (λ r, r <| rsb_associated_psb := Some psb |>
                              <| rsb_refresh_ms := psb_refresh_ms p |>) ;;
          psb_set psb (λ p, p <| psb_associated_rsb := Some rsb |>) ;;
          resv_refresh ← jittered_refresh (psb_refresh_ms p) false;
          timer_start (RsbRefresh rsb) RSVP_TIMER_REFRESH resv_refresh (rsb_refresh_timer_cb rsb) ;;
          send_resv_upstream rsb
      end
  | Some rsb =>
      p ← psb_get psb;
      rsb_set rsb (λ r, r <| rsb_refresh_ms := psb_refresh_ms p |>)
  end.

(** The transit role: the PATH goes on to the next hop. *)
Definition handle_path_transit (info : rsvp_message_info) psb (is_new : bool) : M () :=
  looped ← hal_netlink_is_local_addr (snd_source_addr (key_sender (info_key info)));
  if looped : bool then mret ()
  else
    '(_, next_ifindex) ← resolve_path_next_hop psb;
    if next_ifindex <? 0 then
      send_path_err info RSVP_PROTO_ERR_ROUTING_PROBLEM 0 ;;
      when is_new (rsvp_psb_delete psb)
    else
      send_path_downstream psb ;;
      p ← psb_get psb;
      when (bool_decide (psb_frr_mode p = RSVP_FRR_FACILITY) && negb (psb_is_bypass_tunnel p)
            && negb (is_Some_b (psb_bypass_psb p)))
        (rsvp_frr_auto_associate psb).

(** A PATH that passed validation, for the block [psb]. *)
Definition handle_path_accepted (m : list Z) (info : rsvp_message_info) psb (is_new : bool) : M () :=
  name ← (match c_string (info_lsp_name info) with
          | [] => mret None
          | name => n ← strdup name; mret (Some n)
          end);
  psb_update psb (path_update m info name) ;;
  p ← psb_get psb;
  cleanup_ms ← lift (RSVP_CLEANUP_MS (psb_refresh_ms p));
  timer_rearm (PsbCleanup psb) cleanup_ms (psb_cleanup_timer_cb psb) ;;
  refresh_active ← timer_active (PsbRefresh psb);
  when (negb refresh_active)
    (next_refresh ← jittered_refresh (psb_refresh_ms p) (negb (psb_is_ingress p));
     timer_start (PsbRefresh psb) RSVP_TIMER_REFRESH next_refresh (psb_refresh_timer_cb psb)) ;;
  egress ← hal_netlink_is_local_addr (sess_dest_addr (key_session (info_key info)));
  if egress : bool then handle_path_egress info psb else handle_path_transit info psb is_new.

Definition handle_path_message (m : list Z) (info : rsvp_message_info) : M () :=
  existing ← rsvp_psb_find (info_key info);
  match rsvp_validate_path_message info (is_Some_b existing) with
  | (RSVP_SUCCESS, _, _) =>
      match existing with
      | Some psb => handle_path_accepted m info psb false
      | None =>
          created ← rsvp_psb_create (info_key info);
          match created with
          | None => mret ()
          | Some psb =>
              psb_set psb (λ p, p <| psb_refresh_ms := RSVP_REFRESH_MS |>) ;;
              handle_path_accepted m info psb true
          end
      end
  | (_, err_code, err_val) => send_path_err info err_code err_val
  end.

(** ** RESV *)

Definition rsvp_validate_resv_message (info : rsvp_message_info) : M (rsvp_error_t * Z * Z) :=
  psb ← rsvp_psb_find (info_key info);
  mret (match psb with
        | None => (RSVP_ERR_NOT_FOUND, RSVP_PROTO_ERR_NO_PATH_STATE, 0)
        | Some _ =>
            if null (info_hop_v4 info) then
              (RSVP_ERR_MALFORMED_OBJ, RSVP_PROTO_ERR_ROUTING_PROBLEM, 0)
            else if null (info_label info) then
              (RSVP_ERR_MALFORMED_OBJ, RSVP_PROTO_ERR_ROUTING_PROBLEM, 0)
            else (RSVP_SUCCESS, 0, 0)
        end).

(** The reservation changed: program the forwarding entry, pass the RESV on,
    and let bypass tunnels and make-before-break take effect. *)
Definition handle_resv_install (info : rsvp_message_info) rsb psb (is_new label_changed : bool)
    : M () :=
  p ← psb_get psb;
  r ← rsb_get rsb;
  let dest := sess_dest_addr (key_session (psb_key p)) in
  let next_hop := hop_neighbor_addr (rsb_next_hop r) in
  let ifindex := ntohl (hop_logical_interface (rsb_next_hop r)) in
  failed ←
    (if negb (hop_neighbor_addr (psb_prev_hop p) =? 0) then
       l ← rsb_ensure_label rsb;
       if l =? 0 then
         when is_new (rsvp_rsb_cleanup rsb false) ;;
         send_resv_err info RSVP_PROTO_ERR_ADMISSION_CONTROL 0 ;;
         mret true
       else
         hal_mpls_install l (rsb_label_out r) ifindex next_hop dest ;;
         send_resv_upstream rsb ;;
         mret false
     else
       hal_mpls_install 0 (rsb_label_out r) ifindex next_hop dest ;;
       mret false);
  if failed : bool then mret ()
  else
    p ← psb_get psb;
    when (psb_is_bypass_tunnel p && (is_new || label_changed))
      (rsvp_frr_auto_associate_all (psb_frr_protected_ifindex p)) ;;
    p ← psb_get psb;
    when (psb_is_mbb_pending p && is_new) (rsvp_mbb_complete psb).

(** After the blockade check: timers, label, next hop. *)
Definition handle_resv_accepted (m : list Z) (info : rsvp_message_info) rsb (label : Z)
    (is_new : bool) : M () :=
  hdr ← lift (load_opt rsvp_common_hdr m (info_common_hdr info));
  match hdr with
  | Some hdr => rsb_set rsb (λ r, r <| rsb_ttl := hdr_ttl hdr |>)
  | None => mret ()
  end ;;
  r ← rsb_get rsb;
  cleanup_ms ← lift (RSVP_CLEANUP_MS (rsb_refresh_ms r));
  timer_rearm (RsbCleanup rsb) cleanup_ms (rsb_cleanup_timer_cb rsb) ;;
  rsb_set rsb (λ r, r <| rsb_refresh_count := 0 |>) ;;
  is_ingress ← rsb_is_ingress rsb;
  refresh_active ← timer_active (RsbRefresh rsb);
  (if negb is_ingress then
     when (negb refresh_active)
       (next_refresh ← jittered_refresh (rsb_refresh_ms r) true;
        timer_start (RsbRefresh rsb) RSVP_TIMER_REFRESH next_refresh (rsb_refresh_timer_cb rsb))
   else when refresh_active (timer_stop (RsbRefresh rsb))) ;;
  r ← rsb_get rsb;
  hop ← lift (hop ← info_hop_v4 info; load_struct rsvp_hop_ipv4 m hop);
  rsb_set rsb (λ r, r <| rsb_label_out := label |> <| rsb_next_hop := hop |>) ;;
  let label_changed := negb (label =? rsb_label_out r) in
  let hop_changed :=
    negb (hop_neighbor_addr hop =? hop_neighbor_addr (rsb_next_hop r)) in
  match rsb_associated_psb r with
  | None => mret ()
  | Some psb =>
      if is_new || label_changed || hop_changed then
        handle_resv_install info rsb psb is_new label_changed
      else
        p ← psb_get psb;
        when (negb (hop_neighbor_addr (psb_prev_hop p) =? 0) && negb (psb_is_ingress p))
          (send_resv_upstream rsb)
  end.

Definition handle_resv_found (m : list Z) (info : rsvp_message_info) rsb (is_new : bool) : M () :=
  label ← lift (o ← info_label info; load_struct rsvp_label_ipv4 m o);
  rsb_update rsb (resv_update m info) ;;
  blockaded ← rsvp_is_blockaded rsb;
  if blockaded : bool then
    when is_new
      (r ← rsb_get rsb;
       match rsb_associated_psb r with
       | None => mret ()
       | Some psb => psb_set psb (λ p, p <| psb_associated_rsb := None |>)
       end ;;
       rsvp_rsb_delete rsb)
  else handle_resv_accepted m info rsb (ntohl (lbl_label label)) is_new.

(** A new reservation block, paired with the path block of its key. *)
Definition resv_create (key : rsvp_path_key) : M (option loc) :=
  created ← rsvp_rsb_create key;
  match created with
  | None => mret None
  | Some rsb =>
      rsb_set rsb (λ r, r <| rsb_refresh_ms := RSVP_REFRESH_MS |>) ;;
      found ← rsvp_psb_find key;
      match found with
      | None => mret ()
      | Some psb =>
          p ← psb_get psb;
          rsb_set rsb (λ r, r <| rsb_associated_psb := Some psb |>
                              <| rsb_refresh_ms := psb_refresh_ms p |>) ;;
          psb_set psb (λ p, p <| psb_associated_rsb := Some rsb |>)
      end ;;
      mret (Some rsb)
  end.

Definition handle_resv_message (m : list Z) (info : rsvp_message_info) : M () :=
  existing ← rsvp_rsb_find (info_key info);
  '(rc, err_code, err_val) ← rsvp_validate_resv_message info;
  match rc with
  | RSVP_SUCCESS =>
      match existing with
      | Some rsb => handle_resv_found m info rsb false
      | None =>
          created ← resv_create (info_key info);
          match created with
          | None => mret ()
          | Some rsb => handle_resv_found m info rsb true
          end
      end
  | _ => send_resv_err info err_code err_val
  end.

(** ** The other messages *)

Definition bsb_remove (key : rsvp_path_key) : M () :=
  bsb ← rsvp_bsb_find key;
  match bsb with
  | None => mret ()
  | Some bsb => timer_stop (BsbBlockade bsb) ;; rsvp_bsb_delete bsb
  end.

Definition handle_path_tear (info : rsvp_message_info) : M () :=
  psb ← rsvp_psb_find (info_key info);
  match psb with Some psb => rsvp_psb_cleanup psb true | None => mret () end ;;
  bsb_remove (info_key info).

Definition handle_resv_tear (info : rsvp_message_info) : M () :=
  rsb ← rsvp_rsb_find (info_key info);
  match rsb with Some rsb => rsvp_rsb_cleanup rsb true | None => mret () end ;;
  bsb_remove (info_key info).

Definition handle_path_err (m : list Z) (info : rsvp_message_info) : M () :=
  err ← lift (load_opt rsvp_error_spec_ipv4 m (info_error_spec info));
  psb ← rsvp_psb_find (info_key info);
  match psb with
  | None => mret ()
  | Some psb =>
      p ← psb_get psb;
      let prev := hop_neighbor_addr (psb_prev_hop p) in
      if psb_is_ingress p || (prev =? 0) then mret ()
      else
        '(out_idx, local_addr) ← egress_toward prev;
        let local_addr :=
          if 0 <=? out_idx then local_addr else sess_dest_addr (key_session (psb_key p)) in
        finalize_and_send (forward_path_err p local_addr (if_or out_idx (psb_ifindex_in p)) err)
          local_addr prev false ;;
        mret ()
  end.

(** An admission-control error with a flowspec blockades the reservation. *)
Definition blockade (m : list Z) (info : rsvp_message_info) (flowspec : nat) : M () :=
  bsb ← rsvp_bsb_find (info_key info);
  bsb ← match bsb with Some bsb => mret (Some bsb) | None => rsvp_bsb_create (info_key info) end;
  match bsb with
  | None => mret ()
  | Some bsb =>
      fs ← lift (load_struct rsvp_sender_tspec m flowspec);
      bsb_set bsb (λ b, b <| bsb_flowspec_qb := tspec_copy_and_ntoh fs |>) ;;
      tb_ms ← lift (RSVP_CLEANUP_MS RSVP_REFRESH_MS);
      a ← timer_active (BsbBlockade bsb);
      if a : bool then timer_reset (BsbBlockade bsb) tb_ms ;; mret ()
      else timer_start (BsbBlockade bsb) RSVP_TIMER_CLEANUP tb_ms (bsb_cleanup_timer_cb bsb)
  end.

Definition handle_resv_err (m : list Z) (info : rsvp_message_info) : M () :=
  err ← lift (load_opt rsvp_error_spec_ipv4 m (info_error_spec info));
  match err, info_flowspec info with
  | Some e, Some fs =>
      when (es_error_code e =? RSVP_PROTO_ERR_ADMISSION_CONTROL) (blockade m info fs)
  | _, _ => mret ()
  end ;;
  rsb ← rsvp_rsb_find (info_key info);
  match rsb with
  | None => mret ()
  | Some rsb =>
      egress ← hal_netlink_is_local_addr (sess_dest_addr (key_session (info_key info)));
      if egress : bool then mret () else propagate_resv_err rsb err
  end.

Definition handle_resv_conf (info : rsvp_message_info) : M () := mret ().
Definition handle_srefresh (info : rsvp_message_info) : M () := mret ().

(** ** Timer callbacks *)

Definition psb_refresh_timer psb : M () :=
  p ← psb_get psb;
  egress ← (if psb_is_ingress p then mret false
            else hal_netlink_is_local_addr (sess_dest_addr (key_session (psb_key p))));
  when (negb egress) (send_path_downstream psb) ;;
  p ← psb_get psb;
  next ← jittered_refresh (psb_refresh_ms p)
           (negb (psb_is_ingress p) && negb (hop_neighbor_addr (psb_prev_hop p) =? 0));
  timer_start (PsbRefresh psb) RSVP_TIMER_REFRESH next (psb_refresh_timer_cb psb).

Definition psb_cleanup_timer psb : M () := rsvp_psb_cleanup psb true.

Definition rsb_refresh_timer rsb : M () :=
  r ← rsb_get rsb;
  is_backup ←
    match rsb_associated_psb r with
    | None => mret false
    | Some psb =>
        p ← psb_get psb;
        l ← hal_netlink_is_local_addr (sess_dest_addr (key_session (psb_key p)));
        when (negb (hop_neighbor_addr (psb_prev_hop p) =? 0) && negb (psb_is_ingress p))
          (send_resv_upstream rsb) ;;
        mret (negb l)
    end;
  r ← rsb_get rsb;
  next ← jittered_refresh (rsb_refresh_ms r) is_backup;
  timer_start (RsbRefresh rsb) RSVP_TIMER_REFRESH next (rsb_refresh_timer_cb rsb).

Definition rsb_cleanup_timer rsb : M () := rsvp_rsb_cleanup rsb true.
Definition bsb_cleanup_timer bsb : M () := rsvp_bsb_delete bsb.

(** ** Operations of the command line *)

(** [next_lsp_id++] of a [uint16_t]. *)
Definition take_lsp_id : M Z :=
  id ← gets st_next_lsp_id;
  modify (λ s, s <| st_next_lsp_id := (id + 1) mod 65536 |>) ;;
  mret id.

Definition initiate_key (src dest tunnel_id lsp_id : Z) : rsvp_path_key :=
  mk_rsvp_path_key (mk_rsvp_session_ipv4 dest 0 (htons tunnel_id) src)
    (mk_rsvp_sender_ipv4 src 0 (htons lsp_id)).

Definition strdup_opt (name : option (list Z)) : M (option (list Z)) :=
  match name with Some n => strdup n | None => mret None end.

Definition start_refresh psb : M () :=
  p ← psb_get psb;
  refresh_ms ← jittered_refresh (psb_refresh_ms p) false;
  timer_start (PsbRefresh psb) RSVP_TIMER_REFRESH refresh_ms (psb_refresh_timer_cb psb).

Definition rsvp_initiate_path_with_ero (src dest tunnel_id : Z) (lsp_name : option (list Z))
    (ero : list rsvp_ero_ipv4_subobj) (request_frr : bool) : M () :=
  lsp_id ← take_lsp_id;
  let key := initiate_key src dest tunnel_id lsp_id in
  existing ← rsvp_psb_find key;
  match existing with
  | Some psb => send_path_downstream psb
  | None =>
      created ← rsvp_psb_create key;
      match created with
      | None => mret ()
      | Some psb =>
          name ← strdup_opt lsp_name;
          psb_set psb (λ p, p <| psb_refresh_ms := RSVP_REFRESH_MS |> <| psb_is_ingress := true |>
                              <| psb_lsp_name := name |>
                              <| psb_ero := take MAX_ERO_HOPS ero |>) ;;
          when request_frr
            (psb_set psb (λ p, p <| psb_frr_mode := RSVP_FRR_FACILITY |>
                                 <| psb_frr_bandwidth := 0 |>)) ;;
          start_refresh psb ;;
          send_path_downstream psb
      end
  end.

Definition rsvp_initiate_path (src dest tunnel_id : Z) (lsp_name : option (list Z)) : M () :=
  rsvp_initiate_path_with_ero src dest tunnel_id lsp_name [] false.

Definition rsvp_initiate_bypass_tunnel (src dest tunnel_id : Z) (name : option (list Z))
    (ero : list rsvp_ero_ipv4_subobj) (protected_ifindex : Z) : M () :=
  lsp_id ← take_lsp_id;
  let key := initiate_key src dest tunnel_id lsp_id in
  existing ← rsvp_psb_find key;
  match existing with
  | Some _ => mret ()
  | None =>
      created ← rsvp_psb_create key;
      match created with
      | None => mret ()
      | Some psb =>
          lsp_name ← strdup_opt name;
          psb_set psb (λ p, p <| psb_refresh_ms := RSVP_REFRESH_MS |> <| psb_is_ingress := true |>
                              <| psb_is_bypass_tunnel := true |>
                              <| psb_frr_protected_ifindex := protected_ifindex |>
                              <| psb_lsp_name := lsp_name |>
                              <| psb_ero := take MAX_ERO_HOPS ero |>) ;;
          start_refresh psb ;;
          send_path_downstream psb
      end
  end.

(** The first bypass tunnel with this tunnel id. *)
Definition find_bypass (bypass_tunnel_id : Z) : M (option loc) :=
  r ← gets (λ s, table_scan (st_psb s) (λ p,
         (ntohs (sess_tunnel_id (key_session (psb_key p))) =? bypass_tunnel_id)
         && psb_is_bypass_tunnel p));
  lift r.

Definition rsvp_frr_enable_protection (tunnel_id lsp_id : Z) (frr_mode : rsvp_frr_mode_t)
    (bypass_tunnel_id : Z) : M rsvp_error_t :=
  protected ← rsvp_psb_find_by_id tunnel_id lsp_id;
  match protected with
  | None => mret RSVP_ERR_NOT_FOUND
  | Some protected =>
      bypass ← find_bypass bypass_tunnel_id;
      match bypass with
      | None => mret RSVP_ERR_NOT_FOUND
      | Some bypass =>
          bp ← psb_get bypass;
          ready ← bypass_ready (psb_key bp);
          match ready with
          | None => mret RSVP_ERR_FRR_NOT_CONFIGURED
          | Some _ =>
              psb_set protected (λ p, p <| psb_frr_mode := frr_mode |>
                <| psb_bypass_tunnel_id := bypass_tunnel_id |> <| psb_bypass_psb := Some bypass |>) ;;
              mret RSVP_SUCCESS
          end
      end
  end.

(** Switches one block to its bypass when the failed interface is its egress. *)
Definition frr_switch (failed_ifindex : Z) psb : M () :=
  p ← psb_get psb;
  if negb ((psb_ifindex_out p =? failed_ifindex)
           && bool_decide (psb_frr_mode p = RSVP_FRR_FACILITY)
           && is_Some_b (psb_bypass_psb p)
           && negb (psb_frr_active p) && negb (psb_is_bypass_tunnel p))
  then mret ()
  else
    bypass ← lift (psb_bypass_psb p);
    bp ← psb_get bypass;
    ready ← bypass_ready (psb_key bp);
    match ready with
    | None => mret ()
    | Some brsb =>
        rsb ← rsvp_rsb_find (psb_key p);
        match rsb with
        | None => mret ()
        | Some rsb =>
            r ← rsb_get rsb;
            hal_mpls_install (rsb_label_in r) (rsb_label_out brsb)
              (ntohl (hop_logical_interface (rsb_next_hop brsb)))
              (hop_neighbor_addr (rsb_next_hop brsb)) (sess_dest_addr (key_session (psb_key p)))
        end ;;
        psb_set psb (λ p, p <| psb_frr_active := true |> <| psb_ifindex_out := psb_ifindex_out bp |>) ;;
        send_path_downstream psb
    end.

Definition rsvp_frr_trigger (failed_ifindex : Z) : M () :=
  chain ← all_psbs; iter (frr_switch failed_ifindex) chain.

Definition rsvp_teardown_path (tunnel_id lsp_id : Z) : M () :=
  psb ← rsvp_psb_find_by_id tunnel_id lsp_id;
  match psb with Some psb => rsvp_psb_cleanup psb true | None => mret () end.

Definition rsvp_mbb_start (tunnel_id old_lsp_id new_lsp_id : Z)
    (new_ero : list rsvp_ero_ipv4_subobj) : M rsvp_error_t :=
  old ← rsvp_psb_find_by_id tunnel_id old_lsp_id;
  match old with
  | None => mret RSVP_ERR_NOT_FOUND
  | Some old_psb =>
      op ← psb_get old_psb;
      if negb (psb_is_ingress op) then mret RSVP_ERR_INVALID_PARAM
      else
        let new_key := psb_key op <| key_sender ::= λ s, s <| snd_lsp_id := htons new_lsp_id |> |> in
        existing ← rsvp_psb_find new_key;
        match existing with
        | Some _ => mret RSVP_ERR_ALREADY_EXISTS
        | None =>
            created ← rsvp_psb_create new_key;
            match created with
            | None => mret RSVP_ERR_MEM_ALLOC
            | Some new_psb =>
                name ← strdup_opt (psb_lsp_name op);
                psb_set new_psb (λ p,
                  p <| psb_refresh_ms := psb_refresh_ms op |> <| psb_is_ingress := true |>
                    <| psb_frr_mode := psb_frr_mode op |>
                    <| psb_frr_bandwidth := psb_frr_bandwidth op |>
                    <| psb_setup_prio := psb_setup_prio op |>
                    <| psb_holding_prio := psb_holding_prio op |>
                    <| psb_ttl := psb_ttl op |> <| psb_tspec := psb_tspec op |>
                    <| psb_lsp_name := name |>
                    <| psb_ero := match new_ero with
                                  | [] => psb_ero op
                                  | _ => take MAX_ERO_HOPS new_ero
                                  end |>
                    <| psb_is_mbb_pending := true |>
                    <| psb_mbb_old_lsp_id := old_lsp_id |>) ;;
                start_refresh new_psb ;;
                send_path_downstream new_psb ;;
                mret RSVP_SUCCESS
            end
        end
  end.

(** Switches one block back when its bypass covers the recovered interface. *)
Definition frr_unswitch (recovered_ifindex : Z) psb : M () :=
  p ← psb_get psb;
  match psb_bypass_psb p with
  | None => mret ()
  | Some bypass =>
      if negb (psb_frr_active p) then mret ()
      else
        bp ← psb_get bypass;
        if negb (psb_frr_protected_ifindex bp =? recovered_ifindex) then mret ()
        else
          rsb ← rsvp_rsb_find (psb_key p);
          match rsb with
          | None => mret ()
          | Some rsb =>
              r ← rsb_get rsb;
              hal_mpls_install (rsb_label_in r) (rsb_label_out r)
                (ntohl (hop_logical_interface (rsb_next_hop r)))
                (hop_neighbor_addr (rsb_next_hop r)) (sess_dest_addr (key_session (psb_key p))) ;;
              psb_set psb (λ p, p <| psb_ifindex_out := recovered_ifindex |>
                                  <| psb_frr_active := false |>) ;;
              send_path_downstream psb
          end
  end.

Definition rsvp_frr_revert (recovered_ifindex : Z) : M () :=
  chain ← all_psbs; iter (frr_unswitch recovered_ifindex) chain.

Definition rsvp_state_machine_shutdown : M () :=
  iter (λ i,
    n ← gets (λ s, length (bucket (st_psb s) i));
    delete_bucket (λ s, head (bucket (st_psb s) i)) (λ psb, rsvp_psb_cleanup psb true) n)
  (seq 0 HASH_SIZE).
End machine.
