(* ===== verification/Hello.v ===== *)
(** * Hello and the event loop (src/pi/rsvp_hello.c, rsvp_handle_message,
      src/pi/rsvp_dispatcher.c)

    The neighbour table with its timers, the dispatch of a received message,
    the callbacks of expired timers, and the two events of the daemon's loop
    that carry protocol input: a packet on the raw socket and a message on the
    timer pipe. *)

From stdpp Require Import base numbers list option gmap sets.
From S2P Require Import Prelude Wire Protocol WheelTimer Timers Builder SendPacket Parser.
From S2P Require Import Interfaces StateDb Timing State Messages StateMachine.

Section hello.
Context {TS LS : Type} `{TimerSys TS timer_id timer_cb} `{LabelSys LS} `{Env}.
Local Notation state := (state TS LS).
Local Notation M := (M state).

(** ** The neighbour table *)

Definition nbor_get (i : nat) : M rsvp_neighbor := n ← gets (λ s, st_neighbors s !! i); lift n.
Definition nbor_set (i : nat) (f : rsvp_neighbor → rsvp_neighbor) : M () :=
  nbor_get i ;; modify (λ s, s <| st_neighbors ::= alter f i |>).

(** [memset] over a timer inside static memory. *)
Definition timer_zero (t : timer_id) : M () := timer_release t ;; timer_calloc t.

(** [memset(g_neighbors, 0, sizeof(g_neighbors))]. *)
Definition zero_neighbors : M () :=
  iter (λ i, timer_zero (NborHello i) ;; timer_zero (NborDead i)) (seq 0 RSVP_MAX_NEIGHBORS) ;;
  modify (λ s, s <| st_neighbors := replicate RSVP_MAX_NEIGHBORS zero_neighbor |>
                 <| st_nbor_count := 0%nat |>).

Definition rsvp_hello_init : M () := zero_neighbors.

Definition rsvp_hello_shutdown : M () :=
  count ← gets st_nbor_count;
  iter (λ i,
    n ← nbor_get i;
    when (nb_active n) (timer_stop (NborHello i) ;; timer_stop (NborDead i))) (seq 0 count) ;;
  zero_neighbors.

Definition find_nbor (addr : Z) (nbors : list rsvp_neighbor) : option nat :=
  fst <$> list_find (λ n, nb_active n && (nb_addr n =? addr)) nbors.

Definition rsvp_hello_find_neighbor (addr : Z) : M (option nat) :=
  gets (λ s, find_nbor addr (take (st_nbor_count s) (st_neighbors s))).

(** [while (inst == 0) inst = (uint32_t)rand();] *)
Fixpoint rand_instance (fuel : nat) : M Z :=
  match fuel with
  | O => lift None
  | Datatypes.S fuel => r ← rand; if r mod 2 ^ 32 =? 0 then rand_instance fuel else mret (r mod 2 ^ 32)
  end.

Definition rsvp_hello_add_neighbor (addr local_addr ifindex : Z) : M (option nat) :=
  existing ← rsvp_hello_find_neighbor addr;
  match existing with
  | Some i => mret (Some i)
  | None =>
      i ← gets st_nbor_count;
      if (RSVP_MAX_NEIGHBORS <=? i)%nat then mret None
      else
        modify (λ s, s <| st_nbor_count := Datatypes.S i |>) ;;
        timer_zero (NborHello i) ;; timer_zero (NborDead i) ;;
        nbor_set i (λ _,
          zero_neighbor <| nb_addr := addr |> <| nb_local_addr := local_addr |>
            <| nb_ifindex := ifindex |> <| nb_state := RSVP_NBOR_IDLE |>
            <| nb_hello_interval_ms := RSVP_HELLO_INTERVAL_MS |>
            <| nb_dead_interval_ms := RSVP_HELLO_INTERVAL_MS * RSVP_HELLO_DEAD_FACTOR |>
            <| nb_active := true |>) ;;
        inst ← rand_instance env_rand_fuel;
        nbor_set i (λ n, n <| nb_src_instance := inst |>) ;;
        n ← nbor_get i;
        timer_start (NborHello i) RSVP_TIMER_REFRESH (nb_hello_interval_ms n) (hello_timer_cb i) ;;
        mret (Some i)
  end.

(** ** Sending *)

Definition hello_message (n : rsvp_neighbor) (c_type : Z) : Z * rsvp_builder :=
  rsvp_builder_add_obj (rsvp_builder_init 128 RSVP_MSG_HELLO) RSVP_CLASS_HELLO c_type
    (store_struct (mk_rsvp_hello_obj (htonl (nb_src_instance n)) (htonl (nb_dst_instance n)))).

Definition send_hello (i : nat) (c_type : Z) : M () :=
  n ← nbor_get i;
  let '(rc, b) := hello_message n c_type in
  if negb (rc =? 0) then mret ()
  else
    err ← finalize_and_send b (nb_local_addr n) (nb_addr n) false;
    when (bool_decide (err = RSVP_SUCCESS))
      (nbor_set i (λ n, n <| nb_hellos_sent ::= λ k, (k + 1) mod 2 ^ 64 |>)).

(** ** Timer callbacks *)

Definition hello_timer (i : nat) : M () :=
  n ← nbor_get i;
  if negb (nb_active n) then mret ()
  else
    send_hello i RSVP_HELLO_CTYPE_REQUEST ;;
    n ← nbor_get i;
    timer_start (NborHello i) RSVP_TIMER_REFRESH (nb_hello_interval_ms n) (hello_timer_cb i).

Definition dead_timer (i : nat) : M () :=
  n ← nbor_get i;
  if negb (nb_active n) then mret ()
  else
    nbor_set i (λ n, n <| nb_state := RSVP_NBOR_DOWN |> <| nb_up_since := 0 |>) ;;
    rsvp_frr_trigger (nb_ifindex n).

(** ** Receiving *)

(** A known neighbour whose instance changed has restarted. *)
Definition nbor_restart (i : nat) (rx_src_instance : Z) : M () :=
  n ← nbor_get i;
  when (negb (nb_dst_instance n =? 0) && negb (rx_src_instance =? nb_dst_instance n))
    (nbor_set i (λ n, n <| nb_state := RSVP_NBOR_IDLE |> <| nb_up_since := 0 |>
                        <| nb_dst_instance := 0 |>) ;;
     rsvp_frr_trigger (nb_ifindex n)).

Definition rsvp_hello_recv (src rx_src_instance rx_dst_instance c_type : Z) : M () :=
  found ← rsvp_hello_find_neighbor src;
  nbor ← match found with
         | Some i => mret (Some i)
         | None => rsvp_hello_add_neighbor src 0 0
         end;
  match nbor with
  | None => mret ()
  | Some i =>
      now ← time;
      nbor_set i (λ n, n <| nb_hellos_rcvd ::= λ k, (k + 1) mod 2 ^ 64 |>
                         <| nb_last_hello_rx := now |>) ;;
      nbor_restart i rx_src_instance ;;
      nbor_set i (λ n, n <| nb_dst_instance := rx_src_instance |>) ;;
      timer_stop (NborDead i) ;;
      n ← nbor_get i;
      timer_start (NborDead i) RSVP_TIMER_CLEANUP (nb_dead_interval_ms n) (dead_timer_cb i) ;;
      when (negb (bool_decide (nb_state n = RSVP_NBOR_UP)))
        (now ← time;
         nbor_set i (λ n, n <| nb_state := RSVP_NBOR_UP |> <| nb_up_since := now |>)) ;;
      when (c_type =? RSVP_HELLO_CTYPE_REQUEST) (send_hello i RSVP_HELLO_CTYPE_ACK)
  end.

(** ** Dispatch of a message *)

Definition handle_hello (m : list Z) (info : rsvp_message_info) : M () :=
  obj ← lift (load_opt rsvp_hello_obj m (info_hello_obj info));
  match obj with
  | None => mret ()
  | Some h =>
      rsvp_hello_recv (info_src_ip info) (ntohl (hello_src_instance h))
        (ntohl (hello_dst_instance h)) (info_hello_ctype info)
  end.

Definition rsvp_handle_message (m : list Z) (info : rsvp_message_info) : M () :=
  hdr ← lift (o ← info_common_hdr info; load_struct rsvp_common_hdr m o);
  let t := hdr_msg_type hdr in
  if t =? RSVP_MSG_PATH then handle_path_message m info
  else if t =? RSVP_MSG_RESV then handle_resv_message m info
  else if t =? RSVP_MSG_PATHTEAR then handle_path_tear info
  else if t =? RSVP_MSG_RESVTEAR then handle_resv_tear info
  else if t =? RSVP_MSG_PATHERR then handle_path_err m info
  else if t =? RSVP_MSG_RESVERR then handle_resv_err m info
  else if t =? RSVP_MSG_RESVCONF then handle_resv_conf info
  else if t =? RSVP_MSG_SREFRESH then handle_srefresh info
  else if t =? RSVP_MSG_HELLO then handle_hello m info
  else mret ().

(** ** Events of the loop *)

(** [cb(arg)] of an expired timer. *)
Definition run_callback (cb : timer_cb) : M () :=
  match cb with
  | psb_refresh_timer_cb psb => psb_refresh_timer psb
  | psb_cleanup_timer_cb psb => psb_cleanup_timer psb
  | rsb_refresh_timer_cb rsb => rsb_refresh_timer rsb
  | rsb_cleanup_timer_cb rsb => rsb_cleanup_timer rsb
  | bsb_cleanup_timer_cb bsb => bsb_cleanup_timer bsb
  | hello_timer_cb i => hello_timer i
  | dead_timer_cb i => dead_timer i
  end.

(** One message of the timer pipe. *)
Definition timer_exp_once : M () :=
  cb ← (λ s, '(cb, ts) ← ti_read (st_timers s); Some (cb, s <| st_timers := ts |>));
  match cb with Some cb => run_callback cb | None => mret () end.

(** [while (read(fd, &msg, sizeof(msg)) == sizeof(msg))]: callbacks write
    nothing to the pipe, so its length at the start bounds the rounds. *)
Fixpoint timer_exp_loop (fuel : nat) : M () :=
  n ← gets (λ s, ti_expired (st_timers s));
  match n, fuel with
  | O, _ => mret ()
  | _, O => lift None
  | _, Datatypes.S fuel => timer_exp_once ;; timer_exp_loop fuel
  end.
Definition rsvp_timer_handle_exp : M () :=
  n ← gets (λ s, ti_expired (st_timers s)); timer_exp_loop n.

(** One packet of the raw socket, as [recvfrom] returns it. *)
Definition receive_packet (packet : list Z) : M () :=
  local ← (if (sizeof_iphdr <=? length packet)%nat
           then src ← lift (load 4 packet 12); hal_netlink_is_local_addr src
           else mret false);
  if local : bool then mret ()
  else
    '(rc, info) ← lift (rsvp_parse_packet packet (length packet));
    match rc with
    | RSVP_SUCCESS => rsvp_handle_message packet info
    | _ => mret ()
    end.
End hello.
