(* ===== verification/Invariant.v ===== *)
(** * The invariant of the daemon's state

    [Inv b s] collects what holds between two events of the loop: the hash
    tables are well formed; path and reservation blocks point at each other in
    pairs with the same key; exactly the timers inside live memory exist, each
    with its own callback; exactly the labels of the reservations are held, no
    two reservations share one, and the forwarding table has no entry for a
    label that is not held; periods, routes and make-before-break identifiers
    are in range.  With [b = true] every pointer to a bypass tunnel is also
    valid, which the fast-reroute switch needs.

    The first part gives the invariant and the state updates that keep it; the
    second one a [wp] rule for each primitive of the monad. *)

From stdpp Require Import base numbers list option gmap sets.
From S2P Require Import Prelude Wire Protocol WheelTimer Timers Builder SendPacket Parser.
From S2P Require Import Interfaces StateDb Timing State Messages StateMachine.

(** ** Definitions *)

(** The forwarding entries: the incoming labels installed and not removed. *)
Definition mpls_step (tbl : gset Z) (o : output) : gset Z :=
  match o with
  | Packet _ => tbl
  | MplsInstall in_label _ _ _ _ => {[in_label]} ∪ tbl
  | MplsRemove in_label _ => tbl ∖ {[in_label]}
  end.
Definition mpls_labels (out : list output) : gset Z := foldl mpls_step ∅ out.

Definition timer_callback (t : timer_id) : timer_cb :=
  match t with
  | PsbRefresh l => psb_refresh_timer_cb l | PsbCleanup l => psb_cleanup_timer_cb l
  | RsbRefresh l => rsb_refresh_timer_cb l | RsbCleanup l => rsb_cleanup_timer_cb l
  | BsbBlockade l => bsb_cleanup_timer_cb l
  | NborHello i => hello_timer_cb i | NborDead i => dead_timer_cb i
  end.

(** The LSP id of a key is a 16-bit field. *)
Definition key_good (k : rsvp_path_key) : Prop := 0 ≤ snd_lsp_id (key_sender k) < 65536.

Record psb_good (p : rsvp_psb) : Prop := {
  pg_key : key_good (psb_key p);
  pg_refresh : refresh_ok (psb_refresh_ms p);
  pg_ero : (length (psb_ero p) <= MAX_ERO_HOPS)%nat;
  pg_rro : (length (psb_rro p) <= MAX_RRO_HOPS)%nat;
  pg_mbb : psb_is_mbb_pending p = true →
    psb_mbb_old_lsp_id p ≠ ntohs (snd_lsp_id (key_sender (psb_key p)))
    ∧ psb_is_bypass_tunnel p = false;
}.

Definition nbor_good (n : rsvp_neighbor) : Prop :=
  0 ≤ nb_hello_interval_ms n < 2 ^ 32 ∧ 0 ≤ nb_dead_interval_ms n < 2 ^ 32.

(** What most operations leave alone in a block. *)
Definition pshape (p : rsvp_psb) := (psb_key p, psb_associated_rsb p, psb_is_bypass_tunnel p).
Definition rshape (r : rsvp_rsb) := (rsb_key r, rsb_associated_psb r).

Section invariant.
Context {TS LS : Type} `{TimerLaws TS timer_id timer_cb} `{LabelLaws LS} `{EnvLaws}.
Local Notation state := (state TS LS).
Local Notation M := (M state).
Implicit Types s : state.

Definition psbs s : gmap loc rsvp_psb := tb_heap (st_psb s).
Definition rsbs s : gmap loc rsvp_rsb := tb_heap (st_rsb s).
Definition bsbs s : gmap loc rsvp_bsb := tb_heap (st_bsb s).

Definition timer_live s (t : timer_id) : Prop :=
  match t with
  | PsbRefresh l | PsbCleanup l => is_Some (psbs s !! l)
  | RsbRefresh l | RsbCleanup l => is_Some (rsbs s !! l)
  | BsbBlockade l => is_Some (bsbs s !! l)
  | NborHello i | NborDead i => (i < st_nbor_count s)%nat
  end.
(** Timers in static memory, which exist whether their entry is in use or not. *)
Definition timer_static (t : timer_id) : Prop :=
  match t with
  | NborHello i | NborDead i => (i < RSVP_MAX_NEIGHBORS)%nat
  | _ => False
  end.

Record labels_ok s : Prop := {
  lo_held : ∃ H, lb_rel (st_labels s) H
    ∧ (∀ n, n ∈ H ↔ n ≠ 0 ∧ ∃ l r, rsbs s !! l = Some r ∧ rsb_label_in r = n)
    ∧ (∀ n, n ∈ mpls_labels (st_out s) → n ≠ 0 → n ∈ H);
  lo_inj : ∀ l1 l2 r1 r2, rsbs s !! l1 = Some r1 → rsbs s !! l2 = Some r2 →
    rsb_label_in r1 = rsb_label_in r2 → rsb_label_in r1 ≠ 0 → l1 = l2;
}.

Record timers_inv s : Prop := {
  ti_inv_ok : ti_ok (st_timers s);
  ti_inv_mem : ∀ t, is_Some (ti_view (st_timers s) !! t) ↔ timer_live s t ∨ timer_static t;
  ti_inv_cb : ∀ t a cb, ti_view (st_timers s) !! t = Some (a, Some cb) → cb = timer_callback t;
  ti_inv_idle : ∀ t a cb, ti_view (st_timers s) !! t = Some (a, cb) →
    timer_live s t ∨ (a = false ∧ cb = None);
}.

(** The neighbour table: its entries in use come first. *)
Record nbors_ok (nbors : list rsvp_neighbor) (count : nat) : Prop := {
  nb_length : length nbors = RSVP_MAX_NEIGHBORS;
  nb_count : (count <= RSVP_MAX_NEIGHBORS)%nat;
  nb_good : Forall nbor_good nbors;
  nb_used : ∀ i n, nbors !! i = Some n → (i < count)%nat → nb_active n = true;
}.

Record Inv (b : bool) s : Prop := {
  inv_psb : table_ok (st_psb s);
  inv_rsb : table_ok (st_rsb s);
  inv_bsb : table_ok (st_bsb s);
  inv_psb_good : ∀ l p, psbs s !! l = Some p → psb_good p;
  inv_rsb_good : ∀ l r, rsbs s !! l = Some r → refresh_ok (rsb_refresh_ms r);
  inv_assoc_rsb : ∀ l r, rsbs s !! l = Some r → ∃ lp p,
    rsb_associated_psb r = Some lp ∧ psbs s !! lp = Some p
    ∧ psb_associated_rsb p = Some l ∧ psb_key p = rsb_key r;
  inv_assoc_psb : ∀ l p lr, psbs s !! l = Some p → psb_associated_rsb p = Some lr →
    ∃ r, rsbs s !! lr = Some r ∧ rsb_associated_psb r = Some l;
  inv_timers : timers_inv s;
  inv_labels : labels_ok s;
  inv_nbors : nbors_ok (st_neighbors s) (st_nbor_count s);
  inv_bypass : b = true → ∀ l p c, psbs s !! l = Some p → psb_bypass_psb p = Some c →
    ∃ q, psbs s !! c = Some q ∧ psb_is_bypass_tunnel q = true;
}.

(** The same blocks with the same keys and pairing, the same neighbours. *)
Record frame s s' : Prop := {
  fr_psb : pshape <$> psbs s' = pshape <$> psbs s;
  fr_rsb : rshape <$> rsbs s' = rshape <$> rsbs s;
  fr_bsb : bsb_key <$> bsbs s' = bsb_key <$> bsbs s;
  fr_nbors : st_neighbors s' = st_neighbors s ∧ st_nbor_count s' = st_nbor_count s;
}.

Lemma frame_refl s : frame s s.
Proof. done. Qed.
Lemma frame_trans s1 s2 s3 : frame s1 s2 → frame s2 s3 → frame s1 s3.
Proof. intros [? ? ? []] [? ? ? []]. split; [congruence..|]. split; congruence. Qed.

Lemma fmap_lookup_inv {A B} (f : A → B) (m m' : gmap loc A) l a :
  f <$> m' = f <$> m → m !! l = Some a → ∃ a', m' !! l = Some a' ∧ f a' = f a.
Proof.
  intros Hf Ha. assert (f <$> m' !! l = Some (f a)) as (a' & ? & ?)%fmap_Some.
  { by rewrite <- lookup_fmap, Hf, lookup_fmap, Ha. }
  eauto.
Qed.

Lemma fmap_live_inv {A B} (f : A → B) (m m' : gmap loc A) l :
  f <$> m' = f <$> m → is_Some (m' !! l) ↔ is_Some (m !! l).
Proof. intros Hf. by rewrite <- !(fmap_is_Some f), <- !lookup_fmap, Hf. Qed.

Lemma frame_psb s s' l p :
  frame s s' → psbs s !! l = Some p → ∃ p', psbs s' !! l = Some p' ∧ psb_key p' = psb_key p
    ∧ psb_associated_rsb p' = psb_associated_rsb p.
Proof.
  intros [Hf _ _ _] Hl. destruct (fmap_lookup_inv _ _ _ _ _ Hf Hl) as (p' & ? & [= ? ? ?]). eauto.
Qed.
Lemma frame_rsb s s' l r :
  frame s s' → rsbs s !! l = Some r → ∃ r', rsbs s' !! l = Some r' ∧ rsb_key r' = rsb_key r
    ∧ rsb_associated_psb r' = rsb_associated_psb r.
Proof.
  intros [_ Hf _ _] Hl. destruct (fmap_lookup_inv _ _ _ _ _ Hf Hl) as (r' & ? & [= ? ?]). eauto.
Qed.
Lemma frame_live s s' t : frame s s' → timer_live s t → timer_live s' t.
Proof.
  intros [F1 F2 F3 [_ F4]]. destruct t; simpl; try (by rewrite F4);
    first [by rewrite (fmap_live_inv _ _ _ _ F1) | by rewrite (fmap_live_inv _ _ _ _ F2)
          | by rewrite (fmap_live_inv _ _ _ _ F3)].
Qed.

Lemma fmap_alter_shape {A B} (f : A → B) (g : A → A) (m : gmap loc A) l :
  (∀ a, m !! l = Some a → f (g a) = f a) → f <$> alter g l m = f <$> m.
Proof.
  intros Hg. apply map_eq. intros l'. rewrite !lookup_fmap.
  destruct (decide (l = l')) as [<-|].
  - rewrite lookup_alter, decide_True by done. destruct (m !! l) as [a|]; [|done].
    simpl. f_equal. by apply Hg.
  - by rewrite lookup_alter_ne.
Qed.

Lemma lookup_alter_cases {A} (g : A → A) (m : gmap loc A) l l' a :
  alter g l m !! l' = Some a →
  (l' = l ∧ ∃ a0, m !! l = Some a0 ∧ a = g a0) ∨ (l' ≠ l ∧ m !! l' = Some a).
Proof.
  destruct (decide (l = l')) as [<-|].
  - rewrite lookup_alter, decide_True by done. intros (a0 & ? & ?)%fmap_Some. eauto.
  - rewrite lookup_alter_ne by done. auto.
Qed.

(** ** State updates that keep the invariant *)

Lemma mpls_labels_snoc out o : mpls_labels (out ++ [o]) = mpls_step (mpls_labels out) o.
Proof. unfold mpls_labels. by rewrite foldl_app. Qed.

(** Parts of the state that the invariant does not mention. *)
Lemma inv_clock b s f : Inv b s → Inv b (s <| st_clock ::= f |>).
Proof. intros []. split; try done; by destruct inv_timers0, inv_labels0. Qed.
Lemma inv_lsp_id b s f : Inv b s → Inv b (s <| st_next_lsp_id ::= f |>).
Proof. intros []. split; try done; by destruct inv_timers0, inv_labels0. Qed.

Lemma inv_emit b s o :
  Inv b s → (∀ n, n ∈ mpls_step (mpls_labels (st_out s)) o → n ≠ 0 →
               n ∈ mpls_labels (st_out s) ∨ ∃ l r, rsbs s !! l = Some r ∧ rsb_label_in r = n) →
  Inv b (s <| st_out ::= λ os, os ++ [o] |>).
Proof.
  intros [] Ho. split; try done; [by destruct inv_timers0|].
  destruct inv_labels0 as [(H' & L1 & L2 & L3) Hinj]. split; [|done].
  exists H'. split; [done|]. split; [done|]. intros n. simpl. rewrite mpls_labels_snoc.
  intros Hn Hnz. destruct (Ho n Hn Hnz) as [?|?]; [by apply L3|]. apply L2. done.
Qed.

Lemma inv_timers_update b s ts :
  Inv b s → ti_ok ts → (∀ t, is_Some (ti_view ts !! t) ↔ is_Some (ti_view (st_timers s) !! t)) →
  (∀ t a cb, ti_view ts !! t = Some (a, Some cb) → cb = timer_callback t) →
  (∀ t a cb, ti_view ts !! t = Some (a, cb) → timer_live s t ∨ (a = false ∧ cb = None)) →
  Inv b (s <| st_timers := ts |>).
Proof.
  intros [] Hok Hm Hcb Hact. split; try done; [|by destruct inv_labels0].
  destruct inv_timers0. split; try done. intros t. simpl. rewrite Hm. apply ti_inv_mem0.
Qed.

Lemma timers_inv_live s s' :
  timers_inv s → st_timers s' = st_timers s → (∀ t, timer_live s' t ↔ timer_live s t) →
  timers_inv s'.
Proof.
  intros [Hok Hm Hcb Ha] E Hl. split; rewrite E; try done.
  - intros t. by rewrite Hm, Hl.
  - intros t a cb Ht. rewrite Hl. by eapply Ha.
Qed.

(** What an update of a path block has to respect. *)
Definition psb_update_ok b s l (f : rsvp_psb → rsvp_psb) : Prop :=
  ∀ p, psbs s !! l = Some p → psb_good p →
    psb_key (f p) = psb_key p ∧ psb_associated_rsb (f p) = psb_associated_rsb p ∧ psb_good (f p)
    ∧ (psb_is_bypass_tunnel p = true → psb_is_bypass_tunnel (f p) = true)
    ∧ (b = true → psb_bypass_psb (f p) = psb_bypass_psb p
       ∨ ∃ c q, psb_bypass_psb (f p) = Some c ∧ psbs s !! c = Some q
           ∧ psb_is_bypass_tunnel q = true).

Lemma psb_update_frame s l f :
  (∀ p, psbs s !! l = Some p → psb_good p → pshape (f p) = pshape p) →
  (∀ p, psbs s !! l = Some p → psb_good p) →
  frame s (s <| st_psb ::= λ t, table_update t l f |>).
Proof. intros Hf Hg. split; try done. apply fmap_alter_shape. eauto. Qed.

Lemma inv_psb_update b s l f :
  Inv b s → psb_update_ok b s l f → Inv b (s <| st_psb ::= λ t, table_update t l f |>).
Proof.
  intros Hinv Hf. set (s' := s <| st_psb ::= _ |>).
  assert (psbs s' = alter f l (psbs s)) as Hps by done.
  set (sh := λ p, (psb_key p, psb_associated_rsb p)).
  assert (sh <$> psbs s' = sh <$> psbs s) as Hsh.
  { rewrite Hps. apply fmap_alter_shape. intros p Hp. unfold sh.
    destruct (Hf p Hp) as (-> & -> & _); [by eapply inv_psb_good|done]. }
  destruct Hinv. split; try done.
  - apply table_update_ok; [done|]. intros p Hp. apply (Hf p Hp). eauto.
  - intros l' p [(-> & p0 & Hp0 & ->)|[_ Hp]]%lookup_alter_cases; [|eauto].
    apply (Hf p0 Hp0). eauto.
  - intros lr r Hr. destruct (inv_assoc_rsb0 lr r Hr) as (lp & p & ? & Hlp & ? & ?).
    destruct (fmap_lookup_inv _ _ _ _ _ Hsh Hlp) as (p' & ? & [= ? ?]).
    exists lp, p'. split_and!; congruence.
  - intros l' p lr [(-> & p0 & Hp0 & ->)|[_ Hp]]%lookup_alter_cases Ha; [|eauto].
    destruct (Hf p0 Hp0) as (_ & ? & _); [by eauto|].
    apply (inv_assoc_psb0 l p0); [done|congruence].
  - apply (timers_inv_live s); [done..|].
    intros []; simpl; try done; by rewrite (fmap_live_inv _ _ _ _ Hsh).
  - by destruct inv_labels0.
  - intros Hb. assert (∀ c q, psbs s !! c = Some q → psb_is_bypass_tunnel q = true →
      ∃ q', psbs s' !! c = Some q' ∧ psb_is_bypass_tunnel q' = true) as Hkeep.
    { intros c q Hq Hbq. rewrite Hps. destruct (decide (l = c)) as [<-|].
      - rewrite lookup_alter, decide_True, Hq by done. eexists. split; [done|].
        apply (Hf q Hq); [by eauto|done].
      - rewrite lookup_alter_ne by done. eauto. }
    intros l' p c [(-> & p0 & Hp0 & ->)|[_ Hp]]%lookup_alter_cases Hc.
    + destruct (Hf p0 Hp0) as (_ & _ & _ & _ & Hby); [by eauto|].
      destruct (Hby Hb) as [E|(c' & q & E & ? & ?)].
      * rewrite E in Hc. destruct (inv_bypass0 Hb _ _ _ Hp0 Hc) as (q & ? & ?). eauto.
      * rewrite E in Hc. injection Hc as <-. eauto.
    + destruct (inv_bypass0 Hb _ _ _ Hp Hc) as (q & ? & ?). eauto.
Qed.

(** An update of a reservation block that keeps its label. *)
Definition rsb_update_ok s l (f : rsvp_rsb → rsvp_rsb) : Prop :=
  ∀ r, rsbs s !! l = Some r → refresh_ok (rsb_refresh_ms r) →
    rshape (f r) = rshape r ∧ refresh_ok (rsb_refresh_ms (f r)) ∧ rsb_label_in (f r) = rsb_label_in r.

Lemma rsb_update_frame s l f :
  (∀ r, rsbs s !! l = Some r → rshape (f r) = rshape r) →
  frame s (s <| st_rsb ::= λ t, table_update t l f |>).
Proof. intros Hf. split; try done. by apply fmap_alter_shape. Qed.

(** The reservation table and the labels change; everything else is as before. *)
Lemma inv_rsb_change b s l f ls out :
  Inv b s → (∀ r, rsbs s !! l = Some r → refresh_ok (rsb_refresh_ms r) →
               rshape (f r) = rshape r ∧ refresh_ok (rsb_refresh_ms (f r))) →
  let s' := s <| st_rsb ::= λ t, table_update t l f |> <| st_labels := ls |> <| st_out := out |> in
  labels_ok s' → Inv b s'.
Proof.
  intros Hinv Hf s' Hlab.
  assert (rshape <$> rsbs s' = rshape <$> rsbs s) as Hsh.
  { apply fmap_alter_shape. intros r Hr. apply (Hf r Hr). by eapply inv_rsb_good. }
  assert (frame s s') as Hfr by (by split).
  destruct Hinv. split; try done.
  - apply table_update_ok; [done|]. intros r Hr.
    destruct (Hf r Hr) as ([= ? ?] & _); [by eauto|done].
  - intros l' r [(-> & r0 & Hr0 & ->)|[_ Hr]]%lookup_alter_cases; [|eauto].
    apply (Hf r0 Hr0). eauto.
  - intros l' r [(-> & r0 & Hr0 & ->)|[_ Hr]]%lookup_alter_cases; [|eauto].
    destruct (Hf r0 Hr0) as ([= ? ?] & _); [by eauto|].
    destruct (inv_assoc_rsb0 l r0 Hr0) as (lp & p & ? & ? & ? & ?).
    exists lp, p. split_and!; first [done|congruence].
  - intros lp p lr Hp Ha. destruct (inv_assoc_psb0 lp p lr Hp Ha) as (r & Hr & ?).
    destruct (frame_rsb s s' lr r Hfr Hr) as (r' & ? & ? & ?). exists r'. split; congruence.
  - apply (timers_inv_live s); [done..|].
    intros []; simpl; try done; by rewrite (fmap_live_inv _ _ _ _ Hsh).
Qed.

Lemma inv_rsb_update b s l f :
  Inv b s → rsb_update_ok s l f →
  Inv b (s <| st_rsb ::= λ t, table_update t l f |>)
  ∧ frame s (s <| st_rsb ::= λ t, table_update t l f |>).
Proof.
  intros Hinv Hf. pose proof (inv_rsb_good b s Hinv) as Hg. split.
  - apply (inv_rsb_change b s l f (st_labels s) (st_out s)); [done| |].
    + intros r Hr Hrf. destruct (Hf r Hr Hrf) as (? & ? & _). done.
    + destruct (inv_labels b s Hinv) as [(H' & L1 & L2 & L3) Hinj].
      assert (∀ l' r, alter f l (rsbs s) !! l' = Some r →
                ∃ r0, rsbs s !! l' = Some r0 ∧ rsb_label_in r0 = rsb_label_in r) as Hback.
      { intros l' r [(-> & r0 & Hr0 & ->)|[_ Hr]]%lookup_alter_cases; [|eauto].
        exists r0. split; [done|]. symmetry. apply (Hf r0 Hr0). eauto. }
      split.
      * exists H'. split; [done|]. split; [|done]. intros n. rewrite L2. apply and_iff_compat_l.
        split; intros (l' & r & Hr & <-).
        -- destruct (decide (l = l')) as [<-|].
           ++ exists l, (f r). simpl. unfold rsbs. simpl. rewrite lookup_alter, decide_True by done.
              unfold rsbs in Hr. rewrite Hr. split; [done|]. apply (Hf r Hr). eauto.
           ++ exists l', r. unfold rsbs. simpl. by rewrite lookup_alter_ne.
        -- destruct (Hback l' r Hr) as (r0 & ? & ?). eauto.
      * intros l1 l2 r1 r2 Hr1 Hr2 E Hnz.
        destruct (Hback l1 r1 Hr1) as (a1 & ? & ?), (Hback l2 r2 Hr2) as (a2 & ? & ?).
        eapply (Hinj l1 l2 a1 a2); congruence.
  - apply rsb_update_frame. intros r Hr. apply (Hf r Hr). eauto.
Qed.

Lemma inv_bsb_update b s l f :
  Inv b s → (∀ x, bsb_key (f x) = bsb_key x) →
  Inv b (s <| st_bsb ::= λ t, table_update t l f |>)
  ∧ frame s (s <| st_bsb ::= λ t, table_update t l f |>).
Proof.
  intros Hinv Hf. set (s' := s <| st_bsb ::= _ |>).
  assert (bsb_key <$> bsbs s' = bsb_key <$> bsbs s) as Hsh
    by (apply fmap_alter_shape; intros; apply Hf).
  split; [|by split]. destruct Hinv. split; try done.
  - by apply table_update_ok.
  - apply (timers_inv_live s); [done..|].
    intros []; simpl; try done; by rewrite (fmap_live_inv _ _ _ _ Hsh).
  - by destruct inv_labels0.
Qed.
End invariant.
