(* ===== verification/Signalling.v ===== *)
(** * Signalling between two daemons (src/pi/rsvp_state_machine.c)

    The PATH and RESV messages that a daemon sends ([path_message],
    [resv_message]) as lists of objects, all of which fit their buffers, and what
    the parser of the next daemon makes of them. *)

From stdpp Require Import base numbers list option sets.
From S2P Require Import Prelude Wire Protocol Builder Checksum SendPacket Parser RoundTrip.
From S2P Require Import WheelTimer Timers Interfaces StateDb Timing State Messages StateMachine Invariant.

(** ** A builder as a list of objects *)

Record holds (b : rsvp_builder) (size : nat) (ty ttl : Z) (os : list wobj) : Prop := {
  ho_wf : builder_wf b;
  ho_size : b_size b = size;
  ho_written : written b = store_struct (mk_rsvp_common_hdr 16 ty 0 ttl 0 0) ++ encode_objs os;
}.

Lemma holds_init size ty ttl :
  (8 <= size)%nat → is_byte ty → is_byte ttl →
  holds (hdr_set_ttl (rsvp_builder_init size ty) ttl) size ty ttl [].
Proof.
  intros Hs Hty Httl.
  assert (builder_wf (rsvp_builder_init size ty)) as Hwf
    by (apply rsvp_builder_init_wf; rewrite sizeof_common_hdr; lia).
  destruct (hdr_store_spec (rsvp_builder_init size ty) 4 (le_bytes 1 ttl)) as (W & E & _ & S);
    [done|rewrite length_le_bytes, sizeof_common_hdr; lia|apply le_bytes_ok|].
  split; [exact W|exact S|].
  unfold hdr_set_ttl. rewrite E. unfold written.
  rewrite rsvp_builder_init_buffer by (rewrite sizeof_common_hdr; lia). reflexivity.
Qed.

(** The room that [os] takes. *)
Definition objs_len (os : list wobj) : nat := length (encode_objs os).

Lemma encode_objs_app os1 os2 : encode_objs (os1 ++ os2) = encode_objs os1 ++ encode_objs os2.
Proof. unfold encode_objs. by rewrite fmap_app, join_app. Qed.
Lemma objs_len_app os1 os2 : objs_len (os1 ++ os2) = (objs_len os1 + objs_len os2)%nat.
Proof. unfold objs_len. by rewrite encode_objs_app, length_app. Qed.
Lemma objs_len_one o : objs_len [o] = RSVP_ALIGN (wobj_len o).
Proof.
  unfold objs_len. rewrite encode_objs_cons, length_app, length_encode_wobj. simpl. lia.
Qed.

Lemma holds_add r b size ty ttl os o :
  r = rsvp_builder_add_obj b (wo_class o) (wo_ctype o) (wo_data o) →
  holds b size ty ttl os → bytes_ok (wo_data o) →
  (8 + objs_len (os ++ [o]) <= size)%nat →
  holds (snd r) size ty ttl (os ++ [o]).
Proof.
  intros -> [Hwf Hs Hw] Hd Hfit. pose proof (length_written b Hwf) as Hl.
  rewrite Hw, length_app in Hl. rewrite objs_len_app, objs_len_one in Hfit. unfold objs_len in Hfit.
  destruct (rsvp_builder_add_obj_ok b (wo_class o) (wo_ctype o) (wo_data o)) as (b' & -> & W & S & M);
    [done|done|unfold wobj_len in Hfit; rewrite <- Hl, Hs; simpl length; lia|].
  split; [done|cbn; congruence|]. cbn. rewrite M, Hw, encode_objs_app, <- app_assoc.
  do 2 f_equal. by rewrite encode_objs_cons, app_nil_r.
Qed.

Lemma holds_add_if b size ty ttl os (c : bool) o f :
  (c = true → f b = rsvp_builder_add_obj b (wo_class o) (wo_ctype o) (wo_data o)) →
  holds b size ty ttl os → bytes_ok (wo_data o) →
  (8 + objs_len (os ++ [o]) <= size)%nat →
  holds (snd (add_if c f b)) size ty ttl (os ++ if c then [o] else []).
Proof.
  intros Hf. intros. unfold add_if. destruct c; [by eapply holds_add; [apply Hf|..]|].
  by rewrite app_nil_r.
Qed.

(** ** From the builder to the next daemon *)

(** The packet that [finalize_and_send] gives to the socket. *)
Definition packet_of (b : rsvp_builder) (src dst : Z) (rao : bool) : option (list Z) :=
  let '(n, b) := rsvp_builder_finalize b in
  '(_, packet) ← rsvp_send_packet true true src dst (b_buffer b) n rao; packet.


(** ** The objects *)

Definition session_obj (k : rsvp_path_key) : wobj :=
  mk_wobj RSVP_CLASS_SESSION 7
    (store_struct (mk_rsvp_session_ipv4 (sess_dest_addr (key_session k)) 0
       (htons (ntohs (sess_tunnel_id (key_session k)))) (sess_extended_tunnel_id (key_session k)))).
Definition hop_obj (addr ifindex : Z) : wobj :=
  mk_wobj RSVP_CLASS_HOP 1 (store_struct (mk_rsvp_hop_ipv4 addr (htonl ifindex))).
Definition time_obj (ms : Z) : wobj :=
  mk_wobj RSVP_CLASS_TIME_VALUES 1 (store_struct (mk_rsvp_time_values (htonl ms))).
Definition route_obj (class : Z) (l : list rsvp_ero_ipv4_subobj) : wobj :=
  mk_wobj class 1 (mjoin (store_struct <$> l)).
Definition label_request_obj : wobj :=
  mk_wobj RSVP_CLASS_LABEL_REQUEST 1 (store_struct (mk_rsvp_label_request 0 (htons 2048))).
Definition attr_obj (p : rsvp_psb) : wobj :=
  let name := default [] (psb_lsp_name p) in
  let n := if (255 <? length name)%nat then 255%nat else length name in
  mk_wobj RSVP_CLASS_SESSION_ATTRIB 7
    (store_struct (mk_rsvp_session_attribute (psb_setup_prio p) (psb_holding_prio p)
       (path_sa_flags p) (Z.of_nat n)) ++ take n name).
Definition frr_obj (p : rsvp_psb) : wobj :=
  mk_wobj RSVP_CLASS_FAST_REROUTE 1
    (store_struct (mk_rsvp_fast_reroute (psb_setup_prio p) (psb_holding_prio p) 32
       RSVP_FRR_FLAG_FACILITY (rsvp_float_to_net (u32_to_float (psb_frr_bandwidth p))) 0 0 0)).
Definition sender_obj (class : Z) (k : rsvp_path_key) : wobj :=
  mk_wobj class 7 (store_struct (key_sender k)).
Definition tspec_obj (class : Z) (t : rsvp_sender_tspec) : wobj :=
  mk_wobj class 2 (store_struct (tspec_hton t)).
Definition style_obj (style : Z) : wobj :=
  mk_wobj RSVP_CLASS_STYLE 1 (store_struct (mk_rsvp_style (htonl style))).
Definition label_obj (label : Z) : wobj :=
  mk_wobj RSVP_CLASS_LABEL 1 (store_struct (mk_rsvp_label_ipv4 (htonl label))).

(** The contents of a PATH and of a RESV. *)
Definition path_has_frr (p : rsvp_psb) : bool :=
  negb (bool_decide (psb_frr_mode p = RSVP_FRR_NONE)) && negb (psb_is_bypass_tunnel p).
Definition path_objs (p : rsvp_psb) (local_addr ifindex : Z) : list wobj :=
  [session_obj (psb_key p); hop_obj local_addr ifindex; time_obj (psb_refresh_ms p)]
  ++ (if (0 <? length (psb_ero p))%nat then [route_obj RSVP_CLASS_EXPLICIT_ROUTE (psb_ero p)] else [])
  ++ [label_request_obj; attr_obj p]
  ++ (if path_has_frr p then [frr_obj p] else [])
  ++ [sender_obj RSVP_CLASS_SENDER_TEMPLATE (psb_key p); tspec_obj RSVP_CLASS_SENDER_TSPEC (path_tspec p)]
  ++ (if (length (psb_rro p) <? MAX_RRO_HOPS)%nat
      then [route_obj RSVP_CLASS_RECORD_ROUTE (path_rro p local_addr)] else []).
Definition resv_objs (p : rsvp_psb) (r : rsvp_rsb) (merged : rsvp_sender_tspec)
    (local_addr out_if : Z) : list wobj :=
  [session_obj (psb_key p); hop_obj local_addr out_if; time_obj (rsb_refresh_ms r);
   style_obj (rsb_out_style r); tspec_obj RSVP_CLASS_FLOWSPEC merged;
   sender_obj RSVP_CLASS_FILTER_SPEC (psb_key p); label_obj (rsb_label_in r)].

(** *** Sizes *)

Lemma length_route (l : list rsvp_ero_ipv4_subobj) : length (mjoin (store_struct <$> l)) = (8 * length l)%nat.
Proof.
  induction l as [|s l IH]; [done|]. change (mjoin _) with (store_struct s ++ mjoin (store_struct <$> l)).
  rewrite length_app, IH. change (length (store_struct s)) with 8%nat. simpl. lia.
Qed.

Lemma route_bytes (l : list rsvp_ero_ipv4_subobj) : bytes_ok (mjoin (store_struct (T := rsvp_ero_ipv4_subobj) <$> l)).
Proof.
  induction l as [|s l IH]; [constructor|]. apply Forall_app; split; [apply store_struct_bytes_ok|done].
Qed.

Lemma objs_len_if (c : bool) o : (objs_len (if c then [o] else []) <= objs_len [o])%nat.
Proof. destruct c; [done|]. unfold objs_len at 1. simpl. lia. Qed.

Lemma route_obj_len class l : objs_len [route_obj class l] = (4 + 8 * length l)%nat.
Proof.
  rewrite objs_len_one. unfold wobj_len, route_obj. cbn [wo_data]. rewrite length_route.
  change (sizeof rsvp_obj_hdr) with 4%nat. rewrite RSVP_ALIGN_id; [done|dlia].
Qed.

Lemma attr_obj_len p : (objs_len [attr_obj p] <= 264)%nat.
Proof.
  rewrite objs_len_one. pose proof (RSVP_ALIGN_lt (wobj_len (attr_obj p))) as H.
  assert (wobj_len (attr_obj p) <= 263)%nat as Hl.
  { unfold wobj_len, attr_obj. cbn [wo_data]. rewrite length_app, length_take.
    change (length (store_struct _)) with 4%nat. change (sizeof rsvp_obj_hdr) with 4%nat.
    case_if; bools; lia. }
  pose proof (RSVP_ALIGN_mod (wobj_len (attr_obj p))). dlia.
Qed.

Definition name_bytes_ok (p : rsvp_psb) : Prop := bytes_ok (default [] (psb_lsp_name p)).

Lemma attr_obj_bytes p : name_bytes_ok p → bytes_ok (wo_data (attr_obj p)).
Proof.
  intros Hn. apply Forall_app; split; [apply store_struct_bytes_ok|]. by apply Forall_take.
Qed.

Lemma forward_ttl_byte ttl : is_byte ttl → is_byte (forward_ttl ttl).
Proof. unfold is_byte, forward_ttl. intros. case_if; bools; lia. Qed.

(** ** The messages hold their objects *)

Lemma session_obj_data k : bytes_ok (wo_data (session_obj k)). Proof. apply store_struct_bytes_ok. Qed.
Lemma hop_obj_data a i : bytes_ok (wo_data (hop_obj a i)). Proof. apply store_struct_bytes_ok. Qed.
Lemma time_obj_data t : bytes_ok (wo_data (time_obj t)). Proof. apply store_struct_bytes_ok. Qed.
Lemma label_request_data : bytes_ok (wo_data label_request_obj). Proof. apply store_struct_bytes_ok. Qed.
Lemma frr_obj_data p : bytes_ok (wo_data (frr_obj p)). Proof. apply store_struct_bytes_ok. Qed.
Lemma sender_obj_data c k : bytes_ok (wo_data (sender_obj c k)). Proof. apply store_struct_bytes_ok. Qed.
Lemma tspec_obj_data c t : bytes_ok (wo_data (tspec_obj c t)). Proof. apply store_struct_bytes_ok. Qed.
Lemma style_obj_data s : bytes_ok (wo_data (style_obj s)). Proof. apply store_struct_bytes_ok. Qed.
Lemma label_obj_data l : bytes_ok (wo_data (label_obj l)). Proof. apply store_struct_bytes_ok. Qed.
Lemma route_obj_data c l : bytes_ok (wo_data (route_obj c l)). Proof. apply route_bytes. Qed.
Create HintDb objs.
#[export] Hint Resolve session_obj_data hop_obj_data time_obj_data label_request_data frr_obj_data
  sender_obj_data tspec_obj_data style_obj_data label_obj_data route_obj_data : objs.

Lemma session_obj_len k : objs_len [session_obj k] = 16%nat. Proof. done. Qed.
Lemma hop_obj_len a i : objs_len [hop_obj a i] = 12%nat. Proof. done. Qed.
Lemma time_obj_len t : objs_len [time_obj t] = 8%nat. Proof. done. Qed.
Lemma label_request_len : objs_len [label_request_obj] = 8%nat. Proof. done. Qed.
Lemma frr_obj_len p : objs_len [frr_obj p] = 24%nat. Proof. done. Qed.
Lemma sender_obj_len c k : objs_len [sender_obj c k] = 12%nat. Proof. done. Qed.
Lemma tspec_obj_len c t : objs_len [tspec_obj c t] = 36%nat. Proof. done. Qed.
Lemma style_obj_len s : objs_len [style_obj s] = 8%nat. Proof. done. Qed.
Lemma label_obj_len l : objs_len [label_obj l] = 8%nat. Proof. done. Qed.
Lemma objs_len_nil : objs_len [] = 0%nat. Proof. done. Qed.
#[export] Hint Rewrite objs_len_app session_obj_len hop_obj_len time_obj_len label_request_len
  frr_obj_len sender_obj_len tspec_obj_len style_obj_len label_obj_len route_obj_len
  objs_len_nil : objs.


(** The room for one more object. *)
Ltac room p :=
  autorewrite with objs; pose proof (attr_obj_len p);
  repeat match goal with
  | |- context [objs_len (if ?c then [?o] else [])] =>
      let H := fresh in
      pose proof (objs_len_if c o) as H; autorewrite with objs in H;
      generalize dependent (objs_len (if c then [o] else [])); intros
  end; lia.

Lemma resv_message_holds p r merged la oi :
  is_byte (rsb_ttl r) →
  holds (resv_message p r merged la oi) 1024 RSVP_MSG_RESV (forward_ttl (rsb_ttl r))
    (resv_objs p r merged la oi).
Proof.
  intros Httl. unfold resv_message.
  change (resv_objs p r merged la oi) with
    ([] ++ [session_obj (psb_key p)] ++ [hop_obj la oi] ++ [time_obj (rsb_refresh_ms r)]
     ++ [style_obj (rsb_out_style r)] ++ [tspec_obj RSVP_CLASS_FLOWSPEC merged]
     ++ [sender_obj RSVP_CLASS_FILTER_SPEC (psb_key p)] ++ [label_obj (rsb_label_in r)]).
  rewrite !app_assoc.
  repeat (eapply holds_add; [reflexivity| |auto with objs|room p]).
  apply holds_init; [lia|done|by apply forward_ttl_byte].
Qed.

Lemma path_message_holds p la i :
  psb_good p → is_byte (psb_ttl p) → name_bytes_ok p →
  holds (path_message p la i) 1500 RSVP_MSG_PATH (forward_ttl (psb_ttl p)) (path_objs p la i).
Proof.
  intros Hg Httl Hn. unfold path_message.
  change (path_objs p la i) with
    ([] ++ [session_obj (psb_key p)] ++ [hop_obj la i] ++ [time_obj (psb_refresh_ms p)]
     ++ (if (0 <? length (psb_ero p))%nat then [route_obj RSVP_CLASS_EXPLICIT_ROUTE (psb_ero p)] else [])
     ++ [label_request_obj] ++ [attr_obj p] ++ (if path_has_frr p then [frr_obj p] else [])
     ++ [sender_obj RSVP_CLASS_SENDER_TEMPLATE (psb_key p)]
     ++ [tspec_obj RSVP_CLASS_SENDER_TSPEC (path_tspec p)]
     ++ (if (length (psb_rro p) <? MAX_RRO_HOPS)%nat
         then [route_obj RSVP_CLASS_RECORD_ROUTE (path_rro p la)] else [])).
  pose proof (pg_ero p Hg) as He. pose proof (pg_rro p Hg) as Hr.
  assert (length (path_rro p la) = S (length (psb_rro p))) as Hrro
    by (unfold path_rro; rewrite length_app; simpl; lia).
  change MAX_ERO_HOPS with 32%nat in He. change MAX_RRO_HOPS with 32%nat in *.
  assert (bytes_ok (wo_data (attr_obj p))) as Hattr by (by apply attr_obj_bytes).
  rewrite !app_assoc.
  eapply holds_add_if; [| |auto with objs|room p].
  { intros _. unfold rsvp_builder_add_rro. rewrite Hrro. reflexivity. }
  do 2 (eapply holds_add; [reflexivity| |auto with objs|room p]).
  eapply holds_add_if; [reflexivity| |auto with objs|room p].
  do 2 (eapply holds_add; [reflexivity| |auto with objs|room p]).
  eapply holds_add_if; [| |auto with objs|room p].
  { intros Hc. unfold rsvp_builder_add_ero. bools.
    by rewrite (proj2 (Nat.eqb_neq _ 0)) by lia. }
  do 3 (eapply holds_add; [reflexivity| |auto with objs|room p]).
  apply holds_init; [lia|done|by apply forward_ttl_byte].
Qed.

(** ** What the parser reports *)

Definition rejects (s : slot) (o : wobj) : Prop :=
  slot_accepts s (wo_class o) (wo_ctype o) (wobj_len o) = false.

Lemma first_accepted_at off os1 o os2 s :
  Forall (rejects s) os1 → slot_accepts s (wo_class o) (wo_ctype o) (wobj_len o) = true →
  ∃ p, first_accepted off (os1 ++ o :: os2) s = Some (p, o).
Proof.
  intros Hr Ha. revert off. induction Hr as [|w os1 Hw _ IH]; intros off; simpl.
  - rewrite Ha. eauto.
  - unfold rejects in Hw. by rewrite Hw.
Qed.

Lemma first_accepted_none off os s : Forall (rejects s) os → first_accepted off os s = None.
Proof.
  intros Hr. revert off. induction Hr as [|w os Hw _ IH]; intros off; simpl; [done|].
  unfold rejects in Hw. by rewrite Hw.
Qed.

Definition slots_filled (m : list Z) (off : nat) (os : list wobj) (i : rsvp_message_info) : Prop :=
  Forall (λ s, match first_accepted off os s with
               | None => slot_ptr s i = None
               | Some (p, w) => slot_ptr s i = Some p
                   ∧ read_bytes m p (length (wo_data w)) = Some (wo_data w)
               end) parser_slots.

Lemma slot_object m off os i s os1 o os2 :
  slots_filled m off os i → s ∈ parser_slots → os = os1 ++ o :: os2 → Forall (rejects s) os1 →
  slot_accepts s (wo_class o) (wo_ctype o) (wobj_len o) = true →
  ∃ p, slot_ptr s i = Some p ∧ read_bytes m p (length (wo_data o)) = Some (wo_data o).
Proof.
  unfold slots_filled. rewrite Forall_forall. intros Hf Hs -> Hr Ha.
  destruct (first_accepted_at off os1 o os2 s Hr Ha) as [p Ep]. specialize (Hf s Hs).
  rewrite Ep in Hf. eauto.
Qed.

Lemma slot_empty m off os i s :
  slots_filled m off os i → s ∈ parser_slots → Forall (rejects s) os → slot_ptr s i = None.
Proof.
  unfold slots_filled. rewrite Forall_forall. intros Hf Hs Hr. specialize (Hf s Hs).
  by rewrite first_accepted_none in Hf.
Qed.

Lemma read_bytes_split m p n bs :
  read_bytes m p n = Some bs →
  n = length bs ∧ m = take p m ++ bs ++ drop (p + n) m ∧ length (take p m) = p.
Proof.
  unfold read_bytes. intros H. case_if_in H; [|done]. injection H as <-. bools.
  rewrite !length_take, length_drop. split; [lia|]. split; [|lia].
  rewrite <- drop_drop, take_drop. by rewrite take_drop.
Qed.

Lemma read_struct {T} `{WireLaws T} m p (t : T) rest :
  read_bytes m p (length (store_struct t ++ rest)) = Some (store_struct t ++ rest) → struct_ok t →
  load_struct T m p = Some t.
Proof.
  intros (_ & Hm & Hl)%read_bytes_split Ht.
  pose proof (load_store_struct t (take p m)
    (rest ++ drop (p + length (store_struct t ++ rest)) m) Ht) as Hload.
  by rewrite (app_assoc (store_struct t)), <- Hm, Hl in Hload.
Qed.

(** *** Route lists *)

Definition hop_ok (s : rsvp_ero_ipv4_subobj) : Prop :=
  struct_ok s ∧ Z.land (subobj_type s) 127 = RSVP_ERO_IPV4 ∧ subobj_length s = 8.

Lemma hop_bytes s rest : hop_ok s → ∃ t rest', store_struct s ++ rest = t :: 8 :: rest'
  ∧ Z.land t 127 = RSVP_ERO_IPV4.
Proof.
  intros (Hs & Ht & Hl). pose proof (Forall2_cons_1 _ _ _ _ _ Hs) as [Hb _]. simpl in Hb.
  exists (subobj_type s mod 256). eexists. split.
  - change (store_struct s) with
      (subobj_type s mod 256 :: subobj_length s mod 256
       :: le_bytes 4 (subobj_addr s) ++ le_bytes 1 (subobj_prefix_len s)
       ++ le_bytes 1 (subobj_res s) ++ []).
    rewrite Hl. reflexivity.
  - by rewrite Z.mod_small by lia.
Qed.

Lemma load_byte x y rest : load 1 (x :: y :: rest) 0 = Some x ∧ load 1 (x :: y :: rest) 1 = Some y.
Proof.
  assert (∀ z, le_value [z] = z) as Hz by (intros z; simpl; lia).
  split; unfold load; rewrite (proj2 (Nat.leb_le _ _)) by (simpl; lia); simpl take;
    by rewrite Hz.
Qed.

Lemma parse_subobjs_encoded fuel pre l post max acc :
  Forall hop_ok l → (length acc + length l <= max)%nat → (length l <= fuel)%nat →
  parse_subobjs fuel (pre ++ mjoin (store_struct <$> l) ++ post) (length pre) (8 * length l) max acc
  = Some (acc ++ l).
Proof.
  intros Hl. revert fuel pre acc. induction Hl as [|s l Hs _ IH]; intros fuel pre acc Hmax Hf.
  - rewrite app_nil_r. destruct fuel; done.
  - destruct fuel as [|fuel]; [simpl in Hf; lia|]. simpl in Hmax, Hf.
    change (mjoin (store_struct <$> s :: l)) with (store_struct s ++ mjoin (store_struct <$> l)).
    rewrite <- app_assoc. set (rest := mjoin (store_struct <$> l) ++ post).
    destruct (hop_bytes s rest Hs) as (t & rest' & Et & Ht).
    cbn [parse_subobjs].
    rewrite (proj2 (Nat.ltb_ge _ 2)) by (simpl; lia). rewrite (proj2 (Nat.leb_gt max _)) by lia.
    cbn [orb].
    assert (load 1 (pre ++ store_struct s ++ rest) (length pre) = Some t) as ->.
    { rewrite Et, <- (Nat.add_0_r (length pre)), load_app_shift. apply load_byte. }
    assert (load 1 (pre ++ store_struct s ++ rest) (length pre + 1) = Some 8) as ->.
    { rewrite Et, load_app_shift. apply load_byte. }
    cbn [mbind option_bind]. change (8 <? 2) with false.
    rewrite (proj2 (Z.ltb_ge _ 8)) by (simpl length; lia). cbn [orb].
    rewrite Ht. change (8 =? Z.of_nat (sizeof rsvp_ero_ipv4_subobj)) with true.
    rewrite Z.eqb_refl. cbn [andb].
    rewrite (load_store_struct s pre rest) by apply Hs. cbn [mbind option_bind].
    change (Z.to_nat 8) with 8%nat.
    replace (length pre + 8)%nat with (length (pre ++ store_struct s))
      by (rewrite length_app; reflexivity).
    replace (8 * length (s :: l) - 8)%nat with (8 * length l)%nat by (simpl length; lia).
    rewrite app_assoc, IH by (rewrite ?length_app; simpl; lia).
    by rewrite <- app_assoc.
Qed.

(** *** The lengths of the route objects *)

Definition ero_slot : slot := mk_slot info_ero (of_class [RSVP_CLASS_EXPLICIT_ROUTE] None 1).
Definition rro_slot : slot := mk_slot info_rro (of_class [RSVP_CLASS_RECORD_ROUTE] None 1).

Lemma parse_session_name_routes m d n i i' :
  parse_session_name m d n i = Some i' →
  info_ero i' = info_ero i ∧ info_ero_len i' = info_ero_len i
  ∧ info_rro i' = info_rro i ∧ info_rro_len i' = info_rro_len i.
Proof.
  unfold parse_session_name. intros (sa & _ & Hs)%bind_Some. case_if_in Hs.
  - apply bind_Some in Hs as (name & _ & [= <-]). done.
  - by injection Hs as <-.
Qed.

Definition routes_of (i : rsvp_message_info) :=
  ((info_ero i, info_ero_len i), (info_rro i, info_rro_len i)).

Lemma parse_object_no_route m c t n d i rc i' :
  c ≠ RSVP_CLASS_EXPLICIT_ROUTE → c ≠ RSVP_CLASS_RECORD_ROUTE →
  parse_object m c t n d i = Some (rc, i') → routes_of i' = routes_of i.
Proof.
  intros H1%Z.eqb_neq H2%Z.eqb_neq. unfold parse_object, parse_other_object. rewrite H1, H2.
  intros Hp.
  repeat match type of Hp with (if ?b then _ else _) = _ => destruct b end;
  repeat match type of Hp with
  | mbind _ _ = _ => apply bind_Some in Hp as (? & Hname & Hp)
  end; injection Hp as <- <-; try done;
  try (by match goal with |- routes_of (if ?b then _ else _) = _ => destruct b end).
  apply parse_session_name_routes in Hname as (E1 & E2 & E3 & E4). unfold routes_of.
  by rewrite E1, E2, E3, E4.
Qed.

Lemma parse_object_ero m t n d i :
  parse_object m RSVP_CLASS_EXPLICIT_ROUTE t n d i
  = Some (RSVP_SUCCESS,
      if null (info_ero i) && (sizeof rsvp_obj_hdr <? n)%nat
      then i <| info_ero := Some d |> <| info_ero_len := (n - sizeof rsvp_obj_hdr)%nat |> else i).
Proof. done. Qed.
Lemma parse_object_rro m t n d i :
  parse_object m RSVP_CLASS_RECORD_ROUTE t n d i
  = Some (RSVP_SUCCESS,
      if null (info_rro i) && (sizeof rsvp_obj_hdr <? n)%nat
      then i <| info_rro := Some d |> <| info_rro_len := (n - sizeof rsvp_obj_hdr)%nat |> else i).
Proof. done. Qed.

(** The length that goes with a route slot. *)
Definition route_lens (off : nat) (os : list wobj) (i i' : rsvp_message_info) : Prop :=
  info_ero_len i' = match info_ero i, first_accepted off os ero_slot with
                    | None, Some (_, o) => length (wo_data o)
                    | _, _ => info_ero_len i
                    end
  ∧ info_rro_len i' = match info_rro i, first_accepted off os rro_slot with
                      | None, Some (_, o) => length (wo_data o)
                      | _, _ => info_rro_len i
                      end.

Definition route_step (s : slot) (len : rsvp_message_info → nat) (c t : Z) (n d : nat)
    (i i' : rsvp_message_info) : Prop :=
  (slot_ptr s i', len i') = if null (slot_ptr s i) && slot_accepts s c t n
                            then (Some d, (n - sizeof rsvp_obj_hdr)%nat)
                            else (slot_ptr s i, len i).

Lemma route_step_skip (s : slot) len c t n d i i' :
  slot_accepts s c t n = false → (slot_ptr s i', len i') = (slot_ptr s i, len i) →
  route_step s len c t n d i i'.
Proof. unfold route_step. intros -> ->. by rewrite andb_false_r. Qed.

Lemma route_accepts (c : Z) (t : Z) (n : nat) :
  of_class [c] None 1 c t n = (sizeof rsvp_obj_hdr <? n)%nat.
Proof.
  rewrite of_class_None by (by apply list_elem_of_singleton).
  change (sizeof rsvp_obj_hdr) with 4%nat. apply eq_true_iff_eq. rewrite Nat.leb_le, Nat.ltb_lt. lia.
Qed.

Lemma parse_object_routes m c t n d i rc i' :
  parse_object m c t n d i = Some (rc, i') →
  route_step ero_slot info_ero_len c t n d i i' ∧ route_step rro_slot info_rro_len c t n d i i'.
Proof.
  intros Hp. assert (∀ a b, a ≠ b → of_class [a] None 1 b t n = false) as Hne.
  { intros. apply of_class_ne. by rewrite list_elem_of_singleton. }
  destruct (decide (c = RSVP_CLASS_EXPLICIT_ROUTE)) as [->|Hc1];
    [|destruct (decide (c = RSVP_CLASS_RECORD_ROUTE)) as [->|Hc2]].
  - rewrite parse_object_ero in Hp. injection Hp as _ <-. split.
    + unfold route_step, ero_slot. cbn [slot_ptr slot_accepts]. rewrite route_accepts. by case_if.
    + apply route_step_skip; [by apply Hne|]. by case_if.
  - rewrite parse_object_rro in Hp. injection Hp as _ <-. split.
    + apply route_step_skip; [by apply Hne|]. by case_if.
    + unfold route_step, rro_slot. cbn [slot_ptr slot_accepts]. rewrite route_accepts. by case_if.
  - apply parse_object_no_route in Hp; [|done..]. unfold routes_of in Hp.
    injection Hp as E1 E2 E3 E4.
    split; (apply route_step_skip; [by apply Hne|cbn; congruence]).
Qed.

Lemma fold_objects_routes m off os i i' :
  fold_objects m off os i = Some (RSVP_SUCCESS, i') → route_lens off os i i'.
Proof.
  revert off i. induction os as [|o os IH]; intros off i Hf; simpl in Hf.
  { injection Hf as <-. split; simpl; by case_match. }
  apply bind_Some in Hf as ([rc i1] & Hp & Hf). case_decide; [|by injection Hf].
  apply IH in Hf as [L1 L2].
  apply parse_object_routes in Hp as [E1 E2].
  assert (length (wo_data o) = wobj_len o - sizeof rsvp_obj_hdr)%nat as Hd by (unfold wobj_len; lia).
  unfold route_step in E1, E2. split; cbn [first_accepted]; [rewrite L1|rewrite L2].
  - change (slot_ptr ero_slot) with info_ero in E1.
    destruct (info_ero i) eqn:E; cbn [null andb] in E1; [injection E1 as E1 E1'; by rewrite E1, E1'|].
    destruct (slot_accepts ero_slot _ _ _); injection E1 as E1 E1'; rewrite E1, ?E1'; [done|]. by case_match.
  - change (slot_ptr rro_slot) with info_rro in E2.
    destruct (info_rro i) eqn:E; cbn [null andb] in E2; [injection E2 as E2 E2'; by rewrite E2, E2'|].
    destruct (slot_accepts rro_slot _ _ _); injection E2 as E2 E2'; rewrite E2, ?E2'; [done|]. by case_match.
Qed.

(** *** A message of a daemon, received *)

(** A message received whole: the packet, and what the parser says. *)
Record received (b : rsvp_builder) (src dst : Z) (rao : bool) (ty : Z) (os : list wobj)
    (m : list Z) (i : rsvp_message_info) : Prop := {
  rc_packet : packet_of b src dst rao = Some m;
  rc_parsed : rsvp_parse_packet m (length m) = Some (validate_mandatory ty i, i);
  rc_info : info_ok m (20 + length (rao_option rao) + 8) (length m) i;
  rc_envelope : envelope m src ty i;
  rc_slots : slots_filled m (20 + length (rao_option rao) + 8) os i;
  rc_ero_len : info_ero_len i = match first_accepted (20 + length (rao_option rao) + 8) os ero_slot with
                                | Some (_, o) => length (wo_data o) | None => 0%nat end;
  rc_rro_len : info_rro_len i = match first_accepted (20 + length (rao_option rao) + 8) os rro_slot with
                                | Some (_, o) => length (wo_data o) | None => 0%nat end;
}.

Lemma wobj_len_objs o os : o ∈ os → (wobj_len o <= objs_len os)%nat.
Proof.
  intros (os1 & os2 & ->)%list_elem_of_split. change (o :: os2) with ([o] ++ os2).
  rewrite !objs_len_app, objs_len_one. pose proof (RSVP_ALIGN_ge (wobj_len o)). lia.
Qed.

(** The objects the two messages are made of. *)
Definition sent_obj (o : wobj) : Prop :=
  wo_class o ∈ known_classes ∧ is_byte (wo_class o) ∧ is_byte (wo_ctype o) ∧ bytes_ok (wo_data o).

Lemma holds_received b size ty ttl os src dst rao :
  holds b size ty ttl os → (size <= 4072)%nat → is_byte ty → is_byte ttl →
  0 ≤ src < 2 ^ 32 → 0 ≤ dst < 2 ^ 32 → Forall sent_obj os →
  ∃ m i, received b src dst rao ty os m i.
Proof.
  intros [Wb Hs Mb] Hsize Hty Httl Hsrc Hdst Hos.
  pose proof (length_written b Wb) as Hl. pose proof (bwf_offset _ Wb).
  pose proof (bwf_length _ Wb). rewrite Mb, length_app in Hl.
  change (length (store_struct (mk_rsvp_common_hdr 16 ty 0 ttl 0 0))) with 8%nat in Hl.
  assert (8 + length (encode_objs os) <= 4072)%nat as Hfit by lia.
  destruct (written_parses b ty ttl src dst rao os) as (n & b' & m & i & E1 & E2 & E3 & E4 & E5 & E6 & E7);
    try done.
  - rewrite Forall_forall in Hos |- *. intros o Ho. destruct (Hos o Ho) as (_ & ? & ? & ?).
    pose proof (wobj_len_objs o os Ho) as Hle. unfold objs_len in Hle. split_and!; try done. lia.
  - eapply Forall_impl; [exact Hos|]. by intros o (? & _).
  - change MAX_RSVP_PACKET_SIZE with (Z.to_nat 4096). lia.
  - exists m, i. apply fold_objects_routes in E4 as [L1 L2]. split; try done.
    unfold packet_of. by rewrite E1, E2.
Qed.

Section received.
Context (b : rsvp_builder) (src dst : Z) (rao : bool) (ty : Z) (os : list wobj)
        (m : list Z) (i : rsvp_message_info) (Hrc : received b src dst rao ty os m i).

Lemma received_load {T} `{WireLaws T} (t : T) (s : slot) os1 o os2 rest :
  s ∈ parser_slots → os = os1 ++ o :: os2 → Forall (rejects s) os1 →
  slot_accepts s (wo_class o) (wo_ctype o) (wobj_len o) = true →
  wo_data o = store_struct t ++ rest → struct_ok t →
  ∃ p, slot_ptr s i = Some p ∧ load_struct T m p = Some t.
Proof.
  intros Hs Hos Hr Ha Hd Ht.
  destruct (slot_object m _ os i s os1 o os2 (rc_slots _ _ _ _ _ _ _ _ Hrc) Hs Hos Hr Ha) as (p & Hp & Hb).
  rewrite Hd in Hb. exists p. split; [done|]. by eapply read_struct.
Qed.

Lemma received_no (s : slot) :
  s ∈ parser_slots → Forall (rejects s) os → slot_ptr s i = None.
Proof. apply (slot_empty m (20 + length (rao_option rao) + 8) os i s), Hrc. Qed.

Lemma route_parsed p (l : list rsvp_ero_ipv4_subobj) max old :
  read_bytes m p (length (mjoin (store_struct <$> l))) = Some (mjoin (store_struct <$> l)) →
  Forall hop_ok l → (0 < length l <= max)%nat →
  route_update m (Some p) (8 * length l) max old = Some l.
Proof.
  intros (_ & Hm & Hl)%read_bytes_split Hok Hlen. unfold route_update.
  rewrite (proj2 (Nat.ltb_lt _ _)) by lia.
  pose proof (parse_subobjs_encoded (8 * length l) (take p m) l
    (drop (p + length (mjoin (store_struct <$> l))) m) max [] Hok) as Hp.
  rewrite <- Hm, Hl in Hp. apply Hp; simpl; lia.
Qed.

Lemma route_wobj_accepted class (l : list rsvp_ero_ipv4_subobj) :
  (0 < length l)%nat →
  of_class [class] None 1 class 1 (wobj_len (route_obj class l)) = true.
Proof.
  intros. rewrite route_accepts. apply Nat.ltb_lt. unfold wobj_len, route_obj. cbn [wo_data].
  rewrite length_route. lia.
Qed.

Lemma received_route (s : slot) (len : rsvp_message_info → nat) class l os1 os2 max old :
  s = mk_slot (slot_ptr s) (of_class [class] None 1) → s ∈ parser_slots →
  len i = match first_accepted (20 + length (rao_option rao) + 8) os s with
          | Some (_, o) => length (wo_data o) | None => 0%nat end →
  os = os1 ++ route_obj class l :: os2 → Forall (rejects s) os1 → Forall hop_ok l →
  (0 < length l <= max)%nat →
  route_update m (slot_ptr s i) (len i) max old = Some l.
Proof.
  intros Es Hs Hlen Hos Hr Hl Hmax.
  assert (slot_accepts s class 1 (wobj_len (route_obj class l)) = true) as Ha
    by (rewrite Es; apply route_wobj_accepted; lia).
  destruct (slot_object m _ os i s os1 (route_obj class l) os2 (rc_slots _ _ _ _ _ _ _ _ Hrc) Hs Hos Hr Ha) as (p & Hp & Hb).
  destruct (first_accepted_at (20 + length (rao_option rao) + 8) os1 (route_obj class l) os2 s Hr Ha) as (p' & Ef).
  rewrite Hlen, Hos, Ef, Hp. unfold route_obj. cbn [wo_data]. rewrite length_route.
  by apply route_parsed.
Qed.
End received.

(** What a block needs so that its fields are what the wire can carry. *)
Record key_sendable (k : rsvp_path_key) : Prop := {
  ks_session : struct_ok (key_session k);
  ks_reserved : sess_reserved (key_session k) = 0;
  ks_sender : struct_ok (key_sender k);
}.

Record path_sendable (p : rsvp_psb) : Prop := {
  ps_good : psb_good p;
  ps_key : key_sendable (psb_key p);
  ps_ttl : is_byte (psb_ttl p);
  ps_name : name_bytes_ok p;
  ps_ero : Forall hop_ok (psb_ero p);
  ps_rro : Forall hop_ok (psb_rro p);
}.

Lemma session_sent k : key_sendable k →
  mk_rsvp_session_ipv4 (sess_dest_addr (key_session k)) 0
    (htons (ntohs (sess_tunnel_id (key_session k)))) (sess_extended_tunnel_id (key_session k))
  = key_session k.
Proof.
  intros [Hs Hr _]. destruct (key_session k) as [d r t e]. simpl in *. subst.
  apply Forall2_cons_1 in Hs as [_ Hs]. apply Forall2_cons_1 in Hs as [_ Hs].
  apply Forall2_cons_1 in Hs as [Ht _]. simpl in Ht. f_equal. unfold htons.
  rewrite Z.mod_small by apply ntohs_bound. apply ntohs_involutive. lia.
Qed.

Lemma key_eta k s f : key_session k = s → key_sender k = f → k = mk_rsvp_path_key s f.
Proof. destruct k. simpl. by intros -> ->. Qed.

(** [struct_ok] of a structure whose fields are in range. *)
Ltac struct_range :=
  unfold struct_ok, fields_ok; simpl; repeat (apply Forall2_cons_2; [simpl; lia|]); constructor.

Lemma hop_struct_ok la x : 0 ≤ la < 2 ^ 32 → struct_ok (mk_rsvp_hop_ipv4 la (htonl x)).
Proof.
  intros. pose proof (htonl_bound x). struct_range.
Qed.

(** [Forall P] on a concrete list of objects, some of them conditional. *)
Ltac all_objs tac :=
  repeat first [apply Forall_app_2 | apply Forall_cons_2 | apply Forall_nil_2
               | match goal with |- Forall _ (if ?c then _ else _) => destruct c end];
  tac.

(** The slot at position [n] of [parser_slots]. *)
Ltac in_slots n := apply (list_elem_of_lookup_2 _ n); reflexivity.

Definition sess_slot : slot :=
  mk_slot info_sess_v4 (of_class [RSVP_CLASS_SESSION] (Some [7]) (sizeof rsvp_session_ipv4)).
Definition hop_slot : slot :=
  mk_slot info_hop_v4 (of_class [RSVP_CLASS_HOP] (Some [1]) (sizeof rsvp_hop_ipv4)).
Definition time_slot : slot :=
  mk_slot info_time_values (of_class [RSVP_CLASS_TIME_VALUES] None (sizeof rsvp_time_values)).
Definition style_slot : slot :=
  mk_slot info_style (of_class [RSVP_CLASS_STYLE] None (sizeof rsvp_style)).
Definition sender_slot : slot :=
  mk_slot info_sender_v4
    (of_class [RSVP_CLASS_SENDER_TEMPLATE; RSVP_CLASS_FILTER_SPEC] (Some [1; 7])
       (sizeof rsvp_sender_ipv4)).
Definition label_slot : slot :=
  mk_slot info_label (of_class [RSVP_CLASS_LABEL] None (sizeof rsvp_label_ipv4)).
Definition fast_reroute_slot : slot :=
  mk_slot info_fast_reroute
    (of_class [RSVP_CLASS_FAST_REROUTE] (Some [1]) (sizeof rsvp_fast_reroute)).
Definition label_req_slot : slot :=
  mk_slot info_label_req (of_class [RSVP_CLASS_LABEL_REQUEST] None (sizeof rsvp_label_request)).

(** A message that starts with SESSION, HOP and TIME_VALUES, as PATH and RESV
    do, and has one sender object. *)
Section common.
Context (b : rsvp_builder) (src dst : Z) (rao : bool) (ty : Z) (k : rsvp_path_key)
        (la ifi ms : Z) (os1 os2 : list wobj) (class : Z)
        (m : list Z) (i : rsvp_message_info).
Let first3 := [session_obj k; hop_obj la ifi; time_obj ms].
Context (Hrc : received b src dst rao ty (first3 ++ os1 ++ sender_obj class k :: os2) m i).
Context (Hk : key_sendable k) (Hla : 0 ≤ la < 2 ^ 32) (Hms : 0 ≤ ms < 2 ^ 32).
Context (Hclass : class = RSVP_CLASS_SENDER_TEMPLATE ∨ class = RSVP_CLASS_FILTER_SPEC).
Context (Hos1 : Forall (rejects sender_slot) os1).

Lemma received_key : is_Some (info_sess_v4 i) ∧ is_Some (info_sender_v4 i) ∧ info_key i = k.
Proof.
  pose proof (session_sent k Hk) as Es.
  destruct (received_load _ _ _ _ _ _ _ _ Hrc (key_session k) sess_slot [] (session_obj k)
    ([hop_obj la ifi; time_obj ms] ++ os1 ++ sender_obj class k :: os2) []) as (p1 & P1 & L1);
    [in_slots 1%nat|done|constructor|done|by rewrite app_nil_r, <- Es|apply Hk|].
  destruct (received_load _ _ _ _ _ _ _ _ Hrc (key_sender k) sender_slot (first3 ++ os1)
    (sender_obj class k) os2 []) as (p2 & P2 & L2);
    [in_slots 7%nat|by rewrite <- app_assoc| |by destruct Hclass as [-> | ->]|by rewrite app_nil_r
    |apply Hk|].
  { apply Forall_app_2; [|done]. all_objs ltac:(reflexivity). }
  change (info_sess_v4 i = Some p1) in P1. change (info_sender_v4 i = Some p2) in P2.
  pose proof (iok_key_session _ _ _ _ (rc_info _ _ _ _ _ _ _ _ Hrc)) as K1. unfold loads in K1.
  pose proof (iok_key_sender _ _ _ _ (rc_info _ _ _ _ _ _ _ _ Hrc)) as K2. unfold loads in K2.
  rewrite P1, L1 in K1. rewrite P2, L2 in K2. split; [by rewrite P1|]. split; [by rewrite P2|].
  destruct (info_key i), k. simpl in *. congruence.
Qed.

Lemma received_hop :
  load_opt rsvp_hop_ipv4 m (info_hop_v4 i) = Some (Some (mk_rsvp_hop_ipv4 la (htonl ifi))).
Proof.
  destruct (received_load _ _ _ _ _ _ _ _ Hrc (mk_rsvp_hop_ipv4 la (htonl ifi)) hop_slot
    [session_obj k] (hop_obj la ifi) ([time_obj ms] ++ os1 ++ sender_obj class k :: os2) [])
    as (p & P & L);
    [in_slots 2%nat|done|all_objs ltac:(reflexivity)|done|by rewrite app_nil_r
    |by apply hop_struct_ok|].
  change (info_hop_v4 i = Some p) in P. rewrite P. unfold load_opt. by rewrite L.
Qed.

Lemma received_refresh :
  ∃ tv, load_opt rsvp_time_values m (info_time_values i) = Some (Some tv)
    ∧ ntohl (tv_refresh_ms tv) = ms.
Proof.
  destruct (received_load _ _ _ _ _ _ _ _ Hrc (mk_rsvp_time_values (htonl ms)) time_slot
    [session_obj k; hop_obj la ifi] (time_obj ms) (os1 ++ sender_obj class k :: os2) [])
    as (p & P & L);
    [in_slots 3%nat|done|all_objs ltac:(reflexivity)|done|by rewrite app_nil_r| |].
  { pose proof (htonl_bound ms). struct_range. }
  change (info_time_values i = Some p) in P. rewrite P. exists (mk_rsvp_time_values (htonl ms)).
  unfold load_opt. rewrite L. split; [done|]. by apply htonl_ntohl.
Qed.
End common.

(** *** PATH *)

Ltac sent :=
  split; [apply (bool_decide_eq_true_1 _); reflexivity|];
  split; [split; [by vm_compute|reflexivity]|];
  split; [split; [by vm_compute|reflexivity]|];
  first [assumption|auto with objs].

Lemma path_objs_sent p la ifi : name_bytes_ok p → Forall sent_obj (path_objs p la ifi).
Proof.
  intros Hn. pose proof (attr_obj_bytes p Hn). unfold path_objs.
  all_objs sent.
Qed.

(** The last hop that the sender records is its own address. *)
Lemma path_rro_ok p la : 0 ≤ la < 2 ^ 32 → Forall hop_ok (psb_rro p) → Forall hop_ok (path_rro p la).
Proof.
  intros Hla Hr. apply Forall_app_2; [done|]. apply Forall_cons_2; [|constructor].
  split; [|done]. change (Z.of_nat (sizeof rsvp_ero_ipv4_subobj)) with 8.
  unfold RSVP_ERO_IPV4. struct_range.
Qed.

Section path.
Context (p : rsvp_psb) (la ifi src dst : Z) (rao : bool) (b : rsvp_builder)
        (m : list Z) (i : rsvp_message_info).
Context (Hrc : received b src dst rao RSVP_MSG_PATH (path_objs p la ifi) m i).
Context (Hp : path_sendable p) (Hla : 0 ≤ la < 2 ^ 32).

Lemma path_objs_split :
  path_objs p la ifi
  = [session_obj (psb_key p); hop_obj la ifi; time_obj (psb_refresh_ms p)]
    ++ ((if (0 <? length (psb_ero p))%nat then [route_obj RSVP_CLASS_EXPLICIT_ROUTE (psb_ero p)] else [])
        ++ [label_request_obj; attr_obj p] ++ (if path_has_frr p then [frr_obj p] else []))
    ++ sender_obj RSVP_CLASS_SENDER_TEMPLATE (psb_key p)
    :: tspec_obj RSVP_CLASS_SENDER_TSPEC (path_tspec p)
    :: (if (length (psb_rro p) <? MAX_RRO_HOPS)%nat
        then [route_obj RSVP_CLASS_RECORD_ROUTE (path_rro p la)] else []).
Proof. unfold path_objs. by rewrite <- !app_assoc. Qed.

Lemma path_received_ero :
  route_update m (info_ero i) (info_ero_len i) MAX_ERO_HOPS [] = Some (psb_ero p).
Proof.
  pose proof (pg_ero p (ps_good p Hp)).
  destruct (0 <? length (psb_ero p))%nat eqn:E; bools.
  - apply (received_route _ _ _ _ _ _ _ _ Hrc ero_slot info_ero_len RSVP_CLASS_EXPLICIT_ROUTE
      (psb_ero p) [session_obj (psb_key p); hop_obj la ifi; time_obj (psb_refresh_ms p)]
      (drop 4 (path_objs p la ifi))).
    + done.
    + in_slots 12%nat.
    + apply Hrc.
    + unfold path_objs. by rewrite (proj2 (Nat.ltb_lt _ _) E).
    + all_objs ltac:(reflexivity).
    + apply Hp.
    + lia.
  - assert (psb_ero p = []) as -> by (apply nil_length_inv; lia).
    change (info_ero i) with (slot_ptr ero_slot i).
    rewrite (received_no _ _ _ _ _ _ _ _ Hrc ero_slot); [done|in_slots 12%nat|].
    unfold path_objs. rewrite (proj2 (Nat.ltb_ge _ _) E). all_objs ltac:(reflexivity).
Qed.

Lemma path_objs_rro :
  (length (psb_rro p) <? MAX_RRO_HOPS)%nat = true →
  ∃ l, path_objs p la ifi = l ++ [route_obj RSVP_CLASS_RECORD_ROUTE (path_rro p la)]
    ∧ Forall (rejects rro_slot) l.
Proof.
  intros E. unfold path_objs. rewrite E, !app_assoc. eexists. split; [done|].
  all_objs ltac:(reflexivity).
Qed.

Lemma path_received_rro :
  route_update m (info_rro i) (info_rro_len i) MAX_RRO_HOPS []
  = Some (if (length (psb_rro p) <? MAX_RRO_HOPS)%nat then path_rro p la else []).
Proof.
  destruct (length (psb_rro p) <? MAX_RRO_HOPS)%nat eqn:E.
  - destruct path_objs_rro as (l & Hl & Hr); [done|].
    apply (received_route _ _ _ _ _ _ _ _ Hrc rro_slot info_rro_len RSVP_CLASS_RECORD_ROUTE
      (path_rro p la) l []); [done|in_slots 13%nat|apply Hrc|done|done| |].
    + apply path_rro_ok; [done|apply Hp].
    + bools. unfold path_rro. rewrite length_app. simpl. lia.
  - change (info_rro i) with (slot_ptr rro_slot i).
    rewrite (received_no _ _ _ _ _ _ _ _ Hrc rro_slot); [done|in_slots 13%nat|].
    unfold path_objs. rewrite E. all_objs ltac:(reflexivity).
Qed.

Lemma path_received_label_request : is_Some (info_label_req i).
Proof.
  destruct (received_load _ _ _ _ _ _ _ _ Hrc (mk_rsvp_label_request 0 (htons 2048)) label_req_slot
    ([session_obj (psb_key p); hop_obj la ifi; time_obj (psb_refresh_ms p)]
     ++ (if (0 <? length (psb_ero p))%nat then [route_obj RSVP_CLASS_EXPLICIT_ROUTE (psb_ero p)] else []))
    label_request_obj
    (attr_obj p :: (if path_has_frr p then [frr_obj p] else [])
     ++ [sender_obj RSVP_CLASS_SENDER_TEMPLATE (psb_key p); tspec_obj RSVP_CLASS_SENDER_TSPEC (path_tspec p)]
     ++ (if (length (psb_rro p) <? MAX_RRO_HOPS)%nat
         then [route_obj RSVP_CLASS_RECORD_ROUTE (path_rro p la)] else [])) []) as (q & Hq & _).
  - in_slots 11%nat.
  - unfold path_objs. by rewrite <- !app_assoc.
  - all_objs ltac:(reflexivity).
  - done.
  - by rewrite app_nil_r.
  - pose proof (htons_bound 2048). struct_range.
  - change (info_label_req i = Some q) in Hq. by rewrite Hq.
Qed.
End path.

(** The PATH of [p] from the interface [ifi] with address [la], as the next
    daemon reads it. *)
Record path_read (p : rsvp_psb) (la ifi src : Z) (m : list Z) (i : rsvp_message_info) : Prop := {
  pr_parsed : rsvp_parse_packet m (length m) = Some (RSVP_SUCCESS, i);
  pr_envelope : envelope m src RSVP_MSG_PATH i;
  pr_key : info_key i = psb_key p;
  pr_hop : load_opt rsvp_hop_ipv4 m (info_hop_v4 i) = Some (Some (mk_rsvp_hop_ipv4 la (htonl ifi)));
  pr_refresh : ∃ tv, load_opt rsvp_time_values m (info_time_values i) = Some (Some tv)
    ∧ ntohl (tv_refresh_ms tv) = psb_refresh_ms p;
  pr_sender : is_Some (info_sender_v4 i);
  pr_label_req : is_Some (info_label_req i);
  pr_ero : route_update m (info_ero i) (info_ero_len i) MAX_ERO_HOPS [] = Some (psb_ero p);
  pr_rro : route_update m (info_rro i) (info_rro_len i) MAX_RRO_HOPS []
    = Some (if (length (psb_rro p) <? MAX_RRO_HOPS)%nat then path_rro p la else []);
}.

Lemma path_message_read p la ifi src dst :
  path_sendable p → 0 ≤ la < 2 ^ 32 → 0 ≤ src < 2 ^ 32 → 0 ≤ dst < 2 ^ 32 →
  ∃ m i, packet_of (path_message p la ifi) src dst true = Some m ∧ path_read p la ifi src m i.
Proof.
  intros [Hg Hk Httl Hn Hero Hrro] Hla Hsrc Hdst.
  pose proof (path_message_holds p la ifi Hg Httl Hn) as Hh.
  destruct (holds_received _ _ _ _ _ src dst true Hh) as (m & i & Hrc);
    [lia|done|by apply forward_ttl_byte|done|done|by apply path_objs_sent|].
  exists m, i. split; [apply Hrc|].
  pose proof Hrc as Hrc'. rewrite path_objs_split in Hrc'.
  assert (0 ≤ psb_refresh_ms p < 2 ^ 32) as Hms by (pose proof (pg_refresh p Hg) as []; lia).
  destruct (received_key _ _ _ _ _ _ _ _ _ _ _ _ _ _ Hrc' Hk) as (Hs1 & Hs2 & Ek);
    [by left|all_objs ltac:(reflexivity)|].
  split; [|apply Hrc|exact Ek|..].
  - rewrite (rc_parsed _ _ _ _ _ _ _ _ Hrc). destruct Hs1 as [? E1], Hs2 as [? E2].
    unfold validate_mandatory. cbn. by rewrite E1, E2.
  - by eapply received_hop.
  - by eapply received_refresh.
  - done.
  - by eapply path_received_label_request.
  - by eapply path_received_ero.
  - by eapply path_received_rro.
Qed.

(** C15: what one daemon sends the next one understands: the PATH of a block
    whose fields fit the wire ([path_sendable]: as in reachable states, numbers
    in their widths, routes of IPv4 hops, and the reserved field of its session
    0), built, finalized, encapsulated with the Router Alert option and parsed,
    is accepted, and names the same session and sender, the sending interface
    as previous hop, the same refresh period, a label request, the same
    explicit route, and the record route of the block with the sender's own
    address appended when there is room for it. (A block whose session came
    with a nonzero reserved field is sent under another key.) *)
Theorem path_message_understood p la ifi src dst :
  path_sendable p → 0 ≤ la < 2 ^ 32 → 0 ≤ src < 2 ^ 32 → 0 ≤ dst < 2 ^ 32 →
  ∃ m i, packet_of (path_message p la ifi) src dst true = Some m
    ∧ rsvp_parse_packet m (length m) = Some (RSVP_SUCCESS, i)
    ∧ info_key i = psb_key p
    ∧ load_opt rsvp_hop_ipv4 m (info_hop_v4 i) = Some (Some (mk_rsvp_hop_ipv4 la (htonl ifi)))
    ∧ (∃ tv, load_opt rsvp_time_values m (info_time_values i) = Some (Some tv)
        ∧ ntohl (tv_refresh_ms tv) = psb_refresh_ms p)
    ∧ is_Some (info_label_req i)
    ∧ route_update m (info_ero i) (info_ero_len i) MAX_ERO_HOPS [] = Some (psb_ero p)
    ∧ route_update m (info_rro i) (info_rro_len i) MAX_RRO_HOPS []
      = Some (if (length (psb_rro p) <? MAX_RRO_HOPS)%nat then path_rro p la else []).
Proof.
  intros Hp Hla Hsrc Hdst. destruct (path_message_read p la ifi src dst) as (m & i & E & []); [assumption..|].
  exists m, i. split_and!; assumption.
Qed.

(** *** RESV *)

Lemma resv_objs_sent p r merged la ifi : Forall sent_obj (resv_objs p r merged la ifi).
Proof. unfold resv_objs. all_objs sent. Qed.

(** The RESV of [r] for the path [p], as the previous daemon reads it. *)
Record resv_read (p : rsvp_psb) (r : rsvp_rsb) (la ifi src : Z) (m : list Z) (i : rsvp_message_info)
    : Prop := {
  rr_parsed : rsvp_parse_packet m (length m) = Some (RSVP_SUCCESS, i);
  rr_envelope : envelope m src RSVP_MSG_RESV i;
  rr_key : info_key i = psb_key p;
  rr_hop : load_opt rsvp_hop_ipv4 m (info_hop_v4 i) = Some (Some (mk_rsvp_hop_ipv4 la (htonl ifi)));
  rr_refresh : ∃ tv, load_opt rsvp_time_values m (info_time_values i) = Some (Some tv)
    ∧ ntohl (tv_refresh_ms tv) = rsb_refresh_ms r;
  rr_style : ∃ st, load_opt rsvp_style m (info_style i) = Some (Some st)
    ∧ Z.land (ntohl (sty_style st)) 255 = rsb_out_style r;
  rr_no_frr : info_fast_reroute i = None;
  rr_label : ∃ lb, load_opt rsvp_label_ipv4 m (info_label i) = Some (Some lb)
    ∧ ntohl (lbl_label lb) = rsb_label_in r;
}.

Lemma resv_message_read p r merged la ifi src dst :
  key_sendable (psb_key p) → is_byte (rsb_ttl r) → refresh_ok (rsb_refresh_ms r) →
  0 ≤ rsb_label_in r < 2 ^ 32 → 0 ≤ rsb_style r < 256 →
  0 ≤ la < 2 ^ 32 → 0 ≤ src < 2 ^ 32 → 0 ≤ dst < 2 ^ 32 →
  ∃ m i, packet_of (resv_message p r merged la ifi) src dst false = Some m
    ∧ resv_read p r la ifi src m i.
Proof.
  intros Hk Httl Hr Hlabel Hstyle Hla Hsrc Hdst.
  pose proof (resv_message_holds p r merged la ifi Httl) as Hh.
  destruct (holds_received _ _ _ _ _ src dst false Hh) as (m & i & Hrc);
    [lia|done|by apply forward_ttl_byte|done|done|apply resv_objs_sent|].
  exists m, i. split; [apply Hrc|].
  assert (resv_objs p r merged la ifi
    = [session_obj (psb_key p); hop_obj la ifi; time_obj (rsb_refresh_ms r)]
      ++ [style_obj (rsb_out_style r); tspec_obj RSVP_CLASS_FLOWSPEC merged]
      ++ sender_obj RSVP_CLASS_FILTER_SPEC (psb_key p) :: [label_obj (rsb_label_in r)]) as Eo by done.
  assert (0 ≤ rsb_refresh_ms r < 2 ^ 32) as Hms by (destruct Hr; lia).
  rewrite Eo in Hrc.
  destruct (received_key _ _ _ _ _ _ _ _ _ _ _ _ _ _ Hrc Hk) as (Hs1 & Hs2 & Ek);
    [by right|all_objs ltac:(reflexivity)|].
  pose proof (received_hop _ _ _ _ _ _ _ _ _ _ _ _ _ _ Hrc Hla) as Eh.
  destruct (received_load _ _ _ _ _ _ _ _ Hrc (mk_rsvp_style (htonl (rsb_out_style r))) style_slot
    [session_obj (psb_key p); hop_obj la ifi; time_obj (rsb_refresh_ms r)]
    (style_obj (rsb_out_style r)) (drop 4 (resv_objs p r merged la ifi)) []) as (q1 & P1 & L1);
    [in_slots 4%nat|done|all_objs ltac:(reflexivity)|done|done
    |pose proof (htonl_bound (rsb_out_style r)); struct_range|].
  destruct (received_load _ _ _ _ _ _ _ _ Hrc (mk_rsvp_label_ipv4 (htonl (rsb_label_in r))) label_slot
    (take 6 (resv_objs p r merged la ifi)) (label_obj (rsb_label_in r)) [] []) as (q2 & P2 & L2);
    [in_slots 10%nat|done|all_objs ltac:(reflexivity)|done|done
    |pose proof (htonl_bound (rsb_label_in r)); struct_range|].
  change (info_style i = Some q1) in P1. change (info_label i = Some q2) in P2.
  split; [|apply Hrc|exact Ek|exact Eh|..].
  - rewrite (rc_parsed _ _ _ _ _ _ _ _ Hrc). destruct Hs1 as [? E1].
    unfold load_opt in Eh. destruct (info_hop_v4 i) eqn:E2; [|done].
    unfold validate_mandatory. cbn. by rewrite E1, E2, P1.
  - by eapply received_refresh.
  - eexists. unfold load_opt. rewrite P1, L1. split; [reflexivity|]. cbn [sty_style].
    assert (0 ≤ rsb_out_style r < 256) as Ho
      by (unfold rsb_out_style, RSVP_STYLE_FF; case_if; lia).
    rewrite htonl_ntohl by lia. rewrite land_255. by apply Z.mod_small.
  - apply (received_no _ _ _ _ _ _ _ _ Hrc fast_reroute_slot); [in_slots 15%nat|].
    all_objs ltac:(reflexivity).
  - eexists. unfold load_opt. rewrite P2, L2. split; [reflexivity|]. cbn [lbl_label].
    by apply htonl_ntohl.
Qed.

(** C16: the RESV of a reservation whose fields fit the wire ([key_sendable],
    with the reserved field of the session 0; a refresh period below 2^30 ms),
    built, finalized, encapsulated and parsed by the next daemon, is accepted,
    and names the session and sender of its path block, the sending interface
    as next hop, the same refresh period, the style of the reservation, or FF
    when it has none (0), and the label that the sender allocated. *)
Theorem resv_message_understood p r merged la ifi src dst :
  key_sendable (psb_key p) → is_byte (rsb_ttl r) → refresh_ok (rsb_refresh_ms r) →
  0 ≤ rsb_label_in r < 2 ^ 32 → 0 ≤ rsb_style r < 256 →
  0 ≤ la < 2 ^ 32 → 0 ≤ src < 2 ^ 32 → 0 ≤ dst < 2 ^ 32 →
  ∃ m i, packet_of (resv_message p r merged la ifi) src dst false = Some m
    ∧ rsvp_parse_packet m (length m) = Some (RSVP_SUCCESS, i)
    ∧ info_key i = psb_key p
    ∧ load_opt rsvp_hop_ipv4 m (info_hop_v4 i) = Some (Some (mk_rsvp_hop_ipv4 la (htonl ifi)))
    ∧ (∃ tv, load_opt rsvp_time_values m (info_time_values i) = Some (Some tv)
        ∧ ntohl (tv_refresh_ms tv) = rsb_refresh_ms r)
    ∧ (∃ st, load_opt rsvp_style m (info_style i) = Some (Some st)
        ∧ Z.land (ntohl (sty_style st)) 255 = rsb_out_style r)
    ∧ (∃ lb, load_opt rsvp_label_ipv4 m (info_label i) = Some (Some lb)
        ∧ ntohl (lbl_label lb) = rsb_label_in r).
Proof.
  intros. destruct (resv_message_read p r merged la ifi src dst) as (m & i & E & []); [assumption..|].
  exists m, i. split_and!; assumption.
Qed.

(** ** Witnesses *)

(** Tunnel 7, LSP 1, from 66 to 88 over two explicit hops. *)
Definition two_hop_key : rsvp_path_key :=
  mk_rsvp_path_key (mk_rsvp_session_ipv4 88 0 (htons 7) 66) (mk_rsvp_sender_ipv4 66 0 (htons 1)).
Definition ipv4_hop (a : Z) : rsvp_ero_ipv4_subobj := mk_rsvp_ero_ipv4_subobj RSVP_ERO_IPV4 8 a 32 0.
Definition two_hop_psb : rsvp_psb :=
  new_psb two_hop_key <| psb_refresh_ms := 30000 |> <| psb_ttl := 64 |>
    <| psb_ero := [ipv4_hop 77; ipv4_hop 88] |> <| psb_lsp_name := Some [108; 115; 112] |>.

Lemma two_hop_key_sendable : key_sendable two_hop_key.
Proof. pose proof (htons_bound 7). pose proof (htons_bound 1). split; [struct_range|done|struct_range]. Qed.

Lemma ipv4_hop_ok a : 0 ≤ a < 2 ^ 32 → hop_ok (ipv4_hop a).
Proof. intros. split; [unfold ipv4_hop, RSVP_ERO_IPV4; struct_range|done]. Qed.

Lemma two_hop_sendable : path_sendable two_hop_psb.
Proof.
  split.
  - split; try done; unfold refresh_ok, MAX_ERO_HOPS, MAX_RRO_HOPS; cbn; lia.
  - apply two_hop_key_sendable.
  - unfold is_byte. cbn. lia.
  - repeat (apply Forall_cons_2; [unfold is_byte; lia|]). constructor.
  - repeat (apply Forall_cons_2; [apply ipv4_hop_ok; lia|]). constructor.
  - constructor.
Qed.

Lemma path_message_understood_witness :
  ∃ m i, rsvp_parse_packet m (length m) = Some (RSVP_SUCCESS, i) ∧ info_key i = two_hop_key
    ∧ route_update m (info_ero i) (info_ero_len i) MAX_ERO_HOPS [] = Some [ipv4_hop 77; ipv4_hop 88]
    ∧ route_update m (info_rro i) (info_rro_len i) MAX_RRO_HOPS [] = Some [ipv4_hop 66].
Proof.
  destruct (path_message_understood two_hop_psb 66 3 66 88)
    as (m & i & _ & Hp & Hk & _ & _ & _ & He & Hr); [exact two_hop_sendable|lia|lia|lia|].
  exists m, i. split; [exact Hp|]. split; [exact Hk|]. split; [exact He|exact Hr].
Defined.

Definition two_hop_rsb : rsvp_rsb :=
  new_rsb two_hop_key <| rsb_refresh_ms := 30000 |> <| rsb_ttl := 64 |> <| rsb_label_in := 1000 |>.

Lemma resv_message_understood_witness :
  ∃ m i lb, rsvp_parse_packet m (length m) = Some (RSVP_SUCCESS, i) ∧ info_key i = two_hop_key
    ∧ load_opt rsvp_label_ipv4 m (info_label i) = Some (Some lb) ∧ ntohl (lbl_label lb) = 1000.
Proof.
  destruct (resv_message_understood two_hop_psb two_hop_rsb zero_tspec 77 3 77 66)
    as (m & i & _ & Hp & Hk & _ & _ & _ & (lb & Hl & Hn)).
  - exact two_hop_key_sendable.
  - unfold is_byte. cbn. lia.
  - unfold refresh_ok. cbn. lia.
  - cbn. lia.
  - cbn. lia.
  - lia.
  - lia.
  - lia.
  - exists m, i, lb. split; [exact Hp|]. split; [exact Hk|]. split; [exact Hl|exact Hn].
Defined.
