(* ===== verification/Rules.v ===== *)
(** * Rules for the operations that keep the shape of the state

    One rule per operation, in continuation style: from the invariant [Inv b]
    at the current state, the operation succeeds and the continuation runs in
    some state with the invariant in which the same blocks exist ([frame]).
    [has_psb s l k a] and [has_rsb s l k a] are the facts about blocks that a
    frame carries over; the tactic [advance] moves them to the new state. *)

From stdpp Require Import base numbers list option gmap sets.
From S2P Require Import Prelude Wire Protocol WheelTimer Timers Builder SendPacket Parser.
From S2P Require Import Interfaces StateDb Timing State Messages StateMachine Invariant.

#[global] Opaque RSVP_CLEANUP_MS get_jittered_refresh.

(** ** Builders stay inside their buffer *)

Definition builder_safe (b : rsvp_builder) : Prop :=
  length (b_buffer b) = b_size b ∧ (8 <= b_offset b <= b_size b)%nat.

Lemma hdr_store_safe b o bs :
  builder_safe b → (o + length bs <= 8)%nat → builder_safe (hdr_store b o bs).
Proof.
  intros [Hl Ho] Hb. unfold hdr_store, builder_safe. simpl.
  rewrite length_overwrite by lia. done.
Qed.

Lemma init_safe size t : (8 <= size)%nat → builder_safe (rsvp_builder_init size t).
Proof.
  intros Hs. assert (∀ b, builder_wf b → builder_safe b) as Hwf by (intros ? []; by split).
  apply Hwf, rsvp_builder_init_wf. done.
Qed.

Lemma add_obj_safe b c t data :
  builder_safe b → builder_safe (snd (rsvp_builder_add_obj b c t data)).
Proof.
  intros [Hl Ho]. unfold rsvp_builder_add_obj.
  pose proof (RSVP_ALIGN_ge (sizeof rsvp_obj_hdr + length data)) as Hn.
  change (sizeof rsvp_obj_hdr) with 4%nat in *.
  set (n := RSVP_ALIGN (4 + length data)) in *. clearbody n.
  case_if; [done|]. bools.
  set (h := store_struct _). assert (length h = 4%nat) as Hh by done. clearbody h.
  split; simpl; [|lia]. rewrite !length_overwrite; rewrite ?length_overwrite, ?Hh; lia.
Qed.

Lemma add_if_safe c f b :
  builder_safe b → (∀ b, builder_safe b → builder_safe (snd (f b))) → builder_safe (snd (add_if c f b)).
Proof. intros Hb Hf. unfold add_if. case_if; [by apply Hf|done]. Qed.

Lemma finalize_safe b n b' :
  builder_safe b → rsvp_builder_finalize b = (n, b') →
  (8 <= n <= length (b_buffer b'))%nat.
Proof.
  intros Hb. unfold rsvp_builder_finalize. intros [= <- <-].
  set (x := rsvp_checksum _ _). clearbody x.
  match goal with |- context [length (b_buffer ?z)] =>
    assert (builder_safe z) as [E ?] by (repeat apply hdr_store_safe; [done|simpl; lia..]) end.
  rewrite E. destruct Hb. simpl in *. lia.
Qed.

Lemma hdr_set_ttl_safe b ttl : builder_safe b → builder_safe (hdr_set_ttl b ttl).
Proof. intros. apply hdr_store_safe; [done|simpl; lia]. Qed.

Lemma add_ero_safe b l : builder_safe b → builder_safe (snd (rsvp_builder_add_ero b l)).
Proof. intros. unfold rsvp_builder_add_ero. case_if; [done|by apply add_obj_safe]. Qed.
Lemma add_rro_safe b l : builder_safe b → builder_safe (snd (rsvp_builder_add_rro b l)).
Proof. intros. unfold rsvp_builder_add_rro. case_if; [done|by apply add_obj_safe]. Qed.

Ltac head_of t := lazymatch t with ?f _ => head_of f | _ => t end.
Ltac solve_safe :=
  lazymatch goal with
  | |- builder_safe (hdr_set_ttl _ _) => apply hdr_set_ttl_safe; solve_safe
  | |- builder_safe (rsvp_builder_init _ _) => apply init_safe; lia
  | |- builder_safe (snd (add_if _ _ _)) => apply add_if_safe; [|intros ? ?]; solve_safe
  | |- builder_safe (snd (rsvp_builder_add_ero _ _)) => apply add_ero_safe; solve_safe
  | |- builder_safe (snd (rsvp_builder_add_rro _ _)) => apply add_rro_safe; solve_safe
  | |- builder_safe (snd (rsvp_builder_add_obj _ _ _ _)) => apply add_obj_safe; solve_safe
  | |- builder_safe (snd (0, _)) => cbn [snd]; solve_safe
  | |- builder_safe (snd (match ?e with Some _ => _ | None => _ end)) => destruct e; solve_safe
  | |- builder_safe (snd ?t) => let h := head_of t in unfold h; solve_safe
  | |- _ => assumption
  end.

Lemma path_message_safe p a i : builder_safe (path_message p a i).
Proof. unfold path_message. solve_safe. Qed.
Lemma resv_message_safe p r m a i : builder_safe (resv_message p r m a i).
Proof. unfold resv_message. solve_safe. Qed.
Lemma path_err_message_safe k a c v : builder_safe (path_err_message k a c v).
Proof. unfold path_err_message. solve_safe. Qed.
Lemma resv_err_message_safe k a c v : builder_safe (resv_err_message k a c v).
Proof. unfold resv_err_message. solve_safe. Qed.
Lemma path_tear_message_safe p a i : builder_safe (path_tear_message p a i).
Proof. unfold path_tear_message. solve_safe. Qed.
Lemma resv_tear_message_safe p r a i : builder_safe (resv_tear_message p r a i).
Proof. unfold resv_tear_message. solve_safe. Qed.
Lemma forward_path_err_safe p a i e : builder_safe (forward_path_err p a i e).
Proof. unfold forward_path_err. solve_safe. Qed.
Lemma forward_resv_err_safe p a i e : builder_safe (forward_resv_err p a i e).
Proof. unfold forward_resv_err. solve_safe. Qed.

#[export] Hint Resolve path_message_safe resv_message_safe path_err_message_safe
  resv_err_message_safe path_tear_message_safe resv_tear_message_safe
  forward_path_err_safe forward_resv_err_safe : safe.

(** A message never makes the encapsulation read outside the buffer. *)
Lemma rsvp_send_packet_total open ok src dest buf n rao :
  (8 <= n <= length buf)%nat → is_Some (rsvp_send_packet open ok src dest buf n rao).
Proof.
  intros Hn. unfold rsvp_send_packet.
  destruct (MAX_RSVP_PACKET_SIZE <? _)%nat; [by eexists|]. destruct open; [|by eexists].
  cbn [negb].
  destruct (load_is_Some 1 buf 4) as [ttl ->]; [lia|].
  assert (∃ v, (if (sizeof rsvp_common_hdr <=? n)%nat then Some ttl else Some 255) = Some v)
    as [v ->] by (case_if; by eexists).
  cbn [mbind option_bind]. rewrite (proj2 (Nat.ltb_ge _ _)) by lia. eexists. reflexivity.
Qed.

Section rules.
Context {TS LS : Type} `{TimerLaws TS timer_id timer_cb} `{LabelLaws LS} `{EnvLaws}.
Local Notation state := (state TS LS).
Local Notation M := (M state).
Implicit Types s : state.

(** ** Facts about blocks that frames keep *)

Definition has_psb s l k a : Prop :=
  (λ p, (psb_key p, psb_associated_rsb p)) <$> psbs s !! l = Some (k, a).
Definition not_bypass s l : Prop := psb_is_bypass_tunnel <$> psbs s !! l = Some false.
Definition has_rsb s l k a : Prop := rshape <$> rsbs s !! l = Some (k, a).
Definition has_bsb s l k : Prop := bsb_key <$> bsbs s !! l = Some k.

Lemma has_psb_frame s s' l k a : frame s s' → has_psb s l k a → has_psb s' l k a.
Proof.
  intros [F _ _ _] (p & Hp & [= -> ->])%fmap_Some.
  destruct (fmap_lookup_inv _ _ _ _ _ F Hp) as (p' & E & [= ? ? ?]).
  unfold has_psb. rewrite E. simpl. congruence.
Qed.
Lemma not_bypass_frame s s' l : frame s s' → not_bypass s l → not_bypass s' l.
Proof.
  intros [F _ _ _] (p & Hp & Hb)%fmap_Some.
  destruct (fmap_lookup_inv _ _ _ _ _ F Hp) as (p' & E & [= ? ? ?]).
  unfold not_bypass. rewrite E. simpl. congruence.
Qed.
Lemma has_rsb_frame s s' l k a : frame s s' → has_rsb s l k a → has_rsb s' l k a.
Proof. intros [_ F _ _]. unfold has_rsb. by rewrite <- !lookup_fmap, F. Qed.
Lemma has_bsb_frame s s' l k : frame s s' → has_bsb s l k → has_bsb s' l k.
Proof. intros [_ _ F _]. unfold has_bsb. by rewrite <- !lookup_fmap, F. Qed.

Lemma has_psb_intro s l p : psbs s !! l = Some p → has_psb s l (psb_key p) (psb_associated_rsb p).
Proof. unfold has_psb. by intros ->. Qed.
Lemma has_rsb_intro s l r : rsbs s !! l = Some r → has_rsb s l (rsb_key r) (rsb_associated_psb r).
Proof. unfold has_rsb. by intros ->. Qed.
Lemma has_bsb_intro s l x : bsbs s !! l = Some x → has_bsb s l (bsb_key x).
Proof. unfold has_bsb. by intros ->. Qed.

Lemma has_psb_inv s l k a :
  has_psb s l k a → ∃ p, psbs s !! l = Some p ∧ psb_key p = k ∧ psb_associated_rsb p = a.
Proof. intros (p & ? & [= -> ->])%fmap_Some. eauto. Qed.
Lemma has_rsb_inv s l k a :
  has_rsb s l k a → ∃ r, rsbs s !! l = Some r ∧ rsb_key r = k ∧ rsb_associated_psb r = a.
Proof. intros (r & ? & [= -> ->])%fmap_Some. eauto. Qed.
Lemma has_bsb_inv s l k : has_bsb s l k → ∃ x, bsbs s !! l = Some x ∧ bsb_key x = k.
Proof. intros (x & ? & ->)%fmap_Some. eauto. Qed.

(** The partner of an associated block. *)
Lemma has_rsb_partner b s l k a :
  Inv b s → has_rsb s l k a → ∃ lp, a = Some lp ∧ has_psb s lp k (Some l).
Proof.
  intros Hi (r & Hr & <- & <-)%has_rsb_inv.
  destruct (inv_assoc_rsb b s Hi l r Hr) as (lp & p & -> & Hp & <- & <-).
  exists lp. split; [done|]. by apply has_psb_intro.
Qed.
Lemma has_psb_partner b s l k lr :
  Inv b s → has_psb s l k (Some lr) → has_rsb s lr k (Some l).
Proof.
  intros Hi (p & Hp & <- & Ha)%has_psb_inv.
  destruct (inv_assoc_psb b s Hi l p lr Hp Ha) as (r & Hr & Hra).
  destruct (inv_assoc_rsb b s Hi lr r Hr) as (lp & p' & E & Hp' & _ & Hk).
  rewrite Hra in E. injection E as <-. rewrite Hp in Hp'. injection Hp' as <-.
  rewrite Hk, <- Hra. by apply has_rsb_intro.
Qed.

Lemma live_psb_refresh s l k a : has_psb s l k a → timer_live s (PsbRefresh l).
Proof. intros (p & ? & _)%has_psb_inv. by eexists. Qed.
Lemma live_psb_cleanup s l k a : has_psb s l k a → timer_live s (PsbCleanup l).
Proof. intros (p & ? & _)%has_psb_inv. by eexists. Qed.
Lemma live_rsb_refresh s l k a : has_rsb s l k a → timer_live s (RsbRefresh l).
Proof. intros (p & ? & _)%has_rsb_inv. by eexists. Qed.
Lemma live_rsb_cleanup s l k a : has_rsb s l k a → timer_live s (RsbCleanup l).
Proof. intros (p & ? & _)%has_rsb_inv. by eexists. Qed.
Lemma live_bsb s l k : has_bsb s l k → timer_live s (BsbBlockade l).
Proof. intros (p & ? & _)%has_bsb_inv. by eexists. Qed.

(** ** The host *)

(** States that differ in the clock and in packets sent. *)
Lemma frame_clock s f : frame s (s <| st_clock ::= f |>).
Proof. done. Qed.
Lemma frame_emit s o : frame s (s <| st_out ::= λ os, os ++ [o] |>).
Proof. done. Qed.
Lemma inv_packet b s bs : Inv b s → Inv b (s <| st_out ::= λ os, os ++ [Packet bs] |>).
Proof. intros. apply inv_emit; [done|]. auto. Qed.

Lemma wp_host {A B} b s (f : nat → A) (k : A → M B) Q :
  Inv b s →
  (∀ a s', Inv b s' → frame s s' → psbs s' = psbs s → (∃ n, a = f n) → wp (k a) Q s') →
  wp (host f ≫= k) Q s.
Proof.
  intros Hi Hk. apply wp_bind. unfold host.
  apply (Hk _ (s <| st_clock ::= Nat.succ |>)); [by apply inv_clock|done|done|by eexists].
Qed.

Lemma wp_local_addr b s i a Q :
  Inv b s → (∀ x s', Inv b s' → frame s s' → Q x s') →
  wp (hal_netlink_get_local_addr i a) Q s.
Proof.
  intros Hi HQ. unfold hal_netlink_get_local_addr. eapply wp_host; [done|].
  intros f s' ? ? _ _. apply wp_ret. auto.
Qed.
Lemma wp_egress_if b s d Q :
  Inv b s → (∀ x s', Inv b s' → frame s s' → - 2 ^ 31 ≤ x < 2 ^ 31 → Q x s') →
  wp (hal_netlink_get_egress_if d) Q s.
Proof.
  intros Hi HQ. unfold hal_netlink_get_egress_if. eapply wp_host; [done|].
  intros f s' ? ? _ [n ->]. apply wp_ret. apply HQ; try done. apply env_egress_range.
Qed.
Lemma wp_is_local_addr b s a Q :
  Inv b s → (∀ x s', Inv b s' → frame s s' → Q x s') →
  wp (hal_netlink_is_local_addr a) Q s.
Proof.
  intros Hi HQ. unfold hal_netlink_is_local_addr. eapply wp_host; [done|].
  intros f s' ? ? _ _. apply wp_ret. auto.
Qed.
Lemma wp_strdup b s str Q :
  Inv b s → (∀ x s', Inv b s' → frame s s' → Q x s') → wp (strdup str) Q s.
Proof.
  intros Hi HQ. unfold strdup. eapply wp_host; [done|].
  intros f s' ? ? _ _. apply wp_ret. auto.
Qed.
Lemma wp_rand b s Q :
  Inv b s → (∀ r s', Inv b s' → frame s s' → 0 ≤ r → Q r s') → wp rand Q s.
Proof.
  intros Hi HQ. unfold rand, host. apply wp_bind, wp_gets, wp_bind, wp_modify, wp_ret.
  apply HQ; [by apply inv_clock|done|]. apply env_rand_range.
Qed.

Lemma wp_finalize_and_send b s x src dest rao Q :
  Inv b s → builder_safe x → (∀ rc s', Inv b s' → frame s s' → Q rc s') →
  wp (finalize_and_send x src dest rao) Q s.
Proof.
  intros Hi Hx HQ. unfold finalize_and_send.
  destruct (rsvp_builder_finalize x) as [n x'] eqn:E.
  pose proof (finalize_safe x n x' Hx E) as Hn. unfold send_packet.
  eapply wp_host; [done|]. intros [open ok] s1 Hi1 Hf1 _ _.
  destruct (rsvp_send_packet_total open ok src dest (b_buffer x') n rao Hn) as [[rc p] Ep].
  apply wp_bind. eapply wp_lift; [exact Ep|]. apply wp_bind.
  destruct p as [bs|].
  - apply wp_modify, wp_ret. apply HQ; [by apply inv_packet|].
    by eapply frame_trans; [exact Hf1|].
  - apply wp_ret, wp_ret. by apply HQ.
Qed.

Lemma wp_jittered_refresh b s R backup Q :
  Inv b s → refresh_ok R → (∀ j s', Inv b s' → frame s s' → 0 ≤ j < 2 ^ 32 → Q j s') →
  wp (jittered_refresh R backup) Q s.
Proof.
  intros Hi HR HQ. unfold jittered_refresh. apply wp_bind. eapply wp_rand; [done|].
  intros r s' Hi' Hf Hr. destruct (get_jittered_refresh_spec r R backup HR Hr) as (j & E & Hj & _).
  eapply wp_lift; [done|]. auto.
Qed.

(** ** Blocks *)

Lemma wp_psb_get b s l k a Q :
  Inv b s → has_psb s l k a →
  (∀ p, psbs s !! l = Some p → psb_key p = k → psb_associated_rsb p = a → psb_good p → Q p s) →
  wp (psb_get l) Q s.
Proof.
  intros Hi (p & Hp & ? & ?)%has_psb_inv HQ. unfold psb_get. apply wp_bind, wp_gets.
  eapply wp_lift; [done|]. apply HQ; try done. by eapply inv_psb_good.
Qed.
Lemma wp_rsb_get b s l k a Q :
  Inv b s → has_rsb s l k a →
  (∀ r, rsbs s !! l = Some r → rsb_key r = k → rsb_associated_psb r = a →
        refresh_ok (rsb_refresh_ms r) → Q r s) →
  wp (rsb_get l) Q s.
Proof.
  intros Hi (r & Hr & ? & ?)%has_rsb_inv HQ. unfold rsb_get. apply wp_bind, wp_gets.
  eapply wp_lift; [done|]. apply HQ; try done. by eapply inv_rsb_good.
Qed.
Lemma wp_bsb_get s l k Q :
  has_bsb s l k → (∀ x, bsbs s !! l = Some x → bsb_key x = k → Q x s) →
  wp (bsb_get l) Q s.
Proof.
  intros (x & Hx & ?)%has_bsb_inv HQ. unfold bsb_get. apply wp_bind, wp_gets.
  eapply wp_lift; [done|]. by apply HQ.
Qed.

Lemma wp_psb_set b s l k a f Q :
  Inv b s → has_psb s l k a → psb_update_ok b s l f →
  (∀ p, psbs s !! l = Some p → psb_is_bypass_tunnel (f p) = psb_is_bypass_tunnel p) →
  (∀ s', Inv b s' → frame s s' → Q () s') → wp (psb_set l f) Q s.
Proof.
  intros Hi Hp Hf Hb HQ. unfold psb_set. apply wp_bind. eapply wp_psb_get; [done..|].
  intros p _ _ _ _. apply wp_modify, HQ; [by apply inv_psb_update|].
  apply psb_update_frame; [|by eapply inv_psb_good]. intros q Hq Hg.
  destruct (Hf q Hq Hg) as (E1 & E2 & _). unfold pshape. by rewrite E1, E2, Hb.
Qed.
(** The same without the frame, for an update that marks a bypass tunnel. *)
Lemma wp_psb_set_inv b s l k a f Q :
  Inv b s → has_psb s l k a → psb_update_ok b s l f →
  (∀ s', Inv b s' → has_psb s' l k a → Q () s') → wp (psb_set l f) Q s.
Proof.
  intros Hi Hp Hf HQ. unfold psb_set. apply wp_bind. eapply wp_psb_get; [done..|].
  intros p Ep Hk Ha Hg. apply wp_modify, HQ; [by apply inv_psb_update|].
  destruct (Hf p Ep Hg) as (E1 & E2 & _). unfold has_psb, psbs. simpl.
  rewrite lookup_alter, decide_True by done. unfold psbs in Ep. rewrite Ep. simpl. congruence.
Qed.
Lemma wp_rsb_set b s l k a f Q :
  Inv b s → has_rsb s l k a → rsb_update_ok s l f →
  (∀ s', Inv b s' → frame s s' → Q () s') → wp (rsb_set l f) Q s.
Proof.
  intros Hi Hp Hf HQ. unfold rsb_set. apply wp_bind. eapply wp_rsb_get; [done..|].
  intros p _ _ _ _. apply wp_modify. destruct (inv_rsb_update b s l f Hi Hf). auto.
Qed.
Lemma wp_bsb_set b s l k f Q :
  Inv b s → has_bsb s l k → (∀ x, bsb_key (f x) = bsb_key x) →
  (∀ s', Inv b s' → frame s s' → Q () s') → wp (bsb_set l f) Q s.
Proof.
  intros Hi Hp Hf HQ. unfold bsb_set. apply wp_bind. eapply wp_bsb_get; [done..|].
  intros p _ _. apply wp_modify. destruct (inv_bsb_update b s l f Hi Hf). auto.
Qed.

Lemma wp_psb_find b s k Q :
  Inv b s → (∀ l a, has_psb s l k a → Q (Some l) s) →
  ((∀ l p, psbs s !! l = Some p → psb_key p ≠ k) → Q None s) → wp (rsvp_psb_find k) Q s.
Proof.
  intros Hi H1' H2'. unfold rsvp_psb_find. apply wp_bind, wp_gets.
  destruct (table_find_spec (st_psb s) k (inv_psb b s Hi)) as (r & E & Hr).
  eapply wp_lift; [done|]. destruct r as [l|]; [|by apply H2'].
  destruct Hr as (p & Hp & <-). eapply H1'. by apply has_psb_intro.
Qed.
Lemma wp_rsb_find b s k Q :
  Inv b s → (∀ l a, has_rsb s l k a → Q (Some l) s) →
  ((∀ l r, rsbs s !! l = Some r → rsb_key r ≠ k) → Q None s) → wp (rsvp_rsb_find k) Q s.
Proof.
  intros Hi H1' H2'. unfold rsvp_rsb_find. apply wp_bind, wp_gets.
  destruct (table_find_spec (st_rsb s) k (inv_rsb b s Hi)) as (r & E & Hr).
  eapply wp_lift; [done|]. destruct r as [l|]; [|by apply H2'].
  destruct Hr as (p & Hp & <-). eapply H1'. by apply has_rsb_intro.
Qed.
Lemma wp_bsb_find b s k Q :
  Inv b s → (∀ l, has_bsb s l k → Q (Some l) s) →
  ((∀ l x, bsbs s !! l = Some x → bsb_key x ≠ k) → Q None s) → wp (rsvp_bsb_find k) Q s.
Proof.
  intros Hi H1' H2'. unfold rsvp_bsb_find. apply wp_bind, wp_gets.
  destruct (table_find_spec (st_bsb s) k (inv_bsb b s Hi)) as (r & E & Hr).
  eapply wp_lift; [done|]. destruct r as [l|]; [|by apply H2'].
  destruct Hr as (p & Hp & <-). apply H1'. by apply has_bsb_intro.
Qed.
Lemma wp_psb_find_by_id b s t i Q :
  Inv b s →
  (∀ l k a, has_psb s l k a → ntohs (sess_tunnel_id (key_session k)) = t →
            ntohs (snd_lsp_id (key_sender k)) = i → Q (Some l) s) →
  Q None s → wp (rsvp_psb_find_by_id t i) Q s.
Proof.
  intros Hi H1' H2'. unfold rsvp_psb_find_by_id. apply wp_bind, wp_gets.
  destruct (table_scan_spec (st_psb s) (λ p,
         (ntohs (sess_tunnel_id (key_session (psb_key p))) =? t)
         && (ntohs (snd_lsp_id (key_sender (psb_key p))) =? i)) (inv_psb b s Hi)) as (r & E & Hr).
  eapply wp_lift; [done|]. destruct r as [l|]; [|done].
  destruct Hr as (p & Hp & Hb). bools. eapply H1'; [by apply has_psb_intro|done|done].
Qed.

(** ** Timers *)

Lemma view_live b s t :
  Inv b s → timer_live s t → ∃ a cb, ti_view (st_timers s) !! t = Some (a, cb)
    ∧ (cb = None ∨ cb = Some (timer_callback t)).
Proof.
  intros Hi Hl. destruct (inv_timers b s Hi) as [_ Hm Hcb _].
  destruct (proj2 (Hm t)) as [[a cb] E]; [by left|]. exists a, cb. split; [done|].
  destruct cb as [cb|]; [|by left]. right. f_equal. by eapply Hcb.
Qed.

(** Replacing the view of a live timer. *)
Lemma inv_timer_insert b s t a cb ts :
  Inv b s → timer_live s t → ti_ok ts → (cb = None ∨ cb = Some (timer_callback t)) →
  ti_view ts = <[t := (a, cb)]> (ti_view (st_timers s)) → Inv b (s <| st_timers := ts |>).
Proof.
  intros Hi Hl Hok Hcb Hv. apply inv_timers_update; [done|done| | |].
  - intros t'. rewrite Hv, lookup_insert_is_Some'. split; [|by right].
    intros [<-|?]; [|done]. apply (ti_inv_mem s (inv_timers b s Hi)). by left.
  - intros t' a' cb'. rewrite Hv, lookup_insert_Some. intros [[<- [= _ E]]|[_ E]].
    + destruct Hcb as [Hn|Hs]; [by rewrite Hn in E|]. congruence.
    + by eapply (ti_inv_cb s (inv_timers b s Hi)).
  - intros t' a' cb'. rewrite Hv, lookup_insert_Some. intros [[<- _]|[_ E]]; [by left|].
    by eapply (ti_inv_idle s (inv_timers b s Hi)).
Qed.

Lemma frame_timers s ts : frame s (s <| st_timers := ts |>).
Proof. done. Qed.

Lemma wp_timer_start b s t type ms Q :
  Inv b s → timer_live s t → 0 ≤ ms < 2 ^ 32 →
  (∀ s', Inv b s' → frame s s' → Q () s') →
  wp (timer_start t type ms (timer_callback t)) Q s.
Proof.
  intros Hi Hl Hms HQ. destruct (inv_timers b s Hi) as [Hok Hm _ _].
  destruct (ti_start_law (st_timers s) t type ms (Some (timer_callback t)) Hok)
    as (ts & E & Hok' & Hv); [apply Hm; by left|done|].
  eapply wp_update; [by rewrite E|]. apply HQ; [|done].
  eapply inv_timer_insert; try done. by right.
Qed.
Lemma wp_timer_stop b s t Q :
  Inv b s → timer_live s t → (∀ s', Inv b s' → frame s s' → Q () s') → wp (timer_stop t) Q s.
Proof.
  intros Hi Hl HQ. destruct (view_live b s t Hi Hl) as (a & cb & Ev & Hcb).
  destruct (ti_stop_law (st_timers s) t a cb) as (ts & E & Hok' & Hv);
    [apply (inv_timers b s Hi)|done|].
  eapply wp_update; [by rewrite E|]. apply HQ; [|done]. by eapply inv_timer_insert.
Qed.
Lemma wp_timer_reset b s t ms Q :
  Inv b s → timer_live s t → 0 ≤ ms < 2 ^ 32 →
  (∀ x s', Inv b s' → frame s s' → Q x s') → wp (timer_reset t ms) Q s.
Proof.
  intros Hi Hl Hms HQ. destruct (view_live b s t Hi Hl) as (a & cb & Ev & Hcb).
  destruct (ti_reset_law (st_timers s) t a cb ms) as (ts & E & Hok' & Hv);
    [apply (inv_timers b s Hi)|done|done|].
  unfold wp, timer_reset. rewrite E. apply HQ; [|done].
  eapply inv_timers_update; [done|done|by intros; rewrite Hv|..];
    rewrite Hv; apply (inv_timers b s Hi).
Qed.
Lemma wp_timer_active b s t Q :
  Inv b s → timer_live s t → (∀ x, Q x s) → wp (timer_active t) Q s.
Proof.
  intros Hi Hl HQ. destruct (view_live b s t Hi Hl) as (a & cb & Ev & Hcb).
  unfold timer_active. apply wp_bind, wp_gets. eapply wp_lift; [|apply HQ].
  by rewrite ti_active_law, Ev.
Qed.
End rules.

(** Moves the facts about the state [s] along a frame [F : frame s s'], and
    composes [F] with the frame that leads to [s]. *)
Ltac advance F :=
  lazymatch type of F with
  | frame ?s ?s' =>
      repeat match goal with
      | Hx : has_psb s _ _ _ |- _ => apply (has_psb_frame _ _ _ _ _ F) in Hx
      | Hx : not_bypass s _ |- _ => apply (not_bypass_frame _ _ _ F) in Hx
      | Hx : has_rsb s _ _ _ |- _ => apply (has_rsb_frame _ _ _ _ _ F) in Hx
      | Hx : has_bsb s _ _ |- _ => apply (has_bsb_frame _ _ _ _ F) in Hx
      end;
      try match goal with
      | F0 : frame ?s0 s |- _ =>
          let F1 := fresh "F" in
          pose proof (frame_trans _ _ _ F0 F) as F1; clear F0 F; rename F1 into F
      end;
      try match goal with Hi : Inv _ s |- _ => clear Hi end
  end.

#[export] Hint Resolve live_psb_refresh live_psb_cleanup live_rsb_refresh live_rsb_cleanup
  live_bsb : live.
