(* ===== verification/SendRules.v ===== *)
(** * The senders and the fast-reroute association keep the invariant

    A rule for every function of Messages.v, and for the association of
    protected blocks with bypass tunnels. *)

From stdpp Require Import base numbers list option gmap sets.
From S2P Require Import Prelude Wire Protocol WheelTimer Timers Builder SendPacket Parser.
From S2P Require Import Interfaces StateDb Timing State Messages StateMachine Invariant.
From S2P Require Import Rules.

Section send_rules.
Context {TS LS : Type} `{TimerLaws TS timer_id timer_cb} `{LabelLaws LS} `{EnvLaws}.
Local Notation state := (state TS LS).
Local Notation M := (M state).
Implicit Types s : state.

(** An update of route, counters or flags of a path block. *)
Lemma wp_psb_set_plain b s l k a f Q :
  Inv b s → has_psb s l k a →
  (∀ p, psbs s !! l = Some p → psb_good p →
     pshape (f p) = pshape p ∧ psb_good (f p) ∧ psb_bypass_psb (f p) = psb_bypass_psb p) →
  (∀ s', Inv b s' → frame s s' → Q () s') → wp (psb_set l f) Q s.
Proof.
  intros Hi Hp Hf HQ. eapply wp_psb_set; [done..| | |done].
  - intros p Ep Hg. destruct (Hf p Ep Hg) as ([= E1 E2 E3] & ? & ?).
    split; [done|]. split; [done|]. split; [done|]. rewrite E3. auto.
  - intros p Ep. destruct (Hf p Ep) as ([= E1 E2 E3] & _); [by eapply inv_psb_good|done].
Qed.

Lemma psb_good_ero p hop rest :
  psb_good p → psb_ero p = hop :: rest → (length rest <= MAX_ERO_HOPS)%nat.
Proof. intros [_ _ Hl _ _] E. rewrite E in Hl. simpl in Hl. lia. Qed.

Lemma wp_resolve b s l k a Q :
  Inv b s → has_psb s l k a →
  (∀ ip i s', Inv b s' → frame s s' → - 2 ^ 31 ≤ i < 2 ^ 31 → Q (ip, i) s') →
  wp (resolve_path_next_hop l) Q s.
Proof.
  intros Hi Hp HQ. pose proof (frame_refl s) as F0. unfold resolve_path_next_hop.
  apply wp_bind. eapply wp_psb_get; [done..|]. intros p Ep _ _ Hg.
  apply wp_bind.
  assert (∀ ip s', Inv b s' → frame s s' →
    wp (out_ifindex ← hal_netlink_get_egress_if ip; mret (ip, out_ifindex)) Q s') as Hend.
  { intros ip s' Hi' F. apply wp_bind. eapply wp_egress_if; [done|]. intros i s2 Hi2 F2 Hr.
    apply wp_ret. apply HQ; [done| |done]. by eapply frame_trans. }
  destruct (psb_ero p) as [|hop rest] eqn:Ero; [by apply wp_ret, Hend|].
  apply wp_bind. eapply wp_local_addr; [done|]. intros [rc la] s1 Hi1 F. advance F.
  apply wp_bind.
  assert (∀ s2, Inv b s2 → frame s s2 → has_psb s2 l k a →
    wp (p0 ← psb_get l; mret (match psb_ero p0 with
          | [] => sess_dest_addr (key_session (psb_key p)) | hop0 :: _ => subobj_addr hop0 end))
      (λ ip s', wp (out_ifindex ← hal_netlink_get_egress_if ip; mret (ip, out_ifindex)) Q s') s2)
    as Hget.
  { intros s2 Hi2 F2 Hp2. apply wp_bind. eapply wp_psb_get; [done..|].
    intros p2 _ _ _ _. apply wp_ret. by apply Hend. }
  unfold when. case_if.
  - eapply wp_psb_set_plain; [done..| |].
    + intros p' _ []. split; [done|]. split; [|done]. split; try done.
      by eapply psb_good_ero.
    + intros s2 Hi2 F2. advance F2. by apply Hget.
  - apply wp_ret. by apply Hget.
Qed.

Lemma wp_send_path_err b s info code value Q :
  Inv b s → (∀ s', Inv b s' → frame s s' → Q () s') → wp (send_path_err info code value) Q s.
Proof.
  intros Hi HQ. pose proof (frame_refl s) as F0. unfold send_path_err.
  apply wp_bind. eapply wp_local_addr; [done|]. intros [rc la] s1 Hi1 F. advance F.
  apply wp_bind. eapply wp_finalize_and_send; [done|auto with safe|]. intros rc2 s2 Hi2 F2.
  advance F2. apply wp_ret. auto.
Qed.

Lemma wp_send_resv_err b s info code value Q :
  Inv b s → (∀ s', Inv b s' → frame s s' → Q () s') → wp (send_resv_err info code value) Q s.
Proof.
  intros Hi HQ. pose proof (frame_refl s) as F0. unfold send_resv_err.
  apply wp_bind. eapply wp_local_addr; [done|]. intros [rc la] s1 Hi1 F. advance F.
  apply wp_bind. eapply wp_finalize_and_send; [done|auto with safe|]. intros rc2 s2 Hi2 F2.
  advance F2. apply wp_ret. auto.
Qed.

Lemma wp_is_blockaded b s l k a Q :
  Inv b s → has_rsb s l k a → (∀ x, Q x s) → wp (rsvp_is_blockaded l) Q s.
Proof.
  intros Hi Hr HQ. unfold rsvp_is_blockaded. apply wp_bind. eapply wp_rsb_get; [done..|].
  intros r _ _ _ _. apply wp_bind. eapply wp_bsb_find; [done| |].
  - intros lb Hb. apply wp_bind. eapply wp_bsb_get; [done|]. intros x _ _. by apply wp_ret.
  - intros _. by apply wp_ret.
Qed.

Lemma wp_merged b s l k a Q :
  Inv b s → has_psb s l k a → (∀ x, Q x s) → wp (rsvp_compute_merged_flowspec l) Q s.
Proof.
  intros Hi Hp HQ. unfold rsvp_compute_merged_flowspec. apply wp_bind.
  eapply wp_psb_get; [done..|]. intros p _ _ -> _. destruct a as [lr|]; [|by apply wp_ret].
  pose proof (has_psb_partner _ _ _ _ _ Hi Hp) as Hr.
  apply wp_bind. eapply wp_is_blockaded; [done..|]. intros [|]; [by apply wp_ret|].
  apply wp_bind. eapply wp_rsb_get; [done..|]. intros r _ _ _ _. by apply wp_ret.
Qed.

Lemma wp_send_path_downstream b s l k a Q :
  Inv b s → has_psb s l k a → (∀ s', Inv b s' → frame s s' → Q () s') →
  wp (send_path_downstream l) Q s.
Proof.
  intros Hi Hp HQ. pose proof (frame_refl s) as F0. unfold send_path_downstream.
  apply wp_bind. eapply wp_resolve; [done..|]. intros ip i s1 Hi1 F _. advance F.
  case_if; [apply wp_ret; auto|].
  apply wp_bind. eapply wp_psb_set_plain; [done..| |].
  { intros p _ []. split; [done|]. split; [|done]. by split. }
  intros s2 Hi2 F2. advance F2.
  apply wp_bind. eapply wp_local_addr; [done|]. intros [rc la] s3 Hi3 F3. advance F3.
  apply wp_bind. eapply wp_psb_get; [done..|]. intros p _ _ _ _.
  apply wp_bind. eapply wp_finalize_and_send; [done|auto with safe|]. intros rc2 s4 Hi4 F4.
  advance F4. apply wp_ret. auto.
Qed.

Lemma wp_egress_toward b s addr Q :
  Inv b s → (∀ x s', Inv b s' → frame s s' → Q x s') → wp (egress_toward addr) Q s.
Proof.
  intros Hi HQ. pose proof (frame_refl s) as F0. unfold egress_toward.
  apply wp_bind. eapply wp_egress_if; [done|]. intros i s1 Hi1 F _. advance F.
  case_if; [|apply wp_ret; auto].
  apply wp_bind. eapply wp_local_addr; [done|]. intros [rc la] s3 Hi3 F3. advance F3.
  apply wp_ret. auto.
Qed.

(** A label for a reservation that has none: it is held by nobody else. *)
Lemma wp_ensure_label b s l k a Q :
  Inv b s → has_rsb s l k a →
  (∀ n s', Inv b s' → frame s s' →
     (∃ r, rsbs s' !! l = Some r ∧ rsb_label_in r = n) → Q n s') →
  wp (rsb_ensure_label l) Q s.
Proof.
  intros Hi Hr HQ. unfold rsb_ensure_label. apply wp_bind. eapply wp_rsb_get; [done..|].
  intros r Er Hk Ha Href. case_if; [|apply wp_ret, HQ; [done|done|eauto]]. bools.
  destruct (inv_labels b s Hi) as [(HS & L1 & L2 & L3) Hinj].
  destruct (lb_alloc_law (st_labels s) HS L1) as (n & ls & Ea & Hn).
  apply wp_bind. unfold wp at 1, label_alloc. rewrite Ea. cbn [mbind option_bind].
  apply wp_bind. unfold rsb_set. apply wp_bind. unfold rsb_get. apply wp_bind, wp_gets.
  eapply wp_lift; [exact Er|]. apply wp_modify, wp_ret.
  set (f := λ r0 : rsvp_rsb, r0 <| rsb_label_in := n |>).
  set (s' := (s <| st_labels := ls |>) <| st_rsb ::= λ t, table_update t l f |>).
  assert (∀ l', rsbs s' !! l' = if decide (l' = l) then Some (f r) else rsbs s !! l') as Hlk.
  { intros l'. change (rsbs s') with (alter f l (rsbs s)). case_decide as Hd.
    - subst l'. by rewrite lookup_alter, decide_True, Er by done.
    - by rewrite lookup_alter_ne. }
  assert (∀ m, m ≠ 0 → (∃ l' r', rsbs s' !! l' = Some r' ∧ rsb_label_in r' = m)
    ↔ m = n ∨ ∃ l' r', rsbs s !! l' = Some r' ∧ rsb_label_in r' = m) as Hset.
  { intros m Hm. split.
    - intros (l' & r' & Hl' & Hm'). rewrite Hlk in Hl'. case_decide.
      + injection Hl' as <-. left. by subst m.
      + right. eauto.
    - intros [->|(l' & r' & Hl' & Hm')].
      + exists l, (f r). rewrite Hlk, decide_True by done. done.
      + exists l', r'. rewrite Hlk, decide_False; [done|]. intros ->. congruence. }
  apply HQ.
  - apply (inv_rsb_change b s l f ls (st_out s)); [done|by intros|].
    change (labels_ok s'). split.
    + destruct Hn as [(-> & Hrel & _)|(Hnz & Hfr & Hrel)].
      * exists HS. split; [done|]. split; [|done]. intros m. rewrite L2.
        split; intros [Hm Hx]; (split; [done|]); apply Hset in Hx || apply Hset; naive_solver.
      * exists ({[n]} ∪ HS). split; [done|]. split.
        -- intros m. rewrite elem_of_union, elem_of_singleton, L2. split.
           ++ intros [->|[Hm Hx]]; (split; [done|]); apply Hset; auto.
           ++ intros [Hm Hx]. apply Hset in Hx; naive_solver.
        -- intros m Hm Hmz. apply elem_of_union_r. by apply L3.
    + intros l1 l2 r1 r2. rewrite !Hlk. assert (n = 0 ∨ n ∉ HS) as Hn' by naive_solver.
      assert (∀ l' r', rsbs s !! l' = Some r' → rsb_label_in r' = n → n ≠ 0 → False) as Hno.
      { intros l' r' Hl' Em Hz. destruct Hn' as [?|Hn']; [done|]. apply Hn', L2. eauto. }
      do 2 case_decide; subst; try done.
      * intros [= <-] Hr2 Heq Hz. exfalso. eapply Hno; eauto.
      * intros Hr1 [= <-] Heq Hz. exfalso. eapply Hno; [exact Hr1|done|]. simpl in *. congruence.
      * apply Hinj.
  - split; try done. by apply fmap_alter_shape.
  - exists (f r). by rewrite Hlk, decide_True.
Qed.

Lemma wp_send_resv_upstream b s l k a Q :
  Inv b s → has_rsb s l k a → (∀ s', Inv b s' → frame s s' → Q () s') →
  wp (send_resv_upstream l) Q s.
Proof.
  intros Hi Hr HQ. pose proof (frame_refl s) as F0. unfold send_resv_upstream.
  destruct (has_rsb_partner _ _ _ _ _ Hi Hr) as (lp & -> & Hp).
  apply wp_bind. eapply wp_rsb_get; [done..|]. intros r _ _ -> _.
  apply wp_bind. eapply wp_ensure_label; [done..|]. intros n s1 Hi1 F _. advance F.
  case_if; [apply wp_ret; auto|].
  apply wp_bind. eapply wp_psb_get; [done..|]. intros p _ _ _ _.
  apply wp_bind. eapply wp_egress_toward; [done|]. intros [i la] s2 Hi2 F2. advance F2.
  apply wp_bind. eapply wp_merged; [done..|]. intros fs.
  apply wp_bind. eapply wp_rsb_get; [done..|]. intros r2 _ _ _ _.
  apply wp_bind. eapply wp_finalize_and_send; [done|auto with safe|]. intros rc2 s4 Hi4 F4.
  advance F4. apply wp_ret. auto.
Qed.

Lemma wp_propagate_path_tear b s l k a Q :
  Inv b s → has_psb s l k a → (∀ s', Inv b s' → frame s s' → Q () s') →
  wp (propagate_path_tear l) Q s.
Proof.
  intros Hi Hp HQ. pose proof (frame_refl s) as F0. unfold propagate_path_tear.
  apply wp_bind. eapply wp_resolve; [done..|]. intros ip i s1 Hi1 F _. advance F.
  case_if; [apply wp_ret; auto|].
  apply wp_bind. eapply wp_local_addr; [done|]. intros [rc la] s3 Hi3 F3. advance F3.
  apply wp_bind. eapply wp_psb_get; [done..|]. intros p _ _ _ _.
  apply wp_bind. eapply wp_finalize_and_send; [done|auto with safe|]. intros rc2 s4 Hi4 F4.
  advance F4. apply wp_ret. auto.
Qed.

Lemma wp_propagate_resv_tear b s l k a Q :
  Inv b s → has_rsb s l k a → (∀ s', Inv b s' → frame s s' → Q () s') →
  wp (propagate_resv_tear l) Q s.
Proof.
  intros Hi Hr HQ. pose proof (frame_refl s) as F0. unfold propagate_resv_tear.
  destruct (has_rsb_partner _ _ _ _ _ Hi Hr) as (lp & -> & Hp).
  apply wp_bind. eapply wp_rsb_get; [done..|]. intros r _ _ -> _.
  apply wp_bind. eapply wp_psb_get; [done..|]. intros p _ _ _ _.
  case_if; [apply wp_ret; auto|].
  apply wp_bind. eapply wp_egress_toward; [done|]. intros [i la] s2 Hi2 F2. advance F2.
  apply wp_bind. eapply wp_finalize_and_send; [done|auto with safe|]. intros rc2 s4 Hi4 F4.
  advance F4. apply wp_ret. auto.
Qed.

Lemma wp_propagate_resv_err b s l k a err Q :
  Inv b s → has_rsb s l k a → (∀ s', Inv b s' → frame s s' → Q () s') →
  wp (propagate_resv_err l err) Q s.
Proof.
  intros Hi Hr HQ. pose proof (frame_refl s) as F0. unfold propagate_resv_err.
  destruct (has_rsb_partner _ _ _ _ _ Hi Hr) as (lp & -> & Hp).
  apply wp_bind. eapply wp_rsb_get; [done..|]. intros r _ _ -> _.
  apply wp_bind. eapply wp_psb_get; [done..|]. intros p _ _ _ _.
  apply wp_bind. eapply wp_egress_if; [done|]. intros i s1 Hi1 F _. advance F.
  case_if; [apply wp_ret; auto|].
  apply wp_bind. eapply wp_local_addr; [done|]. intros [rc la] s3 Hi3 F3. advance F3.
  apply wp_bind. eapply wp_finalize_and_send; [done|auto with safe|]. intros rc2 s4 Hi4 F4.
  advance F4. apply wp_ret. auto.
Qed.

(** ** The forwarding table *)

Lemma wp_mpls_install b s n x i nh d Q :
  Inv b s → (n = 0 ∨ ∃ l r, rsbs s !! l = Some r ∧ rsb_label_in r = n) →
  (∀ s', Inv b s' → frame s s' → Q () s') → wp (hal_mpls_install n x i nh d) Q s.
Proof.
  intros Hi Hn HQ. apply wp_modify, HQ; [|done]. apply inv_emit; [done|].
  intros m. simpl. rewrite elem_of_union, elem_of_singleton. intros [->|?] Hz; [|by left].
  right. destruct Hn as [?|(l & r & ? & ?)]; [done|eauto].
Qed.

Lemma wp_mpls_remove b s n d Q :
  Inv b s → (∀ s', Inv b s' → frame s s' → rsbs s' = rsbs s → Q () s') →
  wp (hal_mpls_remove n d) Q s.
Proof.
  intros Hi HQ. apply wp_modify, HQ; [|done|done]. apply inv_emit; [done|].
  intros m. simpl. rewrite elem_of_difference. intros [? _] _. by left.
Qed.

(** ** Association with bypass tunnels *)

(** Chains contain live blocks only. *)
Lemma psb_chain_live b s l :
  Inv b s → l ∈ mjoin (tb_buckets (st_psb s)) → ∃ k a, has_psb s l k a.
Proof.
  intros Hi [h Hl]%elem_of_buckets.
  destruct (tab_chain _ (inv_psb b s Hi) h l Hl) as (p & Hp & _).
  exists (psb_key p), (psb_associated_rsb p). by apply has_psb_intro.
Qed.

Lemma wp_all_psbs b s Q :
  Inv b s → (∀ chain, Forall (λ l, ∃ k a, has_psb s l k a) chain → Q chain s) → wp all_psbs Q s.
Proof.
  intros Hi HQ. apply wp_gets, HQ, Forall_forall. intros l. by apply (psb_chain_live b).
Qed.

Lemma live_chain_frame s s' (chain : list loc) :
  frame s s' → Forall (λ l, ∃ k a, has_psb s l k a) chain →
  Forall (λ l, ∃ k a, has_psb s' l k a) chain.
Proof.
  intros F Hc. eapply Forall_impl; [done|]. intros l (k & a & Hl). exists k, a.
  by eapply has_psb_frame.
Qed.

Lemma wp_bypass_ready b s k Q :
  Inv b s → (∀ x, Q x s) → wp (bypass_ready k) Q s.
Proof.
  intros Hi HQ. unfold bypass_ready. apply wp_bind. eapply wp_rsb_find; [done| |].
  - intros l a Hr. apply wp_bind. eapply wp_rsb_get; [done..|]. intros r _ _ _ _. by apply wp_ret.
  - intros _. by apply wp_ret.
Qed.

Lemma wp_frr_arm b s l k a chain Q :
  Inv b s → has_psb s l k a → Forall (λ l, ∃ k a, has_psb s l k a) chain →
  (∀ s', Inv b s' → frame s s' → Q () s') → wp (frr_arm l chain) Q s.
Proof.
  intros Hi Hp Hc HQ. induction Hc as [|c chain (kc & ac & Hpc) _ IH]; [by apply wp_ret, HQ|].
  simpl. apply wp_bind. eapply wp_psb_get; [done..|]. intros cp Ecp _ _ _.
  apply wp_bind. eapply wp_psb_get; [done..|]. intros p Ep _ _ _.
  destruct (psb_is_bypass_tunnel cp) eqn:Eb; simpl; [|done].
  case_if; [done|].
  apply wp_bind. eapply wp_bypass_ready; [done|]. intros [r|]; [|done].
  eapply wp_psb_set; [done..| |done|done].
  intros p' Hp' Hg. split; [done|]. split; [done|]. split; [by destruct Hg|]. split; [done|].
  intros _. right. exists c, cp. done.
Qed.

Lemma wp_frr_auto_associate b s l k a Q :
  Inv b s → has_psb s l k a → (∀ s', Inv b s' → frame s s' → Q () s') →
  wp (rsvp_frr_auto_associate l) Q s.
Proof.
  intros Hi Hp HQ. unfold rsvp_frr_auto_associate. apply wp_bind. eapply wp_psb_get; [done..|].
  intros p _ _ _ _. case_if; [by apply wp_ret, HQ|].
  apply wp_bind. eapply wp_all_psbs; [done|]. intros chain Hc. by eapply wp_frr_arm.
Qed.

(** A loop over live path blocks whose body keeps the invariant. *)
Lemma wp_iter_psbs b (f : loc → M ()) chain s Q :
  Inv b s → Forall (λ l, ∃ k a, has_psb s l k a) chain →
  (∀ l k a s' (R : () → state → Prop), Inv b s' → has_psb s' l k a →
     (∀ s'', Inv b s'' → frame s' s'' → R () s'') → wp (f l) R s') →
  (∀ s', Inv b s' → frame s s' → Q () s') → wp (iter f chain) Q s.
Proof.
  intros Hi Hc Hf HQ. eapply wp_mono.
  - apply (wp_iter f chain (λ s', Inv b s' ∧ frame s s')); [done|].
    intros l s1 Hl [Hi1 F1]. eapply live_chain_frame in Hc; [|exact F1].
    rewrite Forall_forall in Hc. destruct (Hc l Hl) as (k & a & Hp).
    eapply Hf; [done..|]. intros s2 Hi2 F2. split; [done|]. by eapply frame_trans.
  - intros [] s' []. auto.
Qed.

Lemma wp_frr_auto_associate_all b s i Q :
  Inv b s → (∀ s', Inv b s' → frame s s' → Q () s') →
  wp (rsvp_frr_auto_associate_all i) Q s.
Proof.
  intros Hi HQ. unfold rsvp_frr_auto_associate_all. apply wp_bind.
  eapply wp_all_psbs; [done|]. intros chain Hc. eapply wp_iter_psbs; [done..| |done].
  intros l k a s' R Hi' Hp HR. apply wp_bind. eapply wp_psb_get; [done..|]. intros p _ _ _ _.
  unfold when. case_if; [by eapply wp_frr_auto_associate|]. apply wp_ret. by apply HR.
Qed.
End send_rules.
