(* ===== verification/Lifecycle.v ===== *)
(** * Creation and deletion of state blocks

    The updates that add or remove a block, with the conditions under which
    they keep the invariant, and the rules for the functions of
    rsvp_state_db.c that create and delete blocks, and for the teardown
    functions of rsvp_state_machine.c built on them. *)

From stdpp Require Import base numbers list option gmap sets.
From S2P Require Import Prelude Wire Protocol WheelTimer Timers Builder SendPacket Parser.
From S2P Require Import Interfaces StateDb Timing State Messages StateMachine Invariant.
From S2P Require Import Rules SendRules.

Section lifecycle.
Context {TS LS : Type} `{TimerLaws TS timer_id timer_cb} `{LabelLaws LS} `{EnvLaws}.
Local Notation state := (state TS LS).
Local Notation M := (M state).
Implicit Types s : state.

(** ** Rules without the invariant *)

Lemma wp_psb_get_raw s l p Q : psbs s !! l = Some p → Q p s → wp (psb_get l) Q s.
Proof. intros Hp HQ. unfold psb_get. apply wp_bind, wp_gets. by eapply wp_lift. Qed.
Lemma wp_rsb_get_raw s l r Q : rsbs s !! l = Some r → Q r s → wp (rsb_get l) Q s.
Proof. intros Hp HQ. unfold rsb_get. apply wp_bind, wp_gets. by eapply wp_lift. Qed.
Lemma wp_bsb_get_raw s l r Q : bsbs s !! l = Some r → Q r s → wp (bsb_get l) Q s.
Proof. intros Hp HQ. unfold bsb_get. apply wp_bind, wp_gets. by eapply wp_lift. Qed.
Lemma wp_psb_set_raw s l p f Q :
  psbs s !! l = Some p → Q () (s <| st_psb ::= λ t, table_update t l f |>) → wp (psb_set l f) Q s.
Proof. intros Hp HQ. unfold psb_set. apply wp_bind. by eapply wp_psb_get_raw. Qed.
Lemma wp_rsb_set_raw s l p f Q :
  rsbs s !! l = Some p → Q () (s <| st_rsb ::= λ t, table_update t l f |>) → wp (rsb_set l f) Q s.
Proof. intros Hp HQ. unfold rsb_set. apply wp_bind. by eapply wp_rsb_get_raw. Qed.

Lemma alter_is_insert {A} (f : A → A) (m : gmap loc A) l a :
  m !! l = Some a → alter f l m = <[l := f a]> m.
Proof. apply alter_insert_eq. Qed.

(** The timers of a state, and what the timer operations do to its view. *)
Lemma timers_inv_view s t :
  timers_inv s → timer_live s t → ∃ a cb, ti_view (st_timers s) !! t = Some (a, cb).
Proof.
  intros [_ Hm _ _] Hl. destruct (proj2 (Hm t)) as [[a cb] ?]; [by left|]. eauto.
Qed.

Lemma wp_timer_stop_raw s t a cb Q :
  ti_ok (st_timers s) → ti_view (st_timers s) !! t = Some (a, cb) →
  (∀ ts, ti_ok ts → ti_view ts = <[t := (false, cb)]> (ti_view (st_timers s)) →
         Q () (s <| st_timers := ts |>)) →
  wp (timer_stop t) Q s.
Proof.
  intros Hok Hv HQ. destruct (ti_stop_law (st_timers s) t a cb Hok Hv) as (ts & E & ? & ?).
  eapply wp_update; [by rewrite E|]. auto.
Qed.

Lemma wp_timer_release_raw s t cb Q :
  ti_ok (st_timers s) → ti_view (st_timers s) !! t = Some (false, cb) →
  (∀ ts, ti_ok ts → ti_view ts = delete t (ti_view (st_timers s)) →
         Q () (s <| st_timers := ts |>)) →
  wp (timer_release t) Q s.
Proof.
  intros Hok Hv HQ. destruct (ti_free_law (st_timers s) t cb Hok Hv) as (ts & E & ? & ?).
  eapply wp_update; [by rewrite E|]. auto.
Qed.

Lemma wp_timer_calloc_raw s t Q :
  ti_ok (st_timers s) → ti_view (st_timers s) !! t = None →
  (∀ ts, ti_ok ts → ti_view ts = <[t := (false, None)]> (ti_view (st_timers s)) →
         Q () (s <| st_timers := ts |>)) →
  wp (timer_calloc t) Q s.
Proof.
  intros Hok Hv HQ. destruct (ti_alloc_law (st_timers s) t Hok Hv) as [? ?].
  apply wp_modify. by apply HQ.
Qed.

(** New timers, zeroed, for the memory that has become live. *)
Lemma timers_inv_grow s s' (new : list timer_id) :
  timers_inv s → ti_ok (st_timers s') →
  ti_view (st_timers s') = foldr (λ t m, <[t := (false, None)]> m) (ti_view (st_timers s)) new →
  (∀ t, timer_live s' t ↔ t ∈ new ∨ timer_live s t) →
  timers_inv s'.
Proof.
  intros [_ Hm Hcb Ha] Hok Hv Hl. split; [done|..]; rewrite Hv; clear Hv.
  - intros t. rewrite Hl. clear Hl. induction new as [|t' new IH]; simpl.
    + rewrite Hm, elem_of_nil. tauto.
    + rewrite lookup_insert_is_Some', IH, elem_of_cons. naive_solver.
  - clear Hl. induction new as [|t' new IH]; simpl; [done|]. intros t a cb.
    rewrite lookup_insert_Some. intros [[_ ?]|[_ ?]]; [done|by eapply IH].
  - intros t a cb Ht. rewrite Hl.
    assert ((a = false ∧ cb = None) ∨ ti_view (st_timers s) !! t = Some (a, cb)) as [?|?%Ha];
      [|naive_solver..]. clear Hl.
    induction new as [|t' new IH]; simpl in Ht; [by right|].
    apply lookup_insert_Some in Ht as [[_ [= <- <-]]|[_ ?]]; [by left|by apply IH].
Qed.

(** The timers of freed memory are gone. *)
Lemma timers_inv_shrink s s' (old : list timer_id) :
  timers_inv s → ti_ok (st_timers s') →
  (∀ t, ti_view (st_timers s') !! t
        = if decide (t ∈ old) then None else ti_view (st_timers s) !! t) →
  (∀ t, timer_live s' t ↔ t ∉ old ∧ timer_live s t) → Forall (λ t, ¬ timer_static t) old →
  timers_inv s'.
Proof.
  intros [_ Hm Hcb Ha] Hok Hv Hl Hst. rewrite Forall_forall in Hst. split; [done|..].
  - intros t. rewrite Hv, Hl. case_decide; [|rewrite Hm; tauto].
    split; [by intros []|]. specialize (Hst t). tauto.
  - intros t a cb. rewrite Hv. case_decide; [done|apply Hcb].
  - intros t a cb. rewrite Hv. case_decide; [done|]. intros Ht%Ha. rewrite Hl. tauto.
Qed.

(** ** Adding and removing blocks *)

Definition same_nbors s s' : Prop :=
  st_neighbors s' = st_neighbors s ∧ st_nbor_count s' = st_nbor_count s.

Lemma inv_psb_added b s s' l k :
  Inv b s → psbs s !! l = None → key_good k →
  table_ok (st_psb s') → psbs s' = <[l := new_psb k]> (psbs s) → st_rsb s' = st_rsb s →
  st_bsb s' = st_bsb s → timers_inv s' → st_labels s' = st_labels s → st_out s' = st_out s →
  same_nbors s s' → Inv b s'.
Proof.
  intros [It Itr Itb Ig Irg Iar Iap Itm Ila In Iby] Hl Hkg Htab Hps Hrs Hbs Htm Hla Hou [Hn1 Hn2].
  assert (∀ l' p, psbs s' !! l' = Some p → (l' = l ∧ p = new_psb k) ∨ psbs s !! l' = Some p) as Hcase.
  { intros l' p. rewrite Hps, lookup_insert_Some. naive_solver. }
  assert (∀ l' p, psbs s !! l' = Some p → psbs s' !! l' = Some p) as Hold.
  { intros l' p Hp. rewrite Hps, lookup_insert_ne; [done|]. intros <-. congruence. }
  assert (rsbs s' = rsbs s) as Hrs' by (unfold rsbs; by rewrite Hrs).
  split; rewrite ?Hrs, ?Hbs, ?Hrs', ?Hn1, ?Hn2; try done.
  - intros l' p [[_ ->]|Hp]%Hcase; [|eauto]. split; try done; simpl; unfold MAX_ERO_HOPS, MAX_RRO_HOPS; lia.
  - intros lr r Hr. destruct (Iar lr r Hr) as (lp & p & ? & ? & ? & ?). eauto 10.
  - intros l' p lr [[_ ->]|Hp]%Hcase; [done|eauto].
  - destruct Ila as [(HS & ? & ? & ?) ?]. split; rewrite ?Hrs', ?Hla, ?Hou; [|done].
    exists HS. done.
  - intros Hb l' p c [[_ ->]|Hp]%Hcase Hc; [done|].
    destruct (Iby Hb l' p c Hp Hc) as (q & ? & ?). eauto.
Qed.

Lemma inv_psb_removed b s s' l p :
  Inv b s → psbs s !! l = Some p → psb_associated_rsb p = None →
  (b = true → psb_is_bypass_tunnel p = false) →
  table_ok (st_psb s') → psbs s' = delete l (psbs s) → st_rsb s' = st_rsb s →
  st_bsb s' = st_bsb s → timers_inv s' → st_labels s' = st_labels s → st_out s' = st_out s →
  same_nbors s s' → Inv b s'.
Proof.
  intros [It Itr Itb Ig Irg Iar Iap Itm Ila In Iby] Hp Ha Hby Htab Hps Hrs Hbs Htm Hla Hou [Hn1 Hn2].
  assert (∀ l' q, psbs s' !! l' = Some q → psbs s !! l' = Some q) as Hcase.
  { intros l' q. rewrite Hps. by intros [_ ?]%lookup_delete_Some. }
  assert (∀ l' q, psbs s !! l' = Some q → l' ≠ l → psbs s' !! l' = Some q) as Hold.
  { intros l' q Hq Hne. by rewrite Hps, lookup_delete_ne. }
  assert (rsbs s' = rsbs s) as Hrs' by (unfold rsbs; by rewrite Hrs).
  split; rewrite ?Hrs, ?Hbs, ?Hrs', ?Hn1, ?Hn2; try done; [by eauto|..|by eauto| |].
  - intros lr r Hr. destruct (Iar lr r Hr) as (lp & q & ? & Hq & ? & ?).
    exists lp, q. split; [done|]. split; [|done]. apply Hold; [done|]. intros ->. congruence.
  - destruct Ila as [(HS & ? & ? & ?) ?]. split; rewrite ?Hrs', ?Hla, ?Hou; [|done].
    exists HS. done.
  - intros Hb l' q c Hq%Hcase Hc. destruct (Iby Hb l' q c Hq Hc) as (x & Hx & Hbx).
    exists x. split; [|done]. apply Hold; [done|]. intros ->. rewrite Hp in Hx. injection Hx as <-.
    rewrite Hby in Hbx; done.
Qed.

(** A reservation appears together with the pointer of its path block. *)
Lemma inv_rsb_added b s s' l r lp p :
  Inv b s → rsbs s !! l = None → psbs s !! lp = Some p → psb_key p = rsb_key r →
  psb_associated_rsb p = None → rsb_associated_psb r = Some lp → rsb_label_in r = 0 →
  refresh_ok (rsb_refresh_ms r) →
  table_ok (st_psb s') → table_ok (st_rsb s') →
  psbs s' = <[lp := p <| psb_associated_rsb := Some l |>]> (psbs s) →
  rsbs s' = <[l := r]> (rsbs s) →
  st_bsb s' = st_bsb s → timers_inv s' → st_labels s' = st_labels s → st_out s' = st_out s →
  same_nbors s s' → Inv b s'.
Proof.
  intros [It Itr Itb Ig Irg Iar Iap Itm Ila In Iby] Hl Hp Hk Hpa Hra Hlab Href Htp Htr Hps Hrs Hbs Htm Hla Hou [Hn1 Hn2].
  assert (∀ l' q, psbs s' !! l' = Some q →
    (l' = lp ∧ q = p <| psb_associated_rsb := Some l |>) ∨ (l' ≠ lp ∧ psbs s !! l' = Some q)) as Hpc.
  { intros l' q. rewrite Hps, lookup_insert_Some. naive_solver. }
  assert (∀ l' q, rsbs s' !! l' = Some q → (l' = l ∧ q = r) ∨ (l' ≠ l ∧ rsbs s !! l' = Some q)) as Hrc.
  { intros l' q. rewrite Hrs, lookup_insert_Some. naive_solver. }
  assert (psbs s' !! lp = Some (p <| psb_associated_rsb := Some l |>)) as Hlp
    by (by rewrite Hps, lookup_insert_eq).
  split; rewrite ?Hbs, ?Hn1, ?Hn2; try done.
  - intros l' q [[_ ->]|[_ Hq]]%Hpc; [|eauto]. by destruct (Ig lp p Hp).
  - intros l' q [[_ ->]|[_ Hq]]%Hrc; [done|eauto].
  - intros l' q [[-> ->]|[Hne Hq]]%Hrc; [by eauto 10|].
    destruct (Iar l' q Hq) as (lq & x & ? & Hx & ? & ?).
    exists lq, x. split; [done|]. split; [|done]. rewrite Hps, lookup_insert_ne; [done|].
    intros <-. congruence.
  - intros l' q lr [[-> ->]|[Hne Hq]]%Hpc Ha.
    + injection Ha as <-. exists r. split; [by rewrite Hrs, lookup_insert_eq|done].
    + destruct (Iap l' q lr Hq Ha) as (x & Hx & ?). exists x. split; [|done].
      rewrite Hrs, lookup_insert_ne; [done|]. intros <-. congruence.
  - destruct Ila as [(HS & L1 & L2 & L3) Hinj]. split; rewrite ?Hla, ?Hou.
    + exists HS. split; [done|]. split; [|done]. intros n. rewrite L2.
      split; intros [Hn (l' & q & Hq & En)]; (split; [done|]).
      * exists l', q. split; [|done]. rewrite Hrs, lookup_insert_ne; [done|]. intros <-. congruence.
      * apply Hrc in Hq as [[-> ->]|[_ Hq]]; [congruence|eauto].
    + intros l1 l2 r1 r2 [[-> ->]|[_ H1']]%Hrc [[-> ->]|[_ H2']]%Hrc; try done; try congruence.
      by apply Hinj.
  - intros Hb l' q c Hq Hc.
    assert (∃ q0, psbs s !! l' = Some q0 ∧ psb_bypass_psb q0 = Some c) as (q0 & Hq0 & Hc0).
    { apply Hpc in Hq as [[-> ->]|[_ Hq]]; eauto. }
    destruct (Iby Hb l' q0 c Hq0 Hc0) as (x & Hx & Hbx).
    destruct (decide (lp = c)) as [<-|].
    + eexists. split; [exact Hlp|]. rewrite Hp in Hx. by injection Hx as <-.
    + exists x. split; [|done]. by rewrite Hps, lookup_insert_ne.
Qed.

(** A reservation without label disappears, and its path block's pointer. *)
Lemma inv_rsb_removed b s s' l r lp p :
  Inv b s → rsbs s !! l = Some r → rsb_label_in r = 0 → rsb_associated_psb r = Some lp →
  psbs s !! lp = Some p →
  table_ok (st_psb s') → table_ok (st_rsb s') →
  psbs s' = <[lp := p <| psb_associated_rsb := None |>]> (psbs s) →
  rsbs s' = delete l (rsbs s) →
  st_bsb s' = st_bsb s → timers_inv s' → st_labels s' = st_labels s → st_out s' = st_out s →
  same_nbors s s' → Inv b s'.
Proof.
  intros Hi Hr Hlab Hra Hp Htp Htr Hps Hrs Hbs Htm Hla Hou [Hn1 Hn2].
  destruct Hi as [It Itr Itb Ig Irg Iar Iap Itm Ila In Iby].
  assert (∀ l' q, psbs s' !! l' = Some q →
    (l' = lp ∧ q = p <| psb_associated_rsb := None |>) ∨ (l' ≠ lp ∧ psbs s !! l' = Some q)) as Hpc.
  { intros l' q. rewrite Hps, lookup_insert_Some. naive_solver. }
  assert (∀ l' q, rsbs s' !! l' = Some q ↔ l' ≠ l ∧ rsbs s !! l' = Some q) as Hrc.
  { intros l' q. rewrite Hrs, lookup_delete_Some. naive_solver. }
  assert (psb_associated_rsb p = Some l) as Hpa.
  { destruct (Iar l r Hr) as (lq & x & E & Hx & Hxa & _). rewrite Hra in E. injection E as <-.
    congruence. }
  split; rewrite ?Hbs, ?Hn1, ?Hn2; try done.
  - intros l' q [[_ ->]|[_ Hq]]%Hpc; [|eauto]. by destruct (Ig lp p Hp).
  - intros l' q [_ Hq]%Hrc. eauto.
  - intros l' q [Hne Hq]%Hrc. destruct (Iar l' q Hq) as (lq & x & ? & Hx & Hxa & ?).
    exists lq, x. split; [done|]. split; [|done]. rewrite Hps, lookup_insert_ne; [done|].
    intros <-. congruence.
  - intros l' q lr [[-> ->]|[Hne Hq]]%Hpc Ha; [done|].
    destruct (Iap l' q lr Hq Ha) as (x & Hx & Hxa). exists x. split; [|done].
    apply Hrc. split; [|done]. intros ->. congruence.
  - destruct Ila as [(HS & L1 & L2 & L3) Hinj]. split; rewrite ?Hla, ?Hou.
    + exists HS. split; [done|]. split; [|done]. intros n. rewrite L2.
      split; intros [Hn (l' & q & Hq & En)]; (split; [done|]); exists l', q; (split; [|done]).
      * apply Hrc. split; [|done]. intros ->. congruence.
      * by apply Hrc in Hq as [_ Hq].
    + intros l1 l2 r1 r2 [_ Hr1]%Hrc [_ Hr2]%Hrc. by apply Hinj.
  - intros Hb l' q c Hq Hc.
    assert (∃ q0, psbs s !! l' = Some q0 ∧ psb_bypass_psb q0 = Some c) as (q0 & Hq0 & Hc0).
    { apply Hpc in Hq as [[-> ->]|[_ Hq]]; eauto. }
    destruct (Iby Hb l' q0 c Hq0 Hc0) as (x & Hx & Hbx).
    destruct (decide (lp = c)) as [<-|].
    + eexists. split; [by rewrite Hps, lookup_insert_eq|]. rewrite Hp in Hx. by injection Hx as <-.
    + exists x. split; [|done]. by rewrite Hps, lookup_insert_ne.
Qed.

Lemma inv_bsb_change b s s' :
  Inv b s → st_psb s' = st_psb s → st_rsb s' = st_rsb s → table_ok (st_bsb s') →
  timers_inv s' → st_labels s' = st_labels s → st_out s' = st_out s → same_nbors s s' → Inv b s'.
Proof.
  intros [It Itr Itb Ig Irg Iar Iap Itm Ila In Iby] Hps Hrs Hbs Htm Hla Hou [Hn1 Hn2].
  assert (psbs s' = psbs s) as Hps' by (unfold psbs; by rewrite Hps).
  assert (rsbs s' = rsbs s) as Hrs' by (unfold rsbs; by rewrite Hrs).
  split; rewrite ?Hps, ?Hrs, ?Hps', ?Hrs', ?Hn1, ?Hn2; try done.
  destruct Ila as [(HS & ? & ? & ?) ?]. split; rewrite ?Hrs', ?Hla, ?Hou; [|done].
  by exists HS.
Qed.

(** ** Creation *)

Lemma view_dead s t :
  timers_inv s → ¬ timer_live s t → ¬ timer_static t → ti_view (st_timers s) !! t = None.
Proof.
  intros [_ Hm _ _] Hl Hs. apply eq_None_not_Some. by intros [?|?]%Hm.
Qed.

(** Everything of [s] is still in [s']. *)
Record kept s s' : Prop := {
  kept_psb : ∀ l k a, has_psb s l k a → has_psb s' l k a;
  kept_rsb : ∀ l k a, has_rsb s l k a → has_rsb s' l k a;
  kept_bsb : ∀ l k, has_bsb s l k → has_bsb s' l k;
  kept_nbors : same_nbors s s';
}.

Lemma wp_psb_create b s k Q :
  Inv b s → key_good k → (∀ l p, psbs s !! l = Some p → psb_key p ≠ k) →
  (∀ s', Inv b s' → frame s s' → Q None s') →
  (∀ l s', Inv b s' → kept s s' → has_psb s' l k None → psbs s' !! l = Some (new_psb k) →
     Q (Some l) s') →
  wp (rsvp_psb_create k) Q s.
Proof.
  intros Hi Hkg Hk HN HS. unfold rsvp_psb_create. eapply wp_host; [done|].
  intros alloc s1 Hi1 F Eps [n ->]. rewrite <- Eps in Hk.
  apply wp_bind, wp_gets. destruct (env_calloc n _) as [l|] eqn:El; [|by apply wp_ret, HN].
  apply env_calloc_fresh in El. apply not_elem_of_dom in El.
  pose proof (inv_timers b s1 Hi1) as Ht.
  assert (¬ is_Some (psbs s1 !! l)) as Hdead by (unfold psbs; rewrite El; by intros [? ?]).
  apply wp_bind. apply wp_timer_calloc_raw; [apply Ht|by apply view_dead; [| |intros []]|].
  intros ts1 Hok1 Hv1. apply wp_bind. apply wp_timer_calloc_raw; [done| |].
  { simpl. rewrite Hv1, lookup_insert_ne by done. by apply view_dead; [| |intros []]. }
  intros ts2 Hok2 Hv2. simpl in Hv2. apply wp_bind, wp_modify, wp_ret.
  assert (table_ok (table_insert (st_psb s1) l (new_psb k))) as Htab
    by (apply table_insert_ok; [apply Hi1|done|apply Hk]).
  match goal with |- Q _ ?x => set (s' := x) end.
  assert (psbs s' = <[l := new_psb k]> (psbs s1)) as Hps by done.
  assert (psbs s' !! l = Some (new_psb k)) as Hl by (rewrite Hps; apply lookup_insert_eq).
  apply HS; [| |by apply (has_psb_intro s' l (new_psb k))|done].
  - apply (inv_psb_added b s1 s' l k); try done.
    apply (timers_inv_grow s1 s' [PsbCleanup l; PsbRefresh l]); [done|done|by simpl; rewrite Hv2, Hv1|].
    assert (∀ l0, is_Some (psbs s' !! l0) ↔ l = l0 ∨ is_Some (psbs s1 !! l0)) as Hlive
      by (intros l0; rewrite Hps; apply lookup_insert_is_Some').
    intros t. rewrite !elem_of_cons, elem_of_nil.
    destruct t as [l'|l'| | | | |]; cbn [timer_live]; rewrite ?Hlive; naive_solver.
  - split; [|exact (λ l k a, has_rsb_frame s s1 l k a F)|exact (λ l k, has_bsb_frame s s1 l k F)
            |by destruct F].
    intros l' k' a' Hp. eapply has_psb_frame in Hp; [|exact F].
    destruct (has_psb_inv _ _ _ _ Hp) as (p & Ep & <- & <-). apply has_psb_intro. rewrite Hps, lookup_insert_ne; [done|]. intros <-.
    apply Hdead. by eexists.
Qed.

(** A new reservation, then [upd] on it, then its path block points at it: the
    order in which both handlers do it, with reads of the path block between. *)
Lemma wp_rsb_create b s k Q :
  Inv b s → (∀ l r, rsbs s !! l = Some r → rsb_key r ≠ k) →
  (∀ s', Inv b s' → frame s s' → Q None s') →
  (∀ l s1 s', Inv b s1 → frame s s1 → rsbs s1 !! l = None →
     (∀ l r, rsbs s1 !! l = Some r → rsb_key r ≠ k) →
     st_psb s' = st_psb s1 → st_rsb s' = table_insert (st_rsb s1) l (new_rsb k) →
     st_bsb s' = st_bsb s1 → ti_ok (st_timers s') →
     ti_view (st_timers s') = <[RsbCleanup l := (false, None)]>
                               (<[RsbRefresh l := (false, None)]> (ti_view (st_timers s1))) →
     st_labels s' = st_labels s1 → st_out s' = st_out s1 → same_nbors s1 s' →
     Q (Some l) s') →
  wp (rsvp_rsb_create k) Q s.
Proof.
  intros Hi Hk HN HS. unfold rsvp_rsb_create. eapply wp_host; [done|].
  intros alloc s1 Hi1 F Eps [n ->].
  assert (∀ l r, rsbs s1 !! l = Some r → rsb_key r ≠ k) as Hk1.
  { intros l r Hr <-. destruct F as [_ F _ _].
    destruct (fmap_lookup_inv _ _ _ _ _ (eq_sym F) Hr) as (r' & Hr' & [= E _]).
    by apply (Hk l r' Hr'). }
  apply wp_bind, wp_gets. destruct (env_calloc n _) as [l|] eqn:El; [|by apply wp_ret, HN].
  apply env_calloc_fresh in El. apply not_elem_of_dom in El.
  pose proof (inv_timers b s1 Hi1) as Ht.
  assert (¬ is_Some (rsbs s1 !! l)) as Hdead by (unfold rsbs; rewrite El; by intros [? ?]).
  apply wp_bind. apply wp_timer_calloc_raw; [apply Ht|by apply view_dead; [| |intros []]|].
  intros ts1 Hok1 Hv1. apply wp_bind. apply wp_timer_calloc_raw; [done| |].
  { simpl. rewrite Hv1, lookup_insert_ne by done. by apply view_dead; [| |intros []]. }
  intros ts2 Hok2 Hv2. simpl in Hv2. rewrite Hv1 in Hv2. apply wp_bind, wp_modify, wp_ret.
  apply (HS l s1); done.
Qed.

(** The state after the two pointers are set. *)
Lemma inv_rsb_associated b s1 s' l lp p k (f : rsvp_rsb → rsvp_rsb) :
  Inv b s1 → rsbs s1 !! l = None → (∀ l r, rsbs s1 !! l = Some r → rsb_key r ≠ k) →
  psbs s1 !! lp = Some p → psb_key p = k →
  (let r := f (new_rsb k) in
   rsb_key r = k ∧ rsb_associated_psb r = Some lp ∧ rsb_label_in r = 0
   ∧ refresh_ok (rsb_refresh_ms r)) →
  st_psb s' = table_update (st_psb s1) lp (λ p, p <| psb_associated_rsb := Some l |>) →
  table_ok (st_rsb s') → rsbs s' = <[l := f (new_rsb k)]> (rsbs s1) →
  st_bsb s' = st_bsb s1 → ti_ok (st_timers s') →
  ti_view (st_timers s') = <[RsbCleanup l := (false, None)]>
                            (<[RsbRefresh l := (false, None)]> (ti_view (st_timers s1))) →
  st_labels s' = st_labels s1 → st_out s' = st_out s1 → same_nbors s1 s' →
  Inv b s' ∧ has_psb s' lp k (Some l) ∧ has_rsb s' l k (Some lp)
  ∧ (not_bypass s1 lp → not_bypass s' lp).
Proof.
  intros Hi Hl Hk Hp <- (Hfk & Hfa & Hfl & Hfr) Eps Htab Ers Ebs Hok Hv Ela Eou Hnb.
  assert (psbs s' = <[lp := p <| psb_associated_rsb := Some l |>]> (psbs s1)) as Hps.
  { unfold psbs at 1. rewrite Eps.
    exact (alter_is_insert (λ p, p <| psb_associated_rsb := Some l |>) (psbs s1) lp p Hp). }
  assert (psb_associated_rsb p = None) as Hpa.
  { destruct (psb_associated_rsb p) as [lr|] eqn:E; [|done]. exfalso.
    pose proof (has_psb_intro s1 lp p Hp) as Hx. rewrite E in Hx.
    destruct (has_rsb_inv _ _ _ _ (has_psb_partner _ _ _ _ _ Hi Hx)) as (r & Hr & Ek & _).
    by apply (Hk lr r). }
  assert (table_ok (st_psb s')) as Htp by (rewrite Eps; by apply table_update_ok; [apply Hi|]).
  split; [|split; [|split]].
  - apply (inv_rsb_added b s1 s' l (f (new_rsb (psb_key p))) lp p); try done.
    apply (timers_inv_grow s1 s' [RsbCleanup l; RsbRefresh l]); [apply Hi|done|done|].
    assert (∀ l0, is_Some (rsbs s' !! l0) ↔ l = l0 ∨ is_Some (rsbs s1 !! l0)) as Hlive
      by (intros l0; rewrite Ers; apply lookup_insert_is_Some').
    assert (∀ l0, is_Some (psbs s' !! l0) ↔ is_Some (psbs s1 !! l0)) as Hlivep.
    { intros l0. rewrite Hps, lookup_insert_is_Some'. split; [|by right].
      intros [<-|?]; [by eexists|done]. }
    assert (bsbs s' = bsbs s1) as Ebs' by (unfold bsbs; by rewrite Ebs).
    assert (st_nbor_count s' = st_nbor_count s1) as Ec by apply Hnb.
    intros t. rewrite !elem_of_cons, elem_of_nil.
    destruct t; cbn [timer_live]; rewrite ?Hlive, ?Hlivep, ?Ebs', ?Ec; naive_solver.
  - unfold has_psb. rewrite Hps, lookup_insert_eq. done.
  - unfold has_rsb. rewrite Ers, lookup_insert_eq. simpl. unfold rshape. by rewrite Hfk, Hfa.
  - unfold not_bypass. rewrite Hps, lookup_insert_eq, Hp. done.
Qed.

Lemma wp_bsb_create b s k Q :
  Inv b s → (∀ l x, bsbs s !! l = Some x → bsb_key x ≠ k) →
  (∀ s', Inv b s' → frame s s' → Q None s') →
  (∀ l s', Inv b s' → kept s s' → has_bsb s' l k → Q (Some l) s') →
  wp (rsvp_bsb_create k) Q s.
Proof.
  intros Hi Hk HN HS. unfold rsvp_bsb_create. eapply wp_host; [done|].
  intros alloc s1 Hi1 F Eps [n ->].
  assert (∀ l r, bsbs s1 !! l = Some r → bsb_key r ≠ k) as Hk1.
  { intros l r Hr <-. destruct F as [_ _ F _].
    destruct (fmap_lookup_inv _ _ _ _ _ (eq_sym F) Hr) as (r' & Hr' & E).
    by apply (Hk l r' Hr'). }
  apply wp_bind, wp_gets. destruct (env_calloc n _) as [l|] eqn:El; [|by apply wp_ret, HN].
  apply env_calloc_fresh in El. apply not_elem_of_dom in El.
  pose proof (inv_timers b s1 Hi1) as Ht.
  assert (¬ is_Some (bsbs s1 !! l)) as Hdead by (unfold bsbs; rewrite El; by intros [? ?]).
  apply wp_bind. apply wp_timer_calloc_raw; [apply Ht|by apply view_dead; [| |intros []]|].
  intros ts1 Hok1 Hv1. apply wp_bind, wp_modify, wp_ret.
  match goal with |- Q _ ?x => set (s' := x) end.
  assert (bsbs s' = <[l := new_bsb k]> (bsbs s1)) as Hbs by done.
  apply HS.
  - apply (inv_bsb_change b s1); try done.
    + by apply table_insert_ok; [apply Hi1| |].
    + apply (timers_inv_grow s1 s' [BsbBlockade l]); [done..|].
      assert (∀ l0, is_Some (bsbs s' !! l0) ↔ l = l0 ∨ is_Some (bsbs s1 !! l0)) as Hlive
        by (intros l0; rewrite Hbs; apply lookup_insert_is_Some').
      intros t. rewrite !elem_of_cons, elem_of_nil.
      destruct t; cbn [timer_live]; rewrite ?Hlive; naive_solver.
  - split; [exact (λ l k a, has_psb_frame s s1 l k a F)|exact (λ l k a, has_rsb_frame s s1 l k a F)
           | |by destruct F].
    intros l' k' Hp. eapply has_bsb_frame in Hp; [|exact F].
    destruct (has_bsb_inv _ _ _ Hp) as (p & Ep & <-). apply has_bsb_intro.
    rewrite Hbs, lookup_insert_ne; [done|]. intros <-. apply Hdead. by eexists.
  - unfold has_bsb. by rewrite Hbs, lookup_insert_eq.
Qed.

(** ** Deletion *)

(** Everything of [s] is still in [s'], but for the path block [l] and the
    reservation [r], and there is no new path block. *)
Record kept_but (l r : option loc) s s' : Prop := {
  kb_psb : ∀ l' k a, Some l' ≠ l → has_psb s l' k a → has_psb s' l' k a;
  kb_rsb : ∀ l' k a, Some l' ≠ r → has_rsb s l' k a → has_rsb s' l' k a;
  kb_bsb : ∀ l' k, has_bsb s l' k → has_bsb s' l' k;
  kb_nbors : same_nbors s s';
  kb_psb_old : ∀ l', is_Some (psbs s' !! l') → is_Some (psbs s !! l');
}.

Lemma kept_but_frame l r s s1 s2 : frame s s1 → kept_but l r s1 s2 → kept_but l r s s2.
Proof.
  intros F [K1 K2 K3 [K4 K5] K6]. destruct (fr_nbors _ _ F) as [N1 N2]. split.
  - intros l' k a Hne Hx. apply K1; [done|]. by eapply has_psb_frame.
  - intros l' k a Hne Hx. apply K2; [done|]. by eapply has_rsb_frame.
  - intros l' k Hx. apply K3. by eapply has_bsb_frame.
  - split; congruence.
  - intros l' Hx. apply (fmap_live_inv _ _ _ l' (fr_psb _ _ F)). auto.
Qed.

Lemma kept_but_trans l r s s1 s2 : kept_but l r s s1 → kept_but l r s1 s2 → kept_but l r s s2.
Proof.
  intros [K1 K2 K3 [K4 K5] K6] [L1 L2 L3 [L4 L5] L6].
  split; [by eauto..| |by auto]. split; congruence.
Qed.

Lemma kept_but_weaken l r l' r' s s' :
  (l = None ∨ l = l') → (r = None ∨ r = r') → kept_but l r s s' → kept_but l' r' s s'.
Proof.
  intros Hl Hr [K1 K2 K3 K4 K5]. split; try done.
  - intros x k a Hne. apply K1. naive_solver.
  - intros x k a Hne. apply K2. naive_solver.
Qed.

Lemma frame_kept_but l r s s' : frame s s' → kept_but l r s s'.
Proof. intros F. eapply kept_but_frame; [done|]. by split. Qed.

Lemma wp_psb_delete b s l p Q :
  Inv b s → psbs s !! l = Some p → psb_associated_rsb p = None →
  (b = true → psb_is_bypass_tunnel p = false) →
  (∀ s', Inv b s' → kept_but (Some l) None s s' → psbs s' !! l = None → Q () s') →
  wp (rsvp_psb_delete l) Q s.
Proof.
  intros Hi Hp Ha Hby HQ. unfold rsvp_psb_delete.
  destruct (table_remove_ok (st_psb s) l p (inv_psb b s Hi) Hp) as (t & Et & Eh & Htab & Ehd).
  pose proof (inv_timers b s Hi) as Ht.
  destruct (timers_inv_view s (PsbRefresh l) Ht) as (a1 & c1 & V1); [by eexists|].
  destruct (timers_inv_view s (PsbCleanup l) Ht) as (a2 & c2 & V2); [by eexists|].
  apply wp_bind. eapply wp_psb_get_raw; [done|]. apply wp_bind, wp_gets.
  rewrite Et. apply wp_bind, wp_modify. apply wp_bind. eapply wp_timer_stop_raw; [apply Ht|exact V1|].
  intros ts1 O1 W1. simpl in W1. apply wp_bind.
  eapply wp_timer_stop_raw; [done|simpl; rewrite W1; by rewrite lookup_insert_ne, V2|].
  intros ts2 O2 W2. simpl in W2. rewrite Ha. apply wp_bind, wp_ret, wp_bind.
  eapply wp_timer_release_raw; [done| |].
  { simpl. by rewrite W2, lookup_insert_ne, W1, lookup_insert_eq. }
  intros ts3 O3 W3. simpl in W3. apply wp_bind. eapply wp_timer_release_raw; [done| |].
  { simpl. by rewrite W3, lookup_delete_ne, W2, lookup_insert_eq. }
  intros ts4 O4 W4. simpl in W4. apply wp_modify.
  match goal with |- Q _ ?x => set (s' := x) end.
  assert (psbs s' = delete l (psbs s)) as Hps by (unfold psbs; simpl; by rewrite Eh).
  apply HQ.
  - apply (inv_psb_removed b s s' l p); try done.
    apply (timers_inv_shrink s s' [PsbRefresh l; PsbCleanup l]); [done|done| | |repeat constructor; intros []].
    + intros t'. change (st_timers s') with ts4. rewrite W4, W3, W2, W1.
      rewrite decide_bool_decide. case_bool_decide as Hin;
        rewrite !elem_of_cons, elem_of_nil in Hin.
      * destruct Hin as [->|[->|[]]]; [by rewrite lookup_delete_ne, lookup_delete_eq|].
        by rewrite lookup_delete_eq.
      * by rewrite !lookup_delete_ne, !lookup_insert_ne by naive_solver.
    + assert (∀ l0, is_Some (psbs s' !! l0) ↔ l0 ≠ l ∧ is_Some (psbs s !! l0)) as Hlive.
      { intros l0. rewrite Hps. destruct (decide (l = l0)) as [<-|].
        - rewrite lookup_delete_eq. split; [by intros []|naive_solver].
        - rewrite lookup_delete_ne by done. naive_solver. }
      intros t'. rewrite !elem_of_cons, elem_of_nil.
      destruct t'; cbn [timer_live]; rewrite ?Hlive; naive_solver.
  - split; try done.
    + intros l' k a Hne Hx. unfold has_psb. rewrite Hps, lookup_delete_ne by congruence. exact Hx.
    + intros l'. rewrite Hps, lookup_delete_is_Some. naive_solver.
  - by rewrite Hps, lookup_delete_eq.
Qed.

Lemma wp_bsb_delete b s l k Q :
  Inv b s → has_bsb s l k →
  (∀ s', Inv b s' → psbs s' = psbs s → rsbs s' = rsbs s → bsbs s' = delete l (bsbs s) →
     same_nbors s s' → Q () s') → wp (rsvp_bsb_delete l) Q s.
Proof.
  intros Hi (x & Hx & _)%has_bsb_inv HQ. unfold rsvp_bsb_delete.
  destruct (table_remove_ok (st_bsb s) l x (inv_bsb b s Hi) Hx) as (t & Et & Eh & Htab & Ehd).
  pose proof (inv_timers b s Hi) as Ht.
  destruct (timers_inv_view s (BsbBlockade l) Ht) as (a1 & c1 & V1); [by eexists|].
  apply wp_bind. eapply wp_bsb_get_raw; [done|]. apply wp_bind, wp_gets. rewrite Et.
  apply wp_bind, wp_modify. apply wp_bind. eapply wp_timer_stop_raw; [apply Ht|exact V1|].
  intros ts1 O1 W1. simpl in W1. apply wp_bind. eapply wp_timer_release_raw; [done| |].
  { simpl. by rewrite W1, lookup_insert_eq. }
  intros ts2 O2 W2. simpl in W2. apply wp_modify.
  match goal with |- Q _ ?x => set (s' := x) end.
  assert (bsbs s' = delete l (bsbs s)) as Hbs by (unfold bsbs; simpl; by rewrite Eh).
  apply HQ; [|done..].
  apply (inv_bsb_change b s s'); try done.
  apply (timers_inv_shrink s s' [BsbBlockade l]); [done|done| | |repeat constructor; intros []].
  - intros t'. change (st_timers s') with ts2. rewrite W2, W1, decide_bool_decide.
    case_bool_decide as Hin; rewrite elem_of_cons, elem_of_nil in Hin.
    + destruct Hin as [->|[]]. by rewrite lookup_delete_eq.
    + by rewrite lookup_delete_ne, lookup_insert_ne by naive_solver.
  - assert (∀ l0, is_Some (bsbs s' !! l0) ↔ l0 ≠ l ∧ is_Some (bsbs s !! l0)) as Hlive.
    { intros l0. rewrite Hbs. destruct (decide (l = l0)) as [<-|].
      - rewrite lookup_delete_eq. split; [by intros []|naive_solver].
      - rewrite lookup_delete_ne by done. naive_solver. }
    intros t'. rewrite !elem_of_cons, elem_of_nil.
    destruct t'; cbn [timer_live]; rewrite ?Hlive; naive_solver.
Qed.

(** [psb->associated_rsb = NULL] followed by the deletion of the reservation,
    which clears the pointer again. *)
Lemma wp_rsb_detach_delete b s l r lp p Q :
  Inv b s → rsbs s !! l = Some r → rsb_label_in r = 0 → rsb_associated_psb r = Some lp →
  psbs s !! lp = Some p →
  (∀ s', Inv b s' → kept_but (Some lp) (Some l) s s' → has_psb s' lp (psb_key p) None →
     (not_bypass s lp → not_bypass s' lp) → Q () s') →
  wp (psb_set lp (λ p, p <| psb_associated_rsb := None |>) ;; rsvp_rsb_delete l) Q s.
Proof.
  intros Hi Hr Hlab Hra Hp HQ. unfold rsvp_rsb_delete.
  destruct (table_remove_ok (st_rsb s) l r (inv_rsb b s Hi) Hr) as (t & Et & Eh & Htab & Ehd).
  pose proof (inv_timers b s Hi) as Ht.
  destruct (timers_inv_view s (RsbRefresh l) Ht) as (a1 & c1 & V1); [by eexists|].
  destruct (timers_inv_view s (RsbCleanup l) Ht) as (a2 & c2 & V2); [by eexists|].
  set (f := λ p0 : rsvp_psb, p0 <| psb_associated_rsb := None |>).
  apply wp_bind. eapply wp_psb_set_raw; [done|].
  set (s1 := s <| st_psb ::= _ |>).
  assert (psbs s1 = <[lp := f p]> (psbs s)) as Hp1 by (by apply (alter_is_insert f (psbs s))).
  apply wp_bind. eapply wp_rsb_get_raw; [exact Hr|]. apply wp_bind, wp_gets.
  change (st_rsb s1) with (st_rsb s). rewrite Et.
  apply wp_bind, wp_modify. apply wp_bind. eapply wp_timer_stop_raw; [apply Ht|exact V1|].
  intros ts1 O1 W1. simpl in W1. apply wp_bind.
  eapply wp_timer_stop_raw; [done|simpl; rewrite W1; by rewrite lookup_insert_ne, V2|].
  intros ts2 O2 W2. simpl in W2. rewrite Hra. apply wp_bind.
  apply (wp_psb_set_raw _ lp (f p)).
  { change (psbs s1 !! lp = Some (f p)). by rewrite Hp1, lookup_insert_eq. }
  apply wp_bind. eapply wp_timer_release_raw; [done| |].
  { simpl. by rewrite W2, lookup_insert_ne, W1, lookup_insert_eq. }
  intros ts3 O3 W3. simpl in W3. apply wp_bind. eapply wp_timer_release_raw; [done| |].
  { simpl. by rewrite W3, lookup_delete_ne, W2, lookup_insert_eq. }
  intros ts4 O4 W4. simpl in W4. apply wp_modify.
  match goal with |- Q _ ?x => set (s' := x) end.
  assert (psbs s' = <[lp := f p]> (psbs s)) as Hps.
  { change (psbs s') with (alter f lp (psbs s1)). rewrite Hp1.
    rewrite (alter_is_insert f _ lp (f p)) by apply lookup_insert_eq. by rewrite insert_insert_eq. }
  assert (rsbs s' = delete l (rsbs s)) as Hrs by (unfold rsbs; simpl; by rewrite Eh).
  apply HQ.
  - apply (inv_rsb_removed b s s' l r lp p); try done.
    + change (st_psb s') with (table_update (table_update (st_psb s) lp f) lp f).
      do 2 (apply table_update_ok; [|done]). apply Hi.
    + apply (timers_inv_shrink s s' [RsbRefresh l; RsbCleanup l]); [done|done| | |repeat constructor; intros []].
      * intros t'. change (st_timers s') with ts4. rewrite W4, W3, W2, W1.
        rewrite decide_bool_decide. case_bool_decide as Hin;
          rewrite !elem_of_cons, elem_of_nil in Hin.
        -- destruct Hin as [->|[->|[]]]; [by rewrite lookup_delete_ne, lookup_delete_eq|].
           by rewrite lookup_delete_eq.
        -- by rewrite !lookup_delete_ne, !lookup_insert_ne by naive_solver.
      * assert (∀ l0, is_Some (rsbs s' !! l0) ↔ l0 ≠ l ∧ is_Some (rsbs s !! l0)) as Hlive.
        { intros l0. rewrite Hrs. destruct (decide (l = l0)) as [<-|].
          - rewrite lookup_delete_eq. split; [by intros []|naive_solver].
          - rewrite lookup_delete_ne by done. naive_solver. }
        assert (∀ l0, is_Some (psbs s' !! l0) ↔ is_Some (psbs s !! l0)) as Hlivep.
        { intros l0. rewrite Hps, lookup_insert_is_Some'. split; [|by right].
          intros [<-|?]; [by eexists|done]. }
        intros t'. rewrite !elem_of_cons, elem_of_nil.
        destruct t'; cbn [timer_live]; rewrite ?Hlive, ?Hlivep; naive_solver.
  - split; try done.
    + intros l' k a Hne Hx. unfold has_psb. rewrite Hps, lookup_insert_ne by congruence. exact Hx.
    + intros l' k a Hne Hx. unfold has_rsb. rewrite Hrs, lookup_delete_ne by congruence. exact Hx.
    + intros l'. rewrite Hps, lookup_insert_is_Some'. intros [<-|?]; [by eexists|done].
  - unfold has_psb. by rewrite Hps, lookup_insert_eq.
  - unfold not_bypass. by rewrite Hps, lookup_insert_eq, Hp.
Qed.

(** ** Teardown of a reservation *)

Lemma wp_rsb_is_ingress b s l k a Q :
  Inv b s → has_rsb s l k a → (∀ x, Q x s) → wp (rsb_is_ingress l) Q s.
Proof.
  intros Hi Hr HQ. unfold rsb_is_ingress.
  destruct (has_rsb_partner _ _ _ _ _ Hi Hr) as (lp & -> & Hp).
  apply wp_bind. eapply wp_rsb_get; [done..|]. intros r _ _ -> _.
  apply wp_bind. eapply wp_psb_get; [done..|]. intros p _ _ _ _. by apply wp_ret.
Qed.

(** Giving the label of a reservation back, its entry removed. *)
Lemma inv_label_released b s l r ls d :
  Inv b s → rsbs s !! l = Some r → rsb_label_in r ≠ 0 →
  lb_free (st_labels s) (rsb_label_in r) = Some ls →
  Inv b (s <| st_out ::= λ os, os ++ [MplsRemove (rsb_label_in r) d] |> <| st_labels := ls |>
           <| st_rsb ::= λ t, table_update t l (λ r, r <| rsb_label_in := 0 |>) |>).
Proof.
  intros Hi Hr Hnz Hls. set (f := λ r0 : rsvp_rsb, r0 <| rsb_label_in := 0 |>).
  set (out := st_out s ++ [MplsRemove (rsb_label_in r) d]).
  apply (inv_rsb_change b s l f ls out); [done|done|].
  match goal with |- labels_ok ?x => set (s' := x) end.
  destruct (inv_labels b s Hi) as [(HS & L1 & L2 & L3) Hinj].
  assert (∀ l', rsbs s' !! l' = if decide (l' = l) then Some (f r) else rsbs s !! l') as Hlk.
  { intros l'. change (rsbs s') with (alter f l (rsbs s)). case_decide as Hd.
    - subst l'. by rewrite lookup_alter, decide_True, Hr by done.
    - by rewrite lookup_alter_ne. }
  split.
  - exists (HS ∖ {[rsb_label_in r]}). split.
    { destruct (lb_free_law (st_labels s) HS (rsb_label_in r) L1) as (ls' & E1 & E2);
        [apply L2; eauto|]. rewrite Hls in E1. by injection E1 as <-. }
    split.
    + intros n. rewrite elem_of_difference, elem_of_singleton, L2. split.
      * intros [[Hn (l' & r' & Hr' & En)] Hne]. split; [done|]. exists l', r'. rewrite Hlk.
        rewrite decide_False; [done|]. intros ->. congruence.
      * intros [Hn (l' & r' & Hr' & En)]. rewrite Hlk in Hr'. case_decide as Hd.
        -- injection Hr' as <-. by destruct Hn.
        -- split; [eauto|]. intros ->. apply Hd. eapply Hinj; [done..|congruence].
    + intros n. change (st_out s') with out. unfold out. rewrite mpls_labels_snoc. simpl.
      rewrite !elem_of_difference. intros [Hn ?] Hz. split; [by apply L3|done].
  - intros l1 l2 r1 r2. rewrite !Hlk. do 2 case_decide; subst; try done.
    + intros [= <-] _ _ Hz. by destruct Hz.
    + intros _ [= <-] E Hz. destruct Hz. rewrite E. done.
    + apply Hinj.
Qed.

Lemma wp_rsb_cleanup_resources b s l k a Q :
  Inv b s → has_rsb s l k a →
  (∀ r s', Inv b s' → frame s s' → rsbs s' !! l = Some r → rsb_label_in r = 0 → Q () s') →
  wp (rsb_cleanup_resources l) Q s.
Proof.
  intros Hi Hr HQ. unfold rsb_cleanup_resources.
  destruct (has_rsb_partner _ _ _ _ _ Hi Hr) as (lp & -> & Hp).
  apply wp_bind. eapply wp_rsb_get; [done..|]. intros r Er _ Ea _.
  apply wp_bind. eapply wp_rsb_is_ingress; [done..|]. intros ing.
  apply wp_bind. rewrite Ea. apply wp_bind. eapply wp_psb_get; [done..|]. intros p _ _ _ _.
  apply wp_ret. apply wp_bind.
  assert (∀ s1 r1, Inv b s1 → frame s s1 → rsbs s1 !! l = Some r1 → rsb_label_in r1 = 0 →
    wp (timer_stop (RsbRefresh l) ;; timer_stop (RsbCleanup l)) Q s1) as Hstop.
  { intros s1 r1 Hi1 F1 Er1 Hl1.
    destruct (view_live b s1 (RsbRefresh l) Hi1) as (a1 & c1 & V1 & C1); [by eexists|].
    apply wp_bind. eapply wp_timer_stop_raw; [apply (inv_timers b s1 Hi1)|exact V1|].
    intros ts1 O1 W1. set (s2 := s1 <| st_timers := ts1 |>).
    assert (Inv b s2) as Hi2 by (eapply (inv_timer_insert b s1 (RsbRefresh l)); [done|by eexists|done..]).
    destruct (view_live b s2 (RsbCleanup l) Hi2) as (a2 & c2 & V2 & C2); [by eexists|].
    eapply wp_timer_stop_raw; [done|exact V2|]. intros ts2 O2 W2.
    eapply HQ; [by eapply (inv_timer_insert b s2 (RsbCleanup l)); [exact Hi2|by eexists|done..]
               |by eapply frame_trans; [exact F1|]|done|done]. }
  destruct (negb (rsb_label_in r =? 0)) eqn:El; bools.
  - destruct (inv_labels b s Hi) as [(HS & L1 & L2 & L3) Hinj].
    destruct (lb_free_law (st_labels s) HS (rsb_label_in r) L1) as (ls & E1 & E2);
      [apply L2; eauto|].
    set (d := Some (sess_dest_addr (key_session (psb_key p)))).
    apply wp_bind, wp_modify. apply wp_bind. eapply wp_update; [simpl; by rewrite E1|].
    eapply wp_rsb_set_raw; [exact Er|].
    eapply (Hstop _ (r <| rsb_label_in := 0 |>)); [| | |done].
    + by apply (inv_label_released b s l r ls d).
    + split; try done. by apply (fmap_alter_shape rshape (λ r, r <| rsb_label_in := 0 |>) (rsbs s) l).
    + change (alter (λ r0 : rsvp_rsb, r0 <| rsb_label_in := 0 |>) l (rsbs s) !! l
              = Some (r <| rsb_label_in := 0 |>)).
      by rewrite lookup_alter, decide_True, Er.
  - destruct ing.
    + eapply wp_mpls_remove; [done|]. intros s1 Hi1 F1 E1. eapply Hstop; [done..| |done].
      by rewrite E1.
    + apply wp_ret. by eapply Hstop.
Qed.

(** The reservation is gone; its path block stays, without it. *)
Lemma wp_rsb_cleanup b s l k lp pr Q :
  Inv b s → has_rsb s l k (Some lp) →
  (∀ s', Inv b s' → kept_but (Some lp) (Some l) s s' → has_psb s' lp k None →
     (not_bypass s lp → not_bypass s' lp) → Q () s') →
  wp (rsvp_rsb_cleanup l pr) Q s.
Proof.
  intros Hi Hr HQ. pose proof (frame_refl s) as F0. unfold rsvp_rsb_cleanup.
  apply wp_bind. eapply wp_rsb_is_ingress; [done..|]. intros ing.
  apply wp_bind.
  assert (∀ s1, Inv b s1 → frame s s1 →
    wp (rsb_cleanup_resources l ;;
        r ← rsb_get l;
        match rsb_associated_psb r with
        | Some psb => psb_set psb (λ p, p <| psb_associated_rsb := None |>)
        | None => mret ()
        end ;;
        rsvp_rsb_delete l) Q s1) as Hrest.
  { intros s1 Hi1 F1. pose proof (has_rsb_frame _ _ _ _ _ F1 Hr) as Hr1.
    apply wp_bind. eapply wp_rsb_cleanup_resources; [done..|].
    intros r s2 Hi2 F2 Er Hlab. pose proof (has_rsb_frame _ _ _ _ _ F2 Hr1) as Hr2.
    assert (frame s s2) as F by (by eapply frame_trans).
    destruct (has_rsb_partner _ _ _ _ _ Hi2 Hr2) as (lp' & [= <-] & Hp2).
    destruct (has_psb_inv _ _ _ _ Hp2) as (p & Ep & Ek & _).
    destruct (has_rsb_inv _ _ _ _ Hr2) as (r' & Er' & _ & Ea). rewrite Er in Er'. injection Er' as <-.
    apply wp_bind. eapply wp_rsb_get_raw; [exact Er|]. rewrite Ea.
    eapply (wp_rsb_detach_delete b s2); [done..|]. intros s3 Hi3 K3 Hp3 Hn3. apply HQ; [done| |by rewrite <- Ek|].
    - by eapply kept_but_frame.
    - intros Hn. apply Hn3. by eapply not_bypass_frame. }
  unfold when. case_if; [|by apply wp_ret, Hrest].
  eapply wp_propagate_resv_tear; [done..|]. intros s1 Hi1 F1. by apply Hrest.
Qed.

(** ** Teardown of a path *)

Lemma wp_psb_cleanup b s l k a pr Q :
  Inv b s → has_psb s l k a → (b = true → not_bypass s l) →
  (∀ s', Inv b s' → kept_but (Some l) a s s' → psbs s' !! l = None → Q () s') →
  wp (rsvp_psb_cleanup l pr) Q s.
Proof.
  intros Hi Hp Hb HQ. unfold rsvp_psb_cleanup.
  apply wp_bind. eapply wp_psb_get; [done..|]. intros p0 _ _ _ _.
  apply wp_bind. eapply wp_is_local_addr; [done|]. intros eg s1 Hi1 F1.
  assert (∀ s2, Inv b s2 → kept_but (Some l) a s s2 → has_psb s2 l k None →
    (b = true → not_bypass s2 l) →
    wp (timer_stop (PsbRefresh l) ;; timer_stop (PsbCleanup l) ;; rsvp_psb_delete l) Q s2) as Hdel.
  { intros s2 Hi2 K2 Hp2 Hb2.
    apply wp_bind. eapply wp_timer_stop; [done|eauto with live|]. intros s3 Hi3 F3.
    pose proof (has_psb_frame _ _ _ _ _ F3 Hp2) as Hp3.
    apply wp_bind. eapply wp_timer_stop; [done|eauto with live|].
    intros s4 Hi4 F4. pose proof (frame_trans _ _ _ F3 F4) as F.
    apply (has_psb_frame _ _ _ _ _ F) in Hp2.
    destruct (has_psb_inv _ _ _ _ Hp2) as (p & Ep & Ek & Ea).
    eapply wp_psb_delete; [done..| |].
    - intros E. pose proof (not_bypass_frame _ _ _ F (Hb2 E)) as Hn. unfold not_bypass in Hn.
      rewrite Ep in Hn. by injection Hn.
    - intros s5 Hi5 K5 Hg5. apply HQ; [done| |done]. eapply kept_but_trans; [done|].
      eapply kept_but_frame; [exact F|]. eapply (kept_but_weaken (Some l) None); [by right|by left|done]. }
  assert (∀ s2, Inv b s2 → frame s s2 →
    wp (p ← psb_get l;
        match psb_associated_rsb p with Some rsb => rsvp_rsb_cleanup rsb false | None => mret () end ;;
        timer_stop (PsbRefresh l) ;; timer_stop (PsbCleanup l) ;; rsvp_psb_delete l) Q s2) as Hrest.
  { intros s2 Hi2 F2. pose proof (has_psb_frame _ _ _ _ _ F2 Hp) as Hp2.
    apply wp_bind. eapply wp_psb_get; [done..|]. intros p _ _ -> _. apply wp_bind.
    destruct a as [lr|].
    - pose proof (has_psb_partner _ _ _ _ _ Hi2 Hp2) as Hr2.
      eapply wp_rsb_cleanup; [done..|]. intros s3 Hi3 K3 Hp3 Hn3. apply Hdel; [done| |done|].
      + eapply kept_but_frame; done.
      + intros E. apply Hn3. by eapply not_bypass_frame, Hb.
    - apply wp_ret. apply Hdel; [done| |done|].
      + by apply frame_kept_but.
      + intros E. by eapply not_bypass_frame, Hb. }
  apply wp_bind. unfold when. case_if; [|by apply wp_ret, Hrest].
  eapply wp_propagate_path_tear; [done|by eapply has_psb_frame|]. intros s2 Hi2 F2.
  apply Hrest; [done|]. by eapply frame_trans.
Qed.
End lifecycle.
