(* ===== verification/Handlers.v ===== *)
(** * The handlers keep the invariant

    Rules for the parts of a handler that copy a message into a block, and for
    the handler of PATH of src/pi/rsvp_state_machine.c: from the invariant it
    succeeds and ends in a state with the invariant. *)

From stdpp Require Import base numbers list option gmap sets.
From S2P Require Import Prelude Wire Protocol WheelTimer Timers Builder SendPacket Parser.
From S2P Require Import Interfaces StateDb Timing State Messages StateMachine Invariant.
From S2P Require Import Rules SendRules Lifecycle.

(** ** What a handler may assume of a message *)

(** Pointers inside the packet, as the parser leaves them. *)
Record msg_ok (m : list Z) (info : rsvp_message_info) : Prop := {
  mo_bytes : bytes_ok m;
  mo_info : ∃ lo hi, (hi <= length m)%nat ∧ info_ok m lo hi info;
  mo_hdr : ∃ o hdr, info_common_hdr info = Some o ∧ load_struct rsvp_common_hdr m o = Some hdr;
}.

(** The two values of the sender that the code converts from or to floating
    point are in range: a refresh period below 2^30 ms, a bandwidth below
    2^32. *)
Definition period_sane (m : list Z) (info : rsvp_message_info) : Prop :=
  ∀ o tv, info_time_values info = Some o → load_struct rsvp_time_values m o = Some tv →
    refresh_ok (ntohl (tv_refresh_ms tv)).
Definition bandwidth_sane (m : list Z) (info : rsvp_message_info) : Prop :=
  ∀ o fr, info_fast_reroute info = Some o → load_struct rsvp_fast_reroute m o = Some fr →
    Z.land (frr_flags fr) RSVP_FRR_FLAG_FACILITY ≠ 0 →
    is_Some (float_to_u32 (rsvp_net_to_float (frr_bandwidth fr))).

Lemma load_opt_ok {T} `{WireLaws T} m lo hi p :
  ptr_ok lo hi (sizeof T) p → (hi <= length m)%nat →
  ∃ x, load_opt T m p = Some x ∧ (∀ t, x = Some t → ∃ o, p = Some o ∧ load_struct T m o = Some t).
Proof.
  intros Hp Hhi. destruct p as [o|]; simpl; [|by exists None].
  destruct (Hp o eq_refl). destruct (load_struct_is_Some (T := T) m o) as [t E]; [lia|].
  exists (Some t). rewrite E. split; [done|]. intros ? [= <-]. eauto.
Qed.

Lemma parse_subobjs_ok fuel m ptr rem max acc :
  (rem <= fuel)%nat → (ptr + rem <= length m)%nat → (length acc <= max)%nat →
  ∃ l, parse_subobjs fuel m ptr rem max acc = Some l ∧ (length l <= max)%nat.
Proof.
  revert ptr rem acc. induction fuel as [|fuel IH]; intros ptr rem acc Hf Hp Ha; simpl.
  - rewrite (proj2 (Nat.ltb_lt rem 2)) by lia. eauto.
  - destruct (rem <? 2)%nat eqn:E1; [by eauto|]. destruct (max <=? length acc)%nat eqn:E2; [by eauto|].
    bools. simpl.
    destruct (load_is_Some 1 m ptr) as [ty ->]; [lia|].
    destruct (load_is_Some 1 m (ptr + 1)) as [ln ->]; [lia|]. cbn [mbind option_bind].
    destruct ((ln <? 2) || (Z.of_nat rem <? ln)) eqn:E3; [by eauto|]. bools.
    destruct ((Z.land ty 127 =? RSVP_ERO_IPV4) && (ln =? Z.of_nat (sizeof rsvp_ero_ipv4_subobj)))
      eqn:E4.
    + bools. destruct (load_struct_is_Some (T := rsvp_ero_ipv4_subobj) m ptr) as [t ->]; [lia|].
      cbn [mbind option_bind]. apply IH; [lia|lia|]. rewrite length_app. simpl. lia.
    + cbn [mbind option_bind]. apply IH; lia.
Qed.

Lemma route_update_ok m lo hi p len max old :
  ptr_ok lo hi len p → (hi <= length m)%nat → (length old <= max)%nat →
  ∃ l, route_update m p len max old = Some l ∧ (length l <= max)%nat.
Proof.
  intros Hp Hhi Hold. unfold route_update. destruct p as [o|]; [|by eauto].
  case_if; [|by eauto]. destruct (Hp o eq_refl). apply parse_subobjs_ok; simpl; lia.
Qed.

(** An update of a path block that keeps shape, ranges and bypass pointer. *)
Definition psb_step (p p' : rsvp_psb) : Prop :=
  pshape p' = pshape p ∧ psb_good p' ∧ psb_bypass_psb p' = psb_bypass_psb p.

Lemma psb_step_trans p1 p2 p3 : psb_step p1 p2 → psb_step p2 p3 → psb_step p1 p3.
Proof. intros (E1&_&E2) (E3&?&E4). split_and!; [congruence|done|congruence]. Qed.

Lemma frr_update_ok m info fr p :
  (∀ f, fr = Some f → ∃ o, info_fast_reroute info = Some o
      ∧ load_struct rsvp_fast_reroute m o = Some f) →
  bandwidth_sane m info → psb_good p →
  ∃ p', frr_update fr p = Some p' ∧ psb_step p p'.
Proof.
  intros Hfr Hbw Hg. unfold frr_update. destruct fr as [f|]; [|by exists p].
  destruct (psb_is_bypass_tunnel p) eqn:Eb; [by exists p|].
  destruct (Hfr f eq_refl) as (o & Eo & El).
  destruct (negb (Z.land (frr_flags f) RSVP_FRR_FLAG_FACILITY =? 0)) eqn:Ef.
  - bools. destruct (Hbw o f Eo El Ef) as [bw ->]. cbn [mbind option_bind].
    eexists. split; [done|]. split; [done|]. split; [|done]. by destruct Hg.
  - case_if; [|by exists p]. eexists. split; [done|]. split; [done|]. split; [|done].
    by destruct Hg.
Qed.

(** Copying a sane message into a path block. *)
Lemma path_update_ok m info name p :
  msg_ok m info → period_sane m info → bandwidth_sane m info → is_Some (info_hop_v4 info) →
  psb_good p → ∃ p', path_update m info name p = Some p' ∧ psb_step p p'.
Proof.
  intros [_ (lo & hi & Hhi & Hok) (oh & hdr & Eoh & Ehd)] Hper Hbw [ohop Ehop] Hg.
  assert (load_opt rsvp_common_hdr m (info_common_hdr info) = Some (Some hdr)) as Eh
    by (unfold load_opt; by rewrite Eoh, Ehd).
  unfold path_update. rewrite Ehop, Eh.
  destruct (load_opt_ok m lo hi _ (iok_time _ _ _ _ Hok) Hhi) as (tv & -> & Htv).
  cbn [mbind option_bind fmap option_fmap option_map].
  set (p1 := match tv with Some _ => _ | None => p end).
  assert (psb_step p p1) as H1.
  { unfold p1. destruct tv as [t|]; [|done]. split; [done|]. split; [|done].
    destruct Hg. split; try done. destruct (Htv t eq_refl) as (o & ? & ?). by eapply Hper. }
  clearbody p1. set (p2 := p1 <| psb_ttl := _ |> <| psb_refresh_count := 0 |>).
  assert (psb_step p p2) as H2 by (eapply psb_step_trans; [done|]; by destruct H1 as (_&[]&_)).
  destruct (route_update_ok m lo hi _ _ MAX_ERO_HOPS (psb_ero p2) (iok_ero _ _ _ _ Hok) Hhi)
    as (ero & -> & Hero); [apply H2|]. cbn [mbind option_bind].
  destruct (route_update_ok m lo hi _ _ MAX_RRO_HOPS (psb_rro p2) (iok_rro _ _ _ _ Hok) Hhi)
    as (rro & Er & Hrro); [apply H2|].
  change (psb_rro (p2 <| psb_ero := ero |>)) with (psb_rro p2). rewrite Er. cbn [mbind option_bind].
  set (p3 := p2 <| psb_ero := ero |> <| psb_rro := rro |>).
  assert (psb_step p p3) as H3 by (eapply psb_step_trans; [done|]; by destruct H2 as (_&[]&_)).
  clearbody p3. clear Er.
  destruct (load_opt_ok m lo hi _ (iok_tspec _ _ _ _ Hok) Hhi) as (ts & -> & _).
  cbn [mbind option_bind].
  set (p4 := match ts with Some _ => _ | None => p3 end).
  assert (psb_step p p4) as H4.
  { eapply psb_step_trans; [done|]. unfold p4. destruct H3 as (_&[]&_). by destruct ts. }
  clearbody p4.
  destruct (load_opt_ok m lo hi _ (iok_attr _ _ _ _ Hok) Hhi) as (sa & -> & _).
  cbn [mbind option_bind].
  set (p5 := match sa with Some _ => _ | None => p4 end).
  assert (psb_step p p5) as H5.
  { eapply psb_step_trans; [done|]. unfold p5. destruct H4 as (_&[]&_). by destruct sa. }
  clearbody p5.
  destruct (load_opt_ok m lo hi _ (iok_frr _ _ _ _ Hok) Hhi) as (fr & -> & Hfr).
  cbn [mbind option_bind].
  destruct (frr_update_ok m info fr p5 Hfr Hbw) as (p6 & -> & H6); [apply H5|].
  cbn [mbind option_bind].
  destruct (iok_hop _ _ _ _ Hok ohop Ehop).
  destruct (load_struct_is_Some (T := rsvp_hop_ipv4) m ohop) as [hop ->]; [lia|].
  cbn [mbind option_bind]. eexists. split; [done|].
  eapply psb_step_trans; [exact H5|]. eapply psb_step_trans; [exact H6|].
  destruct H6 as (_&[]&_). by destruct name.
Qed.

Lemma resv_update_ok m info r :
  msg_ok m info → period_sane m info → refresh_ok (rsb_refresh_ms r) →
  ∃ r', resv_update m info r = Some r' ∧ rshape r' = rshape r ∧ refresh_ok (rsb_refresh_ms r')
    ∧ rsb_label_in r' = rsb_label_in r.
Proof.
  intros [_ (lo & hi & Hhi & Hok) _] Hper Hr. unfold resv_update.
  destruct (load_opt_ok m lo hi _ (iok_time _ _ _ _ Hok) Hhi) as (tv & -> & Htv).
  destruct (load_opt_ok m lo hi _ (iok_flowspec _ _ _ _ Hok) Hhi) as (fs & -> & _).
  destruct (load_opt_ok m lo hi _ (iok_style _ _ _ _ Hok) Hhi) as (st & -> & _).
  cbn [mbind option_bind]. eexists. split; [done|].
  assert (∀ t, tv = Some t → refresh_ok (ntohl (tv_refresh_ms t))) as Ht.
  { intros t ->. destruct (Htv t eq_refl) as (o & ? & ?). by eapply Hper. }
  destruct tv, fs, st; simpl; auto.
Qed.

Section handlers.
Context {TS LS : Type} `{TimerLaws TS timer_id timer_cb} `{LabelLaws LS} `{EnvLaws}.
Local Notation state := (state TS LS).
Local Notation M := (M state).
Implicit Types s : state.

(** The postcondition of a handler. *)
Definition safe (b : bool) (m : M ()) s : Prop := wp m (λ _ s', Inv b s') s.

Lemma wp_cleanup_ms b s R Q :
  Inv b s → refresh_ok R → (∀ c, 0 ≤ c < 2 ^ 32 → Q c s) → wp (lift (RSVP_CLEANUP_MS R)) Q s.
Proof.
  intros _ HR HQ. destruct (RSVP_CLEANUP_MS_spec R HR) as (c & E & Hc & _).
  eapply wp_lift; [exact E|]. auto.
Qed.

Lemma wp_timer_rearm b s t ms Q :
  Inv b s → timer_live s t → 0 ≤ ms < 2 ^ 32 → (∀ s', Inv b s' → frame s s' → Q () s') →
  wp (timer_rearm t ms (timer_callback t)) Q s.
Proof.
  intros Hi Hl Hms HQ. unfold timer_rearm. apply wp_bind. eapply wp_timer_active; [done..|].
  intros a. apply wp_bind.
  assert (∀ ok s1, Inv b s1 → frame s s1 →
    wp (when (negb ok) (timer_start t RSVP_TIMER_CLEANUP ms (timer_callback t))) Q s1) as Hend.
  { intros ok s1 Hi1 F1. unfold when. case_if; [|by apply wp_ret, HQ].
    eapply wp_timer_start; [done|by eapply frame_live|done|]. intros s2 Hi2 F2.
    apply HQ; [done|]. by eapply frame_trans. }
  destruct a; [|by apply wp_ret, Hend].
  eapply wp_timer_reset; [done..|]. intros x s1 Hi1 F1. by apply Hend.
Qed.

(** ** PATH *)

Lemma wp_psb_update b s l k a f Q :
  Inv b s → has_psb s l k a → (∀ p, psb_good p → ∃ p', f p = Some p' ∧ psb_step p p') →
  (∀ s', Inv b s' → frame s s' → Q () s') → wp (psb_update l f) Q s.
Proof.
  intros Hi Hp Hf HQ. unfold psb_update. apply wp_bind. eapply wp_psb_get; [done..|].
  intros p Ep _ _ Hg. destruct (Hf p Hg) as (p' & E & Hsh & Hg' & Hby).
  apply wp_bind. eapply wp_lift; [exact E|]. eapply wp_psb_set_plain; [done..| |done].
  intros p0 Ep0 _. rewrite Ep in Ep0. injection Ep0 as <-. done.
Qed.

Lemma handle_path_egress_safe b s info l :
  Inv b s → has_psb s l (info_key info) None ∨ (∃ lr, has_psb s l (info_key info) (Some lr)) →
  safe b (handle_path_egress info l) s.
Proof.
  intros Hi Hp. assert (∃ a, has_psb s l (info_key info) a) as [a Hpa] by naive_solver.
  clear Hp. rename Hpa into Hp. unfold handle_path_egress, safe.
  apply wp_bind. eapply wp_rsb_find; [done| |].
  - intros lr ar Hr. apply wp_bind. eapply wp_psb_get; [done..|]. intros p _ _ _ Hg.
    eapply wp_rsb_set; [done..| |by auto]. intros r _ _. split; [done|]. split; [apply Hg|done].
  - intros Hno. apply wp_bind. eapply wp_rsb_create; [done|done|by intros; apply wp_ret|].
    intros lr s1 s2 Hi1 F1 Hfree Hno1 E1 E2 E3 E4 E5 E6 E7 E8.
    apply (has_psb_frame _ _ _ _ _ F1) in Hp. destruct (has_psb_inv _ _ _ _ Hp) as (p & Ep & Ek & _).
    assert (psbs s2 = psbs s1) as Eps by (unfold psbs; by rewrite E1).
    apply wp_bind. eapply wp_psb_get_raw; [rewrite Eps; exact Ep|].
    set (f := λ r : rsvp_rsb, r <| rsb_associated_psb := Some l |>
                              <| rsb_refresh_ms := psb_refresh_ms p |>).
    assert (rsbs s2 !! lr = Some (new_rsb (info_key info))) as Er2.
    { unfold rsbs. rewrite E2. apply lookup_insert_eq. }
    apply wp_bind. eapply wp_rsb_set_raw; [exact Er2|]. apply wp_bind.
    apply (wp_psb_set_raw _ l p); [change (psbs s2 !! l = Some p); by rewrite Eps|].
    match goal with |- wp _ _ ?x => set (s3 := x) end.
    destruct (inv_rsb_associated b s1 s3 lr l p (info_key info) f) as (Hi3 & Hp3 & Hr3 & _);
      try done.
    + split; [done|]. split; [done|]. split; [done|]. by eapply inv_psb_good in Ep as [_ ? _ _ _].
    + unfold s3. simpl. by rewrite E1.
    + change (st_rsb s3) with (table_update (st_rsb s2) lr f). rewrite E2.
      apply table_update_ok; [|done].
      by apply table_insert_ok; [apply Hi1|..].
    + change (rsbs s3) with (alter f lr (rsbs s2)). rewrite (alter_is_insert f _ _ _ Er2).
      unfold rsbs. rewrite E2. apply insert_insert_eq.
    + apply wp_bind. eapply wp_jittered_refresh; [done| |].
      { by eapply inv_psb_good in Ep as [_ ? _ _ _]. }
      intros j s4 Hi4 F4 Hj. advance F4.
      apply wp_bind. eapply (wp_timer_start b s4 (RsbRefresh lr)); [done|eauto with live|done|].
      intros s5 Hi5 F5. advance F5. by eapply wp_send_resv_upstream.
Qed.

Lemma handle_path_transit_safe b s info l a is_new :
  Inv b s → has_psb s l (info_key info) a →
  (is_new = true → a = None ∧ not_bypass s l) →
  safe b (handle_path_transit info l is_new) s.
Proof.
  intros Hi Hp Hnew. unfold handle_path_transit, safe.
  apply wp_bind. eapply wp_is_local_addr; [done|]. intros [|] s1 Hi1 F1; [by apply wp_ret|].
  apply (has_psb_frame _ _ _ _ _ F1) in Hp.
  apply wp_bind. eapply wp_resolve; [done..|]. intros ip i s2 Hi2 F2 _.
  apply (has_psb_frame _ _ _ _ _ F2) in Hp. case_if.
  - apply wp_bind. eapply wp_send_path_err; [done|]. intros s3 Hi3 F3.
    apply (has_psb_frame _ _ _ _ _ F3) in Hp. destruct is_new; [|by apply wp_ret].
    destruct (Hnew eq_refl) as [-> Hn]. destruct (has_psb_inv _ _ _ _ Hp) as (p & Ep & _ & Ea).
    eapply wp_psb_delete; [done..| |by auto]. intros _.
    eapply not_bypass_frame in Hn; [|exact F1]. eapply not_bypass_frame in Hn; [|exact F2].
    eapply not_bypass_frame in Hn; [|exact F3]. unfold not_bypass in Hn. rewrite Ep in Hn.
    by injection Hn.
  - apply wp_bind. eapply wp_send_path_downstream; [done..|]. intros s3 Hi3 F3.
    apply (has_psb_frame _ _ _ _ _ F3) in Hp. apply wp_bind. eapply wp_psb_get; [done..|].
    intros p _ _ _ _. unfold when. case_if; [|by apply wp_ret].
    eapply wp_frr_auto_associate; [done..|auto].
Qed.

Lemma msg_key_good m info : msg_ok m info → key_good (info_key info).
Proof.
  intros [Hb (lo & hi & Hhi & Hok) _]. unfold key_good.
  pose proof (iok_key_sender _ _ _ _ Hok) as Hl. unfold loads in Hl.
  destruct (info_sender_v4 info) as [o|]; [|by rewrite Hl].
  apply load_struct_ok in Hl; [|done].
  destruct (key_sender (info_key info)) as [a r i]. unfold struct_ok, fields_ok in Hl. simpl in Hl.
  repeat match goal with H : Forall2 _ _ _ |- _ => inversion H; subst; clear H end. simpl in *. lia.
Qed.

Lemma handle_path_accepted_safe b s m info l a is_new :
  Inv b s → msg_ok m info → period_sane m info → bandwidth_sane m info →
  is_Some (info_hop_v4 info) → has_psb s l (info_key info) a →
  (is_new = true → a = None ∧ not_bypass s l) →
  safe b (handle_path_accepted m info l is_new) s.
Proof.
  intros Hi Hm Hper Hbw Hhop Hp Hnew. unfold handle_path_accepted, safe. apply wp_bind.
  assert (∀ name s1, Inv b s1 → has_psb s1 l (info_key info) a →
    (is_new = true → a = None ∧ not_bypass s1 l) →
    wp (psb_update l (path_update m info name) ;;
        p ← psb_get l;
        cleanup_ms ← lift (RSVP_CLEANUP_MS (psb_refresh_ms p));
        timer_rearm (PsbCleanup l) cleanup_ms (psb_cleanup_timer_cb l) ;;
        refresh_active ← timer_active (PsbRefresh l);
        when (negb refresh_active)
          (next_refresh ← jittered_refresh (psb_refresh_ms p) (negb (psb_is_ingress p));
           timer_start (PsbRefresh l) RSVP_TIMER_REFRESH next_refresh (psb_refresh_timer_cb l)) ;;
        egress ← hal_netlink_is_local_addr (sess_dest_addr (key_session (info_key info)));
        if egress : bool then handle_path_egress info l else handle_path_transit info l is_new)
      (λ _ s', Inv b s') s1) as Hrest.
  { clear s Hi Hp Hnew. intros name s Hi Hp Hnew.
    apply wp_bind. eapply wp_psb_update; [done..| |].
    { intros p Hg. by apply path_update_ok. }
    intros s1 Hi1 F1. assert (is_new = true → a = None ∧ not_bypass s1 l) as Hnew1.
    { intros E. destruct (Hnew E). split; [done|]. by eapply not_bypass_frame. }
    advance F1. clear Hnew. apply wp_bind. eapply wp_psb_get; [done..|]. intros p _ _ _ Hg.
    apply wp_bind. eapply wp_cleanup_ms; [done|apply Hg|]. intros c Hc.
    apply wp_bind. eapply (wp_timer_rearm b s1 (PsbCleanup l)); [done|eauto with live|done|].
    intros s2 Hi2 F2. assert (is_new = true → a = None ∧ not_bypass s2 l) as Hnew2.
    { intros E. destruct (Hnew1 E). split; [done|]. by eapply not_bypass_frame. }
    clear Hnew1. advance F2.
    apply wp_bind. eapply wp_timer_active; [done|eauto with live|]. intros act.
    assert (∀ s3, Inv b s3 → frame s2 s3 →
      wp (egress ← hal_netlink_is_local_addr (sess_dest_addr (key_session (info_key info)));
          if egress : bool then handle_path_egress info l else handle_path_transit info l is_new)
        (λ _ s', Inv b s') s3) as Hend.
    { intros s3 Hi3 F3. apply (has_psb_frame _ _ _ _ _ F3) in Hp.
      apply wp_bind. eapply wp_is_local_addr; [done|]. intros eg s4 Hi4 F4.
      apply (has_psb_frame _ _ _ _ _ F4) in Hp. destruct eg.
      - apply handle_path_egress_safe; [done|]. destruct a; eauto.
      - eapply handle_path_transit_safe; [done..|]. intros E. destruct (Hnew2 E). split; [done|].
        by eapply not_bypass_frame, not_bypass_frame. }
    apply wp_bind. unfold when. case_if; [|by apply wp_ret, Hend].
    apply wp_bind. eapply wp_jittered_refresh; [done|apply Hg|]. intros j s3 Hi3 F3 Hj.
    eapply (wp_timer_start b s3 (PsbRefresh l)); [done| |done|].
    { eapply live_psb_refresh, has_psb_frame; [exact F3|done]. }
    intros s4 Hi4 F4. apply Hend; [done|]. by eapply frame_trans. }
  destruct (c_string (info_lsp_name info)) as [|x name]; [by apply wp_ret, Hrest|].
  apply wp_bind. eapply wp_strdup; [done|]. intros n s1 Hi1 F1. apply wp_ret, Hrest; [done| |].
  - by eapply has_psb_frame.
  - intros E. destruct (Hnew E). split; [done|]. by eapply not_bypass_frame.
Qed.

Lemma handle_path_message_safe b s m info :
  Inv b s → msg_ok m info → period_sane m info → bandwidth_sane m info →
  safe b (handle_path_message m info) s.
Proof.
  intros Hi Hm Hper Hbw. unfold handle_path_message, safe. apply wp_bind.
  assert (∀ c, rsvp_validate_path_message info c = (RSVP_SUCCESS, 0, 0) ∧ is_Some (info_hop_v4 info)
    ∨ ∃ e v, rsvp_validate_path_message info c = (RSVP_ERR_MALFORMED_OBJ, e, v)) as Hval.
  { intros c. unfold rsvp_validate_path_message. destruct (info_hop_v4 info); simpl; [|by eauto].
    case_if; [by eauto|]. case_if; [by eauto|]. left. split; [done|by eexists]. }
  eapply wp_psb_find; [done| |].
  - intros l a Hp. destruct (Hval true) as [[E Hhop]|(e & v & E)]; simpl; rewrite E.
    + by eapply handle_path_accepted_safe.
    + by eapply wp_send_path_err.
  - intros Hno. destruct (Hval false) as [[E Hhop]|(e & v & E)]; simpl; rewrite E.
    + apply wp_bind. eapply wp_psb_create; [done|by eapply msg_key_good|done|by intros; apply wp_ret|].
      intros l s1 Hi1 _ Hp El. apply wp_bind.
      assert (not_bypass s1 l) as Hn by (unfold not_bypass; by rewrite El).
      eapply wp_psb_set_plain; [done..| |].
      { intros p _ []. split; [done|]. split; [|done]. by split. }
      intros s2 Hi2 F2. eapply handle_path_accepted_safe; try done.
      * by eapply has_psb_frame.
      * intros _. split; [done|]. by eapply not_bypass_frame.
    + by eapply wp_send_path_err.
Qed.
End handlers.
