(* ===== verification/HandlersResv.v ===== *)
(** * RESV keeps the invariant

    Rules for [handle_resv_message] and what it reaches: the association of a
    new reservation with its path, the blockade check, the installation of the
    forwarding entry, and the end of make-before-break. *)

From stdpp Require Import base numbers list option gmap sets.
From S2P Require Import Prelude Wire Protocol WheelTimer Timers Builder SendPacket Parser.
From S2P Require Import Interfaces StateDb Timing State Messages StateMachine Invariant.
From S2P Require Import Rules SendRules Lifecycle Handlers.

Section resv.
Context {TS LS : Type} `{TimerLaws TS timer_id timer_cb} `{LabelLaws LS} `{EnvLaws}.
Local Notation state := (state TS LS).
Local Notation M := (M state).
Implicit Types s : state.

Definition tunnel_of (k : rsvp_path_key) : Z := ntohs (sess_tunnel_id (key_session k)).
Definition lsp_of (k : rsvp_path_key) : Z := ntohs (snd_lsp_id (key_sender k)).

(** A bypass tunnel with the tunnel id of [k] is the one of [k] itself. *)
Definition bypass_ids s (k : rsvp_path_key) : Prop :=
  ∀ l p, psbs s !! l = Some p → psb_is_bypass_tunnel p = true →
    tunnel_of (psb_key p) = tunnel_of k → psb_key p = k.

Lemma bypass_ids_frame s s' k : frame s s' → bypass_ids s k → bypass_ids s' k.
Proof.
  intros [Hf _ _ _] Hb l p Hp Hbp Ht.
  destruct (fmap_lookup_inv _ _ _ _ _ (eq_sym Hf) Hp) as (p0 & Hp0 & [= Ek _ Eb]).
  rewrite <- Ek. eapply Hb; [done|congruence|congruence].
Qed.

Lemma wp_rsb_update b s l k a f Q :
  Inv b s → has_rsb s l k a →
  (∀ r, refresh_ok (rsb_refresh_ms r) → ∃ r', f r = Some r' ∧ rshape r' = rshape r
     ∧ refresh_ok (rsb_refresh_ms r') ∧ rsb_label_in r' = rsb_label_in r) →
  (∀ s', Inv b s' → frame s s' → Q () s') → wp (rsb_update l f) Q s.
Proof.
  intros Hi Hr Hf HQ. unfold rsb_update. apply wp_bind. eapply wp_rsb_get; [done..|].
  intros r Er _ _ Hg. destruct (Hf r Hg) as (r' & E & Hsh & Hg' & Hlb).
  apply wp_bind. eapply wp_lift; [exact E|]. eapply wp_rsb_set; [done..| |done].
  intros r0 Er0 _. rewrite Er in Er0. injection Er0 as <-. done.
Qed.

(** The incumbent path is never the new one, and not a bypass tunnel either. *)
Lemma wp_mbb_complete b s l k a p Q :
  Inv b s → has_psb s l k a → psbs s !! l = Some p → psb_is_mbb_pending p = true →
  (b = true → bypass_ids s k) →
  (∀ s', Inv b s' → has_psb s' l k a → Q () s') → wp (rsvp_mbb_complete l) Q s.
Proof.
  intros Hi Hp Ep Hpend Hby HQ. unfold rsvp_mbb_complete. apply wp_bind.
  eapply wp_psb_get; [done..|]. intros p' Ep' Ek _ Hg. assert (p' = p) as -> by congruence.
  destruct (pg_mbb _ Hg Hpend) as [Hne Hnb].
  assert (∀ s1, Inv b s1 → has_psb s1 l k a →
    wp (psb_set l (λ p, p <| psb_is_mbb_pending := false |> <| psb_mbb_old_lsp_id := 0 |>)) Q s1)
    as Hend.
  { intros s1 Hi1 Hp1. eapply wp_psb_set_plain; [done..| |].
    - intros q _ []. split; [done|]. by split; [split|].
    - intros s2 Hi2 F2. apply HQ; [done|]. by eapply has_psb_frame. }
  apply wp_bind. eapply wp_psb_find_by_id; [done| |by apply wp_bind, wp_ret, Hend].
  intros l' k' a' Hp' Ht Hl. apply wp_bind.
  assert (k' ≠ k) as Hkk by (intros ->; rewrite Ek in Hne; congruence).
  assert (l' ≠ l) as Hll.
  { intros ->. destruct (has_psb_inv _ _ _ _ Hp) as (q & Eq & Eqk & _).
    destruct (has_psb_inv _ _ _ _ Hp') as (q' & Eq' & Eqk' & _). congruence. }
  eapply wp_psb_cleanup; [done..| |].
  - intros Eb. destruct (has_psb_inv _ _ _ _ Hp') as (q & Eq & Eqk & _).
    unfold not_bypass. rewrite Eq. simpl. f_equal. destruct (psb_is_bypass_tunnel q) eqn:Eq'; [|done].
    destruct Hkk. rewrite <- Eqk. eapply Hby; [done..|]. rewrite Eqk. unfold tunnel_of. congruence.
  - intros s1 Hi1 [K _ _ _ _] _. apply Hend; [done|]. apply K; congruence.
Qed.

Lemma handle_resv_install_safe b s info lr l k is_new changed :
  Inv b s → has_rsb s lr k (Some l) → has_psb s l k (Some lr) → (b = true → bypass_ids s k) →
  safe b (handle_resv_install info lr l is_new changed) s.
Proof.
  intros Hi Hr Hp Hby. unfold handle_resv_install, safe.
  apply wp_bind. eapply wp_psb_get; [done..|]. intros p _ _ _ _.
  apply wp_bind. eapply wp_rsb_get; [done..|]. intros r _ _ _ _. apply wp_bind.
  assert (∀ s1, Inv b s1 → frame s s1 →
    wp (p ← psb_get l;
        when (psb_is_bypass_tunnel p && (is_new || changed))
          (rsvp_frr_auto_associate_all (psb_frr_protected_ifindex p)) ;;
        p ← psb_get l;
        when (psb_is_mbb_pending p && is_new) (rsvp_mbb_complete l)) (λ _ s', Inv b s') s1) as Hend.
  { intros s1 Hi1 F1. apply (has_psb_frame _ _ _ _ _ F1) in Hp.
    apply wp_bind. eapply wp_psb_get; [done..|]. intros p1 _ _ _ _. apply wp_bind.
    assert (∀ s2, Inv b s2 → frame s1 s2 →
      wp (p ← psb_get l; when (psb_is_mbb_pending p && is_new) (rsvp_mbb_complete l))
         (λ _ s', Inv b s') s2) as Hmbb.
    { intros s2 Hi2 F2. apply (has_psb_frame _ _ _ _ _ F2) in Hp.
      apply wp_bind. eapply wp_psb_get; [done..|]. intros p2 Ep2 _ _ _. unfold when.
      case_if; [|by apply wp_ret]. bools. eapply wp_mbb_complete; [done..| |done].
      intros E. by eapply bypass_ids_frame, bypass_ids_frame, Hby. }
    unfold when. case_if; [|by apply wp_ret, Hmbb].
    by eapply wp_frr_auto_associate_all. }
  case_if.
  - apply wp_bind. eapply wp_ensure_label; [done..|]. intros n s1 Hi1 F1 Hn.
    apply (has_rsb_frame _ _ _ _ _ F1) in Hr. case_if.
    + apply wp_bind. unfold when. destruct is_new.
      * eapply wp_rsb_cleanup; [done..|]. intros s2 Hi2 _ _ _.
        apply wp_bind. by eapply wp_send_resv_err; [|intros; apply wp_ret, wp_ret].
      * apply wp_ret. apply wp_bind. by eapply wp_send_resv_err; [|intros; apply wp_ret, wp_ret].
    + apply wp_bind. eapply wp_mpls_install; [done|right; naive_solver|]. intros s2 Hi2 F2.
      apply (has_rsb_frame _ _ _ _ _ F2) in Hr.
      apply wp_bind. eapply wp_send_resv_upstream; [done..|]. intros s3 Hi3 F3.
      apply wp_ret, Hend; [done|]. by eapply frame_trans, frame_trans.
  - apply wp_bind. eapply wp_mpls_install; [done|by left|]. intros s1 Hi1 F1. by apply wp_ret, Hend.
Qed.

Lemma wp_rsb_refresh_role b s lr k a active ingress R Q :
  Inv b s → has_rsb s lr k a → refresh_ok R → (∀ s', Inv b s' → frame s s' → Q () s') →
  wp (if negb ingress then
        when (negb active)
          (next_refresh ← jittered_refresh R true;
           timer_start (RsbRefresh lr) RSVP_TIMER_REFRESH next_refresh (rsb_refresh_timer_cb lr))
      else when active (timer_stop (RsbRefresh lr))) Q s.
Proof.
  intros Hi Hr HR HQ. unfold when. destruct ingress, active; simpl; try (by apply wp_ret, HQ).
  - eapply wp_timer_stop; [done|eauto with live|done].
  - apply wp_bind. eapply wp_jittered_refresh; [done..|]. intros j s1 Hi1 F1 Hj.
    eapply (wp_timer_start b s1 (RsbRefresh lr)); [done| |done|].
    { eapply live_rsb_refresh, has_rsb_frame; [exact F1|done]. }
    intros s2 Hi2 F2. apply HQ; [done|]. by eapply frame_trans.
Qed.

Lemma msg_hop_ok m info :
  msg_ok m info → is_Some (info_hop_v4 info) →
  ∃ hop, (o ← info_hop_v4 info; load_struct rsvp_hop_ipv4 m o) = Some hop.
Proof.
  intros [_ (lo & hi & Hhi & Hok) _] [o E]. rewrite E. simpl.
  destruct (iok_hop _ _ _ _ Hok o E). apply load_struct_is_Some. lia.
Qed.

Lemma handle_resv_accepted_safe b s m info lr l k label is_new :
  Inv b s → msg_ok m info → is_Some (info_hop_v4 info) →
  has_rsb s lr k (Some l) → has_psb s l k (Some lr) → (b = true → bypass_ids s k) →
  safe b (handle_resv_accepted m info lr label is_new) s.
Proof.
  intros Hi Hm Hhop Hr Hp Hby. unfold handle_resv_accepted, safe.
  destruct (mo_hdr _ _ Hm) as (oh & hdr & Eoh & Ehd).
  apply wp_bind. eapply (wp_lift _ (Some hdr)); [unfold load_opt; by rewrite Eoh, Ehd|].
  apply wp_bind. eapply wp_rsb_set; [done..|done|]. intros s1 Hi1 F1.
  pose proof (λ E, bypass_ids_frame _ _ _ F1 (Hby E)) as Hby1. clear Hby. advance F1.
  apply wp_bind. eapply wp_rsb_get; [done..|]. intros r _ _ _ HR.
  apply wp_bind. eapply wp_cleanup_ms; [done..|]. intros c Hc.
  apply wp_bind. eapply (wp_timer_rearm b s1 (RsbCleanup lr)); [done|eauto with live|done|].
  intros s2 Hi2 F2. pose proof (λ E, bypass_ids_frame _ _ _ F2 (Hby1 E)) as Hby2. clear Hby1.
  advance F2.
  apply wp_bind. eapply wp_rsb_set; [done..|done|]. intros s3 Hi3 F3.
  pose proof (λ E, bypass_ids_frame _ _ _ F3 (Hby2 E)) as Hby3. clear Hby2. advance F3.
  apply wp_bind. eapply wp_rsb_is_ingress; [done..|]. intros ing.
  apply wp_bind. eapply wp_timer_active; [done|eauto with live|]. intros act.
  apply wp_bind. eapply wp_rsb_refresh_role; [done..|]. intros s4 Hi4 F4.
  pose proof (λ E, bypass_ids_frame _ _ _ F4 (Hby3 E)) as Hby4. clear Hby3. advance F4.
  apply wp_bind. eapply wp_rsb_get; [done..|]. intros r' _ _ Ea _.
  destruct (msg_hop_ok _ _ Hm Hhop) as [hop Ehop].
  apply wp_bind. eapply wp_lift; [exact Ehop|].
  apply wp_bind. eapply wp_rsb_set; [done..|done|]. intros s5 Hi5 F5.
  pose proof (λ E, bypass_ids_frame _ _ _ F5 (Hby4 E)) as Hby5. clear Hby4. advance F5.
  rewrite Ea. case_if; [by eapply handle_resv_install_safe|].
  apply wp_bind. eapply wp_psb_get; [done..|]. intros p _ _ _ _.
  unfold when. case_if; [|by apply wp_ret]. by eapply wp_send_resv_upstream.
Qed.

Lemma handle_resv_found_safe b s m info lr l k is_new :
  Inv b s → msg_ok m info → period_sane m info → is_Some (info_hop_v4 info) →
  is_Some (info_label info) → has_rsb s lr k (Some l) → has_psb s l k (Some lr) →
  (is_new = true → ∃ r, rsbs s !! lr = Some r ∧ rsb_label_in r = 0) →
  (b = true → bypass_ids s k) →
  safe b (handle_resv_found m info lr is_new) s.
Proof.
  intros Hi Hm Hper Hhop [ol El] Hr Hp Hnew Hby. unfold handle_resv_found, safe.
  pose proof Hm as [_ (lo & hi & Hhi & Hok) _].
  destruct (iok_label _ _ _ _ Hok ol El).
  destruct (load_struct_is_Some (T := rsvp_label_ipv4) m ol) as [lb Elb]; [lia|].
  apply wp_bind. eapply wp_lift; [by rewrite El|].
  apply wp_bind. unfold rsb_update. apply wp_bind. eapply wp_rsb_get; [done..|].
  intros r Er Ek Ea HR.
  destruct (resv_update_ok m info r Hm Hper HR) as (r' & Er' & Hsh & HR' & Hlb).
  apply wp_bind. eapply wp_lift; [exact Er'|]. apply (wp_rsb_set_raw _ lr r); [done|].
  match goal with |- wp _ _ ?x => set (s1 := x) end.
  destruct (inv_rsb_update b s lr (λ _, r') Hi) as [Hi1 F1].
  { intros r0 Er0 _. rewrite Er in Er0. injection Er0 as <-. done. }
  fold s1 in Hi1, F1. pose proof (λ E, bypass_ids_frame _ _ _ F1 (Hby E)) as Hby1.
  assert (rsbs s1 !! lr = Some r') as Er1.
  { change (rsbs s1) with (alter (λ _, r') lr (rsbs s)). rewrite lookup_alter, decide_True by done.
    by rewrite Er. }
  clearbody s1. advance F1.
  apply wp_bind. eapply wp_is_blockaded; [done..|]. intros [|]; [|by eapply handle_resv_accepted_safe].
  unfold when. destruct is_new; [|by apply wp_ret].
  apply wp_bind. eapply wp_rsb_get; [done..|]. intros r1 Er1' _ Ea1 _. rewrite Ea1.
  destruct (has_psb_inv _ _ _ _ Hp) as (p & Ep & _).
  assert (r1 = r') as -> by congruence.
  eapply wp_rsb_detach_delete; [done..| |congruence|done|by auto].
  destruct (Hnew eq_refl) as (r0 & Er0 & El0). congruence.
Qed.

(** The three outcomes of the validation. *)
Lemma wp_validate_resv b s info Q :
  Inv b s →
  (∀ l a, has_psb s l (info_key info) a → is_Some (info_hop_v4 info) → is_Some (info_label info) →
     Q (RSVP_SUCCESS, 0, 0) s) →
  (∀ rc e v, rc ≠ RSVP_SUCCESS → Q (rc, e, v) s) →
  wp (rsvp_validate_resv_message info) Q s.
Proof.
  intros Hi Hok Herr. unfold rsvp_validate_resv_message. apply wp_bind.
  eapply wp_psb_find; [done| |].
  - intros l a Hp. apply wp_ret. destruct (info_hop_v4 info); simpl; [|by apply Herr].
    destruct (info_label info); simpl; [|by apply Herr]. eapply Hok; [done|by eexists..].
  - intros _. apply wp_ret. by apply Herr.
Qed.

(** A new reservation with its path. *)
Lemma wp_resv_create b s k l a Q :
  Inv b s → has_psb s l k a → (b = true → bypass_ids s k) →
  (∀ lr r, rsbs s !! lr = Some r → rsb_key r ≠ k) →
  (∀ s', Inv b s' → frame s s' → Q None s') →
  (∀ lr s', Inv b s' → has_rsb s' lr k (Some l) → has_psb s' l k (Some lr) →
     (∃ r, rsbs s' !! lr = Some r ∧ rsb_label_in r = 0) → (b = true → bypass_ids s' k) →
     Q (Some lr) s') →
  wp (resv_create k) Q s.
Proof.
  intros Hi Hp Hby Hno Hnone Hsome. unfold resv_create. apply wp_bind.
  eapply wp_rsb_create; [done|done|by intros; apply wp_ret, Hnone|].
  intros lr s1 s2 Hi1 F1 Hfree Hno1 E1 E2 E3 E4 E5 E6 E7 E8.
  pose proof (λ E, bypass_ids_frame _ _ _ F1 (Hby E)) as Hby1.
  apply (has_psb_frame _ _ _ _ _ F1) in Hp. destruct (has_psb_inv _ _ _ _ Hp) as (p & Ep & Ek & _).
  set (g := λ r : rsvp_rsb, r <| rsb_refresh_ms := RSVP_REFRESH_MS |>).
  set (f := λ r : rsvp_rsb, r <| rsb_associated_psb := Some l |>
                              <| rsb_refresh_ms := psb_refresh_ms p |>).
  assert (rsbs s2 !! lr = Some (new_rsb k)) as Er2.
  { unfold rsbs. rewrite E2. apply lookup_insert_eq. }
  apply wp_bind. apply (wp_rsb_set_raw _ lr (new_rsb k)); [done|].
  match goal with |- wp _ _ ?x => set (s3 := x) end.
  assert (st_psb s3 = st_psb s1) as Ep3 by (unfold s3; simpl; done).
  assert (rsbs s3 = alter g lr (rsbs s2)) as Er3 by done.
  apply wp_bind. unfold rsvp_psb_find. apply wp_bind, wp_gets. rewrite Ep3.
  eapply (wp_lift _ (Some l)).
  { apply table_find_iff; [apply Hi1|]. exists p. split; [done|]. done. }
  apply wp_bind, wp_bind. apply (wp_psb_get_raw _ l p); [unfold psbs; by rewrite Ep3|].
  assert (rsbs s3 !! lr = Some (g (new_rsb k))) as Erl.
  { rewrite Er3, lookup_alter, decide_True by done. by rewrite Er2. }
  apply wp_bind. apply (wp_rsb_set_raw _ lr (g (new_rsb k))); [done|].
  match goal with |- wp _ _ ?x => set (s4 := x) end.
  assert (st_psb s4 = st_psb s1) as Ep4 by (unfold s4; simpl; done).
  apply (wp_psb_set_raw _ l p); [unfold psbs; by rewrite Ep4|].
  match goal with |- wp _ _ ?x => set (s5 := x) end.
  assert (st_psb s5 = table_update (st_psb s1) l (λ p, p <| psb_associated_rsb := Some lr |>)) as Ep5
    by (unfold s5; simpl; f_equal; exact E1).
  assert (st_rsb s5 = table_update (table_update (st_rsb s2) lr g) lr f) as Er5 by done.
  assert (rsbs s5 = <[lr := f (g (new_rsb k))]> (rsbs s1)) as Hr5.
  { change (rsbs s5) with (alter f lr (rsbs s3)). rewrite (alter_is_insert f _ _ _ Erl).
    rewrite Er3, (alter_is_insert g _ _ _ Er2). unfold rsbs at 1. rewrite E2. simpl.
    by rewrite !insert_insert_eq. }
  destruct (inv_rsb_associated b s1 s5 lr l p k (λ r, f (g r))) as (Hi5 & Hp5 & Hlr5 & _); try done.
  - split; [done|]. split; [done|]. split; [done|]. by eapply inv_psb_good in Ep as [_ ? _ _ _].
  - rewrite Er5, E2. apply table_update_ok; [|done]. apply table_update_ok; [|done].
    by apply table_insert_ok; [apply Hi1|..].
  - apply wp_ret, Hsome; try done.
    + exists (f (g (new_rsb k))). split; [|done]. rewrite Hr5. apply lookup_insert_eq.
    + intros E l' q Hq Hbq Ht. specialize (Hby1 E). unfold psbs in Hq. rewrite Ep5 in Hq.
      simpl in Hq. apply lookup_alter_cases in Hq as [(-> & q0 & Hq0 & ->)|[_ Hq]].
      * by eapply (Hby1 l q0).
      * by eapply (Hby1 l' q).
Qed.

Lemma handle_resv_message_safe b s m info :
  Inv b s → msg_ok m info → period_sane m info → (b = true → bypass_ids s (info_key info)) →
  safe b (handle_resv_message m info) s.
Proof.
  intros Hi Hm Hper Hby. unfold handle_resv_message, safe. apply wp_bind.
  eapply wp_rsb_find; [done| |].
  - intros lr a Hr. apply wp_bind. eapply wp_validate_resv; [done| |].
    + intros l a' _ Hhop Hlab. destruct (has_rsb_partner _ _ _ _ _ Hi Hr) as (lp & -> & Hp).
      by eapply handle_resv_found_safe.
    + intros rc e v Hrc. destruct rc; try done; by eapply wp_send_resv_err.
  - intros Hno. apply wp_bind. eapply wp_validate_resv; [done| |].
    + intros l a Hp Hhop Hlab.
      apply wp_bind. eapply wp_resv_create; [done..|by intros; apply wp_ret|].
      intros lr s1 Hi1 Hr1 Hp1 Hz Hby1. by eapply handle_resv_found_safe.
    + intros rc e v Hrc. destruct rc; try done; by eapply wp_send_resv_err.
Qed.
End resv.
