(* ===== verification/Operations.v ===== *)
(** * The other operations keep the invariant

    Rules for tears and errors and for the timer callbacks of the state blocks. *)

From stdpp Require Import base numbers list option gmap sets.
From S2P Require Import Prelude Wire Protocol WheelTimer Timers Builder SendPacket Parser.
From S2P Require Import Interfaces StateDb Timing State Messages StateMachine Invariant.
From S2P Require Import Rules SendRules Lifecycle Handlers HandlersResv.

Section operations.
Context {TS LS : Type} `{TimerLaws TS timer_id timer_cb} `{LabelLaws LS} `{EnvLaws}.
Local Notation state := (state TS LS).
Local Notation M := (M state).
Implicit Types s : state.

(** The path blocks with this property are not bypass tunnels. *)
Definition spares_bypass s (P : rsvp_path_key → Prop) : Prop :=
  ∀ l p, psbs s !! l = Some p → P (psb_key p) → psb_is_bypass_tunnel p = false.

Lemma spares_not_bypass s P l k a : spares_bypass s P → has_psb s l k a → P k → not_bypass s l.
Proof.
  intros Hs (p & Ep & <- & _)%has_psb_inv Hk. unfold not_bypass. rewrite Ep. simpl.
  f_equal. by eapply Hs.
Qed.

(** ** Tears *)

Lemma bsb_remove_safe b s k : Inv b s → safe b (bsb_remove k) s.
Proof.
  intros Hi. unfold bsb_remove, safe. apply wp_bind. eapply wp_bsb_find; [done| |by intros _; apply wp_ret].
  intros l Hb. apply wp_bind. eapply wp_timer_stop; [done|eauto with live|]. intros s1 Hi1 F1.
  eapply wp_bsb_delete; [done|by eapply has_bsb_frame|done].
Qed.

Lemma handle_path_tear_safe b s info :
  Inv b s → (b = true → spares_bypass s (λ k, k = info_key info)) →
  safe b (handle_path_tear info) s.
Proof.
  intros Hi Hb. unfold handle_path_tear, safe. apply wp_bind.
  eapply wp_psb_find; [done| |by intros _; apply wp_bind, wp_ret, bsb_remove_safe].
  intros l a Hp. apply wp_bind. eapply wp_psb_cleanup; [done..| |].
  - intros E. by eapply spares_not_bypass; [apply (Hb E)|..].
  - intros s1 Hi1 _ _. by apply bsb_remove_safe.
Qed.

Lemma handle_resv_tear_safe b s info : Inv b s → safe b (handle_resv_tear info) s.
Proof.
  intros Hi. unfold handle_resv_tear, safe. apply wp_bind.
  eapply wp_rsb_find; [done| |by intros _; apply wp_bind, wp_ret, bsb_remove_safe].
  intros l a Hr. destruct (has_rsb_partner _ _ _ _ _ Hi Hr) as (lp & -> & _).
  apply wp_bind. eapply wp_rsb_cleanup; [done..|]. intros s1 Hi1 _ _ _. by apply bsb_remove_safe.
Qed.

(** ** Errors *)

Lemma handle_path_err_safe b s m info : Inv b s → msg_ok m info → safe b (handle_path_err m info) s.
Proof.
  intros Hi [_ (lo & hi & Hhi & Hok) _]. unfold handle_path_err, safe.
  destruct (load_opt_ok m lo hi _ (iok_error _ _ _ _ Hok) Hhi) as (e & Ee & _).
  apply wp_bind. eapply wp_lift; [exact Ee|].
  apply wp_bind. eapply wp_psb_find; [done| |by intros _; apply wp_ret]. intros l a Hp.
  apply wp_bind. eapply wp_psb_get; [done..|]. intros p _ _ _ _. case_if; [by apply wp_ret|].
  apply wp_bind. eapply wp_egress_toward; [done|]. intros [i x] s1 Hi1 F1.
  apply wp_bind. eapply wp_finalize_and_send; [done|auto with safe|]. intros. by apply wp_ret.
Qed.

Lemma blockade_safe b s m info o :
  Inv b s → msg_ok m info → info_flowspec info = Some o → safe b (blockade m info o) s.
Proof.
  intros Hi [_ (lo & hi & Hhi & Hok) _] Eo. unfold blockade, safe.
  destruct (iok_flowspec _ _ _ _ Hok o Eo).
  destruct (load_struct_is_Some (T := rsvp_sender_tspec) m o) as [fs Efs]; [lia|].
  assert (∀ l s1, Inv b s1 → has_bsb s1 l (info_key info) →
    wp (fs ← lift (load_struct rsvp_sender_tspec m o);
        bsb_set l (λ b, b <| bsb_flowspec_qb := tspec_copy_and_ntoh fs |>) ;;
        tb_ms ← lift (RSVP_CLEANUP_MS RSVP_REFRESH_MS);
        a ← timer_active (BsbBlockade l);
        if a : bool then timer_reset (BsbBlockade l) tb_ms ;; mret ()
        else timer_start (BsbBlockade l) RSVP_TIMER_CLEANUP tb_ms (bsb_cleanup_timer_cb l))
       (λ _ s', Inv b s') s1) as Hend.
  { intros l s1 Hi1 Hb. apply wp_bind. eapply wp_lift; [exact Efs|].
    apply wp_bind. eapply wp_bsb_set; [done..|]. intros s2 Hi2 F2. advance F2.
    apply wp_bind. eapply wp_cleanup_ms; [done|by split|]. intros c Hc.
    apply wp_bind. eapply wp_timer_active; [done|eauto with live|]. intros [|].
    - apply wp_bind. eapply wp_timer_reset; [done|eauto with live|done|]. intros. by apply wp_ret.
    - eapply (wp_timer_start b s2 (BsbBlockade l)); [done|eauto with live|done|done]. }
  apply wp_bind. eapply wp_bsb_find; [done| |].
  - intros l Hb. apply wp_bind, wp_ret. by apply Hend.
  - intros Hno. apply wp_bind. eapply wp_bsb_create; [done|done|by intros; apply wp_ret|].
    intros l s1 Hi1 _ Hb. by apply Hend.
Qed.

Lemma handle_resv_err_safe b s m info : Inv b s → msg_ok m info → safe b (handle_resv_err m info) s.
Proof.
  intros Hi Hm. pose proof Hm as [_ (lo & hi & Hhi & Hok) _]. unfold handle_resv_err, safe.
  destruct (load_opt_ok m lo hi _ (iok_error _ _ _ _ Hok) Hhi) as (e & Ee & _).
  apply wp_bind. eapply wp_lift; [exact Ee|].
  assert (∀ s1, Inv b s1 →
    wp (rsb ← rsvp_rsb_find (info_key info);
        match rsb with
        | None => mret ()
        | Some rsb =>
            egress ← hal_netlink_is_local_addr (sess_dest_addr (key_session (info_key info)));
            if egress : bool then mret () else propagate_resv_err rsb e
        end) (λ _ s', Inv b s') s1) as Hend.
  { intros s1 Hi1. apply wp_bind. eapply wp_rsb_find; [done| |by intros _; apply wp_ret].
    intros l a Hr. apply wp_bind. eapply wp_is_local_addr; [done|]. intros [|] s2 Hi2 F2;
      [by apply wp_ret|]. eapply wp_propagate_resv_err; [done|by eapply has_rsb_frame|done]. }
  apply wp_bind. destruct e as [e|]; [|by apply wp_ret, Hend].
  destruct (info_flowspec info) as [o|] eqn:Eo; [|by apply wp_ret, Hend].
  unfold when. case_if; [|by apply wp_ret, Hend].
  eapply wp_mono; [by eapply blockade_safe|]. intros [] s1. apply Hend.
Qed.

(** ** Timer callbacks *)

Lemma psb_refresh_timer_safe b s l k a :
  Inv b s → has_psb s l k a → safe b (psb_refresh_timer l) s.
Proof.
  intros Hi Hp. unfold psb_refresh_timer, safe.
  apply wp_bind. eapply wp_psb_get; [done..|]. intros p _ _ _ _.
  assert (∀ s1, Inv b s1 → has_psb s1 l k a →
    wp (p ← psb_get l;
        next ← jittered_refresh (psb_refresh_ms p)
                 (negb (psb_is_ingress p) && negb (hop_neighbor_addr (psb_prev_hop p) =? 0));
        timer_start (PsbRefresh l) RSVP_TIMER_REFRESH next (psb_refresh_timer_cb l))
       (λ _ s', Inv b s') s1) as Hend.
  { intros s1 Hi1 Hp1. apply wp_bind. eapply wp_psb_get; [done..|]. intros q _ _ _ Hg.
    apply wp_bind. eapply wp_jittered_refresh; [done|apply Hg|]. intros j s2 Hi2 F2 Hj. advance F2.
    eapply (wp_timer_start b s2 (PsbRefresh l)); [done|eauto with live|done|done]. }
  apply wp_bind.
  assert (∀ (eg : bool) s1, Inv b s1 → frame s s1 →
    wp (when (negb eg) (send_path_downstream l) ;;
        p ← psb_get l;
        next ← jittered_refresh (psb_refresh_ms p)
                 (negb (psb_is_ingress p) && negb (hop_neighbor_addr (psb_prev_hop p) =? 0));
        timer_start (PsbRefresh l) RSVP_TIMER_REFRESH next (psb_refresh_timer_cb l))
       (λ _ s', Inv b s') s1) as Hsend.
  { intros eg s1 Hi1 F1. advance F1. apply wp_bind. unfold when. case_if; [|by apply wp_ret, Hend].
    eapply wp_send_path_downstream; [done..|]. intros s2 Hi2 F2. advance F2. by apply Hend. }
  case_if; [by apply wp_ret, Hsend|]. eapply wp_is_local_addr; [done|].
  intros eg s1 Hi1 F1. by apply Hsend.
Qed.

Lemma psb_cleanup_timer_safe b s l k a :
  Inv b s → has_psb s l k a → (b = true → not_bypass s l) → safe b (psb_cleanup_timer l) s.
Proof. intros. unfold psb_cleanup_timer, safe. by eapply wp_psb_cleanup. Qed.

Lemma rsb_refresh_timer_safe b s l k a :
  Inv b s → has_rsb s l k a → safe b (rsb_refresh_timer l) s.
Proof.
  intros Hi Hr. unfold rsb_refresh_timer, safe.
  destruct (has_rsb_partner _ _ _ _ _ Hi Hr) as (lp & -> & Hp).
  apply wp_bind. eapply wp_rsb_get; [done..|]. intros r _ _ -> _. apply wp_bind.
  apply wp_bind. eapply wp_psb_get; [done..|]. intros p _ _ _ _.
  apply wp_bind. eapply wp_is_local_addr; [done|]. intros eg s1 Hi1 F1. advance F1.
  assert (∀ s2, Inv b s2 → frame s1 s2 →
    wp (mret (negb eg)) (λ is_backup s3,
      wp (r ← rsb_get l;
          next ← jittered_refresh (rsb_refresh_ms r) is_backup;
          timer_start (RsbRefresh l) RSVP_TIMER_REFRESH next (rsb_refresh_timer_cb l))
         (λ _ s', Inv b s') s3) s2) as Hend.
  { intros s2 Hi2 F2. advance F2. apply wp_ret.
    apply wp_bind. eapply wp_rsb_get; [done..|]. intros r' _ _ _ HR.
    apply wp_bind. eapply wp_jittered_refresh; [done..|]. intros j s3 Hi3 F3 Hj. advance F3.
    eapply (wp_timer_start b s3 (RsbRefresh l)); [done|eauto with live|done|done]. }
  apply wp_bind. unfold when. case_if; [|by apply wp_ret, Hend].
  eapply wp_send_resv_upstream; [done..|]. intros s2 Hi2 F2. by apply Hend.
Qed.

Lemma rsb_cleanup_timer_safe b s l k a :
  Inv b s → has_rsb s l k a → safe b (rsb_cleanup_timer l) s.
Proof.
  intros Hi Hr. unfold rsb_cleanup_timer, safe.
  destruct (has_rsb_partner _ _ _ _ _ Hi Hr) as (lp & -> & _). by eapply wp_rsb_cleanup.
Qed.

Lemma bsb_cleanup_timer_safe b s l k : Inv b s → has_bsb s l k → safe b (bsb_cleanup_timer l) s.
Proof. intros. unfold bsb_cleanup_timer, safe. by eapply wp_bsb_delete. Qed.
End operations.
