(* ===== verification/Commands.v ===== *)
(** * The command-line operations keep the invariant

    Initiating paths and bypass tunnels, protection, make-before-break,
    teardown, the fast-reroute switch and its reversal. *)

From stdpp Require Import base numbers list option gmap sets.
From S2P Require Import Prelude Wire Protocol WheelTimer Timers Builder SendPacket Parser.
From S2P Require Import Interfaces StateDb Timing State Messages StateMachine Invariant.
From S2P Require Import Rules SendRules Lifecycle Handlers HandlersResv Operations.

Section commands.
Context {TS LS : Type} `{TimerLaws TS timer_id timer_cb} `{LabelLaws LS} `{EnvLaws}.
Local Notation state := (state TS LS).
Local Notation M := (M state).
Implicit Types s : state.

(** ** New paths *)

Lemma wp_take_lsp_id b s Q :
  Inv b s → (∀ id s', Inv b s' → frame s s' → Q id s') → wp take_lsp_id Q s.
Proof.
  intros Hi HQ. unfold take_lsp_id. apply wp_bind, wp_gets, wp_bind, wp_modify, wp_ret.
  apply HQ; [by apply inv_lsp_id|done].
Qed.

Lemma wp_strdup_opt b s name Q :
  Inv b s → (∀ x s', Inv b s' → frame s s' → Q x s') → wp (strdup_opt name) Q s.
Proof.
  intros Hi HQ. unfold strdup_opt. destruct name; [by eapply wp_strdup|].
  by apply wp_ret, HQ.
Qed.

Lemma wp_start_refresh b s l k a Q :
  Inv b s → has_psb s l k a → (∀ s', Inv b s' → frame s s' → Q () s') → wp (start_refresh l) Q s.
Proof.
  intros Hi Hp HQ. unfold start_refresh. apply wp_bind. eapply wp_psb_get; [done..|].
  intros p _ _ _ Hg. apply wp_bind. eapply wp_jittered_refresh; [done|apply Hg|].
  intros j s1 Hi1 F1 Hj.
  eapply (wp_timer_start b s1 (PsbRefresh l)); [done| |done|].
  { eapply live_psb_refresh, has_psb_frame; [exact F1|done]. }
  intros s2 Hi2 F2. apply HQ; [done|]. by eapply frame_trans.
Qed.

Lemma initiate_key_good src dest t i : key_good (initiate_key src dest t i).
Proof. apply htons_bound. Qed.

(** The end of every initiation. *)
Lemma start_and_send_safe b s l k a :
  Inv b s → has_psb s l k a → safe b (start_refresh l ;; send_path_downstream l) s.
Proof.
  intros Hi Hp. unfold safe. apply wp_bind. eapply wp_start_refresh; [done..|].
  intros s1 Hi1 F1. advance F1. by eapply wp_send_path_downstream.
Qed.

Lemma take_ero_ok (ero : list rsvp_ero_ipv4_subobj) :
  (length (take MAX_ERO_HOPS ero) <= MAX_ERO_HOPS)%nat.
Proof. rewrite length_take. lia. Qed.

Lemma rsvp_initiate_path_with_ero_safe b s src dest t name ero frr :
  Inv b s → safe b (rsvp_initiate_path_with_ero src dest t name ero frr) s.
Proof.
  intros Hi. unfold rsvp_initiate_path_with_ero, safe.
  apply wp_bind. eapply wp_take_lsp_id; [done|]. intros id s1 Hi1 _.
  set (k := initiate_key src dest t id).
  apply wp_bind. eapply wp_psb_find; [done|by intros; eapply wp_send_path_downstream|].
  intros Hno. apply wp_bind.
  eapply wp_psb_create; [done|apply initiate_key_good|done|by intros; apply wp_ret|].
  intros l s2 Hi2 _ Hp _. apply wp_bind. eapply wp_strdup_opt; [done|].
  intros n s3 Hi3 F3. advance F3. apply wp_bind.
  eapply wp_psb_set_plain; [done..| |].
  { intros p _ []. split; [done|]. split; [|done]. split; try done. apply take_ero_ok. }
  intros s4 Hi4 F4. advance F4. apply wp_bind. unfold when. destruct frr.
  - eapply wp_psb_set_plain; [done..| |].
    { intros p _ []. split; [done|]. by split. }
    intros s5 Hi5 F5. advance F5. by eapply start_and_send_safe.
  - apply wp_ret. by eapply start_and_send_safe.
Qed.

Lemma rsvp_initiate_bypass_tunnel_safe b s src dest t name ero i :
  Inv b s → safe b (rsvp_initiate_bypass_tunnel src dest t name ero i) s.
Proof.
  intros Hi. unfold rsvp_initiate_bypass_tunnel, safe.
  apply wp_bind. eapply wp_take_lsp_id; [done|]. intros id s1 Hi1 _.
  set (k := initiate_key src dest t id).
  apply wp_bind. eapply wp_psb_find; [done|by intros; apply wp_ret|].
  intros Hno. apply wp_bind.
  eapply wp_psb_create; [done|apply initiate_key_good|done|by intros; apply wp_ret|].
  intros l s2 Hi2 _ Hp El. apply wp_bind. unfold strdup_opt.
  assert (∀ n s3, Inv b s3 → psbs s3 !! l = Some (new_psb k) →
    wp (psb_set l (λ p, p <| psb_refresh_ms := RSVP_REFRESH_MS |> <| psb_is_ingress := true |>
                          <| psb_is_bypass_tunnel := true |>
                          <| psb_frr_protected_ifindex := i |> <| psb_lsp_name := n |>
                          <| psb_ero := take MAX_ERO_HOPS ero |>) ;;
        start_refresh l ;; send_path_downstream l) (λ _ s', Inv b s') s3) as Hend.
  { intros n s3 Hi3 E3. pose proof (has_psb_intro _ _ _ E3) as Hp3. apply wp_bind.
    eapply wp_psb_set_inv; [done..| |].
    - intros p Ep []. split; [done|]. split; [done|]. split; [|split; [done|by left]].
      assert (p = new_psb k) as -> by congruence. split; try done. apply take_ero_ok.
    - intros s4 Hi4 Hp4. by eapply start_and_send_safe. }
  destruct name as [nm|]; [|by apply wp_ret, Hend].
  unfold strdup. eapply wp_host; [done|]. intros ok s3 Hi3 _ E3 _. apply wp_ret, Hend; [done|].
  by rewrite E3.
Qed.

(** ** Protection *)

Lemma wp_find_bypass b s t Q :
  Inv b s →
  (∀ l k a, has_psb s l k a → (∃ q, psbs s !! l = Some q ∧ psb_is_bypass_tunnel q = true) →
     Q (Some l) s) →
  Q None s → wp (find_bypass t) Q s.
Proof.
  intros Hi Hs Hn. unfold find_bypass. apply wp_bind, wp_gets.
  destruct (table_scan_spec (st_psb s) (λ p,
         (ntohs (sess_tunnel_id (key_session (psb_key p))) =? t)
         && psb_is_bypass_tunnel p) (inv_psb b s Hi)) as (r & E & Hr).
  eapply wp_lift; [done|]. destruct r as [l|]; [|done].
  destruct Hr as (p & Hp & Hb). bools. eapply Hs; [by apply has_psb_intro|eauto].
Qed.

Lemma rsvp_frr_enable_protection_safe b s t i mode bt :
  Inv b s → wp (rsvp_frr_enable_protection t i mode bt) (λ _ s', Inv b s') s.
Proof.
  intros Hi. unfold rsvp_frr_enable_protection.
  apply wp_bind. eapply wp_psb_find_by_id; [done| |by apply wp_ret]. intros l k a Hp _ _.
  apply wp_bind. eapply wp_find_bypass; [done| |by apply wp_ret]. intros c kc ac Hc Hq.
  apply wp_bind. eapply wp_psb_get; [done|exact Hc|]. intros q Eq _ _ _.
  apply wp_bind. eapply wp_bypass_ready; [done|]. intros [r|]; [|by apply wp_ret].
  apply wp_bind. eapply wp_psb_set_inv; [done|exact Hp| |by intros; apply wp_ret].
  intros p Ep []. split; [done|]. split; [done|]. split; [by split|]. split; [done|].
  intros _. right. destruct Hq as (q' & ? & ?). eauto.
Qed.

(** ** Make-before-break *)

(** A key that is not in use differs from the incumbent's in the LSP id. *)
Lemma mbb_new_lsp_id (k : rsvp_path_key) id :
  key_good k →
  (k <| key_sender ::= λ x, x <| snd_lsp_id := htons id |> |>) ≠ k → htons id ≠ snd_lsp_id (key_sender k).
Proof. intros _ Hne E. apply Hne. rewrite E. by destruct k as [? []]. Qed.

Lemma ntohs_inj x y : 0 ≤ x < 65536 → 0 ≤ y < 65536 → ntohs x = ntohs y → x = y.
Proof. intros Hx Hy E. by rewrite <- (ntohs_involutive x), E, ntohs_involutive. Qed.

Lemma rsvp_mbb_start_safe b s t old new ero :
  Inv b s → wp (rsvp_mbb_start t old new ero) (λ _ s', Inv b s') s.
Proof.
  intros Hi. unfold rsvp_mbb_start.
  apply wp_bind. eapply wp_psb_find_by_id; [done| |by apply wp_ret]. intros l k a Hp _ Hold.
  apply wp_bind. eapply wp_psb_get; [done..|]. intros op Eop Ek _ Hg. case_if; [by apply wp_ret|].
  set (nk := psb_key op <| key_sender ::= λ x, x <| snd_lsp_id := htons new |> |>).
  apply wp_bind. eapply wp_psb_find; [done|by intros; apply wp_ret|]. intros Hno.
  assert (old ≠ ntohs (htons new)) as Hne.
  { rewrite <- Hold, <- Ek. intros E0%ntohs_inj; [|apply Hg|apply htons_bound].
    apply (mbb_new_lsp_id (psb_key op) new); [apply Hg| |done].
    intros E'. by eapply (Hno l op). }
  apply wp_bind. eapply wp_psb_create; [done|apply htons_bound|done|by intros; apply wp_ret|].
  intros l' s1 Hi1 _ Hp1 El.
  assert (not_bypass s1 l') as Hn by (unfold not_bypass; by rewrite El).
  apply wp_bind. eapply wp_strdup_opt; [done|]. intros n s2 Hi2 F2. advance F2. apply wp_bind.
  destruct (has_psb_inv _ _ _ _ Hp1) as (p2 & Ep2 & Ek2 & _).
  assert (psb_is_bypass_tunnel p2 = false) as Hb2.
  { unfold not_bypass in Hn. rewrite Ep2 in Hn. by injection Hn. }
  eapply wp_psb_set_plain; [done..| |].
  { intros p Ep []. assert (p = p2) as -> by congruence. split; [done|]. split; [|done].
    destruct Hg. split; try done.
    - destruct ero; [done|]. apply take_ero_ok.
    - intros _. split; [|done]. simpl. rewrite Ek2. exact Hne. }
  intros s3 Hi3 F3. advance F3.
  apply wp_bind. eapply wp_start_refresh; [done..|]. intros s4 Hi4 F4. advance F4.
  apply wp_bind. eapply wp_send_path_downstream; [done..|]. intros s5 Hi5 F5. by apply wp_ret.
Qed.

(** ** Teardown *)

Lemma rsvp_teardown_path_safe b s t i :
  Inv b s → (b = true → spares_bypass s (λ k, tunnel_of k = t ∧ lsp_of k = i)) →
  safe b (rsvp_teardown_path t i) s.
Proof.
  intros Hi Hb. unfold rsvp_teardown_path, safe. apply wp_bind.
  eapply wp_psb_find_by_id; [done| |by apply wp_ret]. intros l k a Hp Ht Hl.
  eapply wp_psb_cleanup; [done..| |done]. intros E.
  by eapply spares_not_bypass; [apply (Hb E)|..].
Qed.

(** ** Fast reroute *)

(** The bypass of a path block is there as long as pointers to bypass tunnels
    are valid. *)
Lemma wp_frr_switch s i l k a Q :
  Inv true s → has_psb s l k a → (∀ s', Inv true s' → frame s s' → Q () s') →
  wp (frr_switch i l) Q s.
Proof.
  intros Hi Hp HQ. unfold frr_switch. apply wp_bind. eapply wp_psb_get; [done..|].
  intros p Ep Ek _ _. case_if; [by apply wp_ret, HQ|].
  destruct (psb_bypass_psb p) as [c|] eqn:Ec; [|by rewrite ?andb_false_r in *].
  destruct (inv_bypass true s Hi eq_refl _ _ _ Ep Ec) as (q & Eq & _).
  apply wp_bind. eapply wp_lift; [done|].
  apply wp_bind. eapply wp_psb_get; [done|by apply has_psb_intro|]. intros q' _ _ _ _.
  apply wp_bind. eapply wp_bypass_ready; [done|]. intros [br|]; [|by apply wp_ret, HQ].
  assert (∀ s1, Inv true s1 → frame s s1 →
    wp (psb_set l (λ p, p <| psb_frr_active := true |> <| psb_ifindex_out := psb_ifindex_out q' |>) ;;
        send_path_downstream l) Q s1) as Hend.
  { intros s1 Hi1 F1. advance F1. apply wp_bind. eapply wp_psb_set_plain; [done..| |].
    - intros p0 _ []. split; [done|]. by split.
    - intros s2 Hi2 F2. advance F2. eapply wp_send_path_downstream; [done..|].
      intros s3 Hi3 F3. apply HQ; [done|]. by eapply frame_trans. }
  apply wp_bind. eapply wp_rsb_find; [done| |by intros _; apply wp_bind, wp_ret, Hend].
  intros lr ar Hr. apply wp_bind, wp_bind. eapply wp_rsb_get; [done..|]. intros r Er _ _ _.
  eapply wp_mpls_install; [done|right; eauto|]. intros s1 Hi1 F1. by apply Hend.
Qed.

Lemma wp_frr_trigger s i Q :
  Inv true s → (∀ s', Inv true s' → frame s s' → Q () s') → wp (rsvp_frr_trigger i) Q s.
Proof.
  intros Hi HQ. unfold rsvp_frr_trigger. apply wp_bind. eapply wp_all_psbs; [done|].
  intros chain Hc. eapply wp_iter_psbs; [done..| |done]. intros. by eapply wp_frr_switch.
Qed.

Lemma wp_frr_unswitch s i l k a Q :
  Inv true s → has_psb s l k a → (∀ s', Inv true s' → frame s s' → Q () s') →
  wp (frr_unswitch i l) Q s.
Proof.
  intros Hi Hp HQ. unfold frr_unswitch. apply wp_bind. eapply wp_psb_get; [done..|].
  intros p Ep Ek _ _. destruct (psb_bypass_psb p) as [c|] eqn:Ec; [|by apply wp_ret, HQ].
  case_if; [by apply wp_ret, HQ|].
  destruct (inv_bypass true s Hi eq_refl _ _ _ Ep Ec) as (q & Eq & _).
  apply wp_bind. eapply wp_psb_get; [done|by apply has_psb_intro|]. intros q' _ _ _ _.
  case_if; [by apply wp_ret, HQ|].
  apply wp_bind. eapply wp_rsb_find; [done| |by intros _; apply wp_ret, HQ].
  intros lr ar Hr. apply wp_bind. eapply wp_rsb_get; [done..|]. intros r Er _ _ _.
  apply wp_bind. eapply wp_mpls_install; [done|right; eauto|]. intros s1 Hi1 F1.
  apply (has_psb_frame _ _ _ _ _ F1) in Hp.
  apply wp_bind. eapply wp_psb_set_plain; [done..| |].
  { intros p0 _ []. split; [done|]. by split. }
  intros s2 Hi2 F2. apply (has_psb_frame _ _ _ _ _ F2) in Hp.
  eapply wp_send_path_downstream; [done..|]. intros s3 Hi3 F3. apply HQ; [done|].
  by eapply frame_trans, frame_trans.
Qed.

Lemma wp_frr_revert s i Q :
  Inv true s → (∀ s', Inv true s' → frame s s' → Q () s') → wp (rsvp_frr_revert i) Q s.
Proof.
  intros Hi HQ. unfold rsvp_frr_revert. apply wp_bind. eapply wp_all_psbs; [done|].
  intros chain Hc. eapply wp_iter_psbs; [done..| |done]. intros. by eapply wp_frr_unswitch.
Qed.
End commands.
