(* ===== verification/HelloRules.v ===== *)
(** * The Hello protocol keeps the invariant

    Rules for the neighbour table, its timers and messages.  A neighbour that
    goes down or restarts triggers the fast-reroute switch, so the receiving
    side and the dead timer need valid pointers to bypass tunnels. *)

From stdpp Require Import base numbers list option gmap sets.
From S2P Require Import Prelude Wire Protocol WheelTimer Timers Builder SendPacket Parser.
From S2P Require Import Interfaces StateDb Timing State Messages StateMachine Hello Invariant.
From S2P Require Import Rules SendRules Lifecycle Handlers Commands.

Section hello_rules.
Context {TS LS : Type} `{TimerLaws TS timer_id timer_cb} `{LabelLaws LS} `{EnvLaws}.
Local Notation state := (state TS LS).
Local Notation M := (M state).
Implicit Types s : state.

Definition same_count s s' : Prop := st_nbor_count s' = st_nbor_count s.

Lemma frame_count s s' : frame s s' → same_count s s'.
Proof. by intros [_ _ _ []]. Qed.

(** ** The neighbour table *)

(** A change of the neighbours and their timers only. *)
Lemma inv_nbors_change b s s' :
  Inv b s → st_psb s' = st_psb s → st_rsb s' = st_rsb s → st_bsb s' = st_bsb s →
  st_labels s' = st_labels s → st_out s' = st_out s → timers_inv s' →
  nbors_ok (st_neighbors s') (st_nbor_count s') → Inv b s'.
Proof.
  intros [I1 I2 I3 I4 I5 I6 I7 I8 I9 I10 I11] E1 E2 E3 E4 E5 Ht Hn.
  assert (psbs s' = psbs s) as F1 by (unfold psbs; by rewrite E1).
  assert (rsbs s' = rsbs s) as F2 by (unfold rsbs; by rewrite E2).
  split; rewrite ?E1, ?E2, ?E3, ?F1, ?F2; try done.
  destruct I9 as [(HS & ? & ? & ?) ?]. split; rewrite ?E4, ?E5, ?F2; [|done]. by exists HS.
Qed.

Lemma nbor_lookup b s i :
  Inv b s → (i < st_nbor_count s)%nat →
  ∃ n, st_neighbors s !! i = Some n ∧ nbor_good n ∧ nb_active n = true.
Proof.
  intros Hi Hc. destruct (inv_nbors b s Hi) as [Hl Hm Hg Hu].
  destruct (lookup_lt_is_Some_2 (st_neighbors s) i) as [n En]; [lia|].
  exists n. split; [done|]. split; [|by eapply Hu]. by eapply Forall_lookup_1.
Qed.

Lemma wp_nbor_get b s i Q :
  Inv b s → (i < st_nbor_count s)%nat →
  (∀ n, nbor_good n → nb_active n = true → Q n s) → wp (nbor_get i) Q s.
Proof.
  intros Hi Hc HQ. destruct (nbor_lookup b s i Hi Hc) as (n & En & Hg & Ha).
  unfold nbor_get. apply wp_bind, wp_gets. eapply wp_lift; [exact En|]. auto.
Qed.

Lemma wp_nbor_set b s i f Q :
  Inv b s → (i < st_nbor_count s)%nat →
  (∀ n, nbor_good n → nbor_good (f n) ∧ nb_active (f n) = nb_active n) →
  (∀ s', Inv b s' → same_count s s' → Q () s') → wp (nbor_set i f) Q s.
Proof.
  intros Hi Hc Hf HQ. unfold nbor_set. apply wp_bind. eapply wp_nbor_get; [done..|].
  intros _ _ _. apply wp_modify, HQ; [|done].
  eapply inv_nbors_change; [exact Hi|done..| |].
  - eapply timers_inv_live; [apply Hi|done..].
  - destruct (inv_nbors b s Hi) as [Hl Hm Hg Hu]. split; simpl; [by rewrite length_alter|done|..].
    + apply Forall_lookup. intros j n. destruct (decide (i = j)) as [<-|].
      * rewrite list_lookup_alter_eq. intros (n0 & En & ->)%fmap_Some.
        apply Hf. by eapply Forall_lookup_1.
      * rewrite list_lookup_alter_ne by done. intros En. by eapply Forall_lookup_1.
    + intros j n. destruct (decide (i = j)) as [<-|].
      * rewrite list_lookup_alter_eq. intros (n0 & En & ->)%fmap_Some Hj.
        destruct (Hf n0) as [_ ->]; [by eapply Forall_lookup_1|]. by eapply Hu.
      * rewrite list_lookup_alter_ne by done. by apply Hu.
Qed.

Lemma find_nbor_lt b s addr i :
  Inv b s → find_nbor addr (take (st_nbor_count s) (st_neighbors s)) = Some i →
  (i < st_nbor_count s)%nat.
Proof.
  intros Hi ([j n] & (Hj & _)%list_find_Some & Ei)%fmap_Some. simpl in Ei. subst j.
  apply lookup_lt_Some in Hj. rewrite length_take in Hj. lia.
Qed.

(** ** Sending *)

Lemma hello_message_safe n c : builder_safe (snd (hello_message n c)).
Proof. unfold hello_message. apply add_obj_safe, init_safe. lia. Qed.

Lemma wp_send_hello b s i c Q :
  Inv b s → (i < st_nbor_count s)%nat → (∀ s', Inv b s' → same_count s s' → Q () s') →
  wp (send_hello i c) Q s.
Proof.
  intros Hi Hc HQ. unfold send_hello. apply wp_bind. eapply wp_nbor_get; [done..|].
  intros n _ _. pose proof (hello_message_safe n c) as Hs.
  destruct (hello_message n c) as [rc x]. simpl in Hs. case_if; [by apply wp_ret, HQ|].
  apply wp_bind. eapply wp_finalize_and_send; [done..|]. intros err s1 Hi1 F1%frame_count.
  unfold when. case_if; [|by apply wp_ret, HQ].
  eapply wp_nbor_set; [done|by rewrite F1|done|]. intros s2 Hi2 F2. apply HQ; [done|].
  unfold same_count in *. congruence.
Qed.

(** ** Timer callbacks *)

Lemma hello_timer_safe b s i : Inv b s → (i < st_nbor_count s)%nat → safe b (hello_timer i) s.
Proof.
  intros Hi Hc. unfold hello_timer, safe. apply wp_bind. eapply wp_nbor_get; [done..|].
  intros n _ ->. simpl. apply wp_bind. eapply wp_send_hello; [done..|]. intros s1 Hi1 E1.
  assert (i < st_nbor_count s1)%nat as Hc1 by (by rewrite E1).
  apply wp_bind. eapply wp_nbor_get; [done..|]. intros n1 [Hg _] _.
  by eapply (wp_timer_start b s1 (NborHello i)).
Qed.

Lemma dead_timer_safe s i : Inv true s → (i < st_nbor_count s)%nat → safe true (dead_timer i) s.
Proof.
  intros Hi Hc. unfold dead_timer, safe. apply wp_bind. eapply wp_nbor_get; [done..|].
  intros n _ ->. simpl. apply wp_bind. eapply wp_nbor_set; [done..|].
  intros s1 Hi1 E1. by eapply wp_frr_trigger.
Qed.

(** ** New neighbours *)


Lemma wp_rand_instance b s Q :
  Inv b s → (∀ r s', Inv b s' → same_count s s' → Q r s') → wp (rand_instance env_rand_fuel) Q s.
Proof.
  intros Hi HQ. destruct (env_rand_nonzero (st_clock s)) as (k & Hk & Hr).
  revert Hk Hr. generalize env_rand_fuel as n. intros n. revert k s Hi HQ.
  induction n as [|n IH]; intros k s Hi HQ Hk Hr; [lia|]. simpl.
  unfold rand, host. apply wp_bind, wp_bind, wp_gets, wp_bind, wp_modify, wp_ret. simpl.
  pose proof (env_rand_range (st_clock s)) as Hb.
  rewrite Z.mod_small by lia. set (s1 := s <| st_clock ::= Nat.succ |>).
  assert (Inv b s1) as Hi1 by (by apply inv_clock).
  destruct (env_rand (st_clock s) =? 0) eqn:E; bools; [|by apply wp_ret, HQ].
  destruct k as [|k]; [by rewrite Nat.add_0_r in Hr|].
  apply (IH k s1); [done|done|lia|].
  simpl. by replace (S (st_clock s + k)) with (st_clock s + S k)%nat by lia.
Qed.

Lemma wp_timer_zero s t cb Q :
  ti_ok (st_timers s) → ti_view (st_timers s) !! t = Some (false, cb) →
  (∀ ts, ti_ok ts → ti_view ts = <[t := (false, None)]> (ti_view (st_timers s)) →
         Q () (s <| st_timers := ts |>)) →
  wp (timer_zero t) Q s.
Proof.
  intros Hok Hv HQ. unfold timer_zero. apply wp_bind. eapply wp_timer_release_raw; [done..|].
  intros ts1 O1 V1. apply wp_timer_calloc_raw; [done|by simpl; rewrite V1, lookup_delete_eq|].
  intros ts2 O2 V2. simpl in V2. rewrite V1, insert_delete_eq in V2. by apply HQ.
Qed.

Lemma nbor_view b s t :
  Inv b s → timer_static t → ¬ timer_live s t → ti_view (st_timers s) !! t = Some (false, None).
Proof.
  intros Hi Hs Hl. destruct (inv_timers b s Hi) as [_ Hm _ Hd].
  destruct (proj2 (Hm t)) as [[a cb] E]; [by right|]. destruct (Hd t a cb E) as [?|[-> ->]]; done.
Qed.

Lemma nbors_ok_insert nbors i n :
  nbors_ok nbors i → (i < RSVP_MAX_NEIGHBORS)%nat → nbor_good n → nb_active n = true →
  nbors_ok (alter (λ _, n) i nbors) (S i).
Proof.
  intros [Hl Hm Hg Hu] Hi Hn Ha. split; [by rewrite length_alter|lia|..].
  - apply Forall_lookup. intros j x. destruct (decide (i = j)) as [<-|].
    + rewrite list_lookup_alter_eq. by intros (? & _ & ->)%fmap_Some.
    + rewrite list_lookup_alter_ne by done. intros. by eapply Forall_lookup_1.
  - intros j x. destruct (decide (i = j)) as [<-|].
    + rewrite list_lookup_alter_eq. by intros (? & _ & ->)%fmap_Some _.
    + rewrite list_lookup_alter_ne by done. intros Hx Hj. eapply Hu; [done|lia].
Qed.

Lemma wp_add_neighbor b s addr local_addr ifindex Q :
  Inv b s → Q None s → (∀ i s', Inv b s' → (i < st_nbor_count s')%nat → Q (Some i) s') →
  wp (rsvp_hello_add_neighbor addr local_addr ifindex) Q s.
Proof.
  intros Hi Hnone Hsome. unfold rsvp_hello_add_neighbor, rsvp_hello_find_neighbor.
  apply wp_bind, wp_gets.
  destruct (find_nbor addr (take (st_nbor_count s) (st_neighbors s))) as [i|] eqn:Ef.
  { apply wp_ret, Hsome; [done|]. by eapply find_nbor_lt. }
  apply wp_bind, wp_gets. set (i := st_nbor_count s).
  destruct (RSVP_MAX_NEIGHBORS <=? i)%nat eqn:Ei; [by apply wp_ret|]. apply Nat.leb_gt in Ei.
  pose proof (nbor_view b s (NborHello i) Hi Ei ltac:(simpl; lia)) as V1.
  pose proof (nbor_view b s (NborDead i) Hi Ei ltac:(simpl; lia)) as V2.
  apply wp_bind, wp_modify, wp_bind. eapply wp_timer_zero; [apply Hi|exact V1|].
  intros ts1 O1 W1. simpl in W1. rewrite insert_id in W1 by done.
  apply wp_bind. eapply wp_timer_zero; [done|simpl; by rewrite W1|].
  intros ts2 O2 W2. simpl in W2. rewrite W1, insert_id in W2 by done.
  apply wp_bind. unfold nbor_set at 1. apply wp_bind. unfold nbor_get at 1.
  pose proof (inv_nbors b s Hi) as Hn.
  destruct (lookup_lt_is_Some_2 (st_neighbors s) i) as [n0 En]; [by rewrite (nb_length _ _ Hn)|].
  apply wp_bind, wp_gets. eapply wp_lift; [exact En|]. apply wp_modify.
  match goal with |- wp _ _ ?x => set (s1 := x) end.
  assert (Inv b s1) as Hi1.
  { eapply inv_nbors_change; [exact Hi|done..| |by apply nbors_ok_insert].
    destruct (inv_timers b s Hi) as [_ Hm Hcb Hd]. split; [done|..];
      change (st_timers s1) with ts2; rewrite W2.
    - intros t. rewrite Hm. destruct t; simpl; try tauto; unfold i in *; lia.
    - done.
    - intros t a cb Ht. destruct (Hd t a cb Ht) as [Hl|?]; [|by right]. left.
      destruct t; simpl in *; try done; lia. }
  apply wp_bind. eapply wp_rand_instance; [done|]. intros r s2 Hi2 E2.
  assert (i < st_nbor_count s2)%nat as Hc2 by (rewrite E2; simpl; lia).
  apply wp_bind. eapply wp_nbor_set; [done..|]. intros s3 Hi3 E3.
  assert (i < st_nbor_count s3)%nat as Hc3 by (by rewrite E3).
  apply wp_bind. eapply wp_nbor_get; [done..|]. intros n [Hg _] _.
  apply wp_bind. eapply (wp_timer_start b s3 (NborHello i)); [done..|].
  intros s4 Hi4 E4%frame_count. apply wp_ret, Hsome; [done|by rewrite E4].
Qed.

(** ** Receiving *)

Lemma wp_nbor_restart s i x Q :
  Inv true s → (i < st_nbor_count s)%nat → (∀ s', Inv true s' → same_count s s' → Q () s') →
  wp (nbor_restart i x) Q s.
Proof.
  intros Hi Hc HQ. unfold nbor_restart. apply wp_bind. eapply wp_nbor_get; [done..|].
  intros n _ _. unfold when. case_if; [|by apply wp_ret, HQ].
  apply wp_bind. eapply wp_nbor_set; [done..|]. intros s1 Hi1 E1.
  eapply wp_frr_trigger; [done|]. intros s2 Hi2 E2%frame_count. apply HQ; [done|].
  unfold same_count in *. congruence.
Qed.

Lemma rsvp_hello_recv_safe s src rx_src rx_dst c :
  Inv true s → safe true (rsvp_hello_recv src rx_src rx_dst c) s.
Proof.
  intros Hi. unfold rsvp_hello_recv, safe. apply wp_bind. unfold rsvp_hello_find_neighbor.
  apply wp_gets, wp_bind.
  set (post := λ (nbor : option nat) s1, Inv true s1 ∧ ∀ i, nbor = Some i → (i < st_nbor_count s1)%nat).
  eapply (wp_mono _ post).
  { destruct (find_nbor _ _) as [i|] eqn:Ef.
    - apply wp_ret. split; [done|]. intros ? [= <-]. by eapply find_nbor_lt.
    - eapply wp_add_neighbor; [done|by split|]. intros i s1 Hi1 Hc1. split; [done|].
      by intros ? [= <-]. }
  intros [i|] s1 [Hi1 Hc1]; [|by apply wp_ret]. specialize (Hc1 i eq_refl). clear s Hi.
  apply wp_bind. unfold time, host. apply wp_bind, wp_gets, wp_bind, wp_modify, wp_ret.
  set (s2 := s1 <| st_clock ::= Nat.succ |>). assert (Inv true s2) as Hi2 by (by apply inv_clock).
  apply wp_bind. eapply wp_nbor_set; [done..|]. intros s3 Hi3 E3.
  assert (i < st_nbor_count s3)%nat as Hc3 by (by rewrite E3).
  apply wp_bind. eapply wp_nbor_restart; [done..|]. intros s4 Hi4 E4.
  assert (i < st_nbor_count s4)%nat as Hc4 by (by rewrite E4).
  apply wp_bind. eapply wp_nbor_set; [done..|]. intros s5 Hi5 E5.
  assert (i < st_nbor_count s5)%nat as Hc5 by (by rewrite E5).
  apply wp_bind. eapply wp_timer_stop; [done..|]. intros s6 Hi6 E6%frame_count.
  assert (i < st_nbor_count s6)%nat as Hc6 by (by rewrite E6).
  apply wp_bind. eapply wp_nbor_get; [done..|]. intros n [_ Hg] _.
  apply wp_bind. eapply (wp_timer_start true s6 (NborDead i)); [done..|].
  intros s7 Hi7 E7%frame_count. assert (i < st_nbor_count s7)%nat as Hc7 by (by rewrite E7).
  apply wp_bind.
  assert (∀ s8, Inv true s8 → (i < st_nbor_count s8)%nat →
    wp (when (c =? RSVP_HELLO_CTYPE_REQUEST) (send_hello i RSVP_HELLO_CTYPE_ACK))
       (λ _ s', Inv true s') s8) as Hend.
  { intros s8 Hi8 Hc8. unfold when. case_if; [|by apply wp_ret]. by eapply wp_send_hello. }
  unfold when at 1. case_if; [|by apply wp_ret, Hend].
  apply wp_bind. unfold time, host. apply wp_bind, wp_gets, wp_bind, wp_modify, wp_ret.
  set (s8 := s7 <| st_clock ::= Nat.succ |>). assert (Inv true s8) as Hi8 by (by apply inv_clock).
  eapply wp_nbor_set; [done..|]. intros s9 Hi9 E9. apply Hend; [done|]. by rewrite E9.
Qed.

(** ** Starting and stopping *)

(** No timer of the neighbour table is armed. *)
Definition nbors_idle s : Prop :=
  ∀ t, timer_static t → ∃ cb, ti_view (st_timers s) !! t = Some (false, cb).

Definition same_tables s s' : Prop :=
  st_psb s' = st_psb s ∧ st_rsb s' = st_rsb s ∧ st_bsb s' = st_bsb s.

(** A zeroed timer whose entry is idle. *)
Lemma wp_timer_zero_idle b s t Q :
  Inv b s → nbors_idle s → timer_static t →
  (∀ s', Inv b s' → nbors_idle s' → same_tables s s' →
     ti_view (st_timers s') = <[t := (false, None)]> (ti_view (st_timers s)) → Q () s') →
  wp (timer_zero t) Q s.
Proof.
  intros Hi Hd Ht HQ. destruct (Hd t Ht) as [cb E].
  eapply wp_timer_zero; [apply Hi|exact E|]. intros ts Hok V. apply HQ; try done.
  - eapply inv_timers_update; [done|done| | |]; rewrite V.
    + intros t'. rewrite lookup_insert_is_Some'. split; [|by right].
      intros [<-|?]; [by rewrite E; eexists|done].
    + intros t' a cb'. rewrite lookup_insert_Some. intros [[_ ?]|[_ ?]]; [done|].
      by eapply (ti_inv_cb s (inv_timers b s Hi)).
    + intros t' a cb'. rewrite lookup_insert_Some. intros [[_ [= <- <-]]|[_ ?]]; [by right|].
      by eapply (ti_inv_idle s (inv_timers b s Hi)).
  - intros t' Ht'. simpl. rewrite V. destruct (decide (t = t')) as [<-|].
    + rewrite lookup_insert_eq. eauto.
    + rewrite lookup_insert_ne by done. by apply Hd.
Qed.

Lemma zero_neighbor_good : nbor_good zero_neighbor.
Proof. by split. Qed.

Lemma wp_zero_neighbors b s Q :
  Inv b s → nbors_idle s → (∀ s', Inv b s' → st_nbor_count s' = 0%nat → same_tables s s' → Q () s') →
  wp zero_neighbors Q s.
Proof.
  intros Hi Hd HQ. unfold zero_neighbors. apply wp_bind.
  set (zeroed := λ n s', ∀ i, (i < n)%nat → (i < RSVP_MAX_NEIGHBORS)%nat →
    ti_view (st_timers s') !! NborHello i = Some (false, None)
    ∧ ti_view (st_timers s') !! NborDead i = Some (false, None)).
  assert (∀ n k s0, (k + n = RSVP_MAX_NEIGHBORS)%nat → Inv b s0 → nbors_idle s0 → zeroed k s0 →
    wp (iter (λ i, timer_zero (NborHello i) ;; timer_zero (NborDead i)) (seq k n))
       (λ _ s', Inv b s' ∧ zeroed RSVP_MAX_NEIGHBORS s' ∧ same_tables s0 s') s0) as Hloop.
  { induction n as [|n IH]; intros k s0 Hk Hi0 Hd0 Hz0; simpl.
    { apply wp_ret. split; [done|]. split; [|done]. by replace RSVP_MAX_NEIGHBORS with k by lia. }
    apply wp_bind, wp_bind. eapply wp_timer_zero_idle; [done..|simpl; lia|].
    intros s1 Hi1 Hd1 (T1 & T2 & T3) V1. eapply wp_timer_zero_idle; [done..|simpl; lia|].
    intros s2 Hi2 Hd2 (U1 & U2 & U3) V2.
    unfold same_tables in *. rewrite <- T1, <- T2, <- T3, <- U1, <- U2, <- U3.
    apply IH; [lia|done|done|]. intros i Hik Him. rewrite V2, V1.
    destruct (decide (i = k)) as [->|].
    - by rewrite lookup_insert_eq, lookup_insert_ne, lookup_insert_eq.
    - destruct (Hz0 i); [lia|done|]. by rewrite !lookup_insert_ne by congruence. }
  eapply wp_mono; [apply (Hloop RSVP_MAX_NEIGHBORS 0%nat s); [done..|intros ?; lia]|].
  intros [] s1 (Hi1 & Hz & HT). apply wp_modify. apply HQ; [|done|exact HT].
  eapply inv_nbors_change; [exact Hi1|done..| |].
  - destruct (inv_timers b s1 Hi1) as [Hok Hm Hcb Hdd]. split; [done|..]; simpl.
    + intros t. rewrite Hm. destruct t; simpl; try tauto;
        pose proof (nb_count _ _ (inv_nbors b s1 Hi1)); lia.
    + done.
    + intros t a cb Ht. destruct (Hdd t a cb Ht) as [Hl|]; [|by right].
      pose proof (nb_count _ _ (inv_nbors b s1 Hi1)).
      destruct t as [| | | | |i|i]; simpl in *; try (by left); right;
        destruct (Hz i) as [Z1 Z2]; try lia; split; congruence.
  - split; [done|simpl; lia|by apply Forall_replicate, zero_neighbor_good|simpl; lia].
Qed.

Lemma rsvp_hello_init_safe b s :
  Inv b s → st_nbor_count s = 0%nat → safe b rsvp_hello_init s.
Proof.
  intros Hi Hc. unfold safe, rsvp_hello_init. eapply wp_zero_neighbors; [done| |done].
  intros t Ht. exists None. eapply nbor_view; [done..|]. destruct t; simpl in *; try done; lia.
Qed.

Lemma wp_hello_shutdown b s Q :
  Inv b s →
  (∀ s', Inv b s' → st_nbor_count s' = 0%nat → same_tables s s' → Q () s') →
  wp rsvp_hello_shutdown Q s.
Proof.
  intros Hi HQ. unfold rsvp_hello_shutdown. apply wp_bind, wp_gets, wp_bind.
  set (stopped := λ n s', ∀ i, (i < n)%nat →
    (∃ cb, ti_view (st_timers s') !! NborHello i = Some (false, cb))
    ∧ ∃ cb, ti_view (st_timers s') !! NborDead i = Some (false, cb)).
  assert (∀ n k s0, (k + n = st_nbor_count s0)%nat → Inv b s0 → stopped k s0 →
    wp (iter (λ i, n ← nbor_get i;
              when (nb_active n) (timer_stop (NborHello i) ;; timer_stop (NborDead i))) (seq k n))
       (λ _ s', Inv b s' ∧ stopped (st_nbor_count s') s' ∧ same_tables s0 s') s0) as Hloop.
  { induction n as [|n IH]; intros k s0 Hk Hi0 Hst; simpl.
    { apply wp_ret. split; [done|]. split; [|done]. by replace (st_nbor_count s0) with k by lia. }
    apply wp_bind, wp_bind. eapply wp_nbor_get; [done|lia|]. intros x _ ->. simpl. apply wp_bind.
    assert (k < st_nbor_count s0)%nat as Hc by lia.
    destruct (view_live b s0 (NborHello k) Hi0 Hc) as (a1 & c1 & V1 & C1).
    destruct (view_live b s0 (NborDead k) Hi0 Hc) as (a2 & c2 & V2 & C2).
    eapply wp_timer_stop_raw; [apply Hi0|exact V1|]. intros ts1 O1 W1.
    assert (Inv b (s0 <| st_timers := ts1 |>)) as Hi1
      by (eapply (inv_timer_insert b s0 (NborHello k)); done).
    eapply wp_timer_stop_raw; [done|simpl; by rewrite W1, lookup_insert_ne, V2|].
    intros ts2 O2 W2. simpl in W2.
    match goal with |- wp _ _ ?x => set (s2 := x) end.
    assert (Inv b s2) as Hi2.
    { eapply (inv_timer_insert b (s0 <| st_timers := ts1 |>) (NborDead k)); done. }
    apply (IH (S k) s2); [simpl; lia|done|].
    intros i Hik. change (st_timers s2) with ts2. rewrite W2, W1. destruct (decide (i = k)) as [->|].
    - rewrite lookup_insert_eq, lookup_insert_ne, lookup_insert_eq by done. eauto.
    - destruct (Hst i); [lia|]. by rewrite !lookup_insert_ne by congruence. }
  eapply wp_mono; [apply (Hloop (st_nbor_count s) 0%nat s); [done..|intros ?; lia]|].
  intros [] s1 (Hi1 & Hst & T1 & T2 & T3). eapply wp_zero_neighbors; [done| |].
  2:{ intros s2 Hi2 Hc2 HT. apply HQ; [done..|]. unfold same_tables in *. by rewrite <- T1, <- T2, <- T3. }
  intros t Ht. destruct t as [| | | | |i|i]; try done;
    (destruct (decide (i < st_nbor_count s1)%nat) as [Hl|Hl];
     [by destruct (Hst i Hl)|exists None; by eapply nbor_view]).
Qed.
End hello_rules.
