(* ===== verification/Shutdown.v ===== *)
(** * Shutdown (src/pi/rsvp_state_machine.c, src/pi/rsvp_state_db.c)

    Rules for the loops that empty the hash tables: every round takes one block
    off the bucket, so the length of the bucket is enough fuel, and in the end
    the tables are empty. *)

From stdpp Require Import base numbers list option gmap sets.
From S2P Require Import Prelude Wire Protocol WheelTimer Timers Builder SendPacket Parser.
From S2P Require Import Interfaces StateDb Timing State Messages StateMachine Invariant.
From S2P Require Import Rules SendRules Lifecycle.

(** ** Shrinking tables *)

Section shrink.
Context {A : Type} `{Keyed A}.
Implicit Types t : table A.

(** Every block of [t'] was in [t], with the same key. *)
Definition shrunk t t' : Prop :=
  ∀ l a', tb_heap t' !! l = Some a' → ∃ a, tb_heap t !! l = Some a ∧ key_of a = key_of a'.

Lemma shrunk_refl t : shrunk t t.
Proof. intros l a. eauto. Qed.
Lemma shrunk_trans t1 t2 t3 : shrunk t1 t2 → shrunk t2 t3 → shrunk t1 t3.
Proof.
  intros H12 H23 l a3 (a2 & E2 & K2)%H23. destruct (H12 l a2 E2) as (a1 & ? & ?). exists a1.
  split; [done|congruence].
Qed.

Lemma shrunk_bucket t t' h l :
  table_ok t → table_ok t' → shrunk t t' → l ∈ bucket t' h → l ∈ bucket t h.
Proof.
  intros Hok Hok' Hs Hl. destruct (tab_chain _ Hok' _ _ Hl) as (a' & E' & Hh).
  destruct (Hs l a' E') as (a & E & K). rewrite <- Hh, <- K. by apply tab_linked.
Qed.

Lemma shrunk_bucket_lt t t' h l :
  table_ok t → table_ok t' → shrunk t t' → l ∈ bucket t h → tb_heap t' !! l = None →
  (length (bucket t' h) < length (bucket t h))%nat.
Proof.
  intros Hok Hok' Hs Hl Hgone.
  assert (l ∉ bucket t' h) as Hn.
  { intros Hl'. destruct (tab_chain _ Hok' _ _ Hl') as (a' & E' & _). congruence. }
  assert (NoDup (l :: bucket t' h)) as Hnd by (apply NoDup_cons_2; [done|by apply Hok']).
  assert (l :: bucket t' h ⊆ bucket t h) as Hsub.
  { intros x [->|Hx]%elem_of_cons; [done|]. by eapply shrunk_bucket. }
  pose proof (submseteq_length _ _ (NoDup_submseteq _ _ Hnd Hsub)) as Hle. simpl in Hle. lia.
Qed.

Lemma head_in_bucket t h l : head (bucket t h) = Some l → l ∈ bucket t h.
Proof. destruct (bucket t h) as [|x c]; [done|]. intros [= ->]. by left. Qed.

Lemma empty_buckets t :
  table_ok t → (∀ h, (h < HASH_SIZE)%nat → bucket t h = []) → tb_heap t = ∅.
Proof.
  intros Hok He. apply map_empty. intros l. destruct (tb_heap t !! l) as [a|] eqn:E; [|done].
  pose proof (tab_linked t Hok l a E) as Hl. rewrite He in Hl by apply rsvp_key_hash_lt.
  by apply elem_of_nil in Hl.
Qed.
End shrink.

Section shutdown.
Context {TS LS : Type} `{TimerLaws TS timer_id timer_cb} `{LabelLaws LS} `{EnvLaws}.
Local Notation state := (state TS LS).
Local Notation M := (M state).
Implicit Types s : state.

(** The loop on one bucket of the table [tbl], for a deletion that keeps [I],
    shrinks the table and takes the block away. *)
Lemma wp_delete_bucket {A} `{Keyed A} (tbl : state → table A) (I : state → Prop) delete h n s :
  (∀ s, I s → table_ok (tbl s)) →
  (∀ s l, I s → l ∈ bucket (tbl s) h →
     wp (delete l) (λ _ s', I s' ∧ shrunk (tbl s) (tbl s') ∧ tb_heap (tbl s') !! l = None) s) →
  I s → (length (bucket (tbl s) h) <= n)%nat →
  wp (delete_bucket (λ s, head (bucket (tbl s) h)) delete n)
     (λ _ s', I s' ∧ shrunk (tbl s) (tbl s') ∧ bucket (tbl s') h = []) s.
Proof.
  intros Hok Hdel. revert s. induction n as [|n IH]; intros s Hi Hn; simpl; apply wp_bind, wp_gets.
  - destruct (bucket (tbl s) h) eqn:E; simpl in *; [|lia]. apply wp_ret.
    split_and!; [done|apply shrunk_refl|done].
  - destruct (head (bucket (tbl s) h)) as [l|] eqn:E.
    + apply head_in_bucket in E. apply wp_bind. eapply wp_mono; [by apply Hdel|].
      intros [] s1 (Hi1 & Hs1 & Hg1). eapply wp_mono.
      * apply IH; [done|].
        enough (length (bucket (tbl s1) h) < length (bucket (tbl s) h))%nat by lia.
        eapply shrunk_bucket_lt; [by apply Hok|by apply Hok|done..].
      * intros [] s2 (Hi2 & Hs2 & He2). split_and!; [done| |done]. by eapply shrunk_trans.
    + apply wp_ret. destruct (bucket (tbl s) h); [|done].
      split_and!; [done|apply shrunk_refl|done].
Qed.

(** A loop over all buckets whose body empties one of them. *)
Lemma wp_sweep_table {A} `{Keyed A} (tbl : state → table A) (I : state → Prop)
    (body : nat → M ()) s :
  (∀ s, I s → table_ok (tbl s)) →
  (∀ s h, I s → wp (body h) (λ _ s', I s' ∧ shrunk (tbl s) (tbl s') ∧ bucket (tbl s') h = []) s) →
  I s →
  wp (iter body (seq 0 HASH_SIZE)) (λ _ s', I s' ∧ tb_heap (tbl s') = ∅) s.
Proof.
  intros Hok Hbody Hi.
  assert (∀ n k s0, (k + n = HASH_SIZE)%nat → I s0 →
    (∀ h, (h < k)%nat → bucket (tbl s0) h = []) →
    wp (iter body (seq k n)) (λ _ s', I s' ∧ tb_heap (tbl s') = ∅) s0) as Hloop.
  { induction n as [|n IH]; intros k s0 Hk Hi0 He.
    - apply wp_ret. split; [done|]. apply empty_buckets; [by apply Hok|].
      intros h Hh. apply He. lia.
    - cbn [seq iter]. apply wp_bind. eapply wp_mono; [by apply Hbody|].
      intros [] s1 (Hi1 & Hs1 & Hb1). apply IH; [lia|done|]. intros h Hh.
      destruct (decide (h = k)) as [->|]; [done|].
      destruct (bucket (tbl s1) h) as [|l c] eqn:E; [done|].
      assert (l ∈ bucket (tbl s0) h) as Hl.
      { eapply shrunk_bucket; [by apply Hok|by apply Hok|done|]. rewrite E. by left. }
      rewrite He in Hl by lia. by apply elem_of_nil in Hl. }
  apply Hloop; [done|done|intros ?; lia].
Qed.

Lemma kept_but_shrunk s s' l a :
  kept_but (Some l) a s s' → psbs s' !! l = None → shrunk (st_psb s) (st_psb s').
Proof.
  intros [K1 _ _ _ K2] Hg l' p' Hp'. destruct (K2 l') as [p Hp]; [by eexists|].
  assert (l' ≠ l) by (intros ->; unfold psbs in Hg; congruence).
  exists p. split; [done|]. destruct (has_psb_inv _ _ _ _ (K1 l' _ _ ltac:(congruence) (has_psb_intro _ _ _ Hp)))
    as (q & Eq & Ek & _). unfold psbs in Eq. rewrite Hp' in Eq. injection Eq as <-. done.
Qed.

Lemma no_psb_no_rsb b s : Inv b s → psbs s = ∅ → rsbs s = ∅.
Proof.
  intros Hi Hp. apply map_empty. intros l. destruct (rsbs s !! l) as [r|] eqn:E; [|done].
  destruct (inv_assoc_rsb b s Hi l r E) as (lp & p & _ & Ep & _). by rewrite Hp, lookup_empty in Ep.
Qed.

Lemma wp_state_machine_shutdown s Q :
  Inv false s → (∀ s', Inv false s' → psbs s' = ∅ → Q () s') → wp rsvp_state_machine_shutdown Q s.
Proof.
  intros Hi HQ. unfold rsvp_state_machine_shutdown. eapply wp_mono.
  - apply (wp_sweep_table st_psb (Inv false)); [by intros s0 []| |exact Hi].
    intros s' h Hi'. apply wp_bind, wp_gets.
    apply (wp_delete_bucket st_psb (Inv false)); [by intros s0 []| |done|done].
    intros s0 l Hi0 Hl. destruct (tab_chain _ (inv_psb _ _ Hi0) _ _ Hl) as (p & Ep & _).
    eapply wp_psb_cleanup; [done|by apply has_psb_intro|done|]. intros s1 Hi1 K1 G1.
    split; [done|]. split; [by eapply kept_but_shrunk|done].
  - intros [] s1 [Hi1 He]. by apply HQ.
Qed.

(** On a bucket that is empty already the loop does nothing. *)
Lemma empty_heap_bucket {A} `{Keyed A} (t : table A) h :
  table_ok t → tb_heap t = ∅ → bucket t h = [].
Proof.
  intros Hok He. destruct (bucket t h) as [|l c] eqn:E; [done|].
  destruct (tab_chain t Hok h l) as (a & Ea & _); [rewrite E; by left|].
  by rewrite He, lookup_empty in Ea.
Qed.

Lemma wp_delete_empty {A} (tbl : state → table A) delete h (m : M ()) Q s :
  bucket (tbl s) h = [] → wp m Q s →
  wp (n ← gets (λ s, length (bucket (tbl s) h));
      delete_bucket (λ s, head (bucket (tbl s) h)) delete n ;; m) Q s.
Proof.
  intros E Hm. apply wp_bind, wp_gets. rewrite E. apply wp_bind. simpl.
  apply wp_bind, wp_gets. rewrite E. by apply wp_ret.
Qed.

(** The shutdown of the database after that of the state machine. *)
Lemma wp_state_db_cleanup b s Q :
  Inv b s → psbs s = ∅ →
  (∀ s', Inv b s' → psbs s' = ∅ → bsbs s' = ∅ → same_nbors s s' → Q () s') →
  wp rsvp_state_db_cleanup Q s.
Proof.
  intros Hi Hp HQ. set (I := λ s0, Inv b s0 ∧ psbs s0 = ∅ ∧ same_nbors s s0). unfold rsvp_state_db_cleanup.
  eapply wp_mono.
  - apply (wp_sweep_table st_bsb I); [by intros s0 [[] _]| |done].
    intros s0 h (Hi0 & Hp0 & HN0).
    apply wp_delete_empty; [by apply empty_heap_bucket; [apply Hi0|]|].
    apply wp_delete_empty.
    { apply empty_heap_bucket; [apply Hi0|]. by eapply no_psb_no_rsb. }
    apply wp_bind, wp_gets. apply (wp_delete_bucket st_bsb I); [by intros s1 [[] _]| |done|done].
    intros s1 l (Hi1 & Hp1 & HN1) Hl. destruct (tab_chain _ (inv_bsb _ _ Hi1) _ _ Hl) as (x & Ex & _).
    eapply wp_bsb_delete; [done|by apply has_bsb_intro|]. intros s2 Hi2 E1 _ E2 HN2.
    split; [split_and!; [done|by rewrite E1|by destruct HN1, HN2; split; congruence]|]. unfold bsbs in E2. split.
    + intros l' a'. rewrite E2. intros [_ ?]%lookup_delete_Some. eauto.
    + by rewrite E2, lookup_delete_eq.
  - intros [] s1 [(Hi1 & Hp1 & HN1) Hb1]. by apply HQ.
Qed.
End shutdown.
