(* ===== verification/RsvpIf.v ===== *)
(** * Interface table (src/pi/rsvp_if.c, src/pi/rsvp_if.h)

    The table of RSVP interfaces: enabling and disabling, and the bandwidth
    accounting per preemption priority.  Bandwidths are C doubles: IEEE 754
    binary64 numbers with the rounding of the hardware ([SpecFloat] at 53 bits
    of precision).  The calls of [if_nametoindex] are numbered, so that the
    kernel may give different answers over time. *)

From Stdlib Require Import SpecFloat.
From stdpp Require Import base numbers list option.
From S2P Require Import Prelude.

(** ** Doubles *)

Notation double := spec_float.
Definition dadd (x y : double) : double := SFadd 53 1024 x y.
Definition dsub (x y : double) : double := SFsub 53 1024 x y.
Definition dltb (x y : double) : bool := SFltb x y.
Definition dzero : double := S754_zero false.

(** ** Data *)

Definition RSVP_NUM_PRIORITIES : nat := 8.
Definition RSVP_MAX_IF : nat := 64.
(** Of <net/if.h>. *)
Definition IF_NAMESIZE : nat := 16.

(** Names are C strings without their terminator. *)
Record rsvp_if := mk_rsvp_if {
  if_name : list Z;
  if_ifindex : Z;
  if_rsvp_enabled : bool;
  if_total_bw : double;
  if_reservable_bw : double;
  if_reserved_bw : list double;
  if_hello_interval_ms : Z;
  if_active : bool;
}.
#[export] Instance rsvp_if_settable : Settable rsvp_if :=
  λ r, mk_rsvp_if (if_name r) (if_ifindex r) (if_rsvp_enabled r) (if_total_bw r)
         (if_reservable_bw r) (if_reserved_bw r) (if_hello_interval_ms r) (if_active r).

Definition zero_if : rsvp_if :=
  mk_rsvp_if [] 0 false dzero dzero (replicate RSVP_NUM_PRIORITIES dzero) 0 false.

(** The static variables, and the number of [if_nametoindex] calls so far. *)
Record if_table := mk_if_table {
  g_if_table : list rsvp_if;
  g_if_count : nat;
  if_clock : nat;
}.
#[export] Instance if_table_settable : Settable if_table :=
  λ r, mk_if_table (g_if_table r) (g_if_count r) (if_clock r).

Class IfEnv := { if_nametoindex : nat → list Z → Z }.

(** [strncmp(a, b, n) == 0] on C strings. *)
Definition strncmp_eq (a b : list Z) (n : nat) : bool := bool_decide (take n a = take n b).

(** ** Operations *)

Definition rsvp_if_init (t : if_table) : if_table :=
  t <| g_if_table := replicate RSVP_MAX_IF zero_if |> <| g_if_count := 0%nat |>.
Definition rsvp_if_shutdown (t : if_table) : if_table :=
  t <| g_if_table := replicate RSVP_MAX_IF zero_if |> <| g_if_count := 0%nat |>.

(** The first of the [g_if_count] entries that satisfies [P]. *)
Definition if_find (P : rsvp_if → bool) (t : if_table) : option nat :=
  fst <$> list_find (λ e, P e = true) (take (g_if_count t) (g_if_table t)).
Definition rsvp_if_get (t : if_table) (ifindex : Z) : option nat :=
  if_find (λ e, if_active e && (if_ifindex e =? ifindex)) t.
Definition rsvp_if_get_by_name (t : if_table) (name : list Z) : option nat :=
  if_find (λ e, if_active e && strncmp_eq (if_name e) name IF_NAMESIZE) t.

Definition if_update (i : nat) (f : rsvp_if → rsvp_if) (t : if_table) : if_table :=
  t <| g_if_table ::= alter f i |>.

Section operations.
Context `{IfEnv}.

Definition nametoindex (name : list Z) (t : if_table) : Z * if_table :=
  (if_nametoindex (if_clock t) name, t <| if_clock ::= Nat.succ |>).

Definition rsvp_if_find_or_create (name : list Z) (t : if_table) : option nat * if_table :=
  match rsvp_if_get_by_name t name with
  | Some i => (Some i, t)
  | None =>
      if (RSVP_MAX_IF <=? g_if_count t)%nat then (None, t)
      else
        let i := g_if_count t in
        let t := t <| g_if_count ::= S |> in
        let t := if_update i (λ _, zero_if <| if_name := take (IF_NAMESIZE - 1) name |>) t in
        let '(idx, t) := nametoindex name t in
        (Some i, if_update i (λ e, e <| if_ifindex := idx |> <| if_hello_interval_ms := 5000 |>
                                     <| if_active := true |>) t)
  end.

Definition rsvp_if_enable (name : list Z) (t : if_table) : option nat * if_table :=
  let '(r, t) := rsvp_if_find_or_create name t in
  match r with
  | None => (None, t)
  | Some i =>
      let '(idx, t) := nametoindex name t in
      let t := if idx =? 0 then t else if_update i (λ e, e <| if_ifindex := idx |>) t in
      (Some i, if_update i (λ e, e <| if_rsvp_enabled := true |>) t)
  end.

Definition rsvp_if_disable (name : list Z) (t : if_table) : if_table :=
  match rsvp_if_get_by_name t name with
  | None => t
  | Some i => if_update i (λ e, e <| if_rsvp_enabled := false |>) t
  end.

Definition rsvp_if_set_bandwidth (name : list Z) (total_bw reservable_bw : double) (t : if_table) :
    if_table :=
  let '(r, t) := rsvp_if_find_or_create name t in
  match r with
  | None => t
  | Some i => if_update i (λ e, e <| if_total_bw := total_bw |>
                                  <| if_reservable_bw := reservable_bw |>) t
  end.

Definition rsvp_if_reserve_bw (ifindex : Z) (priority : nat) (bw : double) (t : if_table) : if_table :=
  if (RSVP_NUM_PRIORITIES <=? priority)%nat then t
  else match rsvp_if_get t ifindex with
       | None => t
       | Some i => if_update i (λ e, e <| if_reserved_bw ::= alter (λ x, dadd x bw) priority |>) t
       end.

(** The clamp: [if (x < 0.0) x = 0.0]. *)
Definition clamp (x : double) : double := if dltb x dzero then dzero else x.

Definition rsvp_if_release_bw (ifindex : Z) (priority : nat) (bw : double) (t : if_table) : if_table :=
  if (RSVP_NUM_PRIORITIES <=? priority)%nat then t
  else match rsvp_if_get t ifindex with
       | None => t
       | Some i =>
           if_update i (λ e, e <| if_reserved_bw ::= alter (λ x, clamp (dsub x bw)) priority |>) t
       end.

Definition rsvp_if_available_bw (ifindex : Z) (priority : nat) (t : if_table) : double :=
  if (RSVP_NUM_PRIORITIES <=? priority)%nat then dzero
  else match rsvp_if_get t ifindex ≫= (g_if_table t !!.) with
       | None => dzero
       | Some e =>
           let total_reserved := foldl dadd dzero (take (S priority) (if_reserved_bw e)) in
           let avail := dsub (if_reservable_bw e) total_reserved in
           if dltb dzero avail then avail else dzero
       end.
End operations.

(** ** Doubles that are not negative *)

Definition dnonneg (x : double) : Prop := dltb x dzero = false.

Lemma dzero_nonneg : dnonneg dzero.
Proof. done. Qed.
Lemma clamp_nonneg x : dnonneg (clamp x).
Proof. unfold clamp. by destruct (dltb x dzero) eqn:E. Qed.

(** Rounding keeps the sign. *)
Lemma binary_round_nonneg m e : dnonneg (binary_round 53 1024 false m e).
Proof.
  unfold binary_round, binary_round_aux.
  repeat (case_match; simplify_eq; try done).
Qed.

Lemma dadd_nonneg x y : dnonneg x → dnonneg y → dnonneg (dadd x y).
Proof.
  destruct x as [[]|[]| |[] mx ex], y as [[]|[]| |[] my ey]; try done.
  intros _ _. unfold dadd, SFadd. simpl cond_Zopp.
  apply binary_round_nonneg.
Qed.

(** ** The entry of a name *)

Definition if_entry (t : if_table) (i : nat) : option rsvp_if :=
  take (g_if_count t) (g_if_table t) !! i.
Definition if_lookup (t : if_table) (name : list Z) : option rsvp_if :=
  rsvp_if_get_by_name t name ≫= if_entry t.

Definition name_ok (name : list Z) : Prop := (length name < IF_NAMESIZE)%nat.

Record entry_ok (e : rsvp_if) : Prop := {
  en_name : name_ok (if_name e);
  en_active : if_active e = true;
  en_length : length (if_reserved_bw e) = RSVP_NUM_PRIORITIES;
  en_nonneg : Forall dnonneg (if_reserved_bw e);
}.

Record if_table_ok (t : if_table) : Prop := {
  it_length : length (g_if_table t) = RSVP_MAX_IF;
  it_count : (g_if_count t <= RSVP_MAX_IF)%nat;
  it_entries : ∀ i e, if_entry t i = Some e → entry_ok e;
  it_names : ∀ i j e f, if_entry t i = Some e → if_entry t j = Some f →
    if_name e = if_name f → i = j;
}.

Lemma if_entry_Some t i e :
  if_entry t i = Some e ↔ g_if_table t !! i = Some e ∧ (i < g_if_count t)%nat.
Proof. apply lookup_take_Some. Qed.

Lemma strncmp_eq_names a b : name_ok a → name_ok b → strncmp_eq a b IF_NAMESIZE = true ↔ a = b.
Proof.
  intros Ha Hb. unfold strncmp_eq. rewrite bool_decide_eq_true, !take_ge by (unfold name_ok in *; lia).
  done.
Qed.

Lemma if_find_Some P t i :
  if_find P t = Some i →
  ∃ e, if_entry t i = Some e ∧ P e = true ∧ ∀ j f, if_entry t j = Some f → (j < i)%nat → P f ≠ true.
Proof.
  unfold if_find. intros ([i' e] & Hf & ->)%fmap_Some. simpl.
  apply list_find_Some in Hf as (? & ? & Hmin). exists e. split_and!; [done..|].
  intros j f Hj Hlt. eapply Hmin; [exact Hj|done].
Qed.

Lemma if_find_None P t i e : if_find P t = None → if_entry t i = Some e → P e = false.
Proof.
  unfold if_find. intros Hf%fmap_None Hi. apply list_find_None in Hf.
  apply not_true_is_false. by eapply (Forall_lookup_1 _ _ _ _ Hf).
Qed.

Section lookup.
Context (t : if_table) (Hok : if_table_ok t).

Lemma get_by_name_entry name i :
  name_ok name →
  rsvp_if_get_by_name t name = Some i ↔ ∃ e, if_entry t i = Some e ∧ if_name e = name.
Proof.
  intros Hn. unfold rsvp_if_get_by_name. split.
  - intros (e & Ee & [_ Hs]%andb_prop & _)%if_find_Some. exists e. split; [done|].
    by apply strncmp_eq_names in Hs; [|by apply (it_entries t Hok i e Ee)|].
  - intros (e & Ee & <-).
    assert ((if_active e && strncmp_eq (if_name e) (if_name e) IF_NAMESIZE) = true) as Hp.
    { rewrite (en_active e (it_entries t Hok i e Ee)). by apply strncmp_eq_names. }
    destruct (if_find _ t) as [j|] eqn:Ef; [|by rewrite (if_find_None _ _ _ _ Ef Ee) in Hp].
    apply if_find_Some in Ef as (f & Ef & [_ Hs]%andb_prop & _).
    apply strncmp_eq_names in Hs; [|by apply (it_entries t Hok j f Ef)|done].
    f_equal. by eapply (it_names t Hok).
Qed.

Lemma if_lookup_entry name e :
  name_ok name → if_lookup t name = Some e ↔ ∃ i, if_entry t i = Some e ∧ if_name e = name.
Proof.
  intros Hn. unfold if_lookup. rewrite bind_Some. split.
  - intros (i & (e' & Ee & En)%get_by_name_entry & Ei); [|done].
    rewrite Ee in Ei. injection Ei as <-. eauto.
  - intros (i & Ei & En). exists i. split; [|done]. apply get_by_name_entry; eauto.
Qed.

Lemma if_lookup_name name e : name_ok name → if_lookup t name = Some e → if_name e = name.
Proof. by intros Hn (i & _ & ?)%if_lookup_entry. Qed.
End lookup.

(** ** Updates *)

Lemma if_entry_update t i f j :
  if_entry (if_update i f t) j = if decide (i = j) then f <$> if_entry t j else if_entry t j.
Proof.
  unfold if_entry, if_update. simpl. case_decide as Hd; [subst|].
  - destruct (decide (j < g_if_count t)%nat).
    + rewrite !lookup_take_lt by done. by rewrite list_lookup_alter_eq.
    + by rewrite !lookup_take_ge by lia.
  - destruct (decide (j < g_if_count t)%nat).
    + rewrite !lookup_take_lt by done. by rewrite list_lookup_alter_ne.
    + by rewrite !lookup_take_ge by lia.
Qed.

(** An update that keeps the name of an entry. *)
Lemma if_update_ok t i f :
  if_table_ok t →
  (∀ e, if_entry t i = Some e → if_name (f e) = if_name e ∧ entry_ok (f e)) →
  if_table_ok (if_update i f t).
Proof.
  intros [Hl Hc He Hn] Hf. split; [by simpl; rewrite length_alter|done|..].
  - intros j e. rewrite if_entry_update. case_decide as Hd; [|by apply He].
    subst. intros (e0 & E & ->)%fmap_Some. by apply Hf.
  - assert (∀ j e, if_entry (if_update i f t) j = Some e →
      ∃ e0, if_entry t j = Some e0 ∧ if_name e0 = if_name e) as Hname.
    { intros j e. rewrite if_entry_update. case_decide as Hd; [|by eauto].
      subst. intros (e0 & E & ->)%fmap_Some. exists e0. split; [done|]. by rewrite (proj1 (Hf _ E)). }
    intros j k e e' (e0 & E0 & N0)%Hname (e1 & E1 & N1)%Hname Heq.
    eapply Hn; [done..|congruence].
Qed.

Lemma if_update_lookup t i e f :
  if_table_ok t → if_entry t i = Some e → if_name (f e) = if_name e → entry_ok (f e) →
  if_lookup (if_update i f t) (if_name e) = Some (f e)
  ∧ ∀ name, name_ok name → name ≠ if_name e → if_lookup (if_update i f t) name = if_lookup t name.
Proof.
  intros Hok Ee Hfn Hfe.
  assert (if_table_ok (if_update i f t)) as Hok'.
  { apply if_update_ok; [done|]. intros e' E'. simplify_eq. done. }
  assert (name_ok (if_name e)) as Hne by (rewrite <- Hfn; apply Hfe). split.
  - apply if_lookup_entry; [done..|]. exists i. split; [|done].
    rewrite if_entry_update, decide_True by done. by rewrite Ee.
  - intros name Hn Hd. apply option_eq. intros e'. rewrite !if_lookup_entry by done.
    setoid_rewrite if_entry_update. split; intros (j & Hj & En); exists j; (split; [|done]).
    + case_decide; [|done]. subst. rewrite Ee in Hj. by simplify_eq/=.
    + case_decide; [|done]. subst. rewrite Ee in Hj. by simplify_eq.
Qed.

(** ** Operations keep the table *)

Definition others_kept (name : list Z) (t t' : if_table) : Prop :=
  ∀ n, name_ok n → n ≠ name → if_lookup t' n = if_lookup t n.

Section operation_rules.
Context `{IfEnv}.

(** The entry of a new interface. *)
Definition new_if (name : list Z) (idx : Z) : rsvp_if :=
  mk_rsvp_if name idx false dzero dzero (replicate RSVP_NUM_PRIORITIES dzero) 5000 true.

Lemma new_if_ok name idx : name_ok name → entry_ok (new_if name idx).
Proof.
  split; simpl; try done. apply (Forall_replicate _ RSVP_NUM_PRIORITIES), dzero_nonneg.
Qed.

Lemma find_or_create_spec t name :
  if_table_ok t → name_ok name →
  match rsvp_if_find_or_create name t with
  | (Some i, t') => if_table_ok t' ∧ others_kept name t t'
      ∧ ∃ e, if_entry t' i = Some e ∧ if_name e = name
          ∧ (if_lookup t name = Some e ∨ (if_lookup t name = None ∧ ∃ idx, e = new_if name idx))
  | (None, t') => t' = t ∧ if_lookup t name = None ∧ g_if_count t = RSVP_MAX_IF
  end.
Proof.
  intros Hok Hn. unfold rsvp_if_find_or_create.
  destruct (rsvp_if_get_by_name t name) as [i|] eqn:Eg.
  - split; [done|]. split; [by intros ???|]. pose proof Eg as Eg'.
    apply get_by_name_entry in Eg' as (e & Ee & En); [|done..]. exists e.
    split_and!; [done..|left]. unfold if_lookup. by rewrite Eg.
  - assert (if_lookup t name = None) as Hnone by (unfold if_lookup; by rewrite Eg).
    case_if; bools; [split_and!; [done..|]; pose proof (it_count t Hok); lia|].
    rewrite take_ge by (unfold name_ok, IF_NAMESIZE in *; lia).
    set (i := g_if_count t). cbv beta zeta iota delta [nametoindex].
    match goal with |- if_table_ok ?x ∧ _ => set (t1 := x) end.
    assert (∀ j, if_entry t1 j = if decide (j = i) then Some (new_if name (if_nametoindex (if_clock t) name))
                                 else if_entry t j) as Hent.
    { intros j. subst t1. unfold if_entry, if_update, nametoindex. simpl. fold i.
      destruct (decide (j < S i)%nat).
      - rewrite lookup_take_lt by done. case_decide as Hd; [subst j|].
        + rewrite !list_lookup_alter_eq.
          destruct (lookup_lt_is_Some_2 (g_if_table t) i) as [e ->]; [rewrite (it_length t Hok); lia|].
          done.
        + rewrite !list_lookup_alter_ne by done. by rewrite lookup_take_lt by lia.
      - rewrite !lookup_take_ge by lia. case_decide; [lia|done]. }
    assert (if_table_ok t1) as Hok1.
    { split; [subst t1; simpl; by rewrite !length_alter, (it_length t Hok)|subst t1; simpl; lia|..].
      - intros j e. rewrite Hent. case_decide; [|apply (it_entries t Hok)].
        intros [= <-]. by apply new_if_ok.
      - assert (∀ j e, if_entry t j = Some e → if_name e ≠ name) as Hfresh.
        { intros j e Ee En. assert (rsvp_if_get_by_name t name = Some j) as Hg; [|congruence].
          apply get_by_name_entry; eauto. }
        intros j k e f. rewrite !Hent. repeat case_decide; subst; try done.
        + intros [= <-] Hf Heq. by destruct (Hfresh _ _ Hf).
        + intros Hf [= <-] Heq. by destruct (Hfresh _ _ Hf).
        + apply (it_names t Hok). }
    split; [done|]. split.
    + intros n Hnn Hd. apply option_eq. intros e. rewrite !if_lookup_entry by done.
      setoid_rewrite Hent. split; intros (j & Hj & En); exists j; (split; [|done]).
      * case_decide; [|done]. by simplify_eq.
      * case_decide; [|done]. subst. apply if_entry_Some in Hj as [_ ?]. lia.
    + exists (new_if name (if_nametoindex (if_clock t) name)).
      rewrite Hent, decide_True by done. split_and!; [done..|]. right. eauto.
Qed.

(** The update of the entry that [rsvp_if_find_or_create] gave. *)
Lemma update_created_spec t name f :
  if_table_ok t → name_ok name →
  (∀ e, entry_ok e → if_name (f e) = if_name e ∧ entry_ok (f e)) →
  match rsvp_if_find_or_create name t with
  | (Some i, t') => if_table_ok (if_update i f t') ∧ others_kept name t (if_update i f t')
      ∧ ∃ e, if_lookup (if_update i f t') name = Some (f e)
          ∧ (if_lookup t name = Some e ∨ (if_lookup t name = None ∧ ∃ idx, e = new_if name idx))
  | (None, t') => t' = t ∧ if_lookup t name = None ∧ g_if_count t = RSVP_MAX_IF
  end.
Proof.
  intros Hok Hn Hf. pose proof (find_or_create_spec t name Hok Hn) as Hs.
  destruct (rsvp_if_find_or_create name t) as [[i|] t1]; [|done].
  destruct Hs as (Hok1 & Hk1 & e & Ee & En & Hsrc).
  destruct (Hf e) as [Hfn Hfe]; [by apply (it_entries t1 Hok1 i e Ee)|].
  destruct (if_update_lookup t1 i e f) as [L1 L2]; [done..|]. split; [|split].
  - apply if_update_ok; [done|]. intros e' E'. by simplify_eq.
  - intros n Hnn Hd. rewrite L2 by congruence. by apply Hk1.
  - exists e. by rewrite En in L1.
Qed.

Lemma enabled_entry_ok e idx :
  entry_ok e → entry_ok (e <| if_ifindex := idx |> <| if_rsvp_enabled := true |>).
Proof. by intros []. Qed.

Lemma if_table_ok_clock t n : if_table_ok t → if_table_ok (t <| if_clock := n |>).
Proof. by intros []. Qed.

Lemma alter_reserved_ok e p f :
  entry_ok e → (∀ x, dnonneg x → dnonneg (f x)) →
  entry_ok (e <| if_reserved_bw ::= alter f p |>).
Proof.
  intros [? ? Hl Hp] Hf. split; simpl; [done..|by rewrite length_alter|].
  apply Forall_alter; [done|]. intros x _ Hx. by apply Hf.
Qed.

Lemma if_get_entry t ifindex i :
  rsvp_if_get t ifindex = Some i → ∃ e, if_entry t i = Some e ∧ if_ifindex e = ifindex.
Proof. intros (e & Ee & [_ Hi%Z.eqb_eq]%andb_prop & _)%if_find_Some. eauto. Qed.
End operation_rules.

(** ** Runs of the table *)

(** The calls of the command line and of the reservations. *)
Inductive if_op :=
| Enable (name : list Z)
| Disable (name : list Z)
| SetBandwidth (name : list Z) (total_bw reservable_bw : double)
| ReserveBw (ifindex : Z) (priority : nat) (bw : double)
| ReleaseBw (ifindex : Z) (priority : nat) (bw : double).

(** Names are at most 15 bytes long, as the command line reads them, and no
    negative bandwidth is reserved; a released one may be anything. *)
Definition if_op_ok (o : if_op) : Prop :=
  match o with
  | Enable n | Disable n | SetBandwidth n _ _ => name_ok n
  | ReserveBw _ _ bw => dnonneg bw
  | ReleaseBw _ _ _ => True
  end.

Section runs.
Context `{IfEnv}.

Definition run_if_op (t : if_table) (o : if_op) : if_table :=
  match o with
  | Enable n => snd (rsvp_if_enable n t)
  | Disable n => rsvp_if_disable n t
  | SetBandwidth n x y => rsvp_if_set_bandwidth n x y t
  | ReserveBw i p bw => rsvp_if_reserve_bw i p bw t
  | ReleaseBw i p bw => rsvp_if_release_bw i p bw t
  end.

Lemma if_init_ok t : if_table_ok (rsvp_if_init t).
Proof. split; simpl; [done|lia|..]; intros *; rewrite if_entry_Some; simpl; lia. Qed.

Lemma rsvp_if_enable_spec t name :
  if_table_ok t → name_ok name →
  match rsvp_if_enable name t with
  | (Some i, t') => if_table_ok t' ∧ others_kept name t t'
      ∧ ∃ e, if_lookup t' name = Some e ∧ if_rsvp_enabled e = true
          ∧ (∀ e0, if_lookup t name = Some e0 → ∃ idx,
               e = e0 <| if_ifindex := idx |> <| if_rsvp_enabled := true |>)
  | (None, t') => t' = t ∧ if_lookup t name = None ∧ g_if_count t = RSVP_MAX_IF
  end.
Proof.
  intros Hok Hn. unfold rsvp_if_enable.
  set (f := λ e, e <| if_rsvp_enabled := true |>).
  set (g := λ idx e, e <| if_ifindex := idx |> <| if_rsvp_enabled := true |>).
  pose proof (update_created_spec t name f Hok Hn) as Hf.
  pose proof (λ idx, update_created_spec t name (g idx) Hok Hn) as Hg.
  destruct (rsvp_if_find_or_create name t) as [[i|] t1]; [|apply Hf; by intros ? []].
  unfold nametoindex. set (idx := if_nametoindex _ _). cbn [fst snd].
  destruct (idx =? 0).
  - match goal with |- if_table_ok ?x ∧ _ =>
      change x with (if_update i f t1 <| if_clock := Nat.succ (if_clock t1) |>) end.
    destruct Hf as (? & ? & e & El & Hsrc); [by intros ? []|].
    split; [by apply if_table_ok_clock|]. split; [done|]. exists (f e). split_and!; [done..|].
    intros e0 E0. exists (if_ifindex e). destruct Hsrc as [Hs|[Hs _]]; [|congruence].
    rewrite Hs in E0. injection E0 as <-. by destruct e.
  - destruct (Hg idx) as (? & ? & e & El & Hsrc); [by intros ? []|].
    match goal with |- if_table_ok ?x ∧ _ =>
      replace x with (if_update i (g idx) t1 <| if_clock := Nat.succ (if_clock t1) |>)
        by (unfold if_update; simpl; f_equal; by rewrite list_alter_alter_eq) end.
    split; [by apply if_table_ok_clock|]. split; [done|].
    exists (g idx e). split_and!; [done..|].
    intros e0 E0. exists idx. destruct Hsrc as [Hs|[Hs _]]; [|congruence].
    rewrite Hs in E0. by injection E0 as <-.
Qed.

Lemma run_if_op_ok t o : if_table_ok t → if_op_ok o → if_table_ok (run_if_op t o).
Proof.
  intros Hok Ho. destruct o as [n|n|n x y|i p bw|i p bw]; simpl in *.
  - pose proof (rsvp_if_enable_spec t n Hok Ho) as Hs.
    destruct (rsvp_if_enable n t) as [[j|] t']; [tauto|]. by destruct Hs as [-> _].
  - unfold rsvp_if_disable. destruct (rsvp_if_get_by_name t n); [|done].
    apply if_update_ok; [done|]. intros e Ee%(it_entries t Hok). by destruct Ee.
  - unfold rsvp_if_set_bandwidth.
    pose proof (update_created_spec t n (λ e, e <| if_total_bw := x |> <| if_reservable_bw := y |>)
      Hok Ho) as Hs.
    destruct (rsvp_if_find_or_create n t) as [[j|] t']; [apply Hs; by intros ? []|].
    destruct Hs as [-> _]; [by intros ? []|done].
  - unfold rsvp_if_reserve_bw. case_if; [done|]. destruct (rsvp_if_get t i); [|done].
    apply if_update_ok; [done|]. intros e Ee%(it_entries t Hok). split; [done|].
    apply alter_reserved_ok; [done|]. intros. by apply dadd_nonneg.
  - unfold rsvp_if_release_bw. case_if; [done|]. destruct (rsvp_if_get t i); [|done].
    apply if_update_ok; [done|]. intros e Ee%(it_entries t Hok). split; [done|].
    apply alter_reserved_ok; [done|]. intros. apply clamp_nonneg.
Qed.
End runs.

(** ** What an update does not change *)

Lemma list_find_alter {A} (P : A → Prop) `{∀ x, Decision (P x)} (f : A → A) (l : list A) i :
  (∀ x, P (f x) ↔ P x) →
  fst <$> list_find P (alter f i l) = fst <$> list_find P l.
Proof.
  intros Hf. revert i. induction l as [|x l IH]; intros i; [done|].
  destruct i as [|i]; simpl.
  - rewrite (decide_ext (P (f x)) (P x)) by apply Hf. case_decide; [done|].
    by destruct (list_find P l) as [[]|].
  - case_decide; [done|]. specialize (IH i).
    change (list_alter f i l) with (alter f i l).
    destruct (list_find P (alter f i l)) as [[]|], (list_find P l) as [[]|]; simpl in *; congruence.
Qed.

Lemma take_alter {A} (f : A → A) (l : list A) i n :
  take n (alter f i l) = if decide (i < n)%nat then alter f i (take n l) else take n l.
Proof.
  revert i n. induction l as [|x l IH]; intros i n.
  - by destruct n; case_decide.
  - destruct n as [|n]; [by case_decide; [lia|]|]. destruct i as [|i]; simpl; [done|].
    change (list_alter f i l) with (alter f i l). rewrite (IH i n).
    repeat case_decide; try done; lia.
Qed.

Lemma if_find_update P i f t :
  (∀ e, P (f e) = P e) → if_find P (if_update i f t) = if_find P t.
Proof.
  intros Hf. unfold if_find, if_update. simpl. rewrite take_alter. case_decide; [|done].
  apply list_find_alter. intros x. by rewrite Hf.
Qed.

Lemma available_alter_lower ifindex p q (g : double → double) i t :
  (p < q)%nat →
  rsvp_if_available_bw ifindex p (if_update i (λ e, e <| if_reserved_bw ::= alter g q |>) t)
    = rsvp_if_available_bw ifindex p t.
Proof.
  intros Hpq. unfold rsvp_if_available_bw. case_if; [done|].
  unfold rsvp_if_get. rewrite if_find_update by done.
  destruct (if_find _ t) as [j|]; simpl; [|done].
  destruct (decide (i = j)) as [->|]; [|by rewrite list_lookup_alter_ne].
  rewrite list_lookup_alter_eq. destruct (g_if_table t !! j) as [e|]; simpl; [|done].
  change (list_alter g q (if_reserved_bw e)) with (alter g q (if_reserved_bw e)).
  by rewrite take_alter, decide_False by lia.
Qed.

(** ** Properties *)

Section properties.
Context `{IfEnv}.

(** The preemption model: what is reserved or released at a priority does
    not change the bandwidth available to the stronger (lower) ones. *)
Lemma available_ignores_lower t ifindex ifindex' p q bw :
  (p < q)%nat →
  rsvp_if_available_bw ifindex p (rsvp_if_reserve_bw ifindex' q bw t)
    = rsvp_if_available_bw ifindex p t
  ∧ rsvp_if_available_bw ifindex p (rsvp_if_release_bw ifindex' q bw t)
    = rsvp_if_available_bw ifindex p t.
Proof.
  intros Hpq. unfold rsvp_if_reserve_bw, rsvp_if_release_bw.
  case_if; [done|]. destruct (rsvp_if_get t ifindex') as [i|]; [|done].
  split; by apply available_alter_lower.
Qed.

(** C40: whatever operations are called after [rsvp_if_init], as long as the
    names they give have fewer than 16 bytes and the bandwidths they reserve
    are not negative ([if_op_ok]), the interface table has at most 64 entries,
    all active and with different names, and the bandwidth reserved at a
    priority is never negative.  In such a table a further reservation or
    release at one priority, of any bandwidth, leaves the bandwidth available
    to every stronger (lower) priority of every interface as it is. *)
Theorem if_table_invariant t ops :
  Forall if_op_ok ops →
  let t' := foldl run_if_op (rsvp_if_init t) ops in
  if_table_ok t'
  ∧ ∀ ifindex p q bw, (p < q)%nat →
      ∀ ifindex', rsvp_if_available_bw ifindex p (rsvp_if_reserve_bw ifindex' q bw t')
          = rsvp_if_available_bw ifindex p t'
        ∧ rsvp_if_available_bw ifindex p (rsvp_if_release_bw ifindex' q bw t')
          = rsvp_if_available_bw ifindex p t'.
Proof.
  intros Hops t'. split; [|intros; by apply available_ignores_lower].
  assert (∀ t0, if_table_ok t0 → if_table_ok (foldl run_if_op t0 ops)) as Hrun.
  { induction Hops as [|o ops Ho _ IH]; intros t0 Hok; simpl; [done|].
    by apply IH, run_if_op_ok. }
  apply Hrun, if_init_ok.
Qed.

(** Enabling an interface finds its entry or makes one, refreshes the index
    and sets the flag, disabling clears the flag; the bandwidths of the entry
    and all other entries stay.  With 64 other interfaces nothing changes. *)
Theorem rsvp_if_enable_disable t name :
  if_table_ok t → name_ok name →
  match rsvp_if_enable name t with
  | (Some i, t1) =>
      ∃ e, if_lookup t1 name = Some e ∧ if_rsvp_enabled e = true
        ∧ if_lookup (rsvp_if_disable name t1) name = Some (e <| if_rsvp_enabled := false |>)
        ∧ others_kept name t t1 ∧ others_kept name t (rsvp_if_disable name t1)
        ∧ ∀ e0, if_lookup t name = Some e0 →
            if_total_bw e = if_total_bw e0 ∧ if_reservable_bw e = if_reservable_bw e0
            ∧ if_reserved_bw e = if_reserved_bw e0
  | (None, t1) => t1 = t ∧ if_lookup t name = None ∧ g_if_count t = RSVP_MAX_IF
  end.
Proof.
  intros Hok Hn. pose proof (rsvp_if_enable_spec t name Hok Hn) as Hs.
  destruct (rsvp_if_enable name t) as [[i|] t1]; [|done].
  destruct Hs as (Hok1 & Hk1 & e & El & Een & Hsrc). exists e.
  unfold rsvp_if_disable. pose proof El as El'.
  unfold if_lookup in El'. destruct (rsvp_if_get_by_name t1 name) as [j|]; [|done]. simpl in El'.
  pose proof (if_lookup_name t1 Hok1 name e Hn El) as Hname.
  destruct (if_update_lookup t1 j e (λ e, e <| if_rsvp_enabled := false |>)) as [L1 L2];
    [done|done|done|by destruct (it_entries t1 Hok1 j e El')|].
  rewrite Hname in L1, L2. split_and!; [done..| |].
  - intros n Hnn Hd. rewrite L2 by done. by apply Hk1.
  - intros e0 E0. by destruct (Hsrc e0 E0) as [idx ->].
Qed.
End properties.

(** ** Examples *)

Definition test_if_env : IfEnv := {| if_nametoindex := λ _ name, Z.of_nat (length name) |}.
(** "eth0", and 1000 bps. *)
Definition eth0 : list Z := [101; 116; 104; 48].
Definition kbps : double := S754_finite false 8796093022208000 (-43).
Definition test_table : if_table :=
  rsvp_if_set_bandwidth (H := test_if_env) eth0 kbps kbps (rsvp_if_init (mk_if_table [] 0 0)).

Lemma test_table_ok : if_table_ok test_table.
Proof.
  apply (run_if_op_ok (H := test_if_env) _ (SetBandwidth eth0 kbps kbps)); [apply if_init_ok|].
  by apply (bool_decide_unpack (length eth0 < IF_NAMESIZE)%nat).
Qed.

Lemma if_table_invariant_witness :
  let t := foldl (run_if_op (H := test_if_env)) (rsvp_if_init (mk_if_table [] 0 0))
    [SetBandwidth eth0 kbps kbps; ReserveBw 4 7 kbps; ReleaseBw 4 7 kbps] in
  if_table_ok t ∧ rsvp_if_available_bw 4 0 (rsvp_if_reserve_bw 4 7 kbps t) = kbps.
Proof.
  edestruct (if_table_invariant (H := test_if_env)) as [Hok Hav]; [|split; [exact Hok|]].
  - repeat constructor; unfold name_ok, IF_NAMESIZE; simpl; lia.
  - etransitivity; [exact (proj1 (Hav 4 0%nat 7%nat kbps ltac:(lia) 4))|]. vm_compute. reflexivity.
Defined.

Lemma rsvp_if_enable_disable_witness :
  ∃ e, if_lookup (snd (rsvp_if_enable (H := test_if_env) eth0 test_table)) eth0 = Some e
    ∧ if_rsvp_enabled e = true ∧ if_ifindex e = 4 ∧ if_total_bw e = kbps.
Proof.
  assert (name_ok eth0) as Hn by (unfold name_ok, IF_NAMESIZE; simpl; lia).
  pose proof (rsvp_if_enable_disable (H := test_if_env) test_table eth0 test_table_ok Hn) as Hs.
  vm_compute (rsvp_if_enable _ _) in Hs. destruct Hs as (e & El & Een & _).
  vm_compute in El. injection El as <-. eexists. split; [vm_compute; reflexivity|].
  split; [reflexivity|]. split; reflexivity.
Defined.

Lemma available_ignores_lower_witness :
  rsvp_if_available_bw 4 0 (rsvp_if_reserve_bw 4 7 kbps test_table) = kbps
  ∧ rsvp_if_available_bw 4 7 (rsvp_if_reserve_bw 4 7 kbps test_table) = dzero.
Proof.
  split; [|vm_compute; reflexivity].
  rewrite (proj1 (available_ignores_lower test_table 4 4 0 7 kbps ltac:(lia))).
  vm_compute. reflexivity.
Defined.
