(* ===== verification/Scan.v ===== *)
(** * Formatted input: the [sscanf] of src/pi/rsvp_cli.c

    The conversions that the command line uses: white space, literal
    characters, [%<width>s], [%u] and [%lf], as the C library defines them.
    Strings are lists of bytes without their terminator.  The number syntax of
    [%lf] is left to the library ([scan_double]). *)

From Stdlib Require Import String Ascii SpecFloat.
From stdpp Require Import base numbers list option.
From S2P Require Import Prelude RsvpIf.

(** The bytes of a literal of the source. *)
Definition str (s : string) : list Z := (λ a, Z.of_N (N_of_ascii a)) <$> list_ascii_of_string s.
Arguments str s%_string_scope.

(** ** Characters *)

Definition isspace (c : Z) : bool := ((9 <=? c) && (c <=? 13)) || (c =? 32).
Definition isdigit (c : Z) : bool := (48 <=? c) && (c <=? 57).

Fixpoint skip_space (s : list Z) : list Z :=
  match s with
  | c :: s' => if isspace c then skip_space s' else s
  | [] => []
  end.

(** At most [w] characters that are not white space, and the rest. *)
Fixpoint scan_word (w : nat) (s : list Z) : list Z * list Z :=
  match w, s with
  | S w, c :: s' =>
      if isspace c then ([], s) else let '(word, rest) := scan_word w s' in (c :: word, rest)
  | _, _ => ([], s)
  end.

(** ** Numbers *)

Fixpoint scan_digits (acc : Z) (s : list Z) : Z * list Z :=
  match s with
  | c :: s' => if isdigit c then scan_digits (10 * acc + (c - 48)) s' else (acc, s)
  | [] => (acc, [])
  end.

(** [strtoul] to a 64-bit [unsigned long], which saturates; [%u] keeps the low
    32 bits.  A minus sign negates. *)
Definition to_uint (negative : bool) (v : Z) : Z :=
  (if 2 ^ 64 <=? v then 2 ^ 64 - 1 else if negative then - v else v) mod 2 ^ 32.

Definition scan_uint (s : list Z) : option (Z * list Z) :=
  let '(negative, s) :=
    match s with
    | c :: s' => if c =? 45 then (true, s') else if c =? 43 then (false, s') else (false, s)
    | [] => (false, s)
    end in
  match s with
  | c :: _ => if isdigit c then let '(v, rest) := scan_digits 0 s in Some (to_uint negative v, rest)
              else None
  | [] => None
  end.

(** The decimal digits of a number. *)
Fixpoint show_digits (fuel : nat) (n : Z) (acc : list Z) : list Z :=
  match fuel with
  | O => acc
  | S fuel =>
      let acc := (48 + n mod 10) :: acc in
      if n <? 10 then acc else show_digits fuel (n / 10) acc
  end.
(** [%u] of [printf]; ten digits are enough for 32 bits. *)
Definition show_uint (n : Z) : list Z := show_digits 10 n [].

(** ** Formats *)

Inductive directive := Space | Lit (c : Z) | Word (w : nat) | Uint | Double.
Inductive value := VStr (s : list Z) | VUint (n : Z) | VDouble (x : double).

Inductive format_state := Plain | Percent (w : nat) | PercentL.

(** A format string of the source. *)
Fixpoint format_from (st : format_state) (f : list Z) : list directive :=
  match f with
  | [] => []
  | c :: f =>
      match st with
      | Plain => if c =? 37 then format_from (Percent 0) f
                 else if isspace c then Space :: format_from Plain f
                 else Lit c :: format_from Plain f
      | Percent w =>
          if isdigit c then format_from (Percent (10 * w + Z.to_nat (c - 48))) f
          else if c =? 115 then Word w :: format_from Plain f
          else if c =? 117 then Uint :: format_from Plain f
          else format_from PercentL f
      | PercentL => Double :: format_from Plain f
      end
  end.
Definition format (f : string) : list directive := format_from Plain (str f).
Arguments format f%_string_scope.

Class ScanEnv := { scan_double : list Z → option (double * list Z) }.

(** The values assigned until the first mismatch. *)
Fixpoint scan `{ScanEnv} (f : list directive) (s : list Z) : list value :=
  match f with
  | [] => []
  | Space :: f => scan f (skip_space s)
  | Lit c :: f => match s with
                  | c' :: s' => if c =? c' then scan f s' else []
                  | [] => []
                  end
  | Word w :: f => match scan_word w (skip_space s) with
                   | ([], _) => []
                   | (word, rest) => VStr word :: scan f rest
                   end
  | Uint :: f => match scan_uint (skip_space s) with
                 | Some (n, rest) => VUint n :: scan f rest
                 | None => []
                 end
  | Double :: f => match scan_double (skip_space s) with
                   | Some (x, rest) => VDouble x :: scan f rest
                   | None => []
                   end
  end.
Definition sscanf `{ScanEnv} (s : list Z) (f : string) : list value := scan (format f) s.
Arguments sscanf {_} s f%_string_scope.

(** ** Printed numbers scan back *)

Lemma isdigit_spec c : isdigit c = true ↔ 48 ≤ c ≤ 57.
Proof. unfold isdigit. lia. Qed.

Lemma show_digits_app fuel n acc : show_digits fuel n acc = show_digits fuel n [] ++ acc.
Proof.
  revert n acc. induction fuel as [|fuel IH]; intros n acc; simpl; [done|].
  case_if; [done|]. rewrite IH, (IH _ [_]), <- app_assoc. done.
Qed.

Lemma show_digits_head fuel n acc :
  0 ≤ n → (0 < fuel)%nat → ∃ d ds, show_digits fuel n acc = d :: ds ∧ isdigit d = true.
Proof.
  intros Hn Hf. revert n acc Hn. induction fuel as [|fuel IH]; [lia|]; intros n acc Hn; simpl.
  assert (isdigit (48 + n mod 10) = true) as Hd by (apply isdigit_spec; dlia).
  case_if; [by eauto|]. destruct fuel as [|fuel]; [by eauto|]. apply IH; [lia|dlia].
Qed.

Lemma scan_show_digits fuel n acc :
  0 ≤ n < 10 ^ Z.of_nat fuel → scan_digits 0 (show_digits fuel n acc) = scan_digits n acc.
Proof.
  revert n acc. induction fuel as [|fuel IH]; intros n acc Hn; simpl.
  { assert (n = 0) as -> by (change (10 ^ Z.of_nat 0) with 1 in Hn; lia). done. }
  assert (isdigit (48 + n mod 10) = true) as Hd by (apply isdigit_spec; dlia).
  assert (10 ^ Z.of_nat (S fuel) = 10 * 10 ^ Z.of_nat fuel) as E
    by (rewrite Nat2Z.inj_succ, Z.pow_succ_r by lia; lia).
  case_if; bools; simpl.
  - rewrite Hd. f_equal. dlia.
  - rewrite IH by dlia. simpl. rewrite Hd. f_equal. dlia.
Qed.

(** What follows a number or a word: nothing or white space. *)
Definition ends (rest : list Z) : Prop := ∀ c rest', rest = c :: rest' → isspace c = true.

Lemma ends_nil : ends [].
Proof. by intros c r. Qed.
Lemma ends_space s : ends (32 :: s).
Proof. by intros c r [= <- _]. Qed.

Lemma scan_digits_ends n rest : ends rest → scan_digits n rest = (n, rest).
Proof.
  intros He. destruct rest as [|c rest]; [done|]. simpl. specialize (He c rest eq_refl).
  assert (isdigit c = false) as ->; [|done]. unfold isspace, isdigit in *. lia.
Qed.

Lemma scan_uint_show n rest :
  0 ≤ n < 2 ^ 32 → ends rest → scan_uint (skip_space (show_uint n ++ rest)) = Some (n, rest).
Proof.
  intros Hn He. unfold show_uint. rewrite <- show_digits_app.
  assert (scan_digits 0 (show_digits 10 n rest) = (n, rest)) as Hs.
  { rewrite scan_show_digits by (change (10 ^ Z.of_nat 10) with 10000000000; lia).
    by apply scan_digits_ends. }
  destruct (show_digits_head 10 n rest) as (d & ds & E & Hd); [lia..|].
  rewrite E in *. simpl skip_space. pose proof (proj1 (isdigit_spec d) Hd).
  assert (isspace d = false) as -> by (unfold isspace; lia).
  unfold scan_uint. assert (d =? 45 = false) as -> by lia. assert (d =? 43 = false) as -> by lia.
  rewrite Hd, Hs. unfold to_uint.
  assert (2 ^ 64 <=? n = false) as -> by lia. by rewrite Z.mod_small by lia.
Qed.

(** A word without white space. *)
Definition word_ok (w : nat) (s : list Z) : Prop :=
  s ≠ [] ∧ (length s <= w)%nat ∧ Forall (λ c, isspace c = false) s.

Lemma scan_word_app w s rest :
  (length s <= w)%nat → Forall (λ c, isspace c = false) s → ends rest →
  scan_word w (s ++ rest) = (s, rest).
Proof.
  revert w. induction s as [|c s IH]; intros w Hl Hs He; simpl in *.
  - destruct w as [|w], rest as [|c rest]; simpl; try done.
    by rewrite (He c rest eq_refl).
  - destruct w as [|w]; [lia|]. apply Forall_cons_1 in Hs as [Hc Hs]. simpl.
    by rewrite Hc, IH by (done || lia).
Qed.

Lemma scan_word_ok w s rest :
  word_ok w s → ends rest → scan_word w (skip_space (s ++ rest)) = (s, rest).
Proof.
  intros (Hne & Hl & Hs) He. destruct s as [|c s]; [done|].
  simpl. rewrite (Forall_inv Hs). by apply (scan_word_app w (c :: s)).
Qed.

Lemma scan_word_length w s : (length (scan_word w s).1 <= w)%nat.
Proof.
  revert s. induction w as [|w IH]; intros [|c s]; simpl; try lia.
  case_if; simpl; [lia|]. specialize (IH s). destruct (scan_word w s). simpl in *. lia.
Qed.
