(* ===== verification/Printf.v ===== *)
(** * Formatted output: the [printf] of the displays

    The conversions of [printf] and [snprintf] that src/pi/rsvp_cli.c and the
    dump functions use, [%d], [%u], [%llu], [%s] and [%.<n>f] with a field
    width and left alignment, and [inet_ntop], as the C library defines them.
    The sign of a NaN is not kept by [SpecFloat] and not printed. *)

From Stdlib Require Import String SpecFloat.
From stdpp Require Import base numbers list option.
From S2P Require Import Prelude RsvpIf Scan.

(** ** Numbers *)

(** Enough for 64 bits. *)
Definition show_nat (n : Z) : list Z := show_digits 20 n [].
Definition show_int (n : Z) : list Z := if n <? 0 then 45 :: show_nat (- n) else show_nat n.
Definition int32 (n : Z) : Z := (n + 2 ^ 31) mod 2 ^ 32 - 2 ^ 31.

(** [a / b] to the nearest integer, ties to even. *)
Definition div_nearest (a b : Z) : Z :=
  let q := a / b in
  let r := a mod b in
  if (2 * r <? b) || ((2 * r =? b) && Z.even q) then q else q + 1.

(** The decimal expansion of [m * 2 ^ e] to [prec] places, as an integer. *)
Definition scaled (prec : nat) (m : positive) (e : Z) : Z :=
  let n := Zpos m * 10 ^ Z.of_nat prec in
  if 0 <=? e then n * 2 ^ e else div_nearest n (2 ^ (- e)).

(** [2 ^ 1024] and the places after the point. *)
Definition double_digits (prec : nat) : nat := 310 + prec.


Definition show_fixed (prec : nat) (n : Z) : list Z :=
  let digits := show_digits (double_digits prec) n [] in
  let digits := replicate (S prec - length digits) 48 ++ digits in
  match prec with
  | O => digits
  | _ => take (length digits - prec) digits ++ [46] ++ drop (length digits - prec) digits
  end.

(** [%.<prec>f] *)
Definition show_double (prec : nat) (x : double) : list Z :=
  match x with
  | S754_zero s => (if s then [45] else []) ++ show_fixed prec 0
  | S754_infinity s => (if s then [45] else []) ++ str "inf"
  | S754_nan => str "nan"
  | S754_finite s m e => (if s then [45] else []) ++ show_fixed prec (scaled prec m e)
  end.

(** ** Formats *)

Record conv := mk_conv {
  cv_left : bool;
  cv_width : nat;
  cv_prec : option nat;
  cv_long : bool;
  cv_char : Z;
}.
#[export] Instance conv_settable : Settable conv :=
  λ v, mk_conv (cv_left v) (cv_width v) (cv_prec v) (cv_long v) (cv_char v).
Definition conv0 : conv := mk_conv false 0 None false 0.

Inductive piece := Text (c : Z) | Conv (v : conv).
Inductive arg := ArgInt (n : Z) | ArgStr (s : list Z) | ArgDouble (x : double).

Fixpoint pieces_from (st : option conv) (f : list Z) : list piece :=
  match f with
  | [] => []
  | c :: f =>
      match st with
      | None => if c =? 37 then pieces_from (Some conv0) f else Text c :: pieces_from None f
      | Some v =>
          if c =? 45 then pieces_from (Some (v <| cv_left := true |>)) f
          else if c =? 46 then pieces_from (Some (v <| cv_prec := Some 0%nat |>)) f
          else if c =? 108 then pieces_from (Some (v <| cv_long := true |>)) f
          else if isdigit c then
            let d := Z.to_nat (c - 48) in
            pieces_from (Some (match cv_prec v with
                               | Some p => v <| cv_prec := Some (10 * p + d)%nat |>
                               | None => v <| cv_width := (10 * cv_width v + d)%nat |>
                               end)) f
          else Conv (v <| cv_char := c |>) :: pieces_from None f
      end
  end.
Definition pieces (f : string) : list piece := pieces_from None (str f).
Arguments pieces f%_string_scope.

Definition pad (v : conv) (s : list Z) : list Z :=
  let spaces := replicate (cv_width v - length s) 32 in
  if cv_left v then s ++ spaces else spaces ++ s.

(** [None] is an argument of another type than its conversion. *)
Definition convert (v : conv) (a : arg) : option (list Z) :=
  match a with
  | ArgStr s => if cv_char v =? 115 then Some (pad v s) else None
  | ArgInt n =>
      if cv_char v =? 100 then Some (pad v (show_int (int32 n)))
      else if cv_char v =? 117 then
        Some (pad v (show_nat (n mod (if cv_long v then 2 ^ 64 else 2 ^ 32))))
      else None
  | ArgDouble x => if cv_char v =? 102 then Some (pad v (show_double (default 6%nat (cv_prec v)) x)) else None
  end.

Fixpoint print (ps : list piece) (args : list arg) : option (list Z) :=
  match ps with
  | [] => Some []
  | Text c :: ps => rest ← print ps args; Some (c :: rest)
  | Conv v :: ps =>
      match args with
      | [] => None
      | a :: args => s ← convert v a; rest ← print ps args; Some (s ++ rest)
      end
  end.
Definition printf (f : string) (args : list arg) : option (list Z) := print (pieces f) args.
Arguments printf f%_string_scope args.

(** A format of the source that ends with a newline. *)
Definition printf_line (f : string) (args : list arg) : option (list Z) :=
  s ← printf f args; Some (s ++ [10]).
Arguments printf_line f%_string_scope args.

(** [snprintf] into [n] bytes: the string in the buffer. *)
Definition snprintf (n : nat) (f : string) (args : list arg) : option (list Z) :=
  s ← printf f args; Some (take (n - 1) s).
Arguments snprintf n f%_string_scope args.

(** [inet_ntop(AF_INET, ...)] of an address in network byte order. *)
Definition addr_byte (addr : Z) (i : Z) : Z := Z.land (Z.shiftr addr (8 * i)) 255.
Definition inet_ntop (addr : Z) : list Z :=
  show_nat (addr_byte addr 0) ++ [46] ++ show_nat (addr_byte addr 1) ++ [46]
  ++ show_nat (addr_byte addr 2) ++ [46] ++ show_nat (addr_byte addr 3).

(** Runs a [printf] on arguments that are variables. *)
Ltac run_printf :=
  unfold printf_line, printf;
  match goal with |- context [pieces ?f] => let x := eval vm_compute in (pieces f) in change (pieces f) with x end;
  cbn [print convert pad cv_left cv_width cv_char cv_prec cv_long mbind option_bind Z.eqb Pos.eqb replicate Nat.sub app];
  rewrite ?app_nil_l, <- ?app_assoc; repeat (rewrite <- app_comm_cons || rewrite <- app_assoc); reflexivity.

(** ** Printed addresses *)

Lemma show_digits_length fuel k n acc :
  0 ≤ n < 10 ^ Z.of_nat (S k) → (length (show_digits fuel n acc) <= length acc + S k)%nat.
Proof.
  revert fuel n acc. induction k as [|k IH]; intros [|fuel] n acc Hn; cbn [show_digits]; try lia.
  - change (10 ^ Z.of_nat 1) with 10 in Hn. case_if; bools; [simpl; lia|lia].
  - case_if; [simpl; lia|]. rewrite Nat2Z.inj_succ, Z.pow_succ_r in Hn by lia.
    etransitivity; [apply IH; split; [dlia|]|simpl; lia].
    apply Z.div_lt_upper_bound; lia.
Qed.

Lemma show_nat_length n : 0 ≤ n < 1000 → (length (show_nat n) <= 3)%nat.
Proof. intros Hn. by apply (show_digits_length 20 2 n []). Qed.

Lemma scan_show_nat n rest :
  0 ≤ n < 10 ^ 20 → scan_digits 0 (show_nat n ++ 46 :: rest) = (n, 46 :: rest).
Proof. intros Hn. unfold show_nat. rewrite <- show_digits_app, scan_show_digits by done. done. Qed.

Lemma show_nat_dot_inj a b r r' :
  0 ≤ a < 10 ^ 20 → 0 ≤ b < 10 ^ 20 → show_nat a ++ 46 :: r = show_nat b ++ 46 :: r' → a = b ∧ r = r'.
Proof.
  intros Ha Hb E. apply (f_equal (scan_digits 0)) in E.
  rewrite !scan_show_nat in E by done. by injection E.
Qed.

Lemma show_nat_inj a b : 0 ≤ a < 10 ^ 20 → 0 ≤ b < 10 ^ 20 → show_nat a = show_nat b → a = b.
Proof. intros Ha Hb E. eapply (show_nat_dot_inj a b [] []); [done..|by rewrite E]. Qed.

Lemma addr_byte_eq addr i : 0 ≤ i → addr_byte addr i = addr / 2 ^ (8 * i) mod 256.
Proof.
  intros Hi. unfold addr_byte. rewrite Z.shiftr_div_pow2 by lia.
  change 255 with (Z.ones 8). by rewrite Z.land_ones.
Qed.

Lemma addr_byte_bound addr i : 0 ≤ i → 0 ≤ addr_byte addr i < 256.
Proof. intros Hi. rewrite addr_byte_eq by done. by apply Z.mod_pos_bound. Qed.

(** The text fits [INET_ADDRSTRLEN] with its terminator. *)
Lemma inet_ntop_length addr : (length (inet_ntop addr) <= 15)%nat.
Proof.
  assert (∀ i, 0 ≤ i → (length (show_nat (addr_byte addr i)) <= 3)%nat) as Hl.
  { intros i Hi. apply show_nat_length. pose proof (addr_byte_bound addr i Hi). lia. }
  unfold inet_ntop. rewrite !length_app. cbn [length].
  pose proof (Hl 0). pose proof (Hl 1). pose proof (Hl 2). pose proof (Hl 3). lia.
Qed.

Lemma addr_bytes addr :
  0 ≤ addr < 2 ^ 32 →
  addr = addr_byte addr 0 + 256 * addr_byte addr 1 + 65536 * addr_byte addr 2 + 16777216 * addr_byte addr 3.
Proof.
  intros Ha. rewrite !addr_byte_eq by lia.
  change (2 ^ (8 * 0)) with 1. change (2 ^ (8 * 1)) with 256. change (2 ^ (8 * 2)) with 65536.
  change (2 ^ (8 * 3)) with (256 * 256 * 256). change 65536 with (256 * 256) at 1.
  rewrite <- !Z.div_div, Z.div_1_r by lia.
  pose proof (Z.div_mod addr 256). pose proof (Z.div_mod (addr / 256) 256).
  pose proof (Z.div_mod (addr / 256 / 256) 256). pose proof (Z.div_mod (addr / 256 / 256 / 256) 256).
  assert (addr / 256 / 256 / 256 / 256 = 0) as E0 by (rewrite !Z.div_div by lia; apply Z.div_small; lia).
  rewrite E0 in *. lia.
Qed.

(** Different addresses print differently. *)
Lemma inet_ntop_inj a b : 0 ≤ a < 2 ^ 32 → 0 ≤ b < 2 ^ 32 → inet_ntop a = inet_ntop b → a = b.
Proof.
  intros Ha Hb. unfold inet_ntop. cbn [app]. intros E.
  assert (∀ x i, 0 ≤ i → 0 ≤ addr_byte x i < 10 ^ 20) as Hx
    by (intros x i Hi; pose proof (addr_byte_bound x i Hi); lia).
  apply show_nat_dot_inj in E as [E0 E]; [|by apply Hx..].
  apply show_nat_dot_inj in E as [E1 E]; [|by apply Hx..].
  apply show_nat_dot_inj in E as [E2 E3]; [|by apply Hx..].
  apply show_nat_inj in E3; [|by apply Hx..].
  rewrite (addr_bytes a), (addr_bytes b) by done. congruence.
Qed.
