(* ===== verification/Netlink.v ===== *)
(** * Netlink layer (src/pd/hal_netlink_linux.c)

    The messages exchanged with the kernel and the two caches of the layer: the
    addresses of the interfaces and the MPLS routes.  Requests are the bytes
    given to [sendto]; a reply is the buffer that [recv] filled, with the number
    of bytes received.  Sockets, [getifaddrs] and the kernel itself are not
    modelled: a call that needs a socket gets two flags, whether it opened and
    whether the request was sent.  A read outside a buffer is [None]. *)

From stdpp Require Import base numbers list option.
From S2P Require Import Prelude Wire.

(** ** Kernel structures (<linux/netlink.h>, <linux/rtnetlink.h>) *)

Record nlmsghdr := mk_nlmsghdr {
  nlmsg_len : Z;
  nlmsg_type : Z;
  nlmsg_flags : Z;
  nlmsg_seq : Z;
  nlmsg_pid : Z;
}.
#[export] Instance nlmsghdr_wire : Wire nlmsghdr := {
  widths := [4; 2; 2; 4; 4]%nat;
  to_fields r := [nlmsg_len r; nlmsg_type r; nlmsg_flags r; nlmsg_seq r; nlmsg_pid r];
  of_fields vs :=
    match vs with
    | [x0; x1; x2; x3; x4] => Some (mk_nlmsghdr x0 x1 x2 x3 x4)
    | _ => None
    end;
}.
#[export] Instance nlmsghdr_wire_laws : WireLaws nlmsghdr.
Proof. solve_wire_laws. Qed.

Record rtmsg := mk_rtmsg {
  rtm_family : Z;
  rtm_dst_len : Z;
  rtm_src_len : Z;
  rtm_tos : Z;
  rtm_table : Z;
  rtm_protocol : Z;
  rtm_scope : Z;
  rtm_type : Z;
  rtm_flags : Z;
}.
#[export] Instance rtmsg_wire : Wire rtmsg := {
  widths := [1; 1; 1; 1; 1; 1; 1; 1; 4]%nat;
  to_fields r := [rtm_family r; rtm_dst_len r; rtm_src_len r; rtm_tos r; rtm_table r;
                  rtm_protocol r; rtm_scope r; rtm_type r; rtm_flags r];
  of_fields vs :=
    match vs with
    | [x0; x1; x2; x3; x4; x5; x6; x7; x8] => Some (mk_rtmsg x0 x1 x2 x3 x4 x5 x6 x7 x8)
    | _ => None
    end;
}.
#[export] Instance rtmsg_wire_laws : WireLaws rtmsg.
Proof. solve_wire_laws. Qed.

Record ifaddrmsg := mk_ifaddrmsg {
  ifa_family : Z;
  ifa_prefixlen : Z;
  ifa_flags : Z;
  ifa_scope : Z;
  ifa_index : Z;
}.
#[export] Instance ifaddrmsg_wire : Wire ifaddrmsg := {
  widths := [1; 1; 1; 1; 4]%nat;
  to_fields r := [ifa_family r; ifa_prefixlen r; ifa_flags r; ifa_scope r; ifa_index r];
  of_fields vs :=
    match vs with
    | [x0; x1; x2; x3; x4] => Some (mk_ifaddrmsg x0 x1 x2 x3 x4)
    | _ => None
    end;
}.
#[export] Instance ifaddrmsg_wire_laws : WireLaws ifaddrmsg.
Proof. solve_wire_laws. Qed.

Record rtattr := mk_rtattr {
  rta_len : Z;
  rta_type : Z;
}.
#[export] Instance rtattr_wire : Wire rtattr := {
  widths := [2; 2]%nat;
  to_fields r := [rta_len r; rta_type r];
  of_fields vs := match vs with [x0; x1] => Some (mk_rtattr x0 x1) | _ => None end;
}.
#[export] Instance rtattr_wire_laws : WireLaws rtattr.
Proof. solve_wire_laws. Qed.

Definition AF_INET : Z := 2.
Definition AF_MPLS : Z := 28.
Definition RTM_NEWLINK : Z := 16.
Definition RTM_NEWADDR : Z := 20.
Definition RTM_DELADDR : Z := 21.
Definition RTM_GETADDR : Z := 22.
Definition RTM_NEWROUTE : Z := 24.
Definition RTM_DELROUTE : Z := 25.
Definition RTM_GETROUTE : Z := 26.
Definition NLMSG_ERROR : Z := 2.
Definition NLMSG_DONE : Z := 3.
Definition NLM_F_REQUEST : Z := 1.
Definition NLM_F_DUMP : Z := 768.
Definition NLM_F_REPLACE : Z := 256.
Definition NLM_F_CREATE : Z := 1024.
Definition RTA_DST : Z := 1.
Definition RTA_OIF : Z := 4.
Definition RTA_GATEWAY : Z := 5.
Definition IFA_LOCAL : Z := 2.
Definition RT_TABLE_MAIN : Z := 254.
Definition RTPROT_BOOT : Z := 3.
Definition RTN_UNICAST : Z := 1.

(** As the source defines them; see [encap_attributes_swapped]. *)
Definition RTA_VIA : Z := 18.
Definition RTA_NEWDST : Z := 19.
Definition RTA_ENCAP : Z := 21.
Definition RTA_ENCAP_TYPE : Z := 22.
Definition LWTUNNEL_ENCAP_MPLS : Z := 1.
Definition MPLS_IPTUNNEL_DST : Z := 1.

(** [NLMSG_ALIGN] and [RTA_ALIGN]. *)
Definition align4 (n : Z) : Z := (n + 3) / 4 * 4.

(** ** Requests *)

(** [memcpy(m + o, bs, |bs|)] inside the buffer [m]. *)
Definition put (o : Z) (bs : list Z) (m : list Z) : option (list Z) :=
  if (0 <=? o) && (Z.to_nat o + length bs <=? length m)%nat
  then Some (overwrite m (Z.to_nat o) bs) else None.

(** [n->nlmsg_len = v] *)
Definition set_nlmsg_len (v : Z) (m : list Z) : option (list Z) := put 0 (le_bytes 4 v) m.

(** [addattr_l(n, maxlen, type, data, alen)]: the return code and the buffer. *)
Definition addattr_l (maxlen type : Z) (data : list Z) (m : list Z) : option (Z * list Z) :=
  let len := 4 + Z.of_nat (length data) in
  nlen ← load 4 m 0;
  if maxlen <? align4 nlen + align4 len then Some (-1, m)
  else
    m ← put (align4 nlen) (store_struct (mk_rtattr len type) ++ data) m;
    m ← set_nlmsg_len (align4 nlen + align4 len) m;
    Some (0, m).

(** The callers ignore the return code. *)
Definition addattr (type : Z) (data : list Z) (m : list Z) : option (list Z) :=
  snd <$> addattr_l (Z.of_nat (length m)) type data m.

(** A zeroed request of [28 + buf] bytes with its two headers. *)
Definition new_request (buf : nat) (type flags seq pid : Z) (rtm : rtmsg) : list Z :=
  store_struct (mk_nlmsghdr 28 type flags seq pid) ++ store_struct rtm ++ replicate buf 0.

(** [send(sock, &req, req.nlh.nlmsg_len, 0)] *)
Definition sent (m : list Z) : option (list Z) :=
  len ← load 4 m 0;
  if (len <=? Z.of_nat (length m)) then Some (take (Z.to_nat len) m) else None.

(** The label stack entry with the bottom-of-stack bit, on the wire. *)
Definition label_entry (label : Z) : Z :=
  htonl (Z.lor (Z.shiftl label 12 mod 2 ^ 32) (Z.shiftl 1 8)).

Definition mpls_rtm (type_ : Z) : rtmsg :=
  mk_rtmsg AF_MPLS 20 0 0 RT_TABLE_MAIN RTPROT_BOOT 0 type_ 0.
Definition inet_rtm : rtmsg := mk_rtmsg AF_INET 32 0 0 RT_TABLE_MAIN RTPROT_BOOT 0 RTN_UNICAST 0.

(** The swap of a transit node: [next_hop] is [None] for a NULL pointer. *)
Definition mpls_install_request (in_label out_label out_ifindex : Z) (next_hop : option Z) (pid : Z) :
    option (list Z) :=
  let m := new_request 512 RTM_NEWROUTE (Z.lor (Z.lor NLM_F_REQUEST NLM_F_CREATE) NLM_F_REPLACE) 2 pid
             (mpls_rtm RTN_UNICAST) in
  m ← addattr RTA_DST (le_bytes 4 (label_entry in_label)) m;
  m ← addattr RTA_OIF (le_bytes 4 out_ifindex) m;
  m ← (if out_label =? 0 then Some m
       else addattr RTA_NEWDST (le_bytes 4 (label_entry out_label)) m);
  m ← (match next_hop with
       | Some nh => if nh =? 0 then Some m
                    else addattr RTA_VIA (le_bytes 2 AF_INET ++ le_bytes 4 nh) m
       | None => Some m
       end);
  sent m.

(** The push of an ingress: the encapsulation is nested and written in place. *)
Definition add_encap (out_label : Z) (m : list Z) : option (list Z) :=
  nlen ← load 4 m 0;
  let o := align4 nlen in
  m ← put (o + 2) (le_bytes 2 RTA_ENCAP) m;
  m ← put (o + 6) (le_bytes 2 MPLS_IPTUNNEL_DST) m;
  m ← put (o + 4) (le_bytes 2 8) m;
  m ← put (o + 8) (le_bytes 4 (label_entry out_label)) m;
  m ← put o (le_bytes 2 (4 + align4 8)) m;
  set_nlmsg_len (o + align4 (4 + align4 8)) m.

Definition mpls_push_request (out_label out_ifindex : Z) (next_hop : option Z) (dest pid : Z) :
    option (list Z) :=
  let m := new_request 512 RTM_NEWROUTE (Z.lor (Z.lor NLM_F_REQUEST NLM_F_CREATE) NLM_F_REPLACE) 5 pid
             inet_rtm in
  m ← addattr RTA_DST (le_bytes 4 dest) m;
  m ← addattr RTA_OIF (le_bytes 4 out_ifindex) m;
  m ← (match next_hop with
       | Some nh => if nh =? 0 then Some m else addattr RTA_GATEWAY (le_bytes 4 nh) m
       | None => Some m
       end);
  m ← addattr RTA_ENCAP_TYPE (le_bytes 2 LWTUNNEL_ENCAP_MPLS) m;
  m ← add_encap out_label m;
  sent m.

Definition mpls_remove_request (in_label pid : Z) : option (list Z) :=
  let m := new_request 256 RTM_DELROUTE NLM_F_REQUEST 3 pid (mk_rtmsg AF_MPLS 20 0 0 0 0 0 0 0) in
  m ← addattr RTA_DST (le_bytes 4 (label_entry in_label)) m;
  sent m.

Definition ip_remove_request (dest pid : Z) : option (list Z) :=
  let m := new_request 256 RTM_DELROUTE NLM_F_REQUEST 4 pid inet_rtm in
  m ← addattr RTA_DST (le_bytes 4 dest) m;
  sent m.

(** The route lookup writes its attribute directly. *)
Definition getroute_request (dest pid : Z) : option (list Z) :=
  let m := new_request 256 RTM_GETROUTE NLM_F_REQUEST 1 pid (mk_rtmsg AF_INET 32 0 0 0 0 0 0 0) in
  m ← put (align4 28) (store_struct (mk_rtattr 8 RTA_DST) ++ le_bytes 4 dest) m;
  m ← set_nlmsg_len (align4 28 + 8) m;
  sent m.

(** ** Walking a buffer *)

(** What a loop body does next: [continue], or [break] and [return]. *)
Inductive control (St : Type) := Continue (st : St) | Break (st : St).
Arguments Continue {St}.
Arguments Break {St}.

Section walk.
Context {St : Type}.

(** [for (; RTA_OK(rta, rta_len); rta = RTA_NEXT(rta, rta_len))]: the body gets
    the header of the attribute and the offset of its data. *)
Fixpoint rta_for (body : rtattr → nat → St → option St) (fuel : nat) (m : list Z) (o : nat) (len : Z)
    (st : St) : option St :=
  if len <? 4 then Some st
  else
    rta ← load_struct rtattr m o;
    if (rta_len rta <? 4) || (len <? rta_len rta) then Some st
    else match fuel with
         | O => None
         | S fuel =>
             st ← body rta (o + 4)%nat st;
             let n := align4 (rta_len rta) in
             rta_for body fuel m (o + Z.to_nat n)%nat (len - n) st
         end.

(** [for (nh = buf; NLMSG_OK(nh, len); nh = NLMSG_NEXT(nh, len))] *)
Fixpoint nlmsg_for (body : nlmsghdr → nat → St → option (control St)) (fuel : nat) (m : list Z)
    (o : nat) (len : Z) (st : St) : option St :=
  if len <? 16 then Some st
  else
    nh ← load_struct nlmsghdr m o;
    if (nlmsg_len nh <? 16) || (len <? nlmsg_len nh) then Some st
    else match fuel with
         | O => None
         | S fuel =>
             r ← body nh o st;
             match r with
             | Break st => Some st
             | Continue st =>
                 let n := align4 (nlmsg_len nh) in
                 nlmsg_for body fuel m (o + Z.to_nat n)%nat (len - n) st
             end
         end.
End walk.

(** The attributes behind a message at [o] whose own structure has [n] bytes;
    [RTM_PAYLOAD] and [IFA_PAYLOAD] as a signed [int]. *)
Definition payload_for {St} (body : rtattr → nat → St → option St) (m : list Z) (nh : nlmsghdr) (o n : nat)
    (st : St) : option St :=
  rta_for body (Z.to_nat (nlmsg_len nh)) m (o + 16 + n)%nat (nlmsg_len nh - 16 - Z.of_nat n) st.

(** ** Route lookup *)

(** The result so far: the interface and the next hop. *)
Record egress := mk_egress { eg_ifindex : Z; eg_next_hop : Z }.

(** A 32-bit [int]. *)
Definition to_int (v : Z) : Z := if v <? 2 ^ 31 then v else v - 2 ^ 32.

Definition route_attr (m : list Z) (rta : rtattr) (data : nat) (e : egress) : option egress :=
  if rta_type rta =? RTA_OIF then
    i ← load 4 m data; Some (mk_egress (to_int i) (eg_next_hop e))
  else if rta_type rta =? RTA_GATEWAY then
    a ← load 4 m data; Some (mk_egress (eg_ifindex e) a)
  else Some e.

(** The state of the loop: the answer when the function has returned. *)
Definition route_msg (m : list Z) (nh : nlmsghdr) (o : nat) (st : egress * option Z) :
    option (control (egress * option Z)) :=
  let '(e, _) := st in
  if nlmsg_type nh =? NLMSG_ERROR then Some (Break (e, Some (-1)))
  else if nlmsg_type nh =? RTM_NEWROUTE then
    e ← payload_for (route_attr m) m nh o 12 e;
    if 0 <=? eg_ifindex e then Some (Break (e, Some (eg_ifindex e))) else Some (Continue (e, None))
  else Some (Continue (e, None)).

(** [hal_netlink_get_egress_if(dest, next_hop)] from the reply on: the return
    code and [*next_hop]. *)
Definition parse_route_reply (dest : Z) (reply : list Z) (len : Z) : option (Z * Z) :=
  '(e, r) ← nlmsg_for (route_msg reply) (Z.to_nat len) reply 0 len (mk_egress (-1) dest, None);
  Some (default (-1) r, eg_next_hop e).

Definition hal_netlink_get_egress_if (dest next_hop pid : Z) (sock_ok send_ok : bool)
    (answer : list Z → option (list Z * Z)) : option (Z * Z) :=
  request ← getroute_request dest pid;
  if negb sock_ok then Some (-1, next_hop)
  else if negb send_ok then Some (-1, next_hop)
  else match answer request with
       | None => Some (-1, next_hop)
       | Some (reply, len) => parse_route_reply dest reply len
       end.

(** ** Interface addresses *)

Definition MAX_INTERFACES : nat := 256.
Record interface := mk_interface { if_index : Z; if_addr : Z; if_in_use : bool }.
Definition no_interface : interface := mk_interface 0 0 false.

(** The slot of the interface, else a free one. *)
Definition find_iface_slot (ifaces : list interface) (ifindex : Z) : option nat :=
  match list_find (λ i, if_in_use i = true ∧ if_index i = ifindex) ifaces with
  | Some (i, _) => Some i
  | None => fst <$> list_find (λ i, if_in_use i = false) ifaces
  end.

(** What RTM_NEWADDR and RTM_DELADDR do with an address. *)
Definition newaddr (ifindex addr : Z) (ifaces : list interface) : list interface :=
  match find_iface_slot ifaces ifindex with
  | Some i => <[i := mk_interface ifindex addr true]> ifaces
  | None => ifaces
  end.
Definition deladdr (ifindex addr : Z) (ifaces : list interface) : list interface :=
  match list_find (λ i, if_in_use i = true ∧ if_index i = ifindex ∧ if_addr i = addr) ifaces with
  | Some (i, e) => <[i := mk_interface (if_index e) (if_addr e) false]> ifaces
  | None => ifaces
  end.

(** One attribute; [ifa] is the offset of the [struct ifaddrmsg].  Without a
    slot the address is not read. *)
Definition newaddr_attr (m : list Z) (ifa : nat) (rta : rtattr) (data : nat) (ifaces : list interface) :
    option (list interface) :=
  if rta_type rta =? IFA_LOCAL then
    msg ← load_struct ifaddrmsg m ifa;
    match find_iface_slot ifaces (ifa_index msg) with
    | None => Some ifaces
    | Some _ => a ← load 4 m data; Some (newaddr (ifa_index msg) a ifaces)
    end
  else Some ifaces.

Definition deladdr_attr (m : list Z) (ifa : nat) (rta : rtattr) (data : nat) (ifaces : list interface) :
    option (list interface) :=
  if rta_type rta =? IFA_LOCAL then
    a ← load 4 m data;
    msg ← load_struct ifaddrmsg m ifa;
    Some (deladdr (ifa_index msg) a ifaces)
  else Some ifaces.

Definition process_msg (m : list Z) (nh : nlmsghdr) (o : nat) (ifaces : list interface) :
    option (control (list interface)) :=
  if nlmsg_type nh =? NLMSG_DONE then Some (Break ifaces)
  else if nlmsg_type nh =? NLMSG_ERROR then Some (Continue ifaces)
  else if nlmsg_type nh =? RTM_NEWADDR then Continue <$> payload_for (newaddr_attr m (o + 16)) m nh o 8 ifaces
  else if nlmsg_type nh =? RTM_DELADDR then Continue <$> payload_for (deladdr_attr m (o + 16)) m nh o 8 ifaces
  else if nlmsg_type nh =? RTM_NEWLINK then
    (* [ifi->ifi_flags] is read for the log *)
    _ ← load 4 m (o + 16 + 8); Some (Continue ifaces)
  else Some (Continue ifaces).

(** [hal_netlink_process] with what [recv] gives ([None]: an error). *)
Definition hal_netlink_process (received : option (list Z * Z)) (ifaces : list interface) :
    option (list interface) :=
  match received with
  | None => Some ifaces
  | Some (m, len) => nlmsg_for (process_msg m) (Z.to_nat len) m 0 len ifaces
  end.

(** One buffer of the dump at start; [true]: the dump is done. *)
Definition dump_msg (m : list Z) (nh : nlmsghdr) (o : nat) (st : list interface * bool) :
    option (control (list interface * bool)) :=
  let '(ifaces, _) := st in
  if nlmsg_type nh =? NLMSG_DONE then Some (Break (ifaces, true))
  else if nlmsg_type nh =? NLMSG_ERROR then Some (Break (ifaces, false))
  else if nlmsg_type nh =? RTM_NEWADDR then
    ifaces ← payload_for (newaddr_attr m (o + 16)) m nh o 8 ifaces; Some (Continue (ifaces, false))
  else Some (Continue (ifaces, false)).

(** The dump of [hal_netlink_init]: the buffers received until [recv] has no
    more. *)
Fixpoint netlink_dump (received : list (list Z * Z)) (ifaces : list interface) :
    option (list interface) :=
  match received with
  | [] => Some ifaces
  | (m, len) :: received =>
      '(ifaces, done) ← nlmsg_for (dump_msg m) (Z.to_nat len) m 0 len (ifaces, false);
      if done : bool then Some ifaces else netlink_dump received ifaces
  end.

(** The dump request of [hal_netlink_init]. *)
Definition getaddr_request (pid : Z) : list Z :=
  store_struct (mk_nlmsghdr 24 RTM_GETADDR (Z.lor NLM_F_REQUEST NLM_F_DUMP) 1 pid)
  ++ store_struct (mk_ifaddrmsg AF_INET 0 0 0 0).

(** The return code, the request sent if any, and the cache. *)
Definition hal_netlink_init (pid : Z) (sock_ok bind_ok send_ok : bool)
    (received : list (list Z * Z)) (ifaces : list interface) :
    option (Z * option (list Z) * list interface) :=
  if negb sock_ok then Some (-1, None, ifaces)
  else if negb bind_ok then Some (-1, None, ifaces)
  else if negb send_ok then Some (0, None, ifaces)
  else ifaces ← netlink_dump received ifaces; Some (0, Some (getaddr_request pid), ifaces).

(** ** Addresses of the host

    [getifaddrs] gives a list, or fails; an entry may have no address. *)

Record ifaddrs := mk_ifaddrs {
  ifs_sockaddr : option (Z * Z); (* the family and [sin_addr] *)
  ifs_index : Z; (* [if_nametoindex] of its name *)
}.

(** The return code and [*addr]. *)
Fixpoint local_addr_of (ifindex addr : Z) (l : list ifaddrs) : Z * Z :=
  match l with
  | [] => (-1, addr)
  | ifa :: l =>
      match ifs_sockaddr ifa with
      | Some (family, a) =>
          if (family =? AF_INET) && (ifs_index ifa =? ifindex) then (0, a)
          else local_addr_of ifindex addr l
      | None => local_addr_of ifindex addr l
      end
  end.
Definition hal_netlink_get_local_addr (ifindex addr : Z) (l : option (list ifaddrs)) : Z * Z :=
  match l with Some l => local_addr_of ifindex addr l | None => (-1, addr) end.

Definition hal_netlink_is_local_addr (addr : Z) (l : option (list ifaddrs)) : bool :=
  match l with
  | Some l => existsb (λ ifa, match ifs_sockaddr ifa with
                              | Some (family, a) => (family =? AF_INET) && (a =? addr)
                              | None => false
                              end) l
  | None => false
  end.

(** ** MPLS routes *)

Definition MAX_MPLS_ROUTES : nat := 4096.
Record mpls_route := mk_mpls_route {
  mr_in_label : Z;
  mr_out_label : Z;
  mr_ifindex : Z;
  mr_next_hop : Z;
  mr_dest_addr : Z;
  mr_active : bool;
}.
#[export] Instance mpls_route_settable : Settable mpls_route :=
  λ r, mk_mpls_route (mr_in_label r) (mr_out_label r) (mr_ifindex r) (mr_next_hop r)
         (mr_dest_addr r) (mr_active r).
Definition no_route : mpls_route := mk_mpls_route 0 0 0 0 0 false.

(** Is the active route [r] the one for [in_label] (for a push: [dest])? *)
Definition route_match (in_label : Z) (dest : option Z) (r : mpls_route) : bool :=
  if (in_label =? 0) && (mr_in_label r =? 0) then bool_decide (Some (mr_dest_addr r) = dest)
  else (0 <? in_label) && (mr_in_label r =? in_label).

Definition route_set (in_label out_label ifindex : Z) (next_hop dest : option Z) (r : mpls_route) :
    mpls_route :=
  mk_mpls_route in_label out_label ifindex (default (mr_next_hop r) next_hop)
    (default (mr_dest_addr r) dest) true.

(** The first loop of [hal_mpls_install]. *)
Fixpoint routes_install (in_label out_label ifindex : Z) (next_hop dest : option Z)
    (rs : list mpls_route) : list mpls_route :=
  match rs with
  | [] => []
  | r :: rs =>
      if negb (mr_active r) || (mr_active r && route_match in_label dest r)
      then route_set in_label out_label ifindex next_hop dest r :: rs
      else r :: routes_install in_label out_label ifindex next_hop dest rs
  end.

(** The loop of [hal_mpls_remove]. *)
Definition route_remove (in_label : Z) (dest : option Z) (r : mpls_route) : mpls_route :=
  if mr_active r &&
     (if in_label =? 0 then bool_decide (Some (mr_dest_addr r) = dest) && (mr_in_label r =? 0)
      else mr_in_label r =? in_label)
  then r <| mr_active := false |> else r.

(** The return code, the request sent if any, and the cache. *)
Definition hal_mpls_install (in_label out_label out_ifindex : Z) (next_hop dest : option Z) (pid : Z)
    (sock_ok send_ok : bool) (rs : list mpls_route) : option (Z * option (list Z) * list mpls_route) :=
  let rs := routes_install in_label out_label out_ifindex next_hop dest rs in
  let finish request :=
    if negb sock_ok then Some (-1, None, rs)
    else if negb send_ok then Some (-1, None, rs)
    else Some (0, Some request, rs) in
  if in_label =? 0 then
    match dest with
    | None => Some (-1, None, rs)
    | Some d => request ← mpls_push_request out_label out_ifindex next_hop d pid; finish request
    end
  else request ← mpls_install_request in_label out_label out_ifindex next_hop pid; finish request.

Definition hal_mpls_remove (in_label : Z) (dest : option Z) (pid : Z) (sock_ok send_ok : bool)
    (rs : list mpls_route) : option (Z * option (list Z) * list mpls_route) :=
  let rs := route_remove in_label dest <$> rs in
  let finish (request : list Z) :=
    if negb sock_ok then Some (-1, None, rs)
    else if negb send_ok then Some (0, None, rs)
    else Some (0, Some request, rs) in
  if in_label =? 0 then
    match dest with
    | None => Some (-1, None, rs)
    | Some d => request ← ip_remove_request d pid; finish request
    end
  else request ← mpls_remove_request in_label pid; finish request.
