(* ===== verification/Display.v ===== *)
(** * The displays (the dump functions behind the show commands)

    [rsvp_psb_dump] and [rsvp_rsb_dump] (src/pi/rsvp_state_db.c),
    [rsvp_frr_dump] (src/pi/rsvp_state_machine.c), [rsvp_hello_dump]
    (src/pi/rsvp_hello.c), [rsvp_if_dump] and [rsvp_if_dump_one]
    (src/pi/rsvp_if.c) and [hal_mpls_dump] (src/pd/hal_netlink_linux.c), as the
    bytes they print. *)

From Stdlib Require Import String SpecFloat.
From stdpp Require Import base numbers list option gmap sets.
From S2P Require Import Prelude Wire Protocol LabelMgr WheelTimer Timers Builder SendPacket Parser.
From S2P Require Import Interfaces StateDb Timing State Messages StateMachine Hello RsvpIf Scan Printf Netlink.

(** [localtime] with [strftime] in the format of [rsvp_hello_dump], and the
    order in which the compiler evaluates the arguments of a call. *)
Class TermEnv := { local_time : Z → list Z; args_right_to_left : bool }.

(** ** State blocks *)

(** The loop over the chains: the text and the count.  A block may be skipped
    ([None]). *)
Fixpoint dump_blocks {S A} (get : loc → M S A) (line : A → M S (option (list Z))) (chain : list loc) :
    M S (list Z * Z) :=
  match chain with
  | [] => mret ([], 0)
  | l :: chain =>
      a ← get l;
      t ← line a;
      '(rest, n) ← dump_blocks get line chain;
      mret (match t with Some t => (t ++ rest, 1 + n) | None => (rest, n) end)
  end.

Section blocks.
Context {TS LS : Type} `{TimerSys TS timer_id timer_cb} `{LabelSys LS} `{Env}.
Local Notation state := (state TS LS).
Local Notation M := (M state).
Implicit Types s : state.

Definition psb_line (p : rsvp_psb) : M (option (list Z)) :=
  let session := key_session (psb_key p) in
  t ← lift (printf_line "PSB: Tunnel ID %d, Dest: %s, Sender: %s, LSP Name: %s"
    [ArgInt (ntohs (sess_tunnel_id session)); ArgStr (inet_ntop (sess_dest_addr session));
     ArgStr (inet_ntop (snd_source_addr (key_sender (psb_key p))));
     ArgStr (default (str "N/A") (psb_lsp_name p))]);
  mret (Some t).

Definition rsvp_psb_dump : M (list Z) :=
  title ← lift (printf_line "--- Path State Blocks (PSBs) ---" []);
  chain ← gets (λ s, mjoin (tb_buckets (st_psb s)));
  '(body, count) ← dump_blocks psb_get psb_line chain;
  total ← lift (printf_line "Total PSBs: %d" [ArgInt count]);
  mret (title ++ body ++ total).

Definition rsb_line (r : rsvp_rsb) : M (option (list Z)) :=
  let session := key_session (rsb_key r) in
  t ← lift (printf_line "RSB: Tunnel ID %d, Dest: %s, Sender: %s, Label In: %u, Label Out: %u"
    [ArgInt (ntohs (sess_tunnel_id session)); ArgStr (inet_ntop (sess_dest_addr session));
     ArgStr (inet_ntop (snd_source_addr (key_sender (rsb_key r))));
     ArgInt (rsb_label_in r); ArgInt (rsb_label_out r)]);
  mret (Some t).

Definition rsvp_rsb_dump : M (list Z) :=
  title ← lift (printf_line "--- Reservation State Blocks (RSBs) ---" []);
  chain ← gets (λ s, mjoin (tb_buckets (st_rsb s)));
  '(body, count) ← dump_blocks rsb_get rsb_line chain;
  total ← lift (printf_line "Total RSBs: %d" [ArgInt count]);
  mret (title ++ body ++ total).

(** [bypass_label]. *)
Definition frr_bypass_label (p : rsvp_psb) : M Z :=
  match psb_bypass_psb p with
  | None => mret 0
  | Some b =>
      q ← psb_get b;
      brsb ← rsvp_rsb_find (psb_key q);
      match brsb with
      | Some l => r ← rsb_get l; mret (rsb_label_out r)
      | None => mret 0
      end
  end.

Definition frr_status (p : rsvp_psb) : string :=
  if psb_frr_active p then "ACTIVE"
  else match psb_bypass_psb p with Some _ => "armed" | None => "pending" end.

Definition frr_line (p : rsvp_psb) : M (option (list Z)) :=
  if psb_is_bypass_tunnel p then mret None
  else if bool_decide (psb_frr_mode p = RSVP_FRR_NONE) then mret None
  else
    let mode_str := if bool_decide (psb_frr_mode p = RSVP_FRR_FACILITY) then "facility"%string else "1-to-1"%string in
    bypass_label ← frr_bypass_label p;
    t ← lift (printf_line "%-12u %-8u %-8s %-10u %-8s %-14u %-10u"
      [ArgInt (ntohs (sess_tunnel_id (key_session (psb_key p))));
       ArgInt (ntohs (snd_lsp_id (key_sender (psb_key p))));
       ArgStr (str mode_str); ArgInt (psb_ifindex_out p); ArgStr (str (frr_status p));
       ArgInt (psb_bypass_tunnel_id p); ArgInt bypass_label]);
    mret (Some t).

Definition frr_titles : option (list Z) :=
  t1 ← printf_line "%-12s %-8s %-8s %-10s %-8s %-14s %-10s"
    (ArgStr ∘ str <$> ["TunnelID"; "LSPID"; "Mode"; "ProtIface"; "Status"; "Bypass TID"; "BypassLabel"]%string);
  t2 ← printf_line "%-12s %-8s %-8s %-10s %-8s %-14s %-10s"
    (ArgStr ∘ str <$> ["--------"; "-----"; "----"; "---------"; "------"; "----------"; "-----------"]%string);
  Some (t1 ++ t2).

Definition rsvp_frr_dump : M (list Z) :=
  titles ← lift frr_titles;
  chain ← all_psbs;
  '(body, found) ← dump_blocks psb_get frr_line chain;
  none ← lift (if found =? 0 then printf_line "No FRR-protected LSPs." [] else Some []);
  mret (titles ++ body ++ none).
End blocks.

(** ** Neighbours *)

Definition state_str (st : rsvp_nbor_state_t) : string :=
  match st with
  | RSVP_NBOR_IDLE => "IDLE"
  | RSVP_NBOR_UP => "UP"
  | RSVP_NBOR_DOWN => "DOWN"
  end.

(** The lines of the entries of a table that [active] selects. *)
Fixpoint dump_entries {A} (active : A → bool) (line : A → option (list Z)) (l : list A) : option (list Z) :=
  match l with
  | [] => Some []
  | a :: l =>
      t ← (if active a then line a else Some []);
      rest ← dump_entries active line l;
      Some (t ++ rest)
  end.

Section tables.
Context `{TermEnv}.

Definition nbor_line (n : rsvp_neighbor) : option (list Z) :=
  let up_str := if bool_decide (nb_state n = RSVP_NBOR_UP) && negb (nb_up_since n =? 0)
                then local_time (nb_up_since n) else str "-" in
  printf_line "%-17s %-17s %-6s %-8u %-10llu %-10llu %-25s"
    [ArgStr (inet_ntop (nb_addr n)); ArgStr (inet_ntop (nb_local_addr n)); ArgStr (str (state_str (nb_state n)));
     ArgInt (nb_ifindex n); ArgInt (nb_hellos_sent n); ArgInt (nb_hellos_rcvd n); ArgStr up_str].

Definition nbor_titles : option (list Z) :=
  t1 ← printf_line "%-17s %-17s %-6s %-8s %-10s %-10s %-25s"
    (ArgStr ∘ str <$> ["Neighbor"; "Local Addr"; "State"; "Iface"; "Hellos Tx"; "Hellos Rx"; "Up Since"]%string);
  t2 ← printf_line "%-17s %-17s %-6s %-8s %-10s %-10s %-25s"
    (ArgStr ∘ str <$> ["--------"; "----------"; "-----"; "-----"; "---------"; "---------"; "--------"]%string);
  Some (t1 ++ t2).

Definition rsvp_hello_dump (nbors : list rsvp_neighbor) (count : nat) : option (list Z) :=
  let nbors := take count nbors in
  if forallb (negb ∘ nb_active) nbors then printf_line "No RSVP neighbors configured." []
  else
    titles ← nbor_titles;
    body ← dump_entries nb_active nbor_line nbors;
    Some (titles ++ body).

(** ** Interfaces *)

Definition dbl (n : positive) : double := binary_normalize 53 1024 (Zpos n) 0 false.
Definition dgeb (x y : double) : bool := SFleb y x.
Definition ddiv (x y : double) : double := SFdiv 53 1024 x y.

(** Into a buffer of [n] bytes. *)
Definition format_bps (bps : double) (n : nat) : option (list Z) :=
  if dgeb bps (dbl 1000000000) then snprintf n "%.2f Gbps" [ArgDouble (ddiv bps (dbl 1000000000))]
  else if dgeb bps (dbl 1000000) then snprintf n "%.2f Mbps" [ArgDouble (ddiv bps (dbl 1000000))]
  else if dgeb bps (dbl 1000) then snprintf n "%.2f Kbps" [ArgDouble (ddiv bps (dbl 1000))]
  else snprintf n "%.0f bps" [ArgDouble bps].

Definition if_titles : option (list Z) :=
  t1 ← printf_line "%-12s %-8s %-7s %-18s %-18s"
    (ArgStr ∘ str <$> ["Interface"; "ifindex"; "RSVP"; "Total BW"; "Reservable BW"]%string);
  t2 ← printf_line "%-12s %-8s %-7s %-18s %-18s"
    (ArgStr ∘ str <$> ["---------"; "-------"; "----"; "--------"; "-------------"]%string);
  Some (t1 ++ t2).

Definition if_line (e : rsvp_if) : option (list Z) :=
  buf1 ← format_bps (if_total_bw e) 32;
  buf2 ← format_bps (if_reservable_bw e) 32;
  printf_line "%-12s %-8d %-7s %-18s %-18s"
    [ArgStr (if_name e); ArgInt (if_ifindex e); ArgStr (str (if if_rsvp_enabled e then "up" else "down")%string);
     ArgStr buf1; ArgStr buf2].

Definition rsvp_if_dump (t : if_table) : option (list Z) :=
  let entries := take (g_if_count t) (g_if_table t) in
  if forallb (negb ∘ if_active) entries then printf_line "No RSVP interfaces configured." []
  else
    titles ← if_titles;
    body ← dump_entries if_active if_line entries;
    Some (titles ++ body).

(** The loop over the priorities. *)
Fixpoint dump_priorities (p : nat) (reserved : list double) : option (list Z) :=
  match reserved with
  | [] => Some []
  | r :: reserved =>
      buf ← format_bps r 32;
      t ← printf_line "    Priority %d   : %s" [ArgInt (Z.of_nat p); ArgStr buf];
      rest ← dump_priorities (S p) reserved;
      Some (t ++ rest)
  end.

Definition rsvp_if_dump_one (name : list Z) (t : if_table) : option (list Z) :=
  match rsvp_if_get_by_name t name ≫= (g_if_table t !!.) with
  | None => printf_line "Interface '%s' not found in RSVP table." [ArgStr name]
  | Some e =>
      t1 ← printf_line "Interface       : %s" [ArgStr (if_name e)];
      t2 ← printf_line "  ifindex       : %d" [ArgInt (if_ifindex e)];
      t3 ← printf_line "  RSVP          : %s"
             [ArgStr (str (if if_rsvp_enabled e then "enabled" else "disabled")%string)];
      t4 ← printf_line "  Hello interval: %u ms" [ArgInt (if_hello_interval_ms e)];
      buf ← format_bps (if_total_bw e) 32;
      t5 ← printf_line "  Total BW      : %s" [ArgStr buf];
      buf ← format_bps (if_reservable_bw e) 32;
      t6 ← printf_line "  Reservable BW : %s" [ArgStr buf];
      t7 ← printf_line "  Reserved BW per priority:" [];
      t8 ← dump_priorities 0 (take RSVP_NUM_PRIORITIES (if_reserved_bw e));
      buf ← format_bps (rsvp_if_available_bw (if_ifindex e) 0 t) 32;
      t9 ← printf_line "  Available BW  : %s (at priority 0)" [ArgStr buf];
      Some (mjoin [t1; t2; t3; t4; t5; t6; t7; t8; t9])
  end.

(** ** Forwarding entries *)

(** The cache after the requests of the daemon. *)
Definition route_step (rs : list mpls_route) (o : output) : list mpls_route :=
  match o with
  | Packet _ => rs
  | MplsInstall in_label out_label ifindex next_hop dest =>
      routes_install in_label out_label ifindex (Some next_hop) (Some dest) rs
  | MplsRemove in_label dest => route_remove in_label dest <$> rs
  end.
Definition routes_after (outs : list output) : list mpls_route :=
  foldl route_step (replicate MAX_MPLS_ROUTES no_route) outs.

(** [inet_ntoa] returns a pointer to one static buffer: when two calls are
    arguments of one [printf], both print what the call evaluated last has
    written. *)
Definition inet_ntoa_pair (a b : Z) : list Z * list Z :=
  let buffer := inet_ntop (if args_right_to_left then a else b) in (buffer, buffer).

Definition route_line (r : mpls_route) : option (list Z) :=
  if mr_in_label r =? 0 then
    let '(dest, next_hop) := inet_ntoa_pair (mr_dest_addr r) (mr_next_hop r) in
    printf_line "In-Label: Push (0), Dest: %s, Out-Label: %u, Interface: %d, Next-Hop: %s"
      [ArgStr dest; ArgInt (mr_out_label r); ArgInt (mr_ifindex r); ArgStr next_hop]
  else
    printf_line "In-Label: %u, Out-Label: %u, Interface: %d, Next-Hop: %s"
      [ArgInt (mr_in_label r); ArgInt (mr_out_label r); ArgInt (mr_ifindex r);
       ArgStr (inet_ntop (mr_next_hop r))].

Definition hal_mpls_dump (routes : list mpls_route) : option (list Z) :=
  title ← printf_line "--- MPLS Forwarding Table ---" [];
  body ← dump_entries mr_active route_line routes;
  total ← printf_line "Total MPLS Routes: %d" [ArgInt (Z.of_nat (length (filter (λ r, mr_active r = true) routes)))];
  Some (title ++ body ++ total).
End tables.
