(* ===== verification/Testbed.v ===== *)
(** * A concrete daemon to run examples on

    A host with fixed answers, the daemon's own timers and labels, and the
    state in which src/main.c starts. *)

From stdpp Require Import base numbers list option gmap sets.
From S2P Require Import Prelude Wire Protocol LabelMgr WheelTimer Timers Builder SendPacket Parser.
From S2P Require Import Interfaces StateDb Timing State Messages.
From S2P Require Import StateMachine Hello Invariant.

(** ** The host

    Interface [i] has the address 100 + i; the address 77 is local, everything
    is reached through interface 1; [rand] is 5; memory never runs out. *)

Definition test_env : Env := {|
  env_local_addr := λ _ i, Some (100 + i);
  env_egress_if := λ _ d, 1;
  env_is_local_addr := λ _ a, a =? 77;
  env_rand := λ _, 5;
  env_rand_fuel := 1;
  env_calloc := λ _ D, Some (fresh D);
  env_strdup := λ _, true;
  env_send := λ _, (true, true);
  env_time := λ _, 1000;
|}.

Lemma test_env_laws : EnvLaws (H := test_env).
Proof.
  split; simpl.
  - intros. lia.
  - intros. lia.
  - intros n. exists 0%nat. lia.
  - intros n D l [= <-]. apply is_fresh.
Qed.
#[export] Existing Instance test_env.
#[export] Existing Instance test_env_laws.

(** ** The start of the program *)

Definition static_timers : list timer_id :=
  (NborHello <$> seq 0 RSVP_MAX_NEIGHBORS) ++ (NborDead <$> seq 0 RSVP_MAX_NEIGHBORS).

Definition test_timers0 : rsvp_timers timer_id timer_cb :=
  default rsvp_timers_zero (rsvp_timer_init true true rsvp_timers_zero).
Definition test_timers : rsvp_timers timer_id timer_cb := foldr timer_alloc test_timers0 static_timers.

Notation test_state := (state (rsvp_timers timer_id timer_cb) label_mgr).
Definition test_boot : test_state :=
  mk_state empty_table empty_table empty_table test_timers
    (label_mgr_init true 1000 20000 label_mgr_start) 1
    (replicate RSVP_MAX_NEIGHBORS zero_neighbor) 0 0 [].

Lemma test_timers0_ok : timers_ok test_timers0.
Proof.
  split; [|done|done| |done].
  - by apply (timer_wheel_create_good (N := timer_id) (C := timer_id) 10 2).
  - intros t tm. simpl. by rewrite lookup_empty.
Qed.

Lemma elem_of_static t : t ∈ static_timers ↔ timer_static t.
Proof.
  unfold static_timers. rewrite elem_of_app, !list_elem_of_fmap.
  setoid_rewrite elem_of_seq. destruct t; simpl; naive_solver lia.
Qed.

Lemma alloc_all_spec (l : list timer_id) :
  NoDup l →
  timers_ok (foldr timer_alloc test_timers0 l)
  ∧ ∀ t x, timers_view (foldr timer_alloc test_timers0 l) !! t = Some x
           ↔ t ∈ l ∧ x = (false, None).
Proof.
  induction 1 as [|t l Hn _ [IHok IHv]]; simpl.
  - split; [apply test_timers0_ok|]. intros t x. rewrite timers_view_lookup. simpl.
    rewrite lookup_empty, elem_of_nil. simpl. naive_solver.
  - set (ts := foldr timer_alloc test_timers0 l) in *.
    assert (timers_view ts !! t = None) as Hv.
    { apply eq_None_not_Some. intros [x [? _]%IHv]. done. }
    destruct (@ti_alloc_law _ timer_id timer_cb _ _ _ rsvp_timers_laws ts t IHok Hv)
      as [Hok' Hv']. split; [exact Hok'|].
    intros t' x. change (timers_view (timer_alloc t ts)) with (ti_view (ti_alloc t ts)).
    rewrite Hv', lookup_insert_Some, elem_of_cons. change (ti_view ts) with (timers_view ts).
    rewrite IHv. naive_solver.
Qed.

Lemma static_timers_nodup : NoDup static_timers.
Proof. by apply (bool_decide_unpack (NoDup static_timers)); vm_compute. Qed.

Lemma test_timers_ok : timers_ok test_timers.
Proof. apply alloc_all_spec, static_timers_nodup. Qed.
Lemma test_timers_view t x :
  timers_view test_timers !! t = Some x ↔ timer_static t ∧ x = (false, None).
Proof. rewrite <- elem_of_static. by apply alloc_all_spec, static_timers_nodup. Qed.

Lemma test_labels_rel : lb_rel (label_mgr_init true 1000 20000 label_mgr_start) ∅.
Proof. left. exists (pool_init 1000 20000). split; [|done]. apply label_mgr_init_refines; lia. Qed.

(** An equation between results of the program, decided by running it. *)
Ltac by_run := apply (bool_decide_eq_true_1 _); vm_cast_no_check (eq_refl true).

(** A result is there; what it is need not be computed. *)
Lemma default_found {A} (d : A) o :
  match o with Some _ => true | None => false end = true → o = Some (default d o).
Proof. by destruct o. Qed.

(** ** Packets of the neighbours *)

(** A built message in an IP packet of the host [src]. *)
Definition wire (b : rsvp_builder) (src dest : Z) : list Z :=
  let '(len, b) := rsvp_builder_finalize b in
  match rsvp_send_packet true true src dest (b_buffer b) len false with
  | Some (_, Some packet) => packet
  | _ => []
  end.

(** The RESV of the neighbour [nhop] with a label for the path [k]. *)
Definition resv_packet (k : rsvp_path_key) (label nhop : Z) : list Z :=
  wire (resv_message (new_psb k) (new_rsb k <| rsb_label_in := label |> <| rsb_refresh_ms := 30000 |>)
          empty_flowspec nhop 2) nhop 77.

(** The PATH of the upstream neighbour [nhop] for the path [k]. *)
Definition path_packet (k : rsvp_path_key) (nhop : Z) : list Z :=
  wire (path_message (new_psb k <| psb_refresh_ms := 30000 |>) nhop 2)
    nhop (sess_dest_addr (key_session k)).

(** The path of tunnel [tunnel_id], LSP [lsp_id], from 66 to 88. *)
Definition transit_key (tunnel_id lsp_id : Z) : rsvp_path_key :=
  mk_rsvp_path_key (mk_rsvp_session_ipv4 88 0 (htons tunnel_id) 66)
    (mk_rsvp_sender_ipv4 66 0 (htons lsp_id)).
