(* ===== verification/Daemon.v ===== *)
(** * The daemon as a whole (src/main.c, src/pi/rsvp_dispatcher.c, src/pi/rsvp_cli.c)

    The events of the daemon, from its start to its shutdown, and the states
    they reach.  The theorems say that every event completes, that is without
    touching freed memory or undefined behaviour, and keeps the invariant, and
    that the shutdown leaves nothing behind. *)

From stdpp Require Import base numbers list option gmap sets.
From S2P Require Import Prelude Wire Protocol LabelMgr WheelTimer Timers Builder SendPacket Parser.
From S2P Require Import Interfaces StateDb Timing State Messages StateMachine Hello Invariant.
From S2P Require Import Rules SendRules Lifecycle Handlers HandlersResv Operations Commands.
From S2P Require Import HelloRules Shutdown Testbed.

(** ** Events *)

(** A packet, an expired timer, and the commands of the operator (the last
    three are the programming interface of fast reroute). *)
Inductive event :=
| ReceivePacket (packet : list Z)
| TimerExpired
| SetupTunnel (src dest tunnel_id : Z) (lsp_name : option (list Z))
    (ero : list rsvp_ero_ipv4_subobj) (request_frr : bool)
| DeleteTunnel (tunnel_id lsp_id : Z)
| StartMbb (tunnel_id old_lsp_id new_lsp_id : Z) (new_ero : list rsvp_ero_ipv4_subobj)
| AddNeighbor (addr local_addr ifindex : Z)
| FrrRevert (ifindex : Z)
| FrrTrigger (ifindex : Z)
| SetupBypass (src dest tunnel_id : Z) (name : option (list Z)) (ero : list rsvp_ero_ipv4_subobj)
    (protected_ifindex : Z)
| EnableProtection (tunnel_id lsp_id : Z) (mode : rsvp_frr_mode_t) (bypass_tunnel_id : Z).

Section daemon.
Context {TS LS : Type} `{TimerLaws TS timer_id timer_cb} `{LabelLaws LS} `{EnvLaws}.
Local Notation state := (state TS LS).
Local Notation M := (M state).
Implicit Types s : state.

Definition run_event (e : event) : M () :=
  match e with
  | ReceivePacket packet => receive_packet packet
  | TimerExpired => timer_exp_once
  | SetupTunnel src dest t name ero frr => rsvp_initiate_path_with_ero src dest t name ero frr
  | DeleteTunnel t i => rsvp_teardown_path t i
  | StartMbb t old new ero => rsvp_mbb_start t old new ero ;; mret ()
  | AddNeighbor a l i => rsvp_hello_add_neighbor a l i ;; mret ()
  | FrrRevert i => rsvp_frr_revert i
  | FrrTrigger i => rsvp_frr_trigger i
  | SetupBypass src dest t name ero i => rsvp_initiate_bypass_tunnel src dest t name ero i
  | EnableProtection t i mode bt => rsvp_frr_enable_protection t i mode bt ;; mret ()
  end.

(** [main] after the event loop. *)
Definition daemon_shutdown : M () :=
  rsvp_state_machine_shutdown ;; rsvp_hello_shutdown ;; rsvp_state_db_cleanup.

(** [main] before the event loop; the label pool and the timers start empty. *)
Definition daemon_init : M () := rsvp_state_db_init ;; rsvp_hello_init.

(** ** What the events may assume *)

(** The sender's refresh period and bandwidth fit the conversions. *)
Definition packet_sane (packet : list Z) : Prop :=
  bytes_ok packet ∧ ∀ info, rsvp_parse_packet packet (length packet) = Some (RSVP_SUCCESS, info) →
    period_sane packet info ∧ bandwidth_sane packet info.

(** The packet does not tear a bypass tunnel down: a PathTear is not for one,
    and a RESV with the tunnel id of one is for that one. *)
Definition packet_spares s (packet : list Z) : Prop :=
  ∀ info o hdr, rsvp_parse_packet packet (length packet) = Some (RSVP_SUCCESS, info) →
    info_common_hdr info = Some o → load_struct rsvp_common_hdr packet o = Some hdr →
    (hdr_msg_type hdr = RSVP_MSG_PATHTEAR → spares_bypass s (λ k, k = info_key info))
    ∧ (hdr_msg_type hdr = RSVP_MSG_RESV → bypass_ids s (info_key info)).

Definition event_ok s (e : event) : Prop :=
  match e with
  | ReceivePacket packet => packet_sane packet ∧ packet_spares s packet
  | TimerExpired => ∃ cb ts, ti_read (st_timers s) = Some (cb, ts)
      ∧ ∀ l, cb = Some (psb_cleanup_timer_cb l) → not_bypass s l
  | DeleteTunnel t i => spares_bypass s (λ k, tunnel_of k = t ∧ lsp_of k = i)
  | _ => True
  end.

(** What the timer threads do meanwhile: expired timers become inactive. *)
Definition timers_progress (ts ts' : TS) : Prop :=
  ti_ok ts' ∧ ∀ t, ti_view ts' !! t = ti_view ts !! t
    ∨ ∃ cb, ti_view ts !! t = Some (true, cb) ∧ ti_view ts' !! t = Some (false, cb).

(** The state when [main] starts: static memory is zero. *)
Record boot s : Prop := {
  bt_psb : st_psb s = empty_table;
  bt_rsb : st_rsb s = empty_table;
  bt_bsb : st_bsb s = empty_table;
  bt_timers : ti_ok (st_timers s);
  bt_static : ∀ t x, ti_view (st_timers s) !! t = Some x ↔ timer_static t ∧ x = (false, None);
  bt_labels : lb_rel (st_labels s) ∅;
  bt_nbors : st_neighbors s = replicate RSVP_MAX_NEIGHBORS zero_neighbor;
  bt_count : st_nbor_count s = 0%nat;
  bt_out : st_out s = [];
}.

(** Starts, events, the threads of the timers, and host calls of the command
    line. *)
Inductive reachable : state → Prop :=
| reachable_init s0 s : boot s0 → daemon_init s0 = Some ((), s) → reachable s
| reachable_event s e s' : reachable s → event_ok s e → run_event e s = Some ((), s') → reachable s'
| reachable_timers s ts : reachable s → timers_progress (st_timers s) ts →
    reachable (s <| st_timers := ts |>)
| reachable_host s : reachable s → reachable (s <| st_clock ::= Nat.succ |>).

(** ** Received packets *)

Lemma inv_weaken s : Inv true s → Inv false s.
Proof. by intros []. Qed.

Lemma hello_msg_ok m info :
  msg_ok m info → ∃ h, load_opt rsvp_hello_obj m (info_hello_obj info) = Some h.
Proof.
  intros [_ (lo & hi & Hhi & Hok) _].
  destruct (load_opt_ok m lo hi _ (iok_hello _ _ _ _ Hok) Hhi) as (h & -> & _). eauto.
Qed.

Lemma rsvp_handle_message_safe b s m info hdr :
  Inv b s → msg_ok m info → period_sane m info → bandwidth_sane m info →
  (∀ o, info_common_hdr info = Some o → load_struct rsvp_common_hdr m o = Some hdr) →
  (b = true → hdr_msg_type hdr = RSVP_MSG_PATHTEAR → spares_bypass s (λ k, k = info_key info)) →
  (b = true → hdr_msg_type hdr = RSVP_MSG_RESV → bypass_ids s (info_key info)) →
  (hdr_msg_type hdr = RSVP_MSG_HELLO → b = true) →
  safe b (rsvp_handle_message m info) s.
Proof.
  intros Hi Hm Hper Hbw Hh Htear Hresv Hhello. unfold rsvp_handle_message, safe.
  destruct (mo_hdr _ _ Hm) as (o & hdr' & Eo & El).
  apply wp_bind. eapply wp_lift; [rewrite Eo; simpl; by apply Hh|].
  case_if; [by apply handle_path_message_safe|]. bools.
  case_if; [apply handle_resv_message_safe; try done; bools; auto|].
  case_if; [apply handle_path_tear_safe; try done; bools; auto|].
  case_if; [by apply handle_resv_tear_safe|].
  case_if; [by apply handle_path_err_safe|].
  case_if; [by apply handle_resv_err_safe|].
  case_if; [by apply wp_ret|]. case_if; [by apply wp_ret|]. case_if; [|by apply wp_ret]. bools.
  assert (b = true) as -> by auto. unfold handle_hello.
  destruct (hello_msg_ok m info Hm) as [h Eh]. apply wp_bind. eapply wp_lift; [exact Eh|].
  destruct h as [h|]; [|by apply wp_ret]. by apply rsvp_hello_recv_safe.
Qed.

Lemma parsed_msg_ok packet info :
  bytes_ok packet → rsvp_parse_packet packet (length packet) = Some (RSVP_SUCCESS, info) →
  msg_ok packet info.
Proof.
  intros Hb Hp. destruct (rsvp_parse_packet_spec packet (length packet)) as ([rc i] & E & H1' & H2');
    [done|]. rewrite Hp in E. injection E as <- <-.
  destruct H1' as (lo & hi & _ & Hhi & Hok). destruct H2' as (o & hdr & Ho & Hh & _); [done|].
  split; eauto.
Qed.

Lemma receive_packet_spec b s packet :
  Inv b s → packet_sane packet →
  (∀ s', frame s s' → b = true → packet_spares s' packet) →
  (∀ info o hdr, rsvp_parse_packet packet (length packet) = Some (RSVP_SUCCESS, info) →
     info_common_hdr info = Some o → load_struct rsvp_common_hdr packet o = Some hdr →
     hdr_msg_type hdr = RSVP_MSG_HELLO → b = true) →
  safe b (receive_packet packet) s.
Proof.
  intros Hi [Hb Hsane] Hsp Hhello. unfold receive_packet, safe. apply wp_bind.
  assert (∀ local s1, Inv b s1 → frame s s1 →
    wp (if local : bool then mret ()
        else '(rc, info) ← lift (rsvp_parse_packet packet (length packet));
             match rc with RSVP_SUCCESS => rsvp_handle_message packet info | _ => mret () end)
       (λ _ s', Inv b s') s1) as Hend.
  { intros local s1 Hi1 F1. destruct local; [by apply wp_ret|].
    destruct (rsvp_parse_packet_spec packet (length packet)) as ([rc info] & E & _); [done|].
    apply wp_bind. eapply wp_lift; [exact E|]. destruct rc; try by apply wp_ret.
    destruct (Hsane info E) as [Hper Hbw]. pose proof (parsed_msg_ok packet info Hb E) as Hm.
    destruct (mo_hdr _ _ Hm) as (o & hdr & Eo & El).
    eapply (rsvp_handle_message_safe b s1 packet info hdr); try done.
    - intros o' Eo'. congruence.
    - intros Eb Ht. by eapply (Hsp s1 F1 Eb).
    - intros Eb Ht. by eapply (Hsp s1 F1 Eb).
    - by eapply Hhello. }
  unfold sizeof_iphdr. case_if; [|by apply wp_ret, (Hend false)]. bools.
  destruct (load_is_Some 4 packet 12) as [src Esrc]; [lia|].
  apply wp_bind. eapply wp_lift; [exact Esrc|]. eapply wp_is_local_addr; [done|].
  intros l s1 Hi1 F1. by apply (Hend l).
Qed.

Lemma packet_spares_frame s s' packet : frame s s' → packet_spares s packet → packet_spares s' packet.
Proof.
  intros F Hs info o hdr E Eo El. destruct (Hs info o hdr E Eo El) as [H1' H2']. split.
  - intros Ht l p Hp Hk. destruct F as [Hf _ _ _].
    destruct (fmap_lookup_inv _ _ _ _ _ (eq_sym Hf) Hp) as (p0 & Hp0 & [= Ek _ Eb]).
    rewrite <- Eb. eapply (H1' Ht); [done|congruence].
  - intros Ht. eapply bypass_ids_frame; [exact F|auto].
Qed.

(** ** Expired timers *)

Definition callback_live s (cb : timer_cb) : Prop := ∃ t, cb = timer_callback t ∧ timer_live s t.

Lemma run_callback_safe s cb :
  Inv true s → callback_live s cb → (∀ l, cb = psb_cleanup_timer_cb l → not_bypass s l) →
  safe true (run_callback cb) s.
Proof.
  intros Hi (t & -> & Hl) Hb.
  destruct t as [l|l|l|l|l|i|i]; simpl in *; try (destruct Hl as [x Ex]).
  - eapply psb_refresh_timer_safe; [done|by apply has_psb_intro].
  - eapply psb_cleanup_timer_safe; [done|by apply has_psb_intro|auto].
  - eapply rsb_refresh_timer_safe; [done|by apply has_rsb_intro].
  - eapply rsb_cleanup_timer_safe; [done|by apply has_rsb_intro].
  - eapply bsb_cleanup_timer_safe; [done|by apply has_bsb_intro].
  - by apply hello_timer_safe.
  - by apply dead_timer_safe.
Qed.

Lemma timer_exp_once_safe s cb ts :
  Inv true s → ti_read (st_timers s) = Some (cb, ts) →
  (∀ l, cb = Some (psb_cleanup_timer_cb l) → not_bypass s l) →
  safe true timer_exp_once s.
Proof.
  intros Hi Hr Hb. unfold timer_exp_once, safe.
  destruct (inv_timers true s Hi) as [Hok Hm Hcb Hd].
  destruct (ti_read_law _ _ _ Hok Hr) as (Hok' & Hv & Hsrc).
  apply wp_bind. unfold wp at 1. rewrite Hr. simpl.
  assert (Inv true (s <| st_timers := ts |>)) as Hi1.
  { eapply inv_timers_update; [done|done|by intros; rewrite Hv|by rewrite Hv..]. }
  destruct cb as [cb|]; [|by apply wp_ret].
  destruct (Hsrc cb eq_refl) as (t & a & Et). apply run_callback_safe; [done| |].
  - exists t. split; [by eapply Hcb|]. by destruct (Hd t a _ Et) as [?|[_ ?]].
  - intros l ->. by apply Hb.
Qed.

(** ** Every event *)

Lemma wp_ignore {A} (m : M A) (P : state → Prop) s :
  wp m (λ _ s', P s') s → wp (m ;; mret ()) (λ _ s', P s') s.
Proof. intros Hw. apply wp_bind. eapply wp_mono; [exact Hw|]. intros. by apply wp_ret. Qed.

Lemma run_event_safe s e : Inv true s → event_ok s e → safe true (run_event e) s.
Proof.
  intros Hi Hok. unfold safe. destruct e; simpl in *.
  - destruct Hok. apply receive_packet_spec; try done. intros s' F _.
    by eapply packet_spares_frame.
  - destruct Hok as (cb & ts & Hr & Hb). by eapply timer_exp_once_safe.
  - by apply rsvp_initiate_path_with_ero_safe.
  - by apply rsvp_teardown_path_safe.
  - by apply wp_ignore, rsvp_mbb_start_safe.
  - apply wp_ignore. by eapply wp_add_neighbor.
  - by eapply wp_frr_revert.
  - by eapply wp_frr_trigger.
  - by apply rsvp_initiate_bypass_tunnel_safe.
  - by apply wp_ignore, rsvp_frr_enable_protection_safe.
Qed.

Lemma timers_progress_inv b s ts :
  Inv b s → timers_progress (st_timers s) ts → Inv b (s <| st_timers := ts |>).
Proof.
  intros Hi [Hok Hv]. pose proof (inv_timers b s Hi) as [_ Hm Hcb Hd].
  apply inv_timers_update; [done|done|..].
  - intros t. destruct (Hv t) as [->|(cb & E1 & E2)]; [done|]. rewrite E1, E2.
    split; by eexists.
  - intros t a cb. destruct (Hv t) as [->|(cb' & E1 & E2)]; [apply Hcb|].
    rewrite E2. intros [= <- ->]. by eapply Hcb.
  - intros t a cb. destruct (Hv t) as [->|(cb' & E1 & E2)]; [apply Hd|].
    rewrite E2. intros [= <- <-]. left. by destruct (Hd t _ _ E1) as [?|[? _]].
Qed.

Lemma boot_inv s : boot s → Inv true s.
Proof.
  intros [E1 E2 E3 Hok Hst Hl E4 E5 E6].
  assert (psbs s = ∅) as P1 by (unfold psbs; by rewrite E1).
  assert (rsbs s = ∅) as P2 by (unfold rsbs; by rewrite E2).
  assert (bsbs s = ∅) as P3 by (unfold bsbs; by rewrite E3).
  split; rewrite ?E1, ?E2, ?E3, ?P1, ?P2, ?E4, ?E5;
    try apply empty_table_ok; try (intros *; by rewrite lookup_empty).
  - split; [done|..].
    + intros t. assert (¬ timer_live s t) as Hn.
      { destruct t; simpl; rewrite ?P1, ?P2, ?P3, ?lookup_empty, ?E5; [by intros []..|lia|lia]. }
      split; [intros [x Hx]; right; by apply Hst in Hx as []|].
      intros [?|?]; [done|]. exists (false, None). by apply Hst.
    + by intros t a cb [_ ?]%Hst.
    + intros t a cb [_ [= -> ->]]%Hst. by right.
  - split; [exists ∅; split_and!; [done|..]; rewrite ?E6, ?P2|].
    + intros n. split; [set_solver|]. intros (_ & l & r & Hr & _). by rewrite lookup_empty in Hr.
    + done.
    + intros l1 l2 r1 r2. by rewrite P2, lookup_empty.
  - split; [done|lia| |lia]. by apply Forall_replicate.
  - intros _ l p c. by rewrite lookup_empty.
Qed.

Lemma daemon_init_safe s : boot s → safe true daemon_init s.
Proof.
  intros Hb. unfold daemon_init, safe. apply wp_bind, wp_modify.
  apply rsvp_hello_init_safe; [|apply Hb].
  pose proof (boot_inv s Hb) as Hi. destruct Hb as [E1 E2 E3 _ _ _ _ _ _].
  destruct s. simpl in *. by subst.
Qed.

Lemma reachable_inv s : reachable s → Inv true s.
Proof.
  induction 1 as [s0 s Hb E|s e s' _ IH Hok E|s ts _ IH Hp|s _ IH].
  - pose proof (daemon_init_safe s0 Hb) as Hw. unfold safe, wp in Hw. by rewrite E in Hw.
  - pose proof (run_event_safe s e IH Hok) as Hw. unfold safe, wp in Hw. by rewrite E in Hw.
  - by apply timers_progress_inv.
  - by apply inv_clock.
Qed.

Lemma reachable_progress s e :
  reachable s → event_ok s e → ∃ s', run_event e s = Some ((), s') ∧ reachable s'.
Proof.
  intros Hr Hok. destruct (proj1 (wp_run _ _ _) (run_event_safe s e (reachable_inv s Hr) Hok))
    as ([] & s' & E & _).
  exists s'. split; [done|]. by eapply reachable_event.
Qed.

Definition started s0 : state := match daemon_init s0 with Some (_, s) => s | None => s0 end.

Lemma started_reachable s0 : boot s0 → reachable (started s0).
Proof.
  intros Hb. destruct (proj1 (wp_run _ _ _) (daemon_init_safe s0 Hb)) as ([] & s & E & _).
  unfold started. rewrite E. by eapply reachable_init.
Qed.

(** The shutdown from any reachable state. *)
Lemma daemon_shutdown_spec s :
  reachable s →
  ∃ s', daemon_shutdown s = Some ((), s')
    ∧ psbs s' = ∅ ∧ rsbs s' = ∅ ∧ bsbs s' = ∅ ∧ lb_rel (st_labels s') ∅
    ∧ (∀ n, n ∈ mpls_labels (st_out s') → n = 0)
    ∧ (∀ t a cb, ti_view (st_timers s') !! t = Some (a, cb) → a = false).
Proof.
  intros Hi%reachable_inv%inv_weaken.
  enough (wp daemon_shutdown (λ _ s', Inv false s' ∧ psbs s' = ∅ ∧ bsbs s' = ∅
    ∧ st_nbor_count s' = 0%nat) s) as ([] & s' & E & Hi' & Hp & Hb & Hc)%wp_run.
  - pose proof (no_psb_no_rsb _ _ Hi' Hp) as Hr. exists s'. split_and!; try done.
    + destruct (inv_labels _ _ Hi') as [(HS & Hrel & Hheld & _) _].
      assert (HS = ∅) as ->; [|done]. apply set_eq. intros n. rewrite Hheld, Hr.
      split; [|set_solver]. intros (_ & l & r & Hx & _). by rewrite lookup_empty in Hx.
    + intros n Hn. destruct (decide (n = 0)) as [|Hnz]; [done|].
      destruct (inv_labels _ _ Hi') as [(HS & _ & Hheld & Hout) _].
      apply Hout, Hheld in Hn as (_ & l & r & Hx & _); [|done]. by rewrite Hr, lookup_empty in Hx.
    + intros t a cb Ht. destruct (ti_inv_idle _ (inv_timers _ _ Hi') t a cb Ht) as [Hl|[? _]]; [|done].
      destruct t; simpl in Hl; rewrite ?Hp, ?Hr, ?Hb, ?lookup_empty in Hl;
        first [by destruct Hl|lia].
  - unfold daemon_shutdown. apply wp_bind, wp_state_machine_shutdown; [done|]. intros s1 Hi1 Hp1.
    apply wp_bind. eapply wp_hello_shutdown; [done|]. intros s2 Hi2 Hc2 (E & _ & _).
    assert (psbs s2 = ∅) as Hp2 by (unfold psbs; by rewrite E).
    eapply wp_state_db_cleanup; [done..|]. intros s3 Hi3 Hp3 Hb3 HN.
    split_and!; [done..|]. destruct HN. congruence.
Qed.

(** ** Properties *)

(** C1: every further event completes: in every reachable state (one that
    events allowed by [event_ok] lead to, with no expiration on its way through
    a worker thread of the timers), and whatever the host answers (no memory,
    no route, no socket), every event that [event_ok] allows runs to its end,
    touching no freed block, timer or neighbour, with no conversion out of
    range and no endless loop, and ends in a reachable state. [event_ok] asks
    of a packet that the refresh period in it is below 2^30 ms and its
    fast-reroute bandwidth converts to an integer, that a PathTear names no
    bypass tunnel, and that a RESV with the tunnel id of a bypass tunnel is for
    that tunnel; of an expired timer that the oldest message in the pipe is not
    one of a freed timer and not the lifetime of a bypass tunnel; and of a
    deletion that it names no bypass tunnel. Outside of this the program does
    go wrong: see [refresh_period_overflows] and [bypass_teardown_dangles]. *)
Theorem reachable_event_completes s e :
  reachable s → event_ok s e → ∃ s', run_event e s = Some ((), s') ∧ reachable s'.
Proof. apply reachable_progress. Qed.

(** C4: forwarding is never stale: in every reachable state each incoming label
    that has been installed and not removed belongs to a live reservation,
    which is paired with a live path of the same key; no two reservations share
    a label; and the allocator holds exactly the labels of the reservations. *)
Theorem reachable_no_stale_forwarding s :
  reachable s →
  (∀ n, n ∈ mpls_labels (st_out s) → n ≠ 0 →
     ∃ l r lp p, rsbs s !! l = Some r ∧ rsb_label_in r = n ∧ rsb_associated_psb r = Some lp
       ∧ psbs s !! lp = Some p ∧ psb_key p = rsb_key r)
  ∧ (∀ l1 l2 r1 r2, rsbs s !! l1 = Some r1 → rsbs s !! l2 = Some r2 →
       rsb_label_in r1 = rsb_label_in r2 → rsb_label_in r1 ≠ 0 → l1 = l2)
  ∧ ∃ H, lb_rel (st_labels s) H
      ∧ ∀ n, n ∈ H ↔ n ≠ 0 ∧ ∃ l r, rsbs s !! l = Some r ∧ rsb_label_in r = n.
Proof.
  intros Hi%reachable_inv. destruct (inv_labels _ _ Hi) as [(HS & Hrel & Hheld & Hout) Hinj].
  split; [|by eauto]. intros n Hn Hnz.
  apply Hout, Hheld in Hn as (_ & l & r & Er & El); [|done].
  destruct (inv_assoc_rsb _ _ Hi l r Er) as (lp & p & Ea & Ep & _ & Ek). exists l, r, lp, p. done.
Qed.

(** C5: the shape of the state: in every reachable state path and reservation
    blocks point at each other in pairs, pointers to bypass tunnels are valid,
    the armed timers are exactly in live blocks and neighbours, each with the
    callback and argument of its block, and the arrays and periods of a path
    are in range. *)
Theorem reachable_well_formed s :
  reachable s →
  table_ok (st_psb s) ∧ table_ok (st_rsb s) ∧ table_ok (st_bsb s)
  ∧ (∀ l p lr, psbs s !! l = Some p → psb_associated_rsb p = Some lr →
       ∃ r, rsbs s !! lr = Some r ∧ rsb_associated_psb r = Some l)
  ∧ (∀ l r, rsbs s !! l = Some r → ∃ lp p, rsb_associated_psb r = Some lp
       ∧ psbs s !! lp = Some p ∧ psb_associated_rsb p = Some l)
  ∧ (∀ l p c, psbs s !! l = Some p → psb_bypass_psb p = Some c →
       ∃ q, psbs s !! c = Some q ∧ psb_is_bypass_tunnel q = true)
  ∧ (∀ t cb, ti_view (st_timers s) !! t = Some (true, Some cb) →
       cb = timer_callback t ∧ timer_live s t)
  ∧ (∀ l p, psbs s !! l = Some p → psb_good p).
Proof.
  intros Hi%reachable_inv. pose proof (inv_timers _ _ Hi) as [_ _ Hcb Hd].
  split; [apply Hi|]. split; [apply Hi|]. split; [apply Hi|]. split; [apply Hi|].
  split_and!.
  - intros l r Hr. destruct (inv_assoc_rsb _ _ Hi l r Hr) as (lp & p & ? & ? & ? & _). eauto.
  - by apply (inv_bypass _ _ Hi).
  - intros t cb E. split; [by eapply Hcb|]. by destruct (Hd t true _ E) as [?|[? _]].
  - apply Hi.
Qed.

(** C6: the shutdown gives back what the daemon holds: from every reachable
    state it completes, every block is freed, no label is held, no forwarding
    entry of a nonzero incoming label remains, and no timer is armed. Entries
    for unlabelled packets, of label 0, may remain: one that was installed for
    a path with the previous hop 0 on a router that is not its ingress is not
    removed by [rsb_cleanup_resources]. *)
Theorem daemon_shutdown_clears s :
  reachable s →
  ∃ s', daemon_shutdown s = Some ((), s')
    ∧ psbs s' = ∅ ∧ rsbs s' = ∅ ∧ bsbs s' = ∅ ∧ lb_rel (st_labels s') ∅
    ∧ (∀ n, n ∈ mpls_labels (st_out s') → n = 0)
    ∧ (∀ t a cb, ti_view (st_timers s') !! t = Some (a, cb) → a = false).
Proof. apply daemon_shutdown_spec. Qed.
End daemon.

(** ** Examples *)

Definition test_start : test_state := started test_boot.
Definition test_tunnel : event := SetupTunnel 77 88 1 None [] true.

Lemma test_boot_ok : boot test_boot.
Proof.
  split; try reflexivity.
  - exact test_timers_ok.
  - exact test_timers_view.
  - exact test_labels_rel.
Qed.

Lemma test_start_reachable : reachable test_start.
Proof. exact (started_reachable test_boot test_boot_ok). Qed.

(** Runs of events, and a check that the events are as [event_ok] wants them,
    for states without bypass tunnels. *)
Definition run_events (s : test_state) (es : list event) : option test_state :=
  foldl (λ os e, s ← os; snd <$> run_event e s) (Some s) es.

Definition packet_check (m : list Z) : bool :=
  forallb (λ x, (0 <=? x) && (x <? 256)) m &&
  match rsvp_parse_packet m (length m) with
  | Some (RSVP_SUCCESS, info) =>
      match info_time_values info ≫= load_struct rsvp_time_values m with
      | Some tv => (0 <=? ntohl (tv_refresh_ms tv)) && (ntohl (tv_refresh_ms tv) <? 2 ^ 30)
      | None => true
      end && match info_fast_reroute info with None => true | Some _ => false end
  | _ => true
  end.
Definition no_bypass (s : test_state) : bool :=
  forallb (λ x, negb (psb_is_bypass_tunnel x.2)) (map_to_list (psbs s)).
Definition event_check (s : test_state) (e : event) : bool :=
  no_bypass s && match e with
                 | ReceivePacket m => packet_check m
                 | TimerExpired => match ti_read (st_timers s) with Some _ => true | None => false end
                 | _ => true
                 end.
Fixpoint events_check (s : test_state) (es : list event) : bool :=
  match es with
  | [] => true
  | e :: es => event_check s e && match run_event e s with
                                  | Some (_, s') => events_check s' es
                                  | None => false
                                  end
  end.

Lemma no_bypass_spares s P : no_bypass s = true → spares_bypass s P.
Proof.
  unfold no_bypass. rewrite forallb_forall. intros Hb l p Hp _.
  apply negb_true_iff, (Hb (l, p)), list_elem_of_In, elem_of_map_to_list, Hp.
Qed.

Lemma packet_check_sane m : packet_check m = true → packet_sane m.
Proof.
  unfold packet_check. rewrite andb_true_iff, forallb_forall. intros [Hb Hp]. split.
  - apply Forall_forall. intros x Hx%list_elem_of_In%Hb. unfold is_byte. lia.
  - intros info E. rewrite E in Hp. apply andb_true_iff in Hp as [Ht Hf]. split.
    + intros o tv Eo El. rewrite Eo in Ht. simpl in Ht. rewrite El in Ht. unfold refresh_ok. lia.
    + intros o fr Eo. by rewrite Eo in Hf.
Qed.

Lemma event_check_ok s e : Inv true s → event_check s e = true → event_ok s e.
Proof.
  unfold event_check. rewrite andb_true_iff. intros Hi [Hb He].
  destruct e; simpl; try done; [| |by apply no_bypass_spares].
  - split; [by apply packet_check_sane|]. intros info o hdr _ _ _.
    split; [by intros _; apply no_bypass_spares|].
    intros _ l p Hp Hbp. pose proof (no_bypass_spares _ (λ _, True) Hb l p Hp I). congruence.
  - destruct (ti_read (st_timers s)) as [[cb ts]|] eqn:E; [|done]. exists cb, ts.
    split; [done|]. intros l ->.
    destruct (inv_timers true s Hi) as [Hok _ Hcb Hd].
    destruct (ti_read_law _ _ _ Hok E) as (_ & _ & Hsrc).
    destruct (Hsrc _ eq_refl) as (t & a & Et). pose proof (Hcb t a _ Et) as Ht.
    destruct t; try discriminate Ht. injection Ht as <-.
    destruct (Hd _ a _ Et) as [[p Ep]|[_ [=]]]. unfold not_bypass. rewrite Ep. simpl. f_equal.
    by apply (no_bypass_spares s (λ _, True) Hb l p Ep).
Qed.

Lemma run_events_reachable es s s' :
  reachable s → events_check s es = true → run_events s es = Some s' → reachable s'.
Proof.
  revert s. induction es as [|e es IH]; intros s Hr Hc; unfold run_events; simpl.
  - by intros [= <-].
  - simpl in Hc. apply andb_true_iff in Hc as [He Hc].
    destruct (run_event e s) as [[[] s1]|] eqn:E; [|done]. simpl. intros Hs.
    apply (IH s1); [|done|exact Hs]. eapply reachable_event; [exact Hr| |exact E].
    apply event_check_ok; [by apply reachable_inv|done].
Qed.

Lemma run_events_default es s :
  reachable s → events_check s es = true → reachable (default s (run_events s es)).
Proof.
  intros Hr Hc. destruct (run_events s es) eqn:E; [|done]. by eapply run_events_reachable.
Qed.

(** A PATH from 66 to 88 and the RESV that answers it. *)
Definition test_key : rsvp_path_key := transit_key 5 1.
Definition test_lsp_events : list event :=
  [ReceivePacket (path_packet test_key 66); ReceivePacket (resv_packet test_key 500 88)].
Definition test_lsp : test_state := default test_start (run_events test_start test_lsp_events).

Lemma test_lsp_reachable : reachable test_lsp.
Proof.
  apply run_events_default; [exact test_start_reachable|]. vm_cast_no_check (eq_refl true).
Qed.

Lemma reachable_event_completes_witness :
  ∃ s', run_event (DeleteTunnel 5 1) test_lsp = Some ((), s') ∧ reachable s'.
Proof.
  apply (reachable_event_completes test_lsp (DeleteTunnel 5 1)); [exact test_lsp_reachable|].
  apply (event_check_ok test_lsp (DeleteTunnel 5 1)); [exact (reachable_inv _ test_lsp_reachable)|].
  vm_cast_no_check (eq_refl true).
Defined.

(** The label 1000 is installed in this state. *)
Lemma reachable_no_stale_forwarding_witness :
  1000 ∈ mpls_labels (st_out test_lsp)
  ∧ ∃ l r lp p, rsbs test_lsp !! l = Some r ∧ rsb_label_in r = 1000
      ∧ rsb_associated_psb r = Some lp ∧ psbs test_lsp !! lp = Some p ∧ psb_key p = rsb_key r.
Proof.
  assert (1000 ∈ mpls_labels (st_out test_lsp)) as Hn.
  { apply (bool_decide_eq_true_1 (1000 ∈ mpls_labels (st_out test_lsp))). vm_cast_no_check (eq_refl true). }
  split; [exact Hn|].
  destruct (reachable_no_stale_forwarding test_lsp test_lsp_reachable) as [Hf _].
  apply (Hf 1000 Hn). discriminate.
Defined.

Lemma reachable_well_formed_witness : table_ok (st_psb test_lsp).
Proof. exact (proj1 (reachable_well_formed test_lsp test_lsp_reachable)). Defined.

Lemma daemon_shutdown_clears_witness :
  ∃ s', daemon_shutdown test_lsp = Some ((), s') ∧ psbs s' = ∅.
Proof.
  destruct (daemon_shutdown_clears test_lsp test_lsp_reachable) as (s' & E & Hp & _).
  exists s'. split; [exact E|exact Hp].
Defined.

(** ** Why the events are restricted *)

Definition test_bypass_key : rsvp_path_key :=
  mk_rsvp_path_key (mk_rsvp_session_ipv4 99 0 (htons 7) 77) (mk_rsvp_sender_ipv4 77 0 (htons 1)).

(** A bypass tunnel of interface 1, its reservation, a tunnel over the same
    interface that it protects, and the teardown of the bypass tunnel. *)
Definition dangling_events : list event :=
  [SetupBypass 77 99 7 None [] 1; ReceivePacket (resv_packet test_bypass_key 600 99); test_tunnel;
   EnableProtection 1 2 RSVP_FRR_FACILITY 7; DeleteTunnel 7 1].

Definition dangling (s : test_state) : bool :=
  existsb (λ x, match psb_bypass_psb x.2 with
                | Some c => match psbs s !! c with Some _ => false | None => true end
                | None => false
                end) (map_to_list (psbs s)).

(** Tearing a bypass tunnel down leaves the pointers of the paths it
    protects dangling: after the teardown of a bypass tunnel in use the daemon
    runs on with a pointer to the freed block, and the failure of the protected
    interface then reads it. *)
Theorem bypass_teardown_dangles :
  ∃ s, run_events test_start dangling_events = Some s ∧ dangling s = true
    ∧ run_event (FrrTrigger 1) s = None.
Proof.
  assert (match run_events test_start dangling_events with
          | Some s => dangling s && match run_event (FrrTrigger 1) s with None => true | _ => false end
          | None => false end = true) as Hc by (vm_cast_no_check (eq_refl true)).
  destruct (run_events test_start dangling_events) as [s|]; [|discriminate].
  apply andb_true_iff in Hc as [Hd Hr]. exists s. split_and!; [done..|].
  by destruct (run_event (FrrTrigger 1) s).
Qed.

(** The PATH of the upstream neighbour with a refresh period of its choice. *)
Definition period_packet (ms : Z) : list Z :=
  wire (path_message (new_psb test_key <| psb_refresh_ms := ms |>) 66 2) 66 88.

(** A neighbour's refresh period of 2^32 - 1 ms takes the lifetime of the
    path out of the range of uint32_t, where the conversion of the product is
    undefined, while one just under 2^30 is handled. *)
Theorem refresh_period_overflows :
  run_event (ReceivePacket (period_packet (2 ^ 32 - 1))) test_start = None
  ∧ is_Some (run_event (ReceivePacket (period_packet (2 ^ 30 - 1))) test_start).
Proof.
  assert (match run_event (ReceivePacket (period_packet (2 ^ 32 - 1))) test_start,
                run_event (ReceivePacket (period_packet (2 ^ 30 - 1))) test_start with
          | None, Some _ => true | _, _ => false end = true) as Hc by (vm_cast_no_check (eq_refl true)).
  destruct (run_event (ReceivePacket (period_packet (2 ^ 32 - 1))) test_start); [discriminate|].
  by destruct (run_event (ReceivePacket (period_packet (2 ^ 30 - 1))) test_start).
Qed.
