(* ===== verification/PipeRules.v ===== *)
(** * The timer pipe is emptied (src/pi/rsvp_timers.c)

    [rsvp_timer_handle_exp] reads the pipe until it is empty, running callbacks
    of the daemon in between.  No function of the daemon writes to the pipe
    ([keeps], proved by walking over the functions), so the loop ends after one
    round for each message. *)

From stdpp Require Import base numbers list option gmap sets.
From S2P Require Import Prelude Wire Protocol LabelMgr WheelTimer Timers Builder SendPacket Parser.
From S2P Require Import Interfaces StateDb Timing State Messages StateMachine Hello Invariant.
From S2P Require Import Rules SendRules Lifecycle Handlers HandlersResv Operations Commands.
From S2P Require Import HelloRules Shutdown Testbed Daemon.

Create HintDb keeps.

(** ** Runs that leave a view of the state alone *)

Section keeps.
Context {S X : Type} (view : S → X).

Definition keeps {A} (m : M S A) : Prop := ∀ s a s', m s = Some (a, s') → view s' = view s.

Lemma keeps_ret {A} (a : A) : keeps (mret a).
Proof. by intros s b s' [= <- <-]. Qed.
Lemma keeps_bind {A B} (m : M S A) (f : A → M S B) :
  keeps m → (∀ a, keeps (f a)) → keeps (m ≫= f).
Proof.
  intros Hm Hf s b s' E. unfold mbind, M_bind in E. destruct (m s) as [[a s1]|] eqn:Em; [|done].
  simpl in E. by rewrite (Hf a s1 b s' E), (Hm s a s1 Em).
Qed.
Lemma keeps_gets {A} (f : S → A) : keeps (gets f).
Proof. by intros s b s' [= <- <-]. Qed.
Lemma keeps_modify (f : S → S) : (∀ s, view (f s) = view s) → keeps (modify f).
Proof. intros Hf s b s' [= <- <-]. apply Hf. Qed.
Lemma keeps_update (f : S → option S) : (∀ s s', f s = Some s' → view s' = view s) → keeps (update f).
Proof. intros Hf s b s' (s1 & E & [= <- <-])%bind_Some. by apply Hf. Qed.
Lemma keeps_lift {A} (o : option A) : keeps (lift o).
Proof. intros s b s' (a & E & [= <- <-])%bind_Some. done. Qed.
Lemma keeps_when (b : bool) (m : M S ()) : keeps m → keeps (when b m).
Proof. intros Hm. destruct b; [done|apply keeps_ret]. Qed.
Lemma keeps_iter {A} (f : A → M S ()) (l : list A) : (∀ a, keeps (f a)) → keeps (iter f l).
Proof.
  intros Hf. induction l as [|a l IH]; simpl; [apply keeps_ret|]. by apply keeps_bind.
Qed.
End keeps.

(** The functions are walked over by unfolding them; the loops and the timers
    have lemmas. *)
Ltac keep_step :=
  match goal with
  | |- keeps _ (mret _) => apply keeps_ret
  | |- keeps _ (_ ≫= _) => apply keeps_bind; [|intros]
  | |- keeps _ (gets _) => apply keeps_gets
  | |- keeps _ (lift _) => apply keeps_lift
  | |- keeps _ (modify _) => apply keeps_modify; by intros
  | |- keeps _ (update _) => apply keeps_update; intros ? ? (? & _ & [= <-])%bind_Some; done
  | |- keeps _ (when _ _) => apply keeps_when
  | |- keeps _ (iter _ _) => apply keeps_iter; intros
  | |- keeps _ (if ?b then _ else _) => destruct b
  | |- keeps _ (match ?x with _ => _ end) => destruct x
  | |- keeps _ (let _ := _ in _) => cbv zeta
  | |- keeps _ _ => solve [eauto 1 with keeps nocore]
  end.
Ltac keep_walk :=
  repeat first
    [ keep_step
    | match goal with
      | |- keeps _ ?m => let h := head_of m in unfold h
      end ]
with head_of m := match m with ?f _ => head_of f | ?f => f end.

Section pipe.
Context {TS LS : Type} `{TimerPipeLaws TS timer_id timer_cb} `{LabelSys LS} `{Env}.
Local Notation state := (state TS LS).
Local Notation M := (M state).
Implicit Types s : state.

Definition unread s : nat := ti_expired (st_timers s).
Local Notation keep := (keeps unread).

Lemma keep_timer_start t type ms cb : keep (timer_start t type ms cb).
Proof.
  apply keeps_update. intros s s' (ts & E & [= <-])%bind_Some. by apply ti_start_keeps in E.
Qed.
Lemma keep_timer_stop t : keep (timer_stop t).
Proof. apply keeps_update. intros s s' (ts & E & [= <-])%bind_Some. by apply ti_stop_keeps in E. Qed.
Lemma keep_timer_reset t ms : keep (timer_reset t ms).
Proof. intros s b s' ([b' ts] & E & [= <- <-])%bind_Some. by apply ti_reset_keeps in E. Qed.
Lemma keep_timer_calloc t : keep (timer_calloc t).
Proof. apply keeps_modify. intros s. apply ti_alloc_keeps. Qed.
Lemma keep_timer_release t : keep (timer_release t).
Proof. apply keeps_update. intros s s' (ts & E & [= <-])%bind_Some. by apply ti_free_keeps in E. Qed.
Lemma keep_label_alloc : keep label_alloc.
Proof. intros s l s' ([l' ls] & E & [= <- <-])%bind_Some. done. Qed.
Hint Resolve keep_label_alloc keep_timer_start keep_timer_stop keep_timer_reset keep_timer_calloc keep_timer_release : keeps.

Lemma keep_delete_bucket head_of delete n :
  (∀ l, keep (delete l)) → keep (delete_bucket head_of delete n).
Proof. intros Hd. induction n as [|n IH]; simpl; keep_walk; auto. Qed.

Lemma keep_rand_instance n : keep (rand_instance n).
Proof. induction n as [|n IH]; simpl; keep_walk; auto. Qed.
Hint Resolve keep_rand_instance : keeps.

Lemma keep_frr_arm psb chain : keep (frr_arm psb chain).
Proof. induction chain as [|l chain IH]; simpl; keep_walk; auto. Qed.
Hint Resolve keep_frr_arm : keeps.

Lemma keep_psb_refresh_timer l : keep (psb_refresh_timer l).
Proof. keep_walk. Qed.
Lemma keep_psb_cleanup_timer l : keep (psb_cleanup_timer l).
Proof. keep_walk. Qed.
Lemma keep_rsb_refresh_timer l : keep (rsb_refresh_timer l).
Proof. keep_walk. Qed.
Lemma keep_rsb_cleanup_timer l : keep (rsb_cleanup_timer l).
Proof. keep_walk. Qed.
Lemma keep_bsb_cleanup_timer l : keep (bsb_cleanup_timer l).
Proof. keep_walk. Qed.
Lemma keep_hello_timer i : keep (hello_timer i).
Proof. keep_walk. Qed.
Lemma keep_dead_timer i : keep (dead_timer i).
Proof. keep_walk. Qed.

Lemma keep_run_callback cb : keep (run_callback cb).
Proof.
  destruct cb; simpl; auto using keep_psb_refresh_timer, keep_psb_cleanup_timer,
    keep_rsb_refresh_timer, keep_rsb_cleanup_timer, keep_bsb_cleanup_timer, keep_hello_timer, keep_dead_timer.
Qed.

Lemma keep_add_neighbor a l i : keep (rsvp_hello_add_neighbor a l i).
Proof. keep_walk. Qed.
Lemma keep_rsvp_frr_revert i : keep (rsvp_frr_revert i).
Proof. keep_walk. Qed.
Lemma keep_rsvp_mbb_start t old new ero : keep (rsvp_mbb_start t old new ero).
Proof. keep_walk. Qed.
Lemma keep_rsvp_teardown_path t i : keep (rsvp_teardown_path t i).
Proof. keep_walk. Qed.
Lemma keep_rsvp_initiate_path src dest t name : keep (rsvp_initiate_path src dest t name).
Proof. keep_walk. Qed.
Lemma keep_receive_packet packet : keep (receive_packet packet).
Proof. keep_walk. Qed.

Lemma timer_exp_once_takes s s' : timer_exp_once s = Some ((), s') → unread s = S (unread s').
Proof.
  unfold timer_exp_once, mbind, M_bind. simpl. unfold unread at 1.
  destruct (ti_read (st_timers s)) as [[cb ts]|] eqn:E; [|done]. simpl. apply ti_read_takes in E as ->.
  destruct cb as [cb|]; [|by intros [= <-]].
  intros E. by rewrite (keep_run_callback cb _ _ _ E).
Qed.
End pipe.

#[export] Hint Extern 1 (keeps unread _) =>
  first [apply keep_add_neighbor | apply keep_rsvp_frr_revert | apply keep_rsvp_mbb_start
        |apply keep_rsvp_teardown_path | apply keep_rsvp_initiate_path | apply keep_receive_packet] : keeps.

(** ** The loop *)

Section loop.
Context {TS LS : Type} `{TimerLaws TS timer_id timer_cb, !TimerPipeLaws TS timer_id timer_cb}.
Context `{LabelLaws LS} `{EnvLaws}.
Local Notation state := (state TS LS).
Implicit Types s : state.

(** Every message that the loop will read is one that [event_ok] allows. *)
Fixpoint messages_ok (n : nat) s : Prop :=
  match n with
  | 0%nat => True
  | S n => event_ok s TimerExpired ∧ ∀ s', timer_exp_once s = Some ((), s') → messages_ok n s'
  end.

Lemma timer_exp_loop_spec n s :
  reachable s → unread s = n → messages_ok n s →
  ∃ s', timer_exp_loop n s = Some ((), s') ∧ reachable s' ∧ unread s' = 0%nat.
Proof.
  revert s. induction n as [|n IH]; intros s Hr Hn Hok; unfold unread in Hn; simpl;
    unfold mbind, M_bind; simpl; rewrite Hn; [by exists s|].
  destruct Hok as [Hok Hrest].
  destruct (reachable_progress s TimerExpired Hr Hok) as (s1 & E & Hr1). simpl in E. rewrite E. simpl.
  apply IH; [done| |by apply Hrest]. apply timer_exp_once_takes in E. unfold unread in *. lia.
Qed.

Lemma timer_handle_exp_spec s :
  reachable s → messages_ok (unread s) s →
  ∃ s', rsvp_timer_handle_exp s = Some ((), s') ∧ reachable s' ∧ unread s' = 0%nat.
Proof. intros Hr Hok. by apply (timer_exp_loop_spec (unread s)). Qed.

(** C22: the loop over the timer pipe ends: in every reachable state, if no
    message that it comes to read is one of a freed timer or of the lifetime of
    a bypass tunnel ([messages_ok]), reading the expirations and running their
    callbacks, which restart timers, send messages and delete state, takes as
    many rounds as there were messages, leaves the pipe empty and the daemon in
    a reachable state. *)
Theorem timer_pipe_emptied s :
  reachable s → messages_ok (unread s) s →
  ∃ s', rsvp_timer_handle_exp s = Some ((), s') ∧ reachable s' ∧ unread s' = 0%nat.
Proof. apply timer_handle_exp_spec. Qed.
End loop.

(** ** Example: the refresh timer of a path has expired *)

Definition test_seq : Z := default 0 (tm_seq <$> ts_mem (st_timers test_lsp) !! PsbRefresh 1%positive).
Definition test_expired : test_state :=
  test_lsp <| st_timers := st_timers test_lsp <| ts_pipe := [(PsbRefresh 1%positive, test_seq)] |> |>.

Lemma pipe_reachable (s : test_state) p :
  reachable s → reachable (s <| st_timers := st_timers s <| ts_pipe := p |> |>).
Proof.
  intros Hr. apply reachable_timers; [done|]. split; [|by left].
  pose proof (ti_inv_ok _ (inv_timers _ _ (reachable_inv _ Hr))) as Hok. simpl in Hok.
  destruct Hok. by split.
Qed.

Lemma test_expired_reachable : reachable test_expired.
Proof. exact (pipe_reachable test_lsp _ test_lsp_reachable). Qed.

(** The callback is run: the path is refreshed, with one more packet out. *)
Example test_expired_runs :
  match rsvp_timer_handle_exp test_expired with
  | Some (_, s) => bool_decide (length (st_out s) = S (length (st_out test_expired)))
  | None => false
  end = true.
Proof. vm_cast_no_check (eq_refl true). Qed.

Lemma timer_pipe_emptied_witness :
  ∃ s', rsvp_timer_handle_exp test_expired = Some ((), s') ∧ reachable s' ∧ unread s' = 0%nat.
Proof.
  apply (timer_pipe_emptied test_expired); [exact test_expired_reachable|].
  change (unread test_expired) with 1%nat. split; [|done].
  apply event_check_ok; [exact (reachable_inv _ test_expired_reachable)|].
  vm_cast_no_check (eq_refl true).
Defined.
