(* ===== verification/Behaviour.v ===== *)
(** * What the handlers do (src/pi/rsvp_state_machine.c, rsvp_hello.c)

    The effect of single operations on the blocks, the timers and the output:
    rejected messages, the removal of a path, the switch to a bypass tunnel,
    and received Hello messages.  The rules of the files before say what
    operations keep; the rules here say what they change. *)

From stdpp Require Import base numbers list option gmap sets.
From S2P Require Import Prelude Wire Protocol LabelMgr WheelTimer Timers Builder SendPacket Parser.
From S2P Require Import Interfaces StateDb Timing State Messages StateMachine Hello Invariant Signalling.
From S2P Require Import Rules SendRules Lifecycle Handlers HandlersResv Operations Commands.
From S2P Require Import HelloRules Shutdown Testbed Daemon.

Section behaviour.
Context {TS LS : Type} `{TimerLaws TS timer_id timer_cb} `{LabelLaws LS} `{EnvLaws}.
Local Notation state := (state TS LS).
Local Notation M := (M state).
Implicit Types s : state.

(** ** Host calls and packets *)

(** All of the state but the clock of the host and the output. *)
Definition memory s :=
  (st_psb s, st_rsb s, st_bsb s, st_timers s, st_labels s, st_next_lsp_id s,
   st_neighbors s, st_nbor_count s).

(** Only the host was called; [outs] went out. *)
Definition said s s' (outs : list output) : Prop :=
  memory s' = memory s ∧ st_out s' = st_out s ++ outs.

Lemma said_refl s : said s s [].
Proof. split; [done|]. by rewrite app_nil_r. Qed.
Lemma said_clock s f : said s (s <| st_clock ::= f |>) [].
Proof. split; [done|]. by rewrite app_nil_r. Qed.
Lemma said_trans s1 s2 s3 o1 o2 : said s1 s2 o1 → said s2 s3 o2 → said s1 s3 (o1 ++ o2).
Proof. intros [E1 O1] [E2 O2]. split; [congruence|]. by rewrite O2, O1, app_assoc. Qed.
Lemma said_then s1 s2 s3 o : said s1 s2 [] → said s2 s3 o → said s1 s3 o.
Proof. apply (said_trans s1 s2 s3 []). Qed.

Lemma said_psbs s s' o : said s s' o → psbs s' = psbs s.
Proof. intros [[=] _]. unfold psbs. congruence. Qed.

(** The message goes out if the socket is open, as the host says then. *)
Definition sent (x : rsvp_builder) (src dest : Z) (rao : bool) (outs : list output) : Prop :=
  ∃ n, outs = if (env_send n).1 then Packet <$> option_list (packet_of x src dest rao) else [].

Lemma sent_cases x src dest rao outs :
  sent x src dest rao outs → outs = [] ∨ ∃ m, packet_of x src dest rao = Some m ∧ outs = [Packet m].
Proof.
  intros [n ->]. destruct (env_send n).1; [|by left]. destruct (packet_of x src dest rao) as [m|].
  - right. by exists m.
  - by left.
Qed.

Lemma rsvp_send_packet_result open ok src dest x rao rc p n b :
  rsvp_builder_finalize x = (n, b) →
  rsvp_send_packet open ok src dest (b_buffer b) n rao = Some (rc, p) →
  p = if open then packet_of x src dest rao else None.
Proof.
  unfold packet_of. intros -> Hs. unfold rsvp_send_packet in *.
  destruct (MAX_RSVP_PACKET_SIZE <? _)%nat; [injection Hs as _ <-; by destruct open|].
  destruct open; cbn [negb] in *; [|by injection Hs as _ <-].
  apply bind_Some in Hs as (ttl & -> & Hs). cbn [mbind option_bind].
  destruct (length (b_buffer b) <? n)%nat; [done|]. by injection Hs as _ <-.
Qed.

Lemma wp_said {A B} (f : nat → A) (k : A → M B) Q s :
  (∀ n s', said s s' [] → wp (k (f n)) Q s') → wp (host f ≫= k) Q s.
Proof. intros Hk. apply wp_bind. unfold host. apply wp_bind, wp_gets. apply Hk, said_clock. Qed.

Lemma wp_send_exact s x src dest rao Q :
  builder_safe x → (∀ rc s' outs, said s s' outs → sent x src dest rao outs → Q rc s') →
  wp (finalize_and_send x src dest rao) Q s.
Proof.
  intros Hx HQ. unfold finalize_and_send.
  destruct (rsvp_builder_finalize x) as [n x'] eqn:E.
  pose proof (finalize_safe x n x' Hx E) as Hn. unfold send_packet.
  eapply wp_said. intros c s1 S1. destruct (env_send c) as [open ok] eqn:Ec.
  destruct (rsvp_send_packet_total open ok src dest (b_buffer x') n rao Hn) as [[rc p] Ep].
  apply wp_bind. eapply wp_lift; [exact Ep|]. apply wp_bind.
  pose proof (rsvp_send_packet_result _ _ _ _ _ _ _ _ _ _ E Ep) as Hp.
  assert (∀ rc s', said s s' (Packet <$> option_list p) → Q rc s') as Hend.
  { intros rc' s' S'. eapply HQ; [exact S'|]. exists c. rewrite Hp, Ec. by destruct open. }
  destruct p as [bs|]; [|by apply wp_ret, wp_ret, Hend].
  apply wp_modify, wp_ret, Hend. eapply said_then; [exact S1|]. done.
Qed.

(** ** Rejected messages *)

Lemma wp_send_path_err_exact s info code value Q :
  (∀ la s' outs, said s s' outs →
     sent (path_err_message (info_key info) la code value) 0 (info_src_ip info) false outs → Q () s') →
  wp (send_path_err info code value) Q s.
Proof.
  intros HQ. unfold send_path_err, hal_netlink_get_local_addr. apply wp_bind.
  eapply wp_said. intros n s1 S1. apply wp_ret.
  destruct (match env_local_addr n 0 with Some a => (0, a) | None => (-1, 0) end) as [rc la].
  apply wp_bind, wp_send_exact; [auto with safe|]. intros rc2 s2 outs S2 Hs. apply wp_ret.
  eapply HQ; [|exact Hs]. by eapply said_then.
Qed.

Lemma wp_send_resv_err_exact s info code value Q :
  (∀ la s' outs, said s s' outs →
     sent (resv_err_message (info_key info) la code value) 0 (info_src_ip info) false outs → Q () s') →
  wp (send_resv_err info code value) Q s.
Proof.
  intros HQ. unfold send_resv_err, hal_netlink_get_local_addr. apply wp_bind.
  eapply wp_said. intros n s1 S1. apply wp_ret.
  destruct (match env_local_addr n 0 with Some a => (0, a) | None => (-1, 0) end) as [rc la].
  apply wp_bind, wp_send_exact; [auto with safe|]. intros rc2 s2 outs S2 Hs. apply wp_ret.
  eapply HQ; [|exact Hs]. by eapply said_then.
Qed.

(** C13: a PATH or RESV that fails its validation changes nothing: the tables,
    timers, labels and neighbours stay as they are, and the answer, if the
    socket is open, is one PathErr or ResvErr to the sender with the code of
    the validation.  A PATH fails without hop, sender or (when new) label
    request; a RESV without a path block, hop or label. *)
Theorem invalid_messages_rejected s m info :
  reachable s →
  (∀ ex, table_find (st_psb s) (info_key info) = Some ex →
     info_hop_v4 info = None ∨ info_sender_v4 info = None ∨ (info_label_req info = None ∧ ex = None) →
     ∃ s' la outs, handle_path_message m info s = Some ((), s') ∧ said s s' outs
       ∧ sent (path_err_message (info_key info) la RSVP_PROTO_ERR_ROUTING_PROBLEM 0)
           0 (info_src_ip info) false outs)
  ∧ (∀ ex, table_find (st_psb s) (info_key info) = Some ex →
     ex = None ∨ info_hop_v4 info = None ∨ info_label info = None →
     ∃ s' la outs, handle_resv_message m info s = Some ((), s') ∧ said s s' outs
       ∧ sent (resv_err_message (info_key info) la
                 (if decide (ex = None) then RSVP_PROTO_ERR_NO_PATH_STATE
                  else RSVP_PROTO_ERR_ROUTING_PROBLEM) 0)
           0 (info_src_ip info) false outs).
Proof.
  intros Hi%reachable_inv. split; intros ex Ex Hbad.
  - enough (wp (handle_path_message m info) (λ _ s', ∃ la outs, said s s' outs
      ∧ sent (path_err_message (info_key info) la RSVP_PROTO_ERR_ROUTING_PROBLEM 0)
           0 (info_src_ip info) false outs) s) as ([] & s' & E & la & outs & Ho)%wp_run by eauto 10.
    unfold handle_path_message, rsvp_psb_find. apply wp_bind, wp_bind, wp_gets.
    eapply wp_lift; [exact Ex|].
    assert (∃ rc, rc ≠ RSVP_SUCCESS ∧ rsvp_validate_path_message info (is_Some_b ex)
                  = (rc, RSVP_PROTO_ERR_ROUTING_PROBLEM, 0)) as (rc & Hrc & ->).
    { exists RSVP_ERR_MALFORMED_OBJ. split; [done|]. unfold rsvp_validate_path_message.
      destruct Hbad as [->|[->|[-> ->]]]; [done|by case_if|by repeat case_if]. }
    destruct rc; try done;
      (apply wp_send_path_err_exact; intros; eauto).
  - enough (wp (handle_resv_message m info) (λ _ s', ∃ la outs, said s s' outs
      ∧ sent (resv_err_message (info_key info) la
                 (if decide (ex = None) then RSVP_PROTO_ERR_NO_PATH_STATE
                  else RSVP_PROTO_ERR_ROUTING_PROBLEM) 0)
           0 (info_src_ip info) false outs) s) as ([] & s' & E & la & outs & Ho)%wp_run by eauto 10.
    destruct (table_find_spec (st_rsb s) (info_key info) (inv_rsb _ _ Hi)) as (er & Er & _).
    unfold handle_resv_message, rsvp_rsb_find. apply wp_bind, wp_bind, wp_gets.
    eapply wp_lift; [exact Er|]. apply wp_bind. unfold rsvp_validate_resv_message, rsvp_psb_find.
    apply wp_bind, wp_bind, wp_gets. eapply wp_lift; [exact Ex|]. apply wp_ret.
    destruct ex as [l|].
    + destruct Hbad as [?|[->| ->]]; [done|..]; cbn [null];
        try (destruct (null (info_hop_v4 info))); apply wp_send_resv_err_exact; intros; eauto.
    + apply wp_send_resv_err_exact; intros; eauto.
Qed.

(** ** The removal of a path *)

(** The path block [l] of key [k] and its reservation [a] are gone: neither
    table finds the key, the memory and the timers of the block are released;
    every other path block is there with its key and reservation. *)
Record path_gone (l : loc) (k : rsvp_path_key) (a : option loc) s s' : Prop := {
  pgo_block : psbs s' !! l = None;
  pgo_find : table_find (st_psb s') k = Some None;
  pgo_rsb : ∀ lr, a = Some lr → rsbs s' !! lr = None;
  pgo_rsb_find : table_find (st_rsb s') k = Some None;
  pgo_timers : ti_view (st_timers s') !! PsbRefresh l = None
             ∧ ti_view (st_timers s') !! PsbCleanup l = None;
  pgo_others : ∀ l' k' a', l' ≠ l → has_psb s l' k' a' → has_psb s' l' k' a';
}.

Lemma path_gone_intro b l k a s s' :
  Inv b s → Inv b s' → has_psb s l k a →
  (∀ l' k' a', l' ≠ l → has_psb s l' k' a' → has_psb s' l' k' a') →
  (∀ l', is_Some (psbs s' !! l') → is_Some (psbs s !! l')) →
  psbs s' !! l = None → path_gone l k a s s'.
Proof.
  intros Hi Hi' Hp K1 K5 Hl.
  assert (∀ l' p, psbs s' !! l' = Some p → l' ≠ l) as Hne by (intros ? ? ? ->; congruence).
  assert (∀ l' p, psbs s' !! l' = Some p → has_psb s l' (psb_key p) (psb_associated_rsb p)) as Hold.
  { intros l' p Hp'. destruct (K5 l') as [p0 Hp0]; [by eexists|].
    pose proof (K1 l' _ _ (Hne l' p Hp') (has_psb_intro s l' p0 Hp0)) as Hk.
    destruct (has_psb_inv _ _ _ _ Hk) as (p' & Ep' & Ek & Ea). rewrite Hp' in Ep'.
    injection Ep' as <-. rewrite Ek, Ea. by apply has_psb_intro. }
  assert (∀ l' p, psbs s' !! l' = Some p → psb_key p ≠ k) as Hk.
  { intros l' p Hp' <-. apply (Hne l' p Hp').
    destruct (has_psb_inv _ _ _ _ (Hold l' p Hp')) as (p1 & E1 & K & _).
    destruct (has_psb_inv _ _ _ _ Hp) as (p2 & E2 & K' & _).
    apply (tab_unique _ (inv_psb b s Hi) l' l p1 p2 E1 E2). unfold key_of, psb_keyed. congruence. }
  split; try done.
  - by apply table_find_none; [apply Hi'|].
  - intros lr ->. destruct (rsbs s' !! lr) as [r|] eqn:Er; [|done].
    destruct (inv_assoc_rsb _ _ Hi' lr r Er) as (lp & p & _ & Ep & Ea & _).
    pose proof (Hold lp p Ep) as Ho. rewrite Ea in Ho.
    pose proof (has_psb_partner _ _ _ _ _ Hi Ho) as R1.
    pose proof (has_psb_partner _ _ _ _ _ Hi Hp) as R2. unfold has_rsb in R1, R2.
    rewrite R1 in R2. injection R2 as _ ->. by destruct (Hne l p Ep).
  - apply table_find_none; [apply Hi'|]. intros lr r Er Ek.
    destruct (inv_assoc_rsb _ _ Hi' lr r Er) as (lp & p & _ & Ep & _ & Ekp).
    apply (Hk lp p Ep). by rewrite Ekp.
  - pose proof (inv_timers _ _ Hi') as [_ Hm _ _].
    split; apply eq_None_not_Some; rewrite Hm; simpl; rewrite Hl; intros [[? [=]]|[]].
Qed.

Lemma wp_path_removed s l k a pr :
  Inv true s → has_psb s l k a → not_bypass s l →
  wp (rsvp_psb_cleanup l pr) (λ _ s', Inv true s' ∧ path_gone l k a s s'
    ∧ ∀ l', is_Some (psbs s' !! l') → is_Some (psbs s !! l')) s.
Proof.
  intros Hi Hp Hn. eapply wp_psb_cleanup; [done..|]. intros s' Hi' [K1 _ _ _ K5] Hl.
  split; [done|]. split; [|done]. eapply path_gone_intro; try done.
  intros l' k' a' Hne. apply K1. congruence.
Qed.

Lemma path_gone_same l k a s s1 s2 :
  Inv true s → Inv true s2 → has_psb s l k a → psbs s2 = psbs s1 →
  (∀ l', is_Some (psbs s1 !! l') → is_Some (psbs s !! l')) →
  path_gone l k a s s1 → path_gone l k a s s2.
Proof.
  intros Hi Hi2 Hp E Hold [G1 _ _ _ _ G6]. eapply path_gone_intro; try done; rewrite ?E; try done.
  intros l' k' a' Hne Hp'. unfold has_psb. rewrite E. by apply G6.
Qed.

(** C10: a path that is not a bypass tunnel goes, with its reservation, its
    timers and its entries in both tables, and without harm to any other path,
    when it is not refreshed in time, when the operator deletes it, and when
    its PathTear arrives. (A bypass tunnel leaves the paths it protects with a
    dangling pointer: see [bypass_teardown_dangles].) *)
Theorem path_removal s l k a :
  reachable s → has_psb s l k a → not_bypass s l →
  (∀ ts, ti_read (st_timers s) = Some (Some (psb_cleanup_timer_cb l), ts) →
     ∃ s', run_event TimerExpired s = Some ((), s') ∧ path_gone l k a s s')
  ∧ (∀ t i, rsvp_psb_find_by_id t i s = Some (Some l, s) →
     ∃ s', run_event (DeleteTunnel t i) s = Some ((), s') ∧ path_gone l k a s s')
  ∧ (∀ info, info_key info = k →
     ∃ s', handle_path_tear info s = Some ((), s') ∧ path_gone l k a s s').
Proof.
  intros Hi%reachable_inv Hp Hn.
  assert (∀ m : M (), wp m (λ _ s', path_gone l k a s s') s →
    ∃ s', m s = Some ((), s') ∧ path_gone l k a s s') as Hrun.
  { intros m ([] & s' & ? & ?)%wp_run. eauto. }
  assert (∀ pr, wp (rsvp_psb_cleanup l pr) (λ _ s', path_gone l k a s s') s) as Hclean.
  { intros pr. eapply wp_mono; [by apply wp_path_removed|]. naive_solver. }
  split; [|split].
  - intros ts Hr. apply Hrun. cbn [run_event]. unfold timer_exp_once. apply wp_bind.
    unfold wp at 1. rewrite Hr. cbn [mbind option_bind].
    destruct (inv_timers true s Hi) as [Hok Hm Hcb Hd].
    destruct (ti_read_law _ _ _ Hok Hr) as (Hok' & Hv & _).
    set (s1 := s <| st_timers := ts |>).
    assert (Inv true s1) as Hi1
      by (eapply inv_timers_update; [done|done|by intros; rewrite Hv|by rewrite Hv..]).
    eapply wp_mono; [by apply (wp_path_removed s1 l k a true)|]. intros [] s' (_ & [] & _). by split.
  - intros t i E. apply Hrun. cbn [run_event]. unfold rsvp_teardown_path. apply wp_bind.
    unfold wp. rewrite E. apply Hclean.
  - intros info Ek. apply Hrun. unfold handle_path_tear, rsvp_psb_find.
    apply wp_bind, wp_bind, wp_gets. destruct (has_psb_inv _ _ _ _ Hp) as (p & Ep & Ekp & _).
    eapply wp_lift.
    { apply (table_find_iff (st_psb s) (info_key info) l (inv_psb _ _ Hi)). exists p.
      split; [exact Ep|]. unfold key_of, psb_keyed. congruence. }
    apply wp_bind. eapply wp_mono; [by apply wp_path_removed|].
    intros [] s1 (Hi1 & Hg1 & Hold). unfold bsb_remove. apply wp_bind.
    eapply wp_bsb_find; [done| |by intros _; apply wp_ret]. intros lb Hb.
    assert (timer_live s1 (BsbBlockade lb)) as Hlb by (by eapply live_bsb).
    destruct (view_live true s1 _ Hi1 Hlb) as (x & cb & Ev & Hcb).
    apply wp_bind. eapply wp_timer_stop_raw; [apply (inv_timers _ _ Hi1)|exact Ev|].
    intros ts Hok Hv. set (s2 := s1 <| st_timers := ts |>).
    assert (Inv true s2) as Hi2 by (by eapply inv_timer_insert).
    eapply wp_bsb_delete; [done|exact Hb|]. intros s3 Hi3 E3 _ _ _.
    by eapply (path_gone_same _ _ _ s s1).
Qed.

(** ** The switch to a bypass tunnel *)

(** The path block [l] is now [p], nothing else of the memory changed. *)
Definition memory_but_psbs s :=
  (tb_buckets (st_psb s), st_rsb s, st_bsb s, st_timers s, st_labels s, st_next_lsp_id s,
   st_neighbors s, st_nbor_count s).
Record block_now (l : loc) (p : rsvp_psb) s s' : Prop := {
  bn_psbs : psbs s' = <[l := p]> (psbs s);
  bn_rest : memory_but_psbs s' = memory_but_psbs s;
}.

Lemma block_now_said l p s s1 s2 o : block_now l p s s1 → said s1 s2 o → block_now l p s s2.
Proof.
  intros [B1 B2] Hs. pose proof (said_psbs _ _ _ Hs) as E. destruct Hs as [[=] _]. split.
  - by rewrite E.
  - rewrite <- B2. unfold memory_but_psbs. congruence.
Qed.
Lemma said_block_now l p s s1 s2 o : said s s1 o → block_now l p s1 s2 → block_now l p s s2.
Proof.
  intros Hs [B1 B2]. pose proof (said_psbs _ _ _ Hs) as E. destruct Hs as [[=] _]. split.
  - by rewrite B1, E.
  - rewrite B2. unfold memory_but_psbs. congruence.
Qed.
Lemma block_now_trans l p p' s s1 s2 : block_now l p s s1 → block_now l p' s1 s2 → block_now l p' s s2.
Proof. intros [B1 B2] [C1 C2]. split; [by rewrite C1, B1, insert_insert_eq|congruence]. Qed.
Lemma block_now_lookup l p s s' : block_now l p s s' → psbs s' !! l = Some p.
Proof. intros [-> _]. apply lookup_insert_eq. Qed.
Lemma block_now_refl l p s : psbs s !! l = Some p → block_now l p s s.
Proof. intros. split; [by rewrite insert_id|done]. Qed.

Lemma wp_psb_set_exact s l p f Q :
  psbs s !! l = Some p →
  (∀ s', block_now l (f p) s s' → st_out s' = st_out s → Q () s') → wp (psb_set l f) Q s.
Proof.
  intros Hp HQ. eapply wp_psb_set_raw; [exact Hp|]. apply HQ; [|done]. split; [|done].
  change (psbs (s <| st_psb ::= λ t, table_update t l f |>)) with (alter f l (psbs s)).
  by apply alter_insert_eq.
Qed.

(** Where the PATH of [p] goes: the first hop of the explicit route, or the end
    of the tunnel. *)
Definition path_next_hop (p : rsvp_psb) : Z :=
  match psb_ero p with hop :: _ => subobj_addr hop | [] => sess_dest_addr (key_session (psb_key p)) end.

(** What [send_path_downstream] does to the block [p]: the explicit route may
    lose its first hop; without a route to the next hop that is all; else the
    egress interface becomes the one of that route and a PATH goes out there. *)
Definition path_sent_as (p p' : rsvp_psb) (outs : list output) : Prop :=
  (psb_ero p' = psb_ero p ∨ psb_ero p' = tail (psb_ero p))
  ∧ p' = p <| psb_ero := psb_ero p' |> <| psb_ifindex_out := psb_ifindex_out p' |>
  ∧ (psb_ifindex_out p' = psb_ifindex_out p ∧ outs = []
       ∧ (∃ n, env_egress_if n (path_next_hop p') < 0)
     ∨ ∃ n c, let d := path_next_hop p' in let i := env_egress_if n d in
         let la := default (snd_source_addr (key_sender (psb_key p))) (env_local_addr c i) in
         0 ≤ i ∧ psb_ifindex_out p' = i ∧ sent (path_message p' la i) la d true outs).

Lemma wp_resolve_exact s l p Q :
  psbs s !! l = Some p →
  (∀ n d p' s', block_now l p' s s' → st_out s' = st_out s →
     (psb_ero p' = psb_ero p ∨ psb_ero p' = tail (psb_ero p)) →
     p' = p <| psb_ero := psb_ero p' |> → d = path_next_hop p' → Q (d, env_egress_if n d) s') →
  wp (resolve_path_next_hop l) Q s.
Proof.
  intros Hp HQ. unfold resolve_path_next_hop. apply wp_bind. eapply wp_psb_get_raw; [exact Hp|].
  assert (∀ d p' s1, block_now l p' s s1 → st_out s1 = st_out s →
     (psb_ero p' = psb_ero p ∨ psb_ero p' = tail (psb_ero p)) → p' = p <| psb_ero := psb_ero p' |> →
     d = path_next_hop p' →
     wp (out_ifindex ← hal_netlink_get_egress_if d; mret (d, out_ifindex)) Q s1) as Hend.
  { intros d p' s1 B O E1 E2 E3. apply wp_bind. unfold hal_netlink_get_egress_if.
    eapply wp_said. intros n s2 S2. apply wp_ret, wp_ret.
    eapply HQ; [by eapply block_now_said| |done|done|done]. destruct S2 as [_ ->].
    by rewrite app_nil_r. }
  apply wp_bind. assert (p = p <| psb_ero := psb_ero p |>) as Hpp by (by destruct p).
  destruct (psb_ero p) as [|hop rest] eqn:Ee.
  - apply wp_ret. eapply (Hend _ p); [by apply block_now_refl|done|by rewrite Ee; left|by rewrite Ee
      |unfold path_next_hop; by rewrite Ee].
  - apply wp_bind. unfold hal_netlink_get_local_addr. eapply wp_said. intros n s1 S1. apply wp_ret.
    destruct (match env_local_addr n 0 with Some a => (0, a) | None => (-1, 0) end) as [rc la].
    assert (psbs s1 !! l = Some p) as Hp1 by (by rewrite (said_psbs _ _ _ S1)).
    assert (st_out s1 = st_out s) as O1 by (destruct S1 as [_ ->]; by rewrite app_nil_r).
    apply wp_bind. unfold when. case_if.
    + eapply wp_psb_set_exact; [exact Hp1|]. intros s2 B2 O2. apply wp_bind.
      eapply wp_psb_get_raw; [by eapply block_now_lookup|]. apply wp_ret.
      eapply Hend; [by eapply said_block_now|congruence|by right|done|done].
    + apply wp_ret, wp_bind. eapply wp_psb_get_raw; [exact Hp1|]. apply wp_ret.
      eapply (Hend _ p); [|done|by rewrite Ee; left|by rewrite Ee|done].
      eapply said_block_now; [exact S1|]. by apply block_now_refl.
Qed.

Lemma wp_send_path_exact s l p Q :
  psbs s !! l = Some p →
  (∀ p' s' outs, block_now l p' s s' → st_out s' = st_out s ++ outs →
     path_sent_as p p' outs → Q () s') →
  wp (send_path_downstream l) Q s.
Proof.
  intros Hp HQ. unfold send_path_downstream. apply wp_bind. eapply wp_resolve_exact; [exact Hp|].
  intros n d p1 s1 B1 O1 He1 Ep1 Ed. case_if; bools.
  - apply wp_ret. eapply (HQ p1 s1 []); [done|by rewrite app_nil_r|].
    assert (psb_ifindex_out p1 = psb_ifindex_out p) as Ei by (by rewrite Ep1).
    split; [done|]. split; [rewrite Ei; by rewrite Ep1 at 1; destruct p|].
    left. split_and!; [done|done|]. exists n. by rewrite <- Ed.
  - apply wp_bind. eapply wp_psb_set_exact; [by eapply block_now_lookup|].
    intros s2 B2 O2. set (p2 := p1 <| psb_ifindex_out := env_egress_if n d |>) in *.
    apply wp_bind. unfold hal_netlink_get_local_addr. eapply wp_said. intros c s3 S3. apply wp_ret.
    assert (psbs s3 !! l = Some p2) as Hp3
      by (rewrite (said_psbs _ _ _ S3); by eapply block_now_lookup).
    assert (psb_key p2 = psb_key p) as Ek by (unfold p2; by rewrite Ep1).
    set (la := default (snd_source_addr (key_sender (psb_key p))) (env_local_addr c (env_egress_if n d))).
    assert (wp (finalize_and_send (path_message p2 la (env_egress_if n d)) la d true ;; mret ()) Q s3) as Hsend.
    { apply wp_bind, wp_send_exact; [auto with safe|]. intros rc s4 outs S4 Hs. apply wp_ret.
      eapply (HQ p2 s4 outs).
      - eapply block_now_said; [|exact S4]. eapply block_now_said; [|exact S3].
        by eapply block_now_trans.
      - destruct S3 as [_ O3], S4 as [_ O4]. by rewrite O4, O3, O2, O1, app_nil_r.
      - split; [exact He1|]. split; [unfold p2; by rewrite Ep1|]. right. exists n, c.
        change (path_next_hop p2) with (path_next_hop p1). rewrite <- Ed. done. }
    unfold la in Hsend. rewrite <- Ek in Hsend. destruct (env_local_addr c _);
      apply wp_bind; (eapply wp_psb_get_raw; [exact Hp3|]); exact Hsend.
Qed.

(** The bypass that protects [p] against the failure of interface [i], with its
    reservation, when [rsvp_frr_trigger] would switch [p] to it. *)
Definition find_rsb s (k : rsvp_path_key) : option rsvp_rsb :=
  l ← table_find (st_rsb s) k; l ← l; rsbs s !! l.
Definition frr_target s (i : Z) (p : rsvp_psb) : option (rsvp_psb * rsvp_rsb) :=
  if (psb_ifindex_out p =? i) && bool_decide (psb_frr_mode p = RSVP_FRR_FACILITY)
     && is_Some_b (psb_bypass_psb p) && negb (psb_frr_active p) && negb (psb_is_bypass_tunnel p)
  then c ← psb_bypass_psb p; q ← psbs s !! c; rb ← find_rsb s (psb_key q);
       if rsb_label_out rb =? 0 then None else Some (q, rb)
  else None.

(** The entry that sends the label of [p] into the bypass. *)
Definition bypass_entry s (p : rsvp_psb) (rb : rsvp_rsb) : list output :=
  match find_rsb s (psb_key p) with
  | Some r => [MplsInstall (rsb_label_in r) (rsb_label_out rb)
                 (ntohl (hop_logical_interface (rsb_next_hop rb)))
                 (hop_neighbor_addr (rsb_next_hop rb)) (sess_dest_addr (key_session (psb_key p)))]
  | None => []
  end.

Definition switched (p q : rsvp_psb) : rsvp_psb :=
  p <| psb_frr_active := true |> <| psb_ifindex_out := psb_ifindex_out q |>.

Lemma find_rsb_spec b s k Q :
  Inv b s → (∀ l r, rsbs s !! l = Some r → find_rsb s k = Some r → Q (Some l) s) →
  (find_rsb s k = None → Q None s) → wp (rsvp_rsb_find k) Q s.
Proof.
  intros Hi H1' H2'. unfold rsvp_rsb_find, find_rsb in *. apply wp_bind, wp_gets.
  destruct (table_find_spec (st_rsb s) k (inv_rsb b s Hi)) as (r & E & Hr). rewrite E in *.
  eapply wp_lift; [done|]. destruct r as [l|]; [|by apply H2'].
  destruct Hr as (a & Ha & _). by eapply (H1' l a).
Qed.

Lemma wp_frr_switch_exact s i l p Q :
  Inv true s → psbs s !! l = Some p →
  (frr_target s i p = None → Q () s) →
  (∀ q rb p' s' outs, frr_target s i p = Some (q, rb) → block_now l p' s s' →
     st_out s' = st_out s ++ bypass_entry s p rb ++ outs →
     path_sent_as (switched p q) p' outs → Q () s') →
  wp (frr_switch i l) Q s.
Proof.
  intros Hi Hp Hno Hyes. unfold frr_switch, frr_target in *. apply wp_bind.
  eapply wp_psb_get_raw; [exact Hp|].
  destruct (_ && _ && _ && _ && _) eqn:Eg; cbn [negb]; [|by apply wp_ret, Hno].
  destruct (psb_bypass_psb p) as [c|] eqn:Ec; [|by rewrite ?andb_false_r in Eg].
  destruct (inv_bypass true s Hi eq_refl _ _ _ Hp Ec) as (q & Eq & _).
  apply wp_bind. eapply wp_lift; [done|]. apply wp_bind. eapply wp_psb_get_raw; [exact Eq|].
  cbn [mbind option_bind] in Hno, Hyes. rewrite Eq in Hno, Hyes.
  cbn [mbind option_bind] in Hno, Hyes.
  apply wp_bind. unfold bypass_ready. apply wp_bind.
  eapply find_rsb_spec; [done| |intros Er; rewrite Er in Hno; by apply wp_ret, wp_ret, Hno].
  intros lb rb Hrb Er. rewrite Er in Hno, Hyes. cbn [mbind option_bind] in Hno, Hyes.
  apply wp_bind. eapply wp_rsb_get_raw; [exact Hrb|]. apply wp_ret.
  destruct (rsb_label_out rb =? 0) eqn:El; [by apply wp_ret, Hno|].
  assert (∀ s1, said s s1 (bypass_entry s p rb) →
    wp (psb_set l (λ p, p <| psb_frr_active := true |> <| psb_ifindex_out := psb_ifindex_out q |>) ;;
        send_path_downstream l) Q s1) as Hend.
  { intros s1 S1. apply wp_bind. eapply wp_psb_set_exact; [by rewrite (said_psbs _ _ _ S1)|].
    intros s2 B2 O2. eapply wp_send_path_exact; [by eapply block_now_lookup|].
    intros p' s3 outs B3 O3 Hs. eapply Hyes; [done| | |exact Hs].
    - eapply said_block_now; [exact S1|]. by eapply block_now_trans.
    - destruct S1 as [_ O1]. by rewrite O3, O2, O1, app_assoc. }
  apply wp_bind. eapply find_rsb_spec; [done| |].
  - intros lr r Hr Efr. apply wp_bind. apply wp_bind. eapply wp_rsb_get_raw; [exact Hr|].
    apply wp_modify, Hend. split; [done|]. unfold bypass_entry. by rewrite Efr.
  - intros Efr. apply wp_bind, wp_ret, Hend. unfold bypass_entry. rewrite Efr. apply said_refl.
Qed.

Lemma wp_and {A} (m : M A) Q R s : wp m Q s → wp m R s → wp m (λ a s', Q a s' ∧ R a s') s.
Proof. unfold wp. by destruct (m s) as [[a s']|]. Qed.

(** What has become of the block [p], and what went out for it: nothing, or the
    entry into the bypass and the PATH that says so. *)
Definition frr_outcome s0 (i : Z) l (p : rsvp_psb) s' (out : list output) : Prop :=
  match frr_target s0 i p with
  | None => psbs s' !! l = Some p ∧ out = []
  | Some (q, rb) => ∃ p' outs, psbs s' !! l = Some p' ∧ path_sent_as (switched p q) p' outs
      ∧ out = bypass_entry s0 p rb ++ outs
  end.

(** The blocks in the order of the chains. *)
Definition blocks s : list loc := mjoin (tb_buckets (st_psb s)).

(** All blocks have come to their outcome; [outs] is what went out for them, in
    the order of the chains. *)
Definition frr_done s0 (i : Z) s' (outs : list output) : Prop :=
  dom (psbs s') = dom (psbs s0) ∧ ∃ out : loc → list output, outs = mjoin (out <$> blocks s0)
    ∧ ∀ l p, psbs s0 !! l = Some p → frr_outcome s0 i l p s' (out l).

(** The loop of [rsvp_frr_trigger] after the blocks [done]. *)
Record frr_progress (s0 : state) (i : Z) (done : list loc) (out : loc → list output) s1 : Prop := {
  fp_inv : Inv true s1;
  fp_rest : memory_but_psbs s1 = memory_but_psbs s0;
  fp_dom : dom (psbs s1) = dom (psbs s0);
  fp_todo : ∀ l p, psbs s0 !! l = Some p → l ∉ done → psbs s1 !! l = Some p;
  fp_done : ∀ l p, psbs s0 !! l = Some p → l ∈ done → frr_outcome s0 i l p s1 (out l);
  fp_out : st_out s1 = st_out s0 ++ mjoin (out <$> done);
}.

Lemma path_sent_active p q p' outs : path_sent_as (switched p q) p' outs → psb_frr_active p' = true.
Proof. intros (_ & -> & _). done. Qed.

Lemma find_rsb_same s s' k : memory_but_psbs s' = memory_but_psbs s → find_rsb s' k = find_rsb s k.
Proof.
  intros [=]. assert (st_rsb s' = st_rsb s) as E by done. unfold find_rsb, rsbs. by rewrite E.
Qed.
Lemma bypass_entry_same s s' p rb :
  memory_but_psbs s' = memory_but_psbs s → bypass_entry s' p rb = bypass_entry s p rb.
Proof. intros Hm. unfold bypass_entry. by rewrite (find_rsb_same _ _ _ Hm). Qed.

Lemma frr_target_active s i p : psb_frr_active p = true → frr_target s i p = None.
Proof. intros E. unfold frr_target. rewrite E. by rewrite ?andb_false_r. Qed.

Lemma frr_target_bypass s i p : psb_is_bypass_tunnel p = true → frr_target s i p = None.
Proof. intros E. unfold frr_target. rewrite E. by rewrite ?andb_false_r. Qed.

(** The loop finds a block it has not come to with the target it had. *)
Lemma frr_target_same s0 i done out s1 l p :
  Inv true s0 → frr_progress s0 i done out s1 → psbs s0 !! l = Some p →
  frr_target s1 i p = frr_target s0 i p.
Proof.
  intros Hi0 [Hi1 Hm _ Htodo Hdone _] Hp. unfold frr_target. case_match; [|done].
  destruct (psb_bypass_psb p) as [c|] eqn:Ec; [|done].
  destruct (inv_bypass _ _ Hi0 eq_refl _ _ _ Hp Ec) as (q & Eq & Hq). cbn [mbind option_bind].
  assert (psbs s1 !! c = Some q) as Eq1.
  { destruct (decide (c ∈ done)) as [Hc|Hc]; [|by apply Htodo].
    pose proof (Hdone c q Eq Hc) as Ho. unfold frr_outcome in Ho.
    by rewrite (frr_target_bypass s0 i q Hq) in Ho; destruct Ho. }
  rewrite Eq, Eq1. cbn [mbind option_bind]. by rewrite (find_rsb_same _ _ _ Hm).
Qed.

Lemma frr_outcome_same s0 i l p s1 s2 out :
  psbs s2 !! l = psbs s1 !! l → frr_outcome s0 i l p s1 out → frr_outcome s0 i l p s2 out.
Proof. unfold frr_outcome. by intros ->. Qed.

(** [out] with [o] for the block [l]. *)
Definition said_for (l : loc) (o : list output) (out : loc → list output) (l' : loc) : list output :=
  if decide (l' = l) then o else out l'.

Lemma said_for_others l o out done :
  l ∉ done → mjoin (said_for l o out <$> done) = mjoin (out <$> done).
Proof.
  intros Hl. f_equal. apply list_fmap_ext. intros j l' Hl'%list_elem_of_lookup_2.
  unfold said_for. rewrite decide_False; [done|]. congruence.
Qed.

Lemma frr_progress_step s0 i done out s1 l p :
  Inv true s0 → psbs s0 !! l = Some p → l ∉ done → frr_progress s0 i done out s1 →
  wp (frr_switch i l) (λ _ s2, ∃ o, frr_progress s0 i (done ++ [l]) (said_for l o out) s2) s1.
Proof.
  intros Hi0 Hp Hl Hpr. pose proof Hpr as [Hi1 Hm Hdom Htodo Hdone Hout].
  assert (psbs s1 !! l = Some p) as Hp1 by (by apply Htodo).
  assert (wp (frr_switch i l) (λ _ s2, Inv true s2) s1) as Hsafe.
  { eapply wp_frr_switch; [done|by apply has_psb_intro|done]. }
  assert (wp (frr_switch i l) (λ _ s2, memory_but_psbs s2 = memory_but_psbs s1
    ∧ dom (psbs s2) = dom (psbs s1) ∧ (∀ l', l' ≠ l → psbs s2 !! l' = psbs s1 !! l')
    ∧ ∃ o, st_out s2 = st_out s1 ++ o ∧ frr_outcome s0 i l p s2 o) s1) as Hstep.
  { eapply (wp_frr_switch_exact s1 i l p); [done|done|..]; rewrite (frr_target_same s0 i done out s1 l p) by done.
    - intros Hn. split_and!; [done..|]. exists []. split; [by rewrite app_nil_r|].
      unfold frr_outcome. by rewrite Hn.
    - intros q rb p' s2 outs Et B2 O2 Hs. split_and!; [apply B2| | |].
      + rewrite (bn_psbs _ _ _ _ B2). apply dom_insert_lookup_L. by eexists.
      + intros l' Hne. rewrite (bn_psbs _ _ _ _ B2). by rewrite lookup_insert_ne.
      + eexists. split; [exact O2|]. unfold frr_outcome. rewrite Et. exists p', outs.
        split; [by eapply block_now_lookup|]. split; [done|].
        by rewrite (bypass_entry_same s0 s1) by done. }
  eapply wp_mono; [apply (wp_and _ _ _ _ Hsafe Hstep)|].
  intros [] s2 (Hi2 & Hm2 & Hd2 & Hoth & o & Ho2 & Hnew). exists o. split; [done|congruence|congruence|..].
  - intros l' p' Hp' [Hl' Hne%not_elem_of_cons]%not_elem_of_app. rewrite Hoth by apply Hne. by apply Htodo.
  - intros l' p' Hp' Hl'. unfold said_for. destruct (decide (l' = l)) as [->|Hne].
    + rewrite Hp in Hp'. by injection Hp' as <-.
    + apply elem_of_app in Hl' as [Hl'|Hl'%list_elem_of_singleton]; [|done].
      eapply frr_outcome_same; [by apply Hoth|by apply Hdone].
  - rewrite fmap_app, join_app, said_for_others by done. cbn [fmap list_fmap mjoin list_join].
    unfold said_for at 1. rewrite decide_True by done. by rewrite app_nil_r, Ho2, Hout, app_assoc.
Qed.

Lemma frr_loop s0 i chain s1 old out :
  Inv true s0 → NoDup (old ++ chain) → frr_progress s0 i old out s1 →
  (∀ l, l ∈ chain → is_Some (psbs s0 !! l)) →
  wp (iter (frr_switch i) chain) (λ _ s2, ∃ out, frr_progress s0 i (old ++ chain) out s2) s1.
Proof.
  intros Hi0. revert s1 old out. induction chain as [|l chain IH]; intros s1 old out Hnd Hpr Hlive.
  { apply wp_ret. exists out. by rewrite app_nil_r. }
  simpl. apply wp_bind. destruct (Hlive l) as [p Hp]; [by left|].
  eapply wp_mono.
  { eapply frr_progress_step; [done|done| |done]. apply NoDup_app in Hnd as (_ & Hd & _).
    intros Hl. apply (Hd l Hl). by left. }
  intros [] s2 [o Hpr2]. cbv beta in Hpr2. change (l :: chain) with ([l] ++ chain) in *.
  rewrite app_assoc in *. eapply IH; [done|done|]. intros. apply Hlive. by right.
Qed.

Lemma frr_progress_start s i : Inv true s → frr_progress s i [] (λ _, []) s.
Proof.
  intros. split; try done; [|by rewrite app_nil_r]. intros ?? _ Hx. by apply not_elem_of_nil in Hx.
Qed.

Lemma blocks_spec s l : table_ok (st_psb s) → l ∈ blocks s ↔ is_Some (psbs s !! l).
Proof. apply buckets_linked. Qed.

Lemma wp_frr_trigger_exact s i Q :
  Inv true s →
  (∀ s' outs, Inv true s' → memory_but_psbs s' = memory_but_psbs s → st_out s' = st_out s ++ outs →
     frr_done s i s' outs → Q () s') →
  wp (rsvp_frr_trigger i) Q s.
Proof.
  intros Hi HQ. unfold rsvp_frr_trigger, all_psbs. apply wp_bind, wp_gets. fold (blocks s).
  eapply wp_mono.
  { apply (frr_loop s i (blocks s) s [] (λ _, [])); [done| |by apply frr_progress_start|].
    - apply buckets_nodup, Hi.
    - intros l. apply blocks_spec, Hi. }
  intros [] s' (out & [Hi' Hm Hd _ Hdone Ho]). eapply HQ; [done|done|exact Ho|].
  split; [done|]. exists out. split; [done|]. intros l p Hp. apply Hdone; [done|].
  apply blocks_spec; [apply Hi|]. by eexists.
Qed.

(** C11: when an interface fails every path over it that asked for facility
    protection, is not switched yet and has a bypass with a label is switched:
    its label, if it has a reservation, is forwarded into the bypass, the block
    is marked, and a PATH that says so goes out ([frr_target], [bypass_entry],
    [path_sent_as]). The output is what the switched blocks say, in the order
    of the chains, and no more; every other block, the reservations, timers,
    labels and neighbours stay as they are. The interface of the bypass does
    not stay in the block: [send_path_downstream] replaces it by the interface
    of the route to the next hop, and no PATH goes out when there is no such
    route or the raw socket is not open. *)
Theorem frr_trigger_switches s i :
  reachable s →
  ∃ s' outs, rsvp_frr_trigger i s = Some ((), s')
    ∧ memory_but_psbs s' = memory_but_psbs s
    ∧ st_out s' = st_out s ++ outs
    ∧ NoDup (blocks s) ∧ (∀ l, l ∈ blocks s ↔ is_Some (psbs s !! l))
    ∧ dom (psbs s') = dom (psbs s)
    ∧ ∃ out : loc → list output, outs = mjoin (out <$> blocks s)
      ∧ ∀ l p, psbs s !! l = Some p →
          match frr_target s i p with
          | None => psbs s' !! l = Some p ∧ out l = []
          | Some (q, rb) =>
              ∃ p' sent, psbs s' !! l = Some p' ∧ psb_key p' = psb_key p ∧ psb_frr_active p' = true
                ∧ path_sent_as (p <| psb_frr_active := true |> <| psb_ifindex_out := psb_ifindex_out q |>)
                    p' sent
                ∧ out l = bypass_entry s p rb ++ sent
          end.
Proof.
  intros Hi%reachable_inv.
  enough (wp (rsvp_frr_trigger i) (λ _ s', ∃ outs, memory_but_psbs s' = memory_but_psbs s
    ∧ st_out s' = st_out s ++ outs ∧ frr_done s i s' outs) s)
    as ([] & s' & E & outs & Hm & Ho & Hd & out & Eo & Hall)%wp_run.
  { exists s', outs. split_and!; [done..|apply buckets_nodup, Hi|intros l; apply blocks_spec, Hi|done|].
    exists out. split; [done|]. intros l p Hp. specialize (Hall l p Hp).
    unfold frr_outcome in Hall. destruct (frr_target s i p) as [[q rb]|]; [|done].
    destruct Hall as (p' & sent & E1 & Hs & Hx). exists p', sent. split; [done|].
    split; [destruct Hs as (_ & -> & _); done|]. split; [by eapply path_sent_active|done]. }
  apply wp_frr_trigger_exact; [done|]. intros s' outs _ Hm Ho Hd. by exists outs.
Qed.

(** ** Hello messages *)

Lemma wp_nbor_set_exact s i n f Q :
  Inv true s → (i < st_nbor_count s)%nat → st_neighbors s !! i = Some n →
  (∀ n, nbor_good n → nbor_good (f n) ∧ nb_active (f n) = nb_active n) →
  (∀ s', Inv true s' → s' = s <| st_neighbors ::= alter f i |> → Q () s') →
  wp (nbor_set i f) Q s.
Proof.
  intros Hi Hc En Hf HQ.
  pose proof (wp_nbor_set true s i f (λ _ s', Inv true s') Hi Hc Hf (λ _ Hi' _, Hi')) as Hw.
  assert (wp (nbor_set i f) (λ _ s', s' = s <| st_neighbors ::= alter f i |>) s) as He.
  { unfold nbor_set, nbor_get. apply wp_bind, wp_bind, wp_gets. eapply wp_lift; [exact En|].
    by apply wp_modify. }
  eapply wp_mono; [apply (wp_and _ _ _ _ Hw He)|]. intros [] s' []. by apply HQ.
Qed.

Lemma alter_list_insert {A} (f : A → A) i x (l : list A) : alter f i (<[i := x]> l) = <[i := f x]> l.
Proof. revert i. induction l as [|y l IH]; intros [|i]; cbn; [done..|]. f_equal. apply IH. Qed.

(** All but the path blocks, the timers, the neighbours, the output and the
    clock of the host. *)
Definition memory_but_hello s :=
  (tb_buckets (st_psb s), st_rsb s, st_bsb s, st_labels s, st_next_lsp_id s, st_nbor_count s).

(** What has become of the paths, and what went out for them, when the
    neighbour over [ifindex] has restarted or not. *)
Definition hello_paths (restarted : bool) s0 (ifindex : Z) s' (outs : list output) : Prop :=
  if restarted then frr_done s0 ifindex s' outs else psbs s' = psbs s0 ∧ outs = [].

(** The state after some steps of [rsvp_hello_recv]: neighbour [i] is [n], and
    the paths have come to their outcome, for which [outs] went out; then
    [acks] went out. *)
Record hello_mid (r : bool) s0 (ifindex : Z) (i : nat) (n : rsvp_neighbor)
    (outs acks : list output) s : Prop := {
  hm_nbors : st_neighbors s = <[i := n]> (st_neighbors s0);
  hm_lt : (i < length (st_neighbors s0))%nat;
  hm_rest : memory_but_hello s = memory_but_hello s0;
  hm_paths : hello_paths r s0 ifindex s outs;
  hm_out : st_out s = st_out s0 ++ outs ++ acks;
}.

Lemma hm_nbor r s0 x i n o a s : hello_mid r s0 x i n o a s → st_neighbors s !! i = Some n.
Proof. intros [-> ? _ _ _]. by apply list_lookup_insert_eq. Qed.

Lemma hello_paths_same r s0 x s1 s2 outs :
  psbs s2 = psbs s1 → hello_paths r s0 x s1 outs → hello_paths r s0 x s2 outs.
Proof.
  unfold hello_paths, frr_done, frr_outcome. by intros ->.
Qed.

Lemma hello_mid_set r s0 x i n f o a s :
  hello_mid r s0 x i n o a s → hello_mid r s0 x i (f n) o a (s <| st_neighbors ::= alter f i |>).
Proof.
  intros [Hn Hl Hm Hp Ho]. split; [|done|done|by eapply hello_paths_same|done].
  cbn. by rewrite Hn, alter_list_insert.
Qed.

Lemma hello_mid_said r s0 x i n o a s s' a' :
  said s s' a' → hello_mid r s0 x i n o a s → hello_mid r s0 x i n o (a ++ a') s'.
Proof.
  intros Hs [Hn Hl Hm Hp Ho]. pose proof (said_psbs _ _ _ Hs) as Ep. destruct Hs as [[=] Eo].
  split; [congruence|done|unfold memory_but_hello in *; congruence|by eapply hello_paths_same|].
  by rewrite Eo, Ho, !app_assoc.
Qed.

Lemma hello_mid_timers r s0 x i n o a s ts :
  hello_mid r s0 x i n o a s → hello_mid r s0 x i n o a (s <| st_timers := ts |>).
Proof. intros [Hn Hl Hm Hp Ho]. by split. Qed.

Lemma wp_nbor_restart_exact s0 s i n x Q :
  Inv true s → (i < st_nbor_count s)%nat →
  let r := negb (nb_dst_instance n =? 0) && negb (x =? nb_dst_instance n) in
  hello_mid false s0 (nb_ifindex n) i n [] [] s →
  (∀ s' outs, Inv true s' →
     hello_mid r s0 (nb_ifindex n) i
       (if r then n <| nb_state := RSVP_NBOR_IDLE |> <| nb_up_since := 0 |> <| nb_dst_instance := 0 |>
        else n) outs [] s' →
     st_timers s' = st_timers s → Q () s') →
  wp (nbor_restart i x) Q s.
Proof.
  intros Hi Hc r Hm HQ. pose proof (hm_nbor _ _ _ _ _ _ _ _ Hm) as En.
  unfold nbor_restart, nbor_get. apply wp_bind, wp_bind, wp_gets.
  eapply wp_lift; [exact En|]. fold r. destruct r; unfold when; [|by apply wp_ret; eapply HQ].
  apply wp_bind. eapply wp_nbor_set_exact; [done|done|exact En|done|]. intros s1 Hi1 ->.
  apply wp_frr_trigger_exact; [done|]. intros s2 outs Hi2 [= E0 E1 E2 E3 E4 E5 E6 E7] Ho2 Hd.
  destruct Hm as [M1 M2 [= M3 M4 M5 M6 M7 M8] [M9 _] M0]. eapply (HQ s2 outs); [done| |done].
  cbn in *. split.
  - by rewrite E6, M1, alter_list_insert.
  - done.
  - unfold memory_but_hello. congruence.
  - cbn. unfold frr_done, frr_outcome, frr_target, bypass_entry, find_rsb, rsbs, blocks, psbs in *.
    cbn in *. by rewrite <- M9, <- M3, <- M4.
  - by rewrite Ho2, M0, !app_nil_r.
Qed.

(** The ACK to a request, from the neighbour block [n]. *)
Definition hello_ack (c : Z) (n : rsvp_neighbor) (acks : list output) : Prop :=
  if c =? RSVP_HELLO_CTYPE_REQUEST
  then sent (hello_message n RSVP_HELLO_CTYPE_ACK).2 (nb_local_addr n) (nb_addr n) false acks
  else acks = [].

(** [n] with another count of the Hellos sent to it, one more at most. *)
Definition acked (c : Z) (n n' : rsvp_neighbor) : Prop :=
  n' = n ∨ c = RSVP_HELLO_CTYPE_REQUEST ∧ n' = n <| nb_hellos_sent ::= λ k, (k + 1) mod 2 ^ 64 |>.

Lemma hello_message_built n c : (hello_message n c).1 = 0.
Proof.
  unfold hello_message, rsvp_builder_add_obj. reflexivity.
Qed.

(** The end of [rsvp_hello_recv]: the answer to a request. *)
Lemma wp_hello_answer r s0 x s i n o (c : Z) (Q : () → state → Prop) :
  hello_mid r s0 x i n o [] s →
  (∀ s' n' acks, hello_mid r s0 x i n' o acks s' → st_timers s' = st_timers s →
     acked c n n' → hello_ack c n acks → Q () s') →
  wp (when (c =? RSVP_HELLO_CTYPE_REQUEST) (send_hello i RSVP_HELLO_CTYPE_ACK)) Q s.
Proof.
  intros Hm HQ. unfold when, hello_ack in *. case_if; [|by apply wp_ret; eapply HQ; [..|left|]].
  bools. unfold send_hello, nbor_get. apply wp_bind, wp_bind, wp_gets.
  eapply wp_lift; [by eapply hm_nbor|].
  pose proof (hello_message_safe n RSVP_HELLO_CTYPE_ACK) as Hs.
  pose proof (hello_message_built n RSVP_HELLO_CTYPE_ACK) as Hb.
  destruct (hello_message n RSVP_HELLO_CTYPE_ACK) as [rc b]. cbn [fst snd] in *. subst rc.
  cbn [Z.eqb negb]. apply wp_bind, wp_send_exact; [done|]. intros err s1 outs S1 Hsent.
  pose proof (hello_mid_said _ _ _ _ _ _ _ _ _ _ S1 Hm) as Hm1. cbn [app] in Hm1.
  assert (st_timers s1 = st_timers s) as T1 by (by destruct S1 as [[=] _]).
  unfold when. case_if; [|by apply wp_ret; eapply HQ; [..|left|]].
  unfold nbor_set, nbor_get. apply wp_bind, wp_bind, wp_gets.
  eapply wp_lift; [by eapply hm_nbor|]. apply wp_modify.
  eapply HQ; [by apply hello_mid_set|done|by right|done].
Qed.

(** The neighbour is up: since the time the host says if it was not. *)
Definition nbor_up (n n' : rsvp_neighbor) : Prop :=
  if bool_decide (nb_state n = RSVP_NBOR_UP) then n' = n
  else ∃ k, n' = n <| nb_state := RSVP_NBOR_UP |> <| nb_up_since := env_time k |>.

(** The part of [rsvp_hello_recv] after the instances: the dead timer starts
    anew and the neighbour is up. *)
Lemma wp_hello_alive r s0 x s i n o (c : Z) (Q : () → state → Prop) :
  Inv true s → (i < st_nbor_count s)%nat → hello_mid r s0 x i n o [] s →
  (∀ s' n1 n' acks, hello_mid r s0 x i n' o acks s' → nbor_up n n1 → acked c n1 n' →
     hello_ack c n1 acks →
     ti_view (st_timers s') = <[NborDead i := (true, Some (dead_timer_cb i))]> (ti_view (st_timers s)) →
     Q () s') →
  wp (timer_stop (NborDead i) ;;
      n ← nbor_get i;
      timer_start (NborDead i) RSVP_TIMER_CLEANUP (nb_dead_interval_ms n) (dead_timer_cb i) ;;
      when (negb (bool_decide (nb_state n = RSVP_NBOR_UP)))
        (now ← time;
         nbor_set i (λ n, n <| nb_state := RSVP_NBOR_UP |> <| nb_up_since := now |>)) ;;
      when (c =? RSVP_HELLO_CTYPE_REQUEST) (send_hello i RSVP_HELLO_CTYPE_ACK)) Q s.
Proof.
  intros Hi Hc Hm HQ.
  assert (nbor_good n) as [_ Hg].
  { destruct (nbor_lookup true s i Hi Hc) as (n' & E' & Hg & _).
    rewrite (hm_nbor _ _ _ _ _ _ _ _ Hm) in E'. by injection E' as <-. }
  destruct (view_live true s (NborDead i) Hi Hc) as (a & cb & Ev & _).
  apply wp_bind. eapply wp_timer_stop_raw; [apply (inv_timers _ _ Hi)|exact Ev|].
  intros ts1 Ok1 V1. apply (hello_mid_timers _ _ _ _ _ _ _ _ ts1) in Hm.
  set (s1 := s <| st_timers := ts1 |>) in *.
  unfold nbor_get at 1. apply wp_bind, wp_bind, wp_gets. eapply wp_lift; [by eapply hm_nbor|].
  destruct (ti_start_law ts1 (NborDead i) RSVP_TIMER_CLEANUP (nb_dead_interval_ms n)
    (Some (dead_timer_cb i)) Ok1) as (ts2 & E2 & Ok2 & V2);
    [rewrite V1, lookup_insert_eq; by eexists|done|].
  apply wp_bind. eapply wp_update; [cbv beta; change (st_timers s1) with ts1; by rewrite E2|].
  rewrite V1, insert_insert_eq in V2.
  apply (hello_mid_timers _ _ _ _ _ _ _ _ ts2) in Hm. set (s2 := s1 <| st_timers := ts2 |>) in *.
  unfold nbor_up in HQ. apply wp_bind. unfold when at 1. case_bool_decide as Hup; cbn [negb].
  - apply wp_ret. eapply wp_hello_answer; [exact Hm|]. intros s7 n7 acks Hm7 T7 A7 K7.
    eapply HQ; [exact Hm7|done|exact A7|exact K7|by rewrite T7].
  - unfold time, host. apply wp_bind, wp_bind, wp_gets, wp_bind, wp_modify, wp_ret.
    unfold nbor_set, nbor_get. apply wp_bind, wp_bind, wp_gets.
    eapply wp_lift; [exact (hm_nbor _ _ _ _ _ _ _ _ Hm)|]. apply wp_modify.
    set (n1 := n <| nb_state := RSVP_NBOR_UP |> <| nb_up_since := env_time (st_clock s2) |>).
    eapply (wp_hello_answer _ _ _ _ i n1).
    { eapply (hello_mid_said _ _ _ _ _ _ _ s2) in Hm; [|by apply (said_clock s2 Nat.succ)].
      by apply (hello_mid_set _ _ _ _ _ (λ n, n <| nb_state := RSVP_NBOR_UP |>
        <| nb_up_since := env_time (st_clock s2) |>)) in Hm. }
    intros s7 n7 acks Hm7 T7 A7 K7.
    eapply HQ; [exact Hm7|by eexists|exact A7|exact K7|by rewrite T7].
Qed.

(** The block of the neighbour after a Hello of the instance [x] that arrives at
    the time [now]: one more Hello heard, of that instance; the neighbour is up,
    as before if it was and has not restarted. *)
Definition nbor_heard (restarted : bool) (now x : Z) (n n' : rsvp_neighbor) : Prop :=
  let heard := n <| nb_hellos_rcvd ::= λ k, (k + 1) mod 2 ^ 64 |> <| nb_last_hello_rx := now |>
                 <| nb_dst_instance := x |> in
  if bool_decide (nb_state n = RSVP_NBOR_UP) && negb restarted then n' = heard
  else ∃ k, n' = heard <| nb_state := RSVP_NBOR_UP |> <| nb_up_since := env_time k |>.

End behaviour.

(** ** Witnesses *)

Lemma invalid_messages_rejected_witness :
  ∃ s', handle_path_message [] zero_info test_start = Some ((), s') ∧ memory s' = memory test_start.
Proof.
  assert (table_find (st_psb test_start) (info_key zero_info) = Some None) as Hf
    by (vm_cast_no_check (eq_refl (Some (None : option loc)))).
  destruct (invalid_messages_rejected test_start [] zero_info test_start_reachable) as [Hp _].
  destruct (Hp None Hf) as (s' & la & outs & E & [Hm _] & _).
  - left. reflexivity.
  - exists s'. split; [exact E|exact Hm].
Defined.

(** The path of [test_lsp] is torn down by its sender. *)
Definition test_tear : rsvp_message_info := zero_info <| info_key := test_key |>.
Lemma path_removal_witness :
  ∃ l lr s', has_psb test_lsp l test_key (Some lr)
    ∧ handle_path_tear test_tear test_lsp = Some ((), s')
    ∧ psbs s' !! l = None ∧ rsbs s' !! lr = None.
Proof.
  assert (has_psb test_lsp 1%positive test_key (Some 1%positive)) as Hp
    by (vm_cast_no_check (eq_refl (Some (test_key, Some 1%positive)))).
  assert (not_bypass test_lsp 1%positive) as Hn by (vm_cast_no_check (eq_refl (Some false))).
  destruct (path_removal test_lsp _ _ _ test_lsp_reachable Hp Hn) as (_ & _ & Htear).
  destruct (Htear test_tear eq_refl) as (s' & E & G).
  exists 1%positive, 1%positive, s'. split; [exact Hp|]. split; [exact E|].
  split; [apply G|]. exact (pgo_rsb _ _ _ _ _ G _ eq_refl).
Defined.

(** A neighbour 88 on interface 1, and a Hello of its instance 9. *)
Definition test_nbor : test_state :=
  default test_start (run_events test_start [AddNeighbor 88 101 1]).
Lemma test_nbor_reachable : reachable test_nbor.
Proof.
  apply run_events_default; [exact test_start_reachable|]. vm_cast_no_check (eq_refl true).
Qed.


(** A tunnel over interface 1 that a bypass tunnel of that interface protects:
    states with bypass tunnels, in which a received RESV has the tunnel id of
    one only if it is for that one. *)
Definition resv_check (s : test_state) (m : list Z) : bool :=
  packet_check m && match rsvp_parse_packet m (length m) with
  | Some (RSVP_SUCCESS, info) =>
      match info_common_hdr info ≫= load_struct rsvp_common_hdr m with
      | Some hdr => hdr_msg_type hdr =? RSVP_MSG_RESV
      | None => false
      end && forallb (λ x, negb (psb_is_bypass_tunnel x.2)
                           || negb (tunnel_of (psb_key x.2) =? tunnel_of (info_key info))
                           || bool_decide (psb_key x.2 = info_key info)) (map_to_list (psbs s))
  | _ => true
  end.

Lemma resv_check_ok s m : resv_check s m = true → event_ok s (ReceivePacket m).
Proof.
  unfold resv_check. intros [Hp Hr]%andb_true_iff. split; [by apply packet_check_sane|].
  intros info o hdr E Eo Eh. rewrite E, Eo in Hr. cbn [mbind option_bind] in Hr. rewrite Eh in Hr.
  apply andb_true_iff in Hr as [Ht%Z.eqb_eq Hids]. rewrite Ht. split; [done|].
  intros _ l p Hl Hb Htun. rewrite forallb_forall in Hids.
  pose proof (Hids (l, p)) as Hx. rewrite <- list_elem_of_In, elem_of_map_to_list in Hx.
  specialize (Hx Hl). simpl in Hx. rewrite Hb, Htun, Z.eqb_refl in Hx. cbn [negb orb] in Hx.
  by apply bool_decide_eq_true in Hx.
Qed.

Definition tunnel_key : rsvp_path_key := initiate_key 77 88 1 2.
Definition protected_events : list event :=
  [SetupBypass 77 99 7 None [] 1; ReceivePacket (resv_packet test_bypass_key 600 99); test_tunnel;
   ReceivePacket (resv_packet tunnel_key 500 88); EnableProtection 1 2 RSVP_FRR_FACILITY 7].

Definition resv_event_check (s : test_state) (e : event) : bool :=
  match e with
  | ReceivePacket m => resv_check s m
  | TimerExpired | DeleteTunnel _ _ => false
  | _ => true
  end.
Fixpoint resv_events_check (s : test_state) (es : list event) : option test_state :=
  match es with
  | [] => Some s
  | e :: es => if resv_event_check s e
               then '(_, s') ← run_event e s; resv_events_check s' es else None
  end.

Lemma resv_events_reachable es s s' :
  reachable s → resv_events_check s es = Some s' → reachable s'.
Proof.
  revert s. induction es as [|e es IH]; intros s Hr; cbn [resv_events_check]; [by intros [= <-]|].
  destruct (resv_event_check s e) eqn:Ec; [|done]. intros ([[] s1] & E & Hs)%bind_Some.
  apply (IH s1); [|done]. eapply reachable_event; [exact Hr| |exact E].
  destruct e; try done. by apply resv_check_ok.
Qed.

Definition test_protected : test_state := default test_start (resv_events_check test_start protected_events).

Lemma test_protected_reachable : reachable test_protected.
Proof.
  unfold test_protected. destruct (resv_events_check test_start protected_events) eqn:E.
  - exact (resv_events_reachable _ _ _ test_start_reachable E).
  - exact test_start_reachable.
Qed.

(** A path of key [k] that the failure of interface [i] switches. *)
Definition switch_check (s : test_state) (i : Z) (k : rsvp_path_key) : bool :=
  existsb (λ x, match frr_target s i x.2 with
                | Some _ => bool_decide (psb_key x.2 = k) | None => false end)
    (map_to_list (psbs s)).

Lemma switch_check_path s i k :
  switch_check s i k = true →
  ∃ l p, psbs s !! l = Some p ∧ psb_key p = k ∧ is_Some (frr_target s i p).
Proof.
  intros ([l p] & Hp & Ht)%existsb_exists. apply list_elem_of_In, elem_of_map_to_list in Hp.
  exists l, p. split; [done|]. cbn [snd] in Ht.
  destruct (frr_target s i p); [|done]. apply bool_decide_eq_true in Ht. split; [done|by eexists].
Qed.

(** The failure of interface 1 switches the tunnel to the label 600. *)
Lemma frr_trigger_switches_witness :
  ∃ s' l p', rsvp_frr_trigger 1 test_protected = Some ((), s')
    ∧ psbs s' !! l = Some p' ∧ psb_key p' = tunnel_key ∧ psb_frr_active p' = true.
Proof.
  assert (switch_check test_protected 1 tunnel_key = true) as Hc by (vm_cast_no_check (eq_refl true)).
  destruct (switch_check_path _ _ _ Hc) as (l & p & Hp & Hk & [[q rb] Ht]).
  destruct (frr_trigger_switches test_protected 1 test_protected_reachable) as (s' & outs & Er & _ & _ & _ & _ & _ & out & _ & Hall).
  specialize (Hall l p Hp). rewrite Ht in Hall.
  destruct Hall as (p' & sent & E1 & E2 & E3 & _).
  exists s', l, p'. split; [exact Er|]. split; [exact E1|]. split; [|exact E3].
  exact (eq_trans E2 Hk).
Defined.
