(* ===== verification/Accepted.v ===== *)
(** * Accepted PATH and RESV messages (src/pi/rsvp_state_machine.c)

    What [handle_resv_message] and [handle_path_message] do with a message
    that passes their checks: the block that is stored, the forwarding entry
    that is installed and the message that goes on, for each role of the
    router.  The rules of the files before say that the handlers succeed; the
    rules here, in partial-correctness style ([after]), follow their runs. *)

From stdpp Require Import base numbers list option gmap sets.
From S2P Require Import Prelude Wire Protocol LabelMgr WheelTimer Timers Builder SendPacket Parser.
From S2P Require Import Interfaces StateDb Timing State Messages StateMachine Hello Invariant Signalling.
From S2P Require Import Rules SendRules Lifecycle Handlers HandlersResv Operations Commands.
From S2P Require Import HelloRules Shutdown Testbed Daemon Behaviour.

(** ** Runs *)

Section after.
Context {S : Type}.

(** If the run ends, [Q] holds at its end. *)
Definition after {A} (m : M S A) (Q : A → S → Prop) (s : S) : Prop :=
  ∀ a s', m s = Some (a, s') → Q a s'.

Lemma after_wp {A} (m : M S A) Q s : wp m Q s → after m Q s.
Proof. unfold wp, after. intros Hw a s' E. by rewrite E in Hw. Qed.
Lemma wp_after {A} (m : M S A) R Q s : wp m R s → after m Q s → wp m (λ a s', R a s' ∧ Q a s') s.
Proof. unfold wp, after. destruct (m s) as [[a s']|]; auto. Qed.
Lemma after_ret {A} (a : A) Q s : Q a s → after (mret a) Q s.
Proof. by intros HQ ? ? [= <- <-]. Qed.
Lemma after_bind {A B} (m : M S A) (f : A → M S B) Q s :
  after m (λ a s', after (f a) Q s') s → after (m ≫= f) Q s.
Proof.
  intros Hm b s2. unfold mbind, M_bind. destruct (m s) as [[a s1]|] eqn:E; [|done].
  exact (Hm a s1 E b s2).
Qed.
Lemma after_mono {A} (m : M S A) (Q R : A → S → Prop) s :
  after m Q s → (∀ a s', Q a s' → R a s') → after m R s.
Proof. intros Hm HQ a s' E. by apply HQ, Hm. Qed.
Lemma after_gets {A} (f : S → A) Q s : Q (f s) s → after (gets f) Q s.
Proof. by intros HQ ? ? [= <- <-]. Qed.
Lemma after_modify f Q s : Q () (f s) → after (modify f) Q s.
Proof. by intros HQ ? ? [= <- <-]. Qed.
Lemma after_update f Q s : (∀ s', f s = Some s' → Q () s') → after (update f) Q s.
Proof. intros HQ [] s' (s1 & E & [= <-])%bind_Some. by apply HQ. Qed.
Lemma after_lift {A} (o : option A) Q s : (∀ a, o = Some a → Q a s) → after (lift o) Q s.
Proof. intros HQ a s' (a1 & E & [= <- <-])%bind_Some. by apply HQ. Qed.
End after.

Section accepted.
Context {TS LS : Type} `{TimerLaws TS timer_id timer_cb} `{LabelLaws LS} `{EnvLaws}.
Local Notation state := (state TS LS).
Local Notation M := (M state).
Implicit Types s : state.

(** The blocks and the label allocator are the same; [outs] went out. *)
Definition grew s s' (outs : list output) : Prop :=
  st_psb s' = st_psb s ∧ st_rsb s' = st_rsb s ∧ st_bsb s' = st_bsb s
  ∧ st_labels s' = st_labels s ∧ st_out s' = st_out s ++ outs.
(** The same with nothing said: a call of the host, a timer. *)
Definition still s s' : Prop := grew s s' [].

Lemma still_intro s s' :
  st_psb s' = st_psb s → st_rsb s' = st_rsb s → st_bsb s' = st_bsb s →
  st_labels s' = st_labels s → st_out s' = st_out s → still s s'.
Proof. intros. unfold still, grew. by rewrite app_nil_r. Qed.
Lemma grew_trans s1 s2 s3 o1 o2 : grew s1 s2 o1 → grew s2 s3 o2 → grew s1 s3 (o1 ++ o2).
Proof.
  intros (? & ? & ? & ? & O1) (? & ? & ? & ? & O2). split_and!; [congruence..|]. by rewrite O2, O1, app_assoc.
Qed.
Lemma still_then s1 s2 s3 o : still s1 s2 → grew s2 s3 o → grew s1 s3 o.
Proof. apply grew_trans. Qed.
Lemma then_still s1 s2 s3 o : grew s1 s2 o → still s2 s3 → grew s1 s3 o.
Proof. intros H1' H2'. rewrite <- (app_nil_r o). by eapply grew_trans. Qed.
Lemma said_grew s s' o : said s s' o → grew s s' o.
Proof. intros [[=] ?]. by split_and!. Qed.
Lemma grew_psbs s s' o : grew s s' o → psbs s' = psbs s.
Proof. intros (E & _). unfold psbs. by rewrite E. Qed.
Lemma grew_rsbs s s' o : grew s s' o → rsbs s' = rsbs s.
Proof. intros (_ & E & _). unfold rsbs. by rewrite E. Qed.
Lemma grew_out s s' o : grew s s' o → st_out s' = st_out s ++ o.
Proof. by intros (_ & _ & _ & _ & ?). Qed.

Local Ltac quiet := intros; subst; by apply still_intro.

Lemma after_host {A B} (f : nat → A) (k : A → M B) Q s :
  (∀ n s', still s s' → after (k (f n)) Q s') → after (host f ≫= k) Q s.
Proof.
  intros Hk. apply after_bind. unfold host. apply after_bind, after_gets.
  apply after_bind, after_modify, after_ret, Hk. quiet.
Qed.
Lemma after_timer_start t type ms cb Q s :
  (∀ s', still s s' → Q () s') → after (timer_start t type ms cb) Q s.
Proof.
  intros HQ. apply after_update. intros s' (ts & _ & [= <-])%bind_Some. apply HQ. quiet.
Qed.
Lemma after_timer_stop t Q s : (∀ s', still s s' → Q () s') → after (timer_stop t) Q s.
Proof.
  intros HQ. apply after_update. intros s' (ts & _ & [= <-])%bind_Some. apply HQ. quiet.
Qed.
Lemma after_timer_active t Q s : (∀ a, Q a s) → after (timer_active t) Q s.
Proof. intros HQ. apply after_bind, after_gets, after_lift. auto. Qed.
Lemma after_timer_rearm t ms cb Q s :
  (∀ s', still s s' → Q () s') → after (timer_rearm t ms cb) Q s.
Proof.
  intros HQ. unfold timer_rearm. apply after_bind, after_timer_active. intros a. apply after_bind.
  assert (∀ ok s1, still s s1 → after (when (negb ok) (timer_start t RSVP_TIMER_CLEANUP ms cb)) Q s1)
    as Hend.
  { intros ok s1 S1. unfold when. case_if; [|by apply after_ret, HQ].
    apply after_timer_start. intros s2 S2. apply HQ. by eapply still_then. }
  destruct a; [|by apply after_ret, Hend; quiet].
  intros ok s1 ([ok' ts] & _ & [= <- <-])%bind_Some. apply Hend. quiet.
Qed.
Lemma after_jittered ms backup Q s :
  (∀ a s', still s s' → Q a s') → after (jittered_refresh ms backup) Q s.
Proof.
  intros HQ. unfold jittered_refresh, rand. apply after_host. intros n s1 S1. apply after_lift. auto.
Qed.
Lemma after_label_alloc Q s :
  (∀ n ls, lb_alloc (st_labels s) = Some (n, ls) → Q n (s <| st_labels := ls |>)) →
  after label_alloc Q s.
Proof. intros HQ n s' ([n' ls] & E & [= <- <-])%bind_Some. by apply HQ. Qed.

(** ** Blocks *)

(** The run that began in [s0] has come to [s]: the label allocator is [ls], the
    blocks are [ps] and [rs], and [outs] has gone out. *)
Record at_point s0 (ls : LS) (ps : gmap loc rsvp_psb) (rs : gmap loc rsvp_rsb)
    (outs : list output) s : Prop := {
  ap_labels : st_labels s = ls;
  ap_psbs : psbs s = ps;
  ap_rsbs : rsbs s = rs;
  ap_bsb : st_bsb s = st_bsb s0;
  ap_out : st_out s = st_out s0 ++ outs;
  ap_ok : table_ok (st_rsb s);
}.

Lemma at_start s : table_ok (st_rsb s) → at_point s (st_labels s) (psbs s) (rsbs s) [] s.
Proof. intros. split; [done..| |done]. by rewrite app_nil_r. Qed.
Lemma at_grew s0 ls ps rs o o' s s' : at_point s0 ls ps rs o s → grew s s' o' → at_point s0 ls ps rs (o ++ o') s'.
Proof.
  intros [P0 P1 P2 P3 P4 P5] G. pose proof (grew_psbs _ _ _ G). pose proof (grew_rsbs _ _ _ G).
  destruct G as (_ & E & ? & ? & O). split; [congruence..| |by rewrite E]. by rewrite O, P4, app_assoc.
Qed.
Lemma at_still s0 ls ps rs o s s' : at_point s0 ls ps rs o s → still s s' → at_point s0 ls ps rs o s'.
Proof. intros P G. rewrite <- (app_nil_r o). by eapply at_grew. Qed.

Lemma after_psb_get s0 ls ps rs o l Q s :
  at_point s0 ls ps rs o s → (∀ p, ps !! l = Some p → Q p s) → after (psb_get l) Q s.
Proof.
  intros [_ <- _ _ _ _] HQ. unfold psb_get. apply after_bind, after_gets, after_lift. exact HQ.
Qed.
Lemma after_rsb_get s0 ls ps rs o l Q s :
  at_point s0 ls ps rs o s → (∀ r, rs !! l = Some r → Q r s) → after (rsb_get l) Q s.
Proof.
  intros [_ _ <- _ _ _] HQ. unfold rsb_get. apply after_bind, after_gets, after_lift. exact HQ.
Qed.
Lemma after_psb_set s0 ls ps rs o l f Q s :
  at_point s0 ls ps rs o s →
  (∀ p s', ps !! l = Some p → at_point s0 ls (<[l := f p]> ps) rs o s' → Q () s') →
  after (psb_set l f) Q s.
Proof.
  intros P HQ. unfold psb_set. apply after_bind. eapply after_psb_get; [exact P|]. intros p Hp.
  apply after_modify, (HQ p); [done|]. destruct P as [P0 <- P2 P3 P4 P5]. split; try done.
  change (alter f l (psbs s) = <[l := f p]> (psbs s)). by apply alter_is_insert.
Qed.
Lemma after_rsb_set s0 ls ps rs o l f Q s :
  at_point s0 ls ps rs o s → (∀ r, rs !! l = Some r → rsb_key (f r) = rsb_key r) →
  (∀ r s', rs !! l = Some r → at_point s0 ls ps (<[l := f r]> rs) o s' → Q () s') →
  after (rsb_set l f) Q s.
Proof.
  intros P Hk HQ. unfold rsb_set. apply after_bind. eapply after_rsb_get; [exact P|]. intros r Hr.
  apply after_modify, (HQ r); [done|]. destruct P as [P0 P1 <- P3 P4 P5]. split; try done.
  - change (alter f l (rsbs s) = <[l := f r]> (rsbs s)). by apply alter_is_insert.
  - by apply table_update_ok.
Qed.
Lemma after_emit s0 ls ps rs o x Q s :
  at_point s0 ls ps rs o s → (∀ s', at_point s0 ls ps rs (o ++ [x]) s' → Q () s') → after (emit x) Q s.
Proof.
  intros P HQ. apply after_modify, HQ. eapply at_grew; [exact P|]. done.
Qed.
Lemma after_send s0 ls ps rs o x src dest rao Q s :
  at_point s0 ls ps rs o s → builder_safe x →
  (∀ rc s' outs, at_point s0 ls ps rs (o ++ outs) s' → sent x src dest rao outs → Q rc s') →
  after (finalize_and_send x src dest rao) Q s.
Proof.
  intros P Hx HQ. apply after_wp, wp_send_exact; [done|]. intros rc s' outs S Hs.
  eapply HQ; [|exact Hs]. eapply at_grew; [exact P|]. by apply said_grew.
Qed.

(** ** The RESV that goes upstream *)

(** A host call, with the point carried over. *)
Lemma after_call {A B} s0 ls ps rs o (f : nat → A) (k : A → M B) Q s :
  at_point s0 ls ps rs o s →
  (∀ n s', at_point s0 ls ps rs o s' → after (k (f n)) Q s') → after (host f ≫= k) Q s.
Proof. intros P Hk. apply after_host. intros n s1 S1. by eapply Hk, at_still. Qed.

(** The hop object of a message to [nbr]: the interface the host uses toward
    it, by the sender's own numbers, and its address. *)
Definition hop_toward (nbr fallback la ifi : Z) : Prop :=
  ∃ n c, ifi = if_or (env_egress_if n nbr) fallback
    ∧ la = if 0 <=? env_egress_if n nbr
           then default 0 (env_local_addr c (env_egress_if n nbr)) else 0.

Lemma after_egress_toward s0 ls ps rs o nbr fallback Q s :
  at_point s0 ls ps rs o s →
  (∀ i la s', at_point s0 ls ps rs o s' → hop_toward nbr fallback la (if_or i fallback) → Q (i, la) s') →
  after (egress_toward nbr) Q s.
Proof.
  intros P HQ. unfold egress_toward, hal_netlink_get_egress_if. apply after_bind.
  eapply after_call; [exact P|]. intros n s1 P1. apply after_ret.
  destruct (0 <=? env_egress_if n nbr) eqn:E.
  - apply after_bind. unfold hal_netlink_get_local_addr. eapply after_call; [exact P1|].
    intros c s2 P2. apply after_ret.
    destruct (env_local_addr c (env_egress_if n nbr)) as [a|] eqn:Ea; apply after_ret;
      apply HQ; try done; exists n, c; by rewrite E, Ea.
  - apply after_ret, HQ; [done|]. exists n, 0%nat. by rewrite E.
Qed.

(** Two reads of the state. *)
Lemma after_is_blockaded s0 ls ps rs o lr Q s :
  at_point s0 ls ps rs o s → (∀ x, Q x s) → after (rsvp_is_blockaded lr) Q s.
Proof.
  intros P HQ. unfold rsvp_is_blockaded. apply after_bind. eapply after_rsb_get; [exact P|].
  intros r _. apply after_bind. unfold rsvp_bsb_find. apply after_bind, after_gets, after_lift.
  intros [b|] _; [|by apply after_ret].
  apply after_bind, after_bind, after_gets, after_lift. intros. by apply after_ret.
Qed.
Lemma after_merged s0 ls ps rs o l Q s :
  at_point s0 ls ps rs o s → (∀ x, Q x s) → after (rsvp_compute_merged_flowspec l) Q s.
Proof.
  intros P HQ. unfold rsvp_compute_merged_flowspec. apply after_bind.
  eapply after_psb_get; [exact P|]. intros p _.
  destruct (psb_associated_rsb p) as [lr|]; [|by apply after_ret].
  apply after_bind. eapply after_is_blockaded; [exact P|]. intros [|]; [by apply after_ret|].
  apply after_bind. eapply after_rsb_get; [exact P|]. intros. by apply after_ret.
Qed.

(** What [send_resv_upstream] says for the reservation [r] of the path [p]: one
    RESV to the previous hop with the label of [r]; nothing without a label,
    nor if the socket is not open. *)
Definition resv_sent (p : rsvp_psb) (r : rsvp_rsb) (outs : list output) : Prop :=
  if rsb_label_in r =? 0 then outs = []
  else ∃ merged la ifi,
    hop_toward (hop_neighbor_addr (psb_prev_hop p)) (psb_ifindex_in p) la ifi
    ∧ sent (resv_message p r merged la ifi) la (hop_neighbor_addr (psb_prev_hop p)) false outs.

(** [r'] is [r] with a label: the one it had, else the one that the allocator
    [ls] gives, which is 0 only when it has none left ([no_label]). *)
Definition labelled (ls : LS) (r r' : rsvp_rsb) (ls' : LS) : Prop :=
  if rsb_label_in r =? 0
  then r' = r <| rsb_label_in := rsb_label_in r' |> ∧ lb_alloc ls = Some (rsb_label_in r', ls')
  else r' = r ∧ ls' = ls.
(** The allocator has no label for another reservation. *)
Definition no_label (ls ls' : LS) : Prop := lb_alloc ls = Some (0, ls').

Lemma labelled_shape ls r r' ls' :
  labelled ls r r' ls' → r' = r <| rsb_label_in := rsb_label_in r' |>.
Proof. unfold labelled. case_if; [by intros []|]. intros [-> _]. by destruct r. Qed.
Lemma labelled_same ls r r' ls' : labelled ls r r' ls' → rsb_label_in r ≠ 0 → r' = r ∧ ls' = ls.
Proof. unfold labelled. case_if; bools; naive_solver. Qed.
Lemma labelled_none ls r r' ls' :
  labelled ls r r' ls' → rsb_label_in r' = 0 → rsb_label_in r = 0 ∧ r' = r ∧ no_label ls ls'.
Proof.
  unfold labelled, no_label. intros L E. case_if_in L; bools.
  - destruct L as [L1 L2]. rewrite E in L1, L2. split_and!; [done| |done]. rewrite L1.
    destruct r. cbn in E0. by subst.
  - destruct L as [-> ->]. done.
Qed.

Lemma after_ensure_label s0 ls ps rs o lr r Q s :
  at_point s0 ls ps rs o s → rs !! lr = Some r →
  (∀ r' ls' s', labelled ls r r' ls' → at_point s0 ls' ps (<[lr := r']> rs) o s' →
     Q (rsb_label_in r') s') →
  after (rsb_ensure_label lr) Q s.
Proof.
  intros P Hr HQ. unfold rsb_ensure_label. apply after_bind. eapply after_rsb_get; [exact P|].
  intros r0 Hr0. rewrite Hr in Hr0. injection Hr0 as <-. case_if; bools.
  - apply after_bind, after_label_alloc. intros n ls' Ea.
    assert (at_point s0 ls' ps rs o (s <| st_labels := ls' |>)) as S1 by (by destruct P; split).
    rewrite (ap_labels _ _ _ _ _ _ P) in Ea.
    apply after_bind. eapply after_rsb_set; [exact S1|done|]. intros r0 s2 Hr0 P2. apply after_ret.
    rewrite Hr in Hr0. injection Hr0 as <-. refine (HQ _ ls' s2 _ P2). unfold labelled.
    by rewrite E.
  - apply after_ret, (HQ r ls); [|by rewrite insert_id]. unfold labelled.
    by rewrite (proj2 (Z.eqb_neq _ _) E).
Qed.

Lemma after_send_resv s0 ls ps rs o lr r l p Q s :
  at_point s0 ls ps rs o s → rs !! lr = Some r → rsb_associated_psb r = Some l → ps !! l = Some p →
  (∀ r' ls' s' outs, labelled ls r r' ls' → resv_sent p r' outs →
     at_point s0 ls' ps (<[lr := r']> rs) (o ++ outs) s' → Q () s') →
  after (send_resv_upstream lr) Q s.
Proof.
  intros P Hr Ha Hp HQ. unfold send_resv_upstream. apply after_bind.
  eapply after_rsb_get; [exact P|]. intros r0 Hr0. rewrite Hr in Hr0. injection Hr0 as <-.
  rewrite Ha. apply after_bind. eapply after_ensure_label; [exact P|done|]. intros r1 ls1 s1 L1 P1.
  unfold resv_sent in HQ. case_if.
  - apply after_ret. eapply (HQ r1 ls1 s1 []); [done|by rewrite E|by rewrite app_nil_r].
  - apply after_bind. eapply after_psb_get; [exact P1|]. intros p0 Hp0.
    rewrite Hp in Hp0. injection Hp0 as <-.
    apply after_bind. eapply (after_egress_toward _ _ _ _ _ _ (psb_ifindex_in p)); [exact P1|].
    intros i la s2 P2 Hh. apply after_bind.
    assert (∀ merged s3, at_point s0 ls1 ps (<[lr := r1]> rs) o s3 →
      after (r ← rsb_get lr;
             finalize_and_send (resv_message p r merged la (if_or i (psb_ifindex_in p)))
               la (hop_neighbor_addr (psb_prev_hop p)) false ;; mret ()) Q s3) as Hend.
    { intros merged s3 P3. apply after_bind. eapply after_rsb_get; [exact P3|]. intros r2 Hr2.
      rewrite lookup_insert_eq in Hr2. injection Hr2 as <-. apply after_bind.
      eapply after_send; [exact P3|auto with safe|]. intros rc s4 outs P4 Hs. apply after_ret.
      eapply (HQ r1 ls1 s4 outs); [done| |done]. rewrite E. by exists merged, la, (if_or i (psb_ifindex_in p)). }
    eapply after_merged; [exact P2|]. intros merged. by apply Hend.
Qed.

(** ** The forwarding entry *)

(** The entry for the label [n] that the reservation [r] of the path [p] asks
    for: to the label and the hop of the received RESV.  Label 0 stands for
    unlabelled packets. *)
Definition entry (n : Z) (p : rsvp_psb) (r : rsvp_rsb) : output :=
  MplsInstall n (rsb_label_out r) (ntohl (hop_logical_interface (rsb_next_hop r)))
    (hop_neighbor_addr (rsb_next_hop r)) (sess_dest_addr (key_session (psb_key p))).

Lemma after_send_resv_err s0 ls ps rs o info code value Q s :
  at_point s0 ls ps rs o s →
  (∀ la s' outs, at_point s0 ls ps rs (o ++ outs) s' →
     sent (resv_err_message (info_key info) la code value) 0 (info_src_ip info) false outs → Q () s') →
  after (send_resv_err info code value) Q s.
Proof.
  intros P HQ. apply after_wp, wp_send_resv_err_exact. intros la s' outs S Hs.
  eapply HQ; [|exact Hs]. eapply at_grew; [exact P|]. by apply said_grew.
Qed.

Lemma after_rsb_delete s0 ls ps rs o lr r l Q s :
  at_point s0 ls ps rs o s → rs !! lr = Some r → rsb_associated_psb r = Some l →
  (∀ (p : rsvp_psb) s', ps !! l = Some p →
     at_point s0 ls (<[l := p <| psb_associated_rsb := None |>]> ps) (delete lr rs) o s' → Q () s') →
  after (rsvp_rsb_delete lr) Q s.
Proof.
  intros P Hr Ha HQ. unfold rsvp_rsb_delete. apply after_bind. eapply after_rsb_get; [exact P|].
  intros r0 Hr0. rewrite Hr in Hr0. injection Hr0 as <-. apply after_bind, after_gets.
  destruct (table_remove_ok (st_rsb s) lr r) as (t & -> & Et & Hok & Hd).
  { apply P. } { change (rsbs s !! lr = Some r). by rewrite (ap_rsbs _ _ _ _ _ _ P). }
  apply after_bind, after_modify, after_bind, after_timer_stop. intros s1 G1.
  apply after_bind, after_timer_stop. intros s2 G2. apply after_bind.
  pose proof (still_then _ _ _ _ G1 G2) as (E1 & E2 & E3 & E0 & E4). rewrite Ha.
  unfold psb_set, psb_get. apply after_bind, after_bind, after_gets, after_lift. intros p Hp.
  apply after_modify, after_bind, after_update. intros s3 (ts & _ & [= <-])%bind_Some.
  apply after_bind, after_update. intros s4 (ts' & _ & [= <-])%bind_Some.
  destruct P as [P0 <- <- P3 P4 P5]. cbn in E0, E1, E2, E3, E4. rewrite E1 in Hp.
  apply after_modify, (HQ p); [exact Hp|]. split.
  - cbn. by rewrite E0.
  - unfold psbs. cbn. rewrite E1.
    exact (alter_is_insert (λ p : rsvp_psb, p <| psb_associated_rsb := None |>) _ _ _ Hp).
  - unfold rsbs. cbn. by rewrite E2, Et.
  - cbn. by rewrite E3.
  - cbn. by rewrite E4, P4, app_nil_r.
  - cbn. by rewrite E2.
Qed.

Lemma after_is_ingress s0 ls ps rs o lr r l p Q s :
  at_point s0 ls ps rs o s → rs !! lr = Some r → rsb_associated_psb r = Some l → ps !! l = Some p →
  Q (psb_is_ingress p) s → after (rsb_is_ingress lr) Q s.
Proof.
  intros P Hr Ha Hp HQ. unfold rsb_is_ingress. apply after_bind. eapply after_rsb_get; [exact P|].
  intros r0 Hr0. rewrite Hr in Hr0. injection Hr0 as <-. rewrite Ha. apply after_bind.
  eapply after_psb_get; [exact P|]. intros p0 Hp0. rewrite Hp in Hp0. injection Hp0 as <-.
  by apply after_ret.
Qed.

(** A reservation without a label goes; at an ingress the entry for unlabelled
    packets goes too. *)
Definition unlabelled_gone (p : rsvp_psb) : list output :=
  if psb_is_ingress p then [MplsRemove 0 (Some (sess_dest_addr (key_session (psb_key p))))] else [].

Lemma after_rsb_cleanup s0 ls ps rs o lr r l p Q s :
  at_point s0 ls ps rs o s → rs !! lr = Some r → rsb_associated_psb r = Some l → ps !! l = Some p →
  rsb_label_in r = 0 →
  (∀ s' : state, at_point s0 ls (<[l := p <| psb_associated_rsb := None |>]> ps) (delete lr rs)
           (o ++ unlabelled_gone p) s' → Q () s') →
  after (rsvp_rsb_cleanup lr false) Q s.
Proof.
  intros P Hr Ha Hp El HQ. unfold rsvp_rsb_cleanup. apply after_bind.
  eapply after_is_ingress; [done..|]. apply after_bind, after_ret, after_bind.
  unfold rsb_cleanup_resources. apply after_bind. eapply after_rsb_get; [exact P|].
  intros r0 Hr0. rewrite Hr in Hr0. injection Hr0 as <-.
  apply after_bind. eapply after_is_ingress; [done..|]. rewrite Ha, El. apply after_bind, after_bind.
  eapply after_psb_get; [exact P|]. intros p0 Hp0. rewrite Hp in Hp0. injection Hp0 as <-.
  apply after_ret, after_bind. cbn [Z.eqb negb].
  eapply (after_mono _ (λ _, at_point s0 ls ps rs (o ++ unlabelled_gone p))).
  { unfold unlabelled_gone, hal_mpls_remove. destruct (psb_is_ingress p).
    - by eapply after_emit.
    - apply after_ret. by rewrite app_nil_r. }
  intros [] s1 P1. apply after_bind, after_timer_stop. intros s2 G2.
  apply after_timer_stop. intros s3 G3. apply (at_still _ _ _ _ _ _ _ P1) in G2.
  apply (at_still _ _ _ _ _ _ _ G2) in G3. apply after_bind. eapply after_rsb_get; [exact G3|].
  intros r0 Hr0. rewrite Hr in Hr0. injection Hr0 as <-. rewrite Ha. apply after_bind.
  eapply after_psb_set; [exact G3|]. intros p1 s4 Hp1 P4. rewrite Hp in Hp1. injection Hp1 as <-.
  eapply after_rsb_delete; [exact P4|exact Hr|exact Ha|]. intros p1 s5 Hp1 P5.
  rewrite lookup_insert_eq in Hp1. injection Hp1 as <-. rewrite insert_insert_eq in P5. by apply HQ.
Qed.

(** An ordinary path: no bypass tunnel, and not replacing another path. *)
Definition ordinary (p : rsvp_psb) : Prop :=
  psb_is_bypass_tunnel p = false ∧ psb_is_mbb_pending p = false.

Lemma after_resv_install s0 ls ps rs o info lr r l p (is_new changed : bool) Q s :
  at_point s0 ls ps rs o s → rs !! lr = Some r → rsb_associated_psb r = Some l → ps !! l = Some p →
  ordinary p →
  (hop_neighbor_addr (psb_prev_hop p) = 0 →
     ∀ s', at_point s0 ls ps rs (o ++ [entry 0 p r]) s' → Q () s') →
  (hop_neighbor_addr (psb_prev_hop p) ≠ 0 → ∀ r' ls' s' outs,
     labelled ls r r' ls' → rsb_label_in r' ≠ 0 → resv_sent p r' outs →
     at_point s0 ls' ps (<[lr := r']> rs) (o ++ entry (rsb_label_in r') p r' :: outs) s' → Q () s') →
  (hop_neighbor_addr (psb_prev_hop p) ≠ 0 → rsb_label_in r = 0 → ∀ ls' s' la outs, no_label ls ls' →
     sent (resv_err_message (info_key info) la RSVP_PROTO_ERR_ADMISSION_CONTROL 0)
       0 (info_src_ip info) false outs →
     (if is_new then at_point s0 ls' (<[l := p <| psb_associated_rsb := None |>]> ps) (delete lr rs)
                       (o ++ unlabelled_gone p ++ outs) s'
      else at_point s0 ls' ps rs (o ++ outs) s') → Q () s') →
  after (handle_resv_install info lr l is_new changed) Q s.
Proof.
  intros P Hr Ha Hp [Hb Hm] Qin Qtr Qno. unfold handle_resv_install.
  apply after_bind. eapply after_psb_get; [exact P|]. intros p0 Hp0.
  rewrite Hp in Hp0. injection Hp0 as <-.
  apply after_bind. eapply after_rsb_get; [exact P|]. intros r0 Hr0.
  rewrite Hr in Hr0. injection Hr0 as <-. apply after_bind.
  assert (∀ ls1 rs1 o1 s1, at_point s0 ls1 ps rs1 o1 s1 → Q () s1 →
    after (p ← psb_get l;
        when (psb_is_bypass_tunnel p && (is_new || changed))
          (rsvp_frr_auto_associate_all (psb_frr_protected_ifindex p)) ;;
        p ← psb_get l;
        when (psb_is_mbb_pending p && is_new) (rsvp_mbb_complete l)) Q s1) as Hend.
  { intros ls1 rs1 o1 s1 P1 HQ. apply after_bind. eapply after_psb_get; [exact P1|]. intros p1 Hp1.
    rewrite Hp in Hp1. injection Hp1 as <-. rewrite Hb. apply after_bind, after_ret, after_bind.
    eapply after_psb_get; [exact P1|]. intros p1 Hp1. rewrite Hp in Hp1. injection Hp1 as <-.
    rewrite Hm. by apply after_ret. }
  destruct (hop_neighbor_addr (psb_prev_hop p) =? 0) eqn:E; cbn [negb]; bools.
  - apply after_bind. unfold hal_mpls_install. eapply after_emit; [exact P|]. intros s1 P1.
    apply after_ret. eapply Hend; [exact P1|]. by apply Qin.
  - apply after_bind. eapply after_ensure_label; [exact P|done|]. intros r1 ls1 s1 L1 P1.
    assert (rsb_associated_psb r1 = Some l ∧ rsb_label_out r1 = rsb_label_out r
            ∧ rsb_next_hop r1 = rsb_next_hop r) as (Ha1 & El1 & En1)
      by (by rewrite (labelled_shape _ _ _ _ L1)).
    case_if; bools.
    + destruct (labelled_none _ _ _ _ L1 E0) as (El & -> & Hno).
      rewrite insert_id in P1 by done. apply after_bind.
      assert (∀ (k : M ()) ps1 rs1 o1 s2, at_point s0 ls1 ps1 rs1 o1 s2 →
        (∀ la outs s', sent (resv_err_message (info_key info) la RSVP_PROTO_ERR_ADMISSION_CONTROL 0)
           0 (info_src_ip info) false outs → at_point s0 ls1 ps1 rs1 (o1 ++ outs) s' → Q () s') →
        after (send_resv_err info RSVP_PROTO_ERR_ADMISSION_CONTROL 0 ;; mret true) (λ failed s',
          after (if failed : bool then mret () else k) Q s') s2) as Herr.
      { intros k ps1 rs1 o1 s2 P2 HQ. apply after_bind. eapply after_send_resv_err; [exact P2|].
        intros la s3 outs P3 Hs. apply after_ret, after_ret. by eapply HQ. }
      unfold when. destruct is_new.
      * eapply after_rsb_cleanup; [exact P1|done..|]. intros s2 P2. eapply Herr; [exact P2|].
        intros la outs s3 Hs P3. rewrite <- app_assoc in P3.
        by eapply (Qno E El ls1).
      * apply after_ret. eapply Herr; [exact P1|]. intros la outs s3 Hs P3. by eapply (Qno E El ls1).
    + apply after_bind. unfold hal_mpls_install. eapply after_emit; [exact P1|]. intros s2 P2.
      apply after_bind. eapply after_send_resv; [exact P2|by apply lookup_insert_eq|done|done|].
      intros r2 ls2 s3 outs L2 Hs P3. apply after_ret.
      destruct (labelled_same _ _ _ _ L2 E0) as [-> ->].
      eapply Hend; [exact P3|]. rewrite insert_insert_eq in P3.
      eapply (Qtr E r1 ls1 s3 outs); [done|done|done|].
      unfold entry. rewrite El1, En1. by rewrite <- app_assoc in P3.
Qed.

(** ** An accepted RESV *)

(** The block [r0] with the message copied into it. *)
Definition resv_block (m : list Z) (info : rsvp_message_info) (label : Z) (hop : rsvp_hop_ipv4)
    (r0 : rsvp_rsb) : option rsvp_rsb :=
  hdr ← load_opt rsvp_common_hdr m (info_common_hdr info);
  r ← resv_update m info r0;
  let r := match hdr with Some hdr => r <| rsb_ttl := hdr_ttl hdr |> | None => r end in
  Some (r <| rsb_refresh_count := 0 |> <| rsb_label_out := label |> <| rsb_next_hop := hop |>).

(** The message asks for another label or another next hop than [r0] has. *)
Definition resv_differs (label : Z) (hop : rsvp_hop_ipv4) (r0 : rsvp_rsb) : bool :=
  negb (label =? rsb_label_out r0)
  || negb (hop_neighbor_addr hop =? hop_neighbor_addr (rsb_next_hop r0)).

(** What becomes of the reservation [lr] of the path [p], once the message is
    copied into its block [r]: a push at the ingress, a swap elsewhere with the
    RESV going on upstream, the RESV alone when nothing has [changed], and a
    ResvErr when the allocator has no label for it, which takes a new block away
    again. *)
Inductive resv_outcome s (info : rsvp_message_info) (ps : gmap loc rsvp_psb) l (p : rsvp_psb) lr
    (r : rsvp_rsb) (is_new changed : bool) s' : Prop :=
| resv_pushed :
    changed = true → hop_neighbor_addr (psb_prev_hop p) = 0 →
    at_point s (st_labels s) ps (<[lr := r]> (rsbs s)) [entry 0 p r] s' →
    resv_outcome s info ps l p lr r is_new changed s'
| resv_swapped r' ls outs :
    changed = true → hop_neighbor_addr (psb_prev_hop p) ≠ 0 →
    labelled (st_labels s) r r' ls → rsb_label_in r' ≠ 0 → resv_sent p r' outs →
    at_point s ls ps (<[lr := r']> (rsbs s)) (entry (rsb_label_in r') p r' :: outs) s' →
    resv_outcome s info ps l p lr r is_new changed s'
| resv_refreshed r' ls outs :
    changed = false →
    (if (hop_neighbor_addr (psb_prev_hop p) =? 0) || psb_is_ingress p
     then r' = r ∧ ls = st_labels s ∧ outs = []
     else labelled (st_labels s) r r' ls ∧ resv_sent p r' outs) →
    at_point s ls ps (<[lr := r']> (rsbs s)) outs s' → resv_outcome s info ps l p lr r is_new changed s'
| resv_refused ls la outs :
    changed = true → hop_neighbor_addr (psb_prev_hop p) ≠ 0 →
    rsb_label_in r = 0 → no_label (st_labels s) ls →
    sent (resv_err_message (info_key info) la RSVP_PROTO_ERR_ADMISSION_CONTROL 0)
      0 (info_src_ip info) false outs →
    (if is_new then at_point s ls (<[l := p <| psb_associated_rsb := None |>]> ps) (delete lr (rsbs s))
                      (unlabelled_gone p ++ outs) s'
     else at_point s ls ps (<[lr := r]> (rsbs s)) outs s') →
    resv_outcome s info ps l p lr r is_new changed s'.

Lemma resv_update_shape m info r0 r :
  resv_update m info r0 = Some r →
  rsb_key r = rsb_key r0 ∧ rsb_associated_psb r = rsb_associated_psb r0
  ∧ rsb_label_out r = rsb_label_out r0 ∧ rsb_next_hop r = rsb_next_hop r0
  ∧ rsb_label_in r = rsb_label_in r0.
Proof.
  unfold resv_update. intros (tv & _ & E)%bind_Some. cbv zeta in E.
  apply bind_Some in E as (fs & _ & E). cbv zeta in E. apply bind_Some in E as (st & _ & [= <-]).
  by destruct tv, fs, st.
Qed.

Lemma after_not_blockaded s0 ls ps rs o lr r Q s :
  at_point s0 ls ps rs o s → rs !! lr = Some r → table_find (st_bsb s0) (rsb_key r) = Some None →
  Q false s → after (rsvp_is_blockaded lr) Q s.
Proof.
  intros P Hr Hb HQ. unfold rsvp_is_blockaded. apply after_bind. eapply after_rsb_get; [exact P|].
  intros r0 Hr0. rewrite Hr in Hr0. injection Hr0 as <-. apply after_bind. unfold rsvp_bsb_find.
  apply after_bind, after_gets, after_lift. rewrite (ap_bsb _ _ _ _ _ _ P), Hb. intros ? [= <-].
  by apply after_ret.
Qed.

Lemma after_refresh_role s0 ls ps rs o lr R active ingress Q s :
  at_point s0 ls ps rs o s → (∀ s', at_point s0 ls ps rs o s' → Q () s') →
  after (if negb ingress then
        when (negb active)
          (next_refresh ← jittered_refresh R true;
           timer_start (RsbRefresh lr) RSVP_TIMER_REFRESH next_refresh (rsb_refresh_timer_cb lr))
      else when active (timer_stop (RsbRefresh lr))) Q s.
Proof.
  intros P HQ. unfold when. destruct ingress, active; cbn [negb]; try (by apply after_ret, HQ).
  - apply after_timer_stop. intros s1 G. by eapply HQ, at_still.
  - apply after_bind, after_jittered. intros j s1 G1. apply after_timer_start. intros s2 G2.
    by eapply HQ, at_still, G2; eapply at_still.
Qed.

(** [rs] is the map of the start, but for the block [lr]. *)
Definition but_for lr (rs0 rs : gmap loc rsvp_rsb) : Prop := ∀ x, <[lr := x]> rs = <[lr := x]> rs0.

Lemma but_for_insert lr rs0 rs r : but_for lr rs0 rs → but_for lr rs0 (<[lr := r]> rs).
Proof. intros B x. by rewrite insert_insert_eq. Qed.
Lemma but_for_at lr rs0 rs r s0 ls ps o s :
  but_for lr rs0 rs → at_point s0 ls ps (<[lr := r]> rs) o s → at_point s0 ls ps (<[lr := r]> rs0) o s.
Proof. by intros ->. Qed.

Lemma after_resv_accepted s0 ps rs m info lr r0 r1 l p is_new hop label Q s :
  at_point s0 (st_labels s0) ps rs [] s → but_for lr (rsbs s0) rs → rs !! lr = Some r1 →
  resv_update m info r0 = Some r1 → rsb_associated_psb r1 = Some l → ps !! l = Some p → ordinary p →
  (o ← info_hop_v4 info; load_struct rsvp_hop_ipv4 m o) = Some hop →
  (∀ r s', resv_block m info label hop r0 = Some r →
     resv_outcome s0 info ps l p lr r is_new (is_new || resv_differs label hop r0) s' → Q () s') →
  after (handle_resv_accepted m info lr label is_new) Q s.
Proof.
  intros P B Hr Hu Ha Hp Ho Hhop HQ. unfold handle_resv_accepted.
  apply after_bind, after_lift. intros hdr Ehdr.
  set (r2 := match hdr with Some hdr => r1 <| rsb_ttl := hdr_ttl hdr |> | None => r1 end).
  assert (rsb_associated_psb r2 = Some l ∧ rsb_label_out r2 = rsb_label_out r0
          ∧ rsb_next_hop r2 = rsb_next_hop r0) as (Ha2 & El2 & En2).
  { destruct (resv_update_shape _ _ _ _ Hu) as (_ & _ & ? & ? & _). unfold r2. by destruct hdr. }
  apply after_bind. eapply (after_mono _ (λ _, at_point s0 (st_labels s0) ps (<[lr := r2]> rs) [])).
  { destruct hdr as [hdr|].
    - eapply after_rsb_set; [exact P|done|]. intros r s1 Er P1. rewrite Hr in Er. by injection Er as <-.
    - apply after_ret. by rewrite insert_id. }
  intros [] s1 P1. apply after_bind. eapply after_rsb_get; [exact P1|]. intros r Er.
  rewrite lookup_insert_eq in Er. injection Er as <-.
  apply after_bind, after_lift. intros c _. apply after_bind, after_timer_rearm. intros s2 G2.
  apply (at_still _ _ _ _ _ _ _ P1) in G2. apply after_bind.
  eapply after_rsb_set; [exact G2|done|]. intros r' s3 Er P3. rewrite lookup_insert_eq in Er.
  injection Er as <-. rewrite insert_insert_eq in P3. set (r3 := r2 <| rsb_refresh_count := 0 |>) in *.
  apply after_bind. eapply after_is_ingress; [exact P3|by apply lookup_insert_eq|done|exact Hp|].
  apply after_bind, after_timer_active. intros act. apply after_bind.
  eapply after_refresh_role; [exact P3|]. intros s4 P4.
  apply after_bind. eapply after_rsb_get; [exact P4|]. intros r' Er. rewrite lookup_insert_eq in Er.
  injection Er as <-. apply after_bind, after_lift. intros hop' Ehop. rewrite Hhop in Ehop.
  injection Ehop as <-. apply after_bind. eapply after_rsb_set; [exact P4|done|]. intros r' s5 Er P5.
  rewrite lookup_insert_eq in Er. injection Er as <-. rewrite insert_insert_eq in P5.
  set (r4 := r3 <| rsb_label_out := label |> <| rsb_next_hop := hop |>) in *.
  assert (resv_block m info label hop r0 = Some r4) as Eb.
  { unfold resv_block. rewrite Ehdr. cbn [mbind option_bind]. by rewrite Hu. }
  change (rsb_associated_psb r3) with (rsb_associated_psb r2). rewrite Ha2.
  change (rsb_label_out r3) with (rsb_label_out r2). change (rsb_next_hop r3) with (rsb_next_hop r2).
  rewrite El2, En2, <- orb_assoc. fold (resv_differs label hop r0).
  destruct (is_new || resv_differs label hop r0) eqn:Ec.
  - eapply after_resv_install; [exact P5|by apply lookup_insert_eq|done|exact Hp|exact Ho|..].
    + intros Ez s6 P6. apply (HQ r4); [done|]. apply resv_pushed; [done..|]. by eapply but_for_at.
    + intros Ez r' ls' s6 outs L Hn Hs P6. apply (HQ r4); [done|]. rewrite insert_insert_eq in P6.
      eapply (resv_swapped _ _ _ _ _ _ _ _ _ _ r' ls' outs); try done. by eapply but_for_at.
    + intros Ez El ls' s6 la outs Hno Hs P6. apply (HQ r4); [done|].
      eapply (resv_refused _ _ _ _ _ _ _ _ _ _ ls' la outs); try done. destruct is_new.
      * rewrite delete_insert_eq in P6.
        assert (delete lr rs = delete lr (rsbs s0)) as <-; [|exact P6].
        specialize (B r4). apply (f_equal (delete lr)) in B. by rewrite !delete_insert_eq in B.
      * by eapply but_for_at.
  - apply after_bind. eapply after_psb_get; [exact P5|]. intros p0 Hp0. rewrite Hp in Hp0.
    injection Hp0 as <-. unfold when. rewrite <- negb_orb.
    destruct ((hop_neighbor_addr (psb_prev_hop p) =? 0) || psb_is_ingress p) eqn:Ei; cbn [negb].
    + apply after_ret, (HQ r4); [done|]. eapply (resv_refreshed _ _ _ _ _ _ _ _ _ _ r4 (st_labels s0) []); [done| |].
      * by rewrite Ei.
      * by eapply but_for_at.
    + eapply after_send_resv; [exact P5|by apply lookup_insert_eq|done|exact Hp|].
      intros r' ls' s6 outs L Hs P6. apply (HQ r4); [done|]. rewrite insert_insert_eq in P6.
      eapply (resv_refreshed _ _ _ _ _ _ _ _ _ _ r' ls' outs); [done| |by eapply but_for_at].
      by rewrite Ei.
Qed.

Lemma after_resv_found s0 ps rs m info lr r0 l p is_new hop lb Q s :
  at_point s0 (st_labels s0) ps rs [] s → but_for lr (rsbs s0) rs → rs !! lr = Some r0 →
  rsb_associated_psb r0 = Some l → ps !! l = Some p → ordinary p →
  table_find (st_bsb s0) (rsb_key r0) = Some None →
  (o ← info_label info; load_struct rsvp_label_ipv4 m o) = Some lb →
  (o ← info_hop_v4 info; load_struct rsvp_hop_ipv4 m o) = Some hop →
  (∀ r s', resv_block m info (ntohl (lbl_label lb)) hop r0 = Some r →
     resv_outcome s0 info ps l p lr r is_new (is_new || resv_differs (ntohl (lbl_label lb)) hop r0) s' → Q () s') →
  after (handle_resv_found m info lr is_new) Q s.
Proof.
  intros P B Hr Ha Hp Ho Hb Hl Hhop HQ. unfold handle_resv_found.
  apply after_bind, after_lift. intros lb' Elb. rewrite Hl in Elb. injection Elb as <-.
  apply after_bind. unfold rsb_update. apply after_bind. eapply after_rsb_get; [exact P|].
  intros r Er. rewrite Hr in Er. injection Er as <-. apply after_bind, after_lift. intros r1 Hu.
  destruct (resv_update_shape _ _ _ _ Hu) as (Ek & Ea & _).
  eapply after_rsb_set; [exact P|intros r Er; rewrite Hr in Er; by injection Er as <-|].
  intros r s1 _ P1. clear r. apply after_bind.
  eapply after_not_blockaded; [exact P1|by apply lookup_insert_eq|by rewrite Ek|].
  eapply after_resv_accepted; [exact P1|by apply but_for_insert|by apply lookup_insert_eq|exact Hu
    |exact (eq_trans Ea Ha)|exact Hp|exact Ho|exact Hhop|exact HQ].
Qed.

(** The block that a first RESV starts from. *)
Definition first_rsb (k : rsvp_path_key) (l : loc) (p : rsvp_psb) : rsvp_rsb :=
  new_rsb k <| rsb_refresh_ms := RSVP_REFRESH_MS |> <| rsb_associated_psb := Some l |>
    <| rsb_refresh_ms := psb_refresh_ms p |>.
Definition paired (p : rsvp_psb) (lr : loc) : rsvp_psb := p <| psb_associated_rsb := Some lr |>.

(** The host had no memory for another block beside those at [D]. *)
Definition no_memory (D : gset loc) : Prop := ∃ n, env_calloc n D = None.

Lemma after_rsb_create s k Q :
  table_ok (st_rsb s) → (∀ l r, rsbs s !! l = Some r → rsb_key r ≠ k) →
  (no_memory (dom (rsbs s)) → ∀ s', still s s' → Q None s') →
  (∀ lr s', rsbs s !! lr = None →
     at_point s (st_labels s) (psbs s) (<[lr := new_rsb k]> (rsbs s)) [] s' → st_psb s' = st_psb s → Q (Some lr) s') →
  after (rsvp_rsb_create k) Q s.
Proof.
  intros Hok Hno Hnone Hsome. unfold rsvp_rsb_create. apply after_host.
  intros n s1 G1. pose proof (grew_rsbs _ _ _ G1) as R1. destruct G1 as (E1 & E2 & E3 & E0 & E4).
  apply after_bind, after_gets. change (tb_heap (st_rsb s1)) with (rsbs s1). rewrite R1.
  destruct (env_calloc n (dom (rsbs s))) as [lr|] eqn:Ec; [|apply after_ret, Hnone; [by exists n|by split_and!]].
  apply env_calloc_fresh, not_elem_of_dom in Ec.
  do 3 apply after_bind, after_modify. apply after_ret, Hsome; [done| |exact E1].
  split; [exact E0|unfold psbs; simpl; by rewrite E1|unfold rsbs; simpl; by rewrite E2|exact E3|exact E4|].
  cbn. rewrite E2. by apply table_insert_ok.
Qed.
Lemma after_resv_create s k l p Q :
  table_ok (st_rsb s) → (∀ l r, rsbs s !! l = Some r → rsb_key r ≠ k) →
  table_find (st_psb s) k = Some (Some l) → psbs s !! l = Some p →
  (no_memory (dom (rsbs s)) → ∀ s', still s s' → Q None s') →
  (∀ lr s', rsbs s !! lr = None →
     at_point s (st_labels s) (<[l := paired p lr]> (psbs s)) (<[lr := first_rsb k l p]> (rsbs s)) [] s' →
     Q (Some lr) s') →
  after (resv_create k) Q s.
Proof.
  intros Hok Hno Hf Hp Hnone Hsome. unfold resv_create.
  apply after_bind, after_rsb_create; [done..| |].
  { intros Hmem s1 G1. by apply after_ret, Hnone. }
  intros lr s2 Hn P2 F2. apply after_bind.
  unfold rsb_set at 1. apply after_bind. eapply after_rsb_get; [exact P2|].
  intros r Er. rewrite lookup_insert_eq in Er. injection Er as <-. apply after_modify.
  match goal with |- after _ _ ?x => set (s3 := x) end.
  assert (at_point s (st_labels s) (psbs s) (<[lr := new_rsb k <| rsb_refresh_ms := RSVP_REFRESH_MS |>]> (rsbs s)) [] s3
    ∧ st_psb s3 = st_psb s) as [P3 F3].
  { split; [|exact F2]. destruct P2 as [P0 P1 P2 P3 P4 P5]. split; try done.
    - unfold s3, rsbs. simpl. change (tb_heap (st_rsb s2)) with (rsbs s2). rewrite P2.
      erewrite alter_is_insert by apply lookup_insert_eq. by rewrite insert_insert_eq.
    - by apply table_update_ok. }
  clearbody s3. apply after_bind. unfold rsvp_psb_find. apply after_bind, after_gets, after_lift.
  rewrite F3, Hf. intros ? [= <-]. apply after_bind, after_bind. eapply after_psb_get; [exact P3|].
  intros p0 Hp0. rewrite Hp in Hp0. injection Hp0 as <-. apply after_bind.
  eapply after_rsb_set; [exact P3|done|]. intros r s4 Er P4. rewrite lookup_insert_eq in Er.
  injection Er as <-. rewrite insert_insert_eq in P4.
  eapply after_psb_set; [exact P4|]. intros p1 s5 Hp1 P5. rewrite Hp in Hp1. injection Hp1 as <-.
  apply after_ret, Hsome; [done|exact P5].
Qed.

(** The reservation of a path is the one its block points at. *)
Lemma path_reservation s l p :
  Inv true s → psbs s !! l = Some p →
  table_find (st_rsb s) (psb_key p) = Some (psb_associated_rsb p)
  ∧ (∀ lr r, psb_associated_rsb p = Some lr → rsbs s !! lr = Some r →
       rsb_key r = psb_key p ∧ rsb_associated_psb r = Some l).
Proof.
  intros Hi Hp. split.
  - destruct (psb_associated_rsb p) as [lr|] eqn:Ea.
    + apply table_find_iff; [apply Hi|].
      assert (has_psb s l (psb_key p) (Some lr)) as Hl by (rewrite <- Ea; by apply has_psb_intro).
      apply (has_psb_partner true) in Hl as (r & Er & Ek & _)%has_rsb_inv; [|done]. by exists r.
    + apply table_find_none; [apply Hi|]. intros lr r Hr Hk.
      destruct (inv_assoc_rsb _ _ Hi lr r Hr) as (lp & p' & _ & Hp' & Ha' & Ek').
      assert (lp = l) as -> by exact (tab_unique _ (inv_psb _ _ Hi) _ _ _ _ Hp' Hp (eq_trans Ek' Hk)).
      unfold psbs in *. congruence.
  - intros lr r Ea Hr.
    destruct (inv_assoc_psb _ _ Hi l p lr Hp Ea) as (r' & Hr' & Ha).
    destruct (inv_assoc_rsb _ _ Hi lr r' Hr') as (lp & p' & Ha' & Hp' & _ & Ek). split; congruence.
Qed.

(** The path [l] had the block [p]: its reservation, or a new one, is what the
    message made of it; for a new one there may have been no memory. *)
Definition resv_done s m info l p label hop s' : Prop :=
  match psb_associated_rsb p with
  | Some lr => ∃ r0 r, rsbs s !! lr = Some r0 ∧ resv_block m info label hop r0 = Some r
      ∧ resv_outcome s info (psbs s) l p lr r false (resv_differs label hop r0) s'
  | None => (no_memory (dom (rsbs s)) ∧ still s s')
      ∨ ∃ lr r, rsbs s !! lr = None ∧ resv_block m info label hop (first_rsb (psb_key p) l p) = Some r
        ∧ resv_outcome s info (<[l := paired p lr]> (psbs s)) l (paired p lr) lr r true true s'
  end.

Lemma handle_resv_spec s m info l p hop lb :
  reachable s → msg_ok m info → period_sane m info → bypass_ids s (info_key info) →
  psbs s !! l = Some p → psb_key p = info_key info → ordinary p →
  table_find (st_bsb s) (info_key info) = Some None →
  (o ← info_label info; load_struct rsvp_label_ipv4 m o) = Some lb →
  (o ← info_hop_v4 info; load_struct rsvp_hop_ipv4 m o) = Some hop →
  ∃ s', handle_resv_message m info s = Some ((), s')
    ∧ resv_done s m info l p (ntohl (lbl_label lb)) hop s'.
Proof.
  intros Hi%reachable_inv Hm Hper Hby Hp Hk Ho Hb Hl Hhop.
  destruct (path_reservation s l p Hi Hp) as [Hf Hr]. rewrite Hk in Hf, Hr.
  pose proof (handle_resv_message_safe true s m info Hi Hm Hper (λ _, Hby)) as Hw.
  apply (wp_after _ _ (λ _, resv_done s m info l p (ntohl (lbl_label lb)) hop)) in Hw
    as ([] & s' & E & _ & HQ)%wp_run; [by exists s'|]. unfold resv_done.
  unfold handle_resv_message, rsvp_rsb_find. apply after_bind, after_bind, after_gets, after_lift.
  rewrite Hf. intros ? [= <-]. apply after_bind. unfold rsvp_validate_resv_message, rsvp_psb_find.
  assert (table_find (st_psb s) (info_key info) = Some (Some l)) as Hfp
    by (apply table_find_iff; [apply Hi|by exists p]).
  apply after_bind, after_bind, after_gets, after_lift. rewrite Hfp. intros ? [= <-].
  destruct (info_hop_v4 info) as [oh|] eqn:Eh; [|done].
  destruct (info_label info) as [ol|] eqn:El; [|done]. apply after_ret. cbn [null].
  rewrite <- Eh in Hhop. rewrite <- El in Hl.
  destruct (psb_associated_rsb p) as [lr|] eqn:Ea.
  - destruct (inv_assoc_psb _ _ Hi l p lr Hp Ea) as (r0 & Er & _). destruct (Hr lr r0) as [Ekr Ear]; [done..|].
    eapply after_resv_found; [apply at_start, Hi|done|exact Er|exact Ear|exact Hp|exact Ho|by rewrite Ekr
      |exact Hl|exact Hhop|]. intros r s' Eb Hout. by exists r0, r.
  - pose proof (proj1 (table_find_none (st_rsb s) (info_key info) (inv_rsb _ _ Hi)) Hf) as Hno.
    apply after_bind. eapply after_resv_create; [apply Hi|exact Hno|exact Hfp|exact Hp|intros; apply after_ret; by left|].
    intros lr s1 Hn P1. rewrite Hk. eapply after_resv_found; [exact P1|..];
      [|by apply lookup_insert_eq|done|by apply lookup_insert_eq|done|exact Hb|exact Hl|exact Hhop|].
    + intros x. by rewrite insert_insert_eq.
    + intros r s' Eb Hout. right. by exists lr, r.
Qed.

(** Every label there is is held by a reservation. *)
Definition labels_exhausted s : Prop :=
  ∀ n, lb_range (st_labels s) n → ∃ lr r, rsbs s !! lr = Some r ∧ rsb_label_in r = n.

Lemma no_label_exhausted s ls : reachable s → no_label (st_labels s) ls → labels_exhausted s.
Proof.
  intros Hi%reachable_inv Hno n Hn. destruct (inv_labels _ _ Hi) as [(HS & Hrel & Hheld & _) _].
  destruct (lb_alloc_law _ _ Hrel) as (l & ls' & E & Hl). unfold no_label in Hno.
  rewrite E in Hno. injection Hno as -> ->. destruct Hl as [(_ & _ & Hfull)|[[] _]]; [|done].
  by apply Hfull, Hheld in Hn as [_ Hn].
Qed.

(** C8: a RESV that is accepted for an ordinary path (neither a bypass tunnel
    nor the replacement of another path) which no blockade holds up, with a
    refresh period below 2^30 ms and not the tunnel id of a bypass tunnel, is
    copied into the reservation of the path, a new one if need be, and takes
    effect by the role of the router. At the ingress unlabelled packets for the
    destination get the received label. Elsewhere the label that the
    reservation holds, or for want of one the label that the allocator gives,
    is swapped for the received label, and the RESV goes on to the previous hop
    with the swapped label, if the raw socket is open. A refresh that changes
    neither label nor next hop installs nothing. The message is refused, and
    nothing installed, only when the allocator has no label to give, and then
    every label of its range is held by a reservation; without memory for a new
    reservation nothing changes. No other block changes. *)
Theorem resv_accepted s m info l p hop lb :
  reachable s → msg_ok m info → period_sane m info → bypass_ids s (info_key info) →
  psbs s !! l = Some p → psb_key p = info_key info → ordinary p →
  table_find (st_bsb s) (info_key info) = Some None →
  (o ← info_label info; load_struct rsvp_label_ipv4 m o) = Some lb →
  (o ← info_hop_v4 info; load_struct rsvp_hop_ipv4 m o) = Some hop →
  (∃ s', handle_resv_message m info s = Some ((), s')
     ∧ resv_done s m info l p (ntohl (lbl_label lb)) hop s')
  ∧ (∀ ls, no_label (st_labels s) ls → labels_exhausted s).
Proof.
  intros Hr; intros. split; [by apply handle_resv_spec|].
  intros ls. by apply no_label_exhausted.
Qed.
End accepted.

(** ** Witness *)

Definition parsed (m : list Z) : rsvp_message_info :=
  match rsvp_parse_packet m (length m) with Some (_, info) => info | None => zero_info end.

Lemma parsed_spec m :
  match rsvp_parse_packet m (length m) with Some (RSVP_SUCCESS, _) => true | _ => false end = true →
  rsvp_parse_packet m (length m) = Some (RSVP_SUCCESS, parsed m).
Proof. unfold parsed. by destruct (rsvp_parse_packet m (length m)) as [[[] ?]|]. Qed.

(** A message that the checks of the runs accept has what the theorems ask. *)
Lemma checked_message m :
  packet_check m = true → rsvp_parse_packet m (length m) = Some (RSVP_SUCCESS, parsed m) →
  msg_ok m (parsed m) ∧ period_sane m (parsed m) ∧ bandwidth_sane m (parsed m).
Proof.
  intros [Hb Hs]%packet_check_sane E. split; [by apply parsed_msg_ok|by apply Hs].
Qed.
Lemma no_bypass_ids (s : test_state) k : no_bypass s = true → bypass_ids s k.
Proof.
  intros Hb l p Hp Hbp. pose proof (no_bypass_spares _ (λ _, True) Hb l p Hp I). congruence.
Qed.

(** The path of [test_key], before its RESV arrives. *)
Definition test_path : test_state :=
  default test_start (run_events test_start [ReceivePacket (path_packet test_key 66)]).
Definition test_block : rsvp_psb := default (new_psb test_key) (psbs test_path !! 1%positive).
Lemma test_path_reachable : reachable test_path.
Proof.
  apply run_events_default; [exact test_start_reachable|]. vm_cast_no_check (eq_refl true).
Qed.
Lemma test_path_block : psbs test_path !! 1%positive = Some test_block.
Proof. apply default_found. vm_cast_no_check (eq_refl true). Qed.

Lemma resv_accepted_witness :
  let m := resv_packet test_key 500 88 in
  (∃ s', handle_resv_message m (parsed m) test_path = Some ((), s')
     ∧ resv_done test_path m (parsed m) 1%positive test_block 500 (mk_rsvp_hop_ipv4 88 (htonl 2)) s')
  ∧ (∀ ls, no_label (st_labels test_path) ls → labels_exhausted test_path).
Proof.
  intros m.
  assert (rsvp_parse_packet m (length m) = Some (RSVP_SUCCESS, parsed m)) as E
    by (apply parsed_spec; vm_cast_no_check (eq_refl true)).
  destruct (checked_message m) as (Hm & Hper & _); [vm_cast_no_check (eq_refl true)|exact E|].
  apply (resv_accepted test_path m (parsed m) 1%positive test_block _ (mk_rsvp_label_ipv4 (htonl 500))
           test_path_reachable Hm Hper).
  - apply no_bypass_ids. vm_cast_no_check (eq_refl true).
  - exact test_path_block.
  - by_run.
  - split; vm_cast_no_check (eq_refl false).
  - by_run.
  - by_run.
  - by_run.
Defined.
