(* ===== verification/AcceptedPath.v ===== *)
(** * Accepted PATH messages (src/pi/rsvp_state_machine.c)

    What [handle_path_message] does with a PATH that passes its checks: at the
    egress a reservation with a label and a RESV to the previous hop, at a
    transit router the PATH to the next hop. *)

From stdpp Require Import base numbers list option gmap sets.
From S2P Require Import Prelude Wire Protocol LabelMgr WheelTimer Timers Builder SendPacket Parser.
From S2P Require Import Interfaces StateDb Timing State Messages StateMachine Hello Invariant Signalling.
From S2P Require Import Rules SendRules Lifecycle Handlers HandlersResv Operations Commands.
From S2P Require Import HelloRules Shutdown Testbed Daemon Behaviour Accepted.

Section accepted_path.
Context {TS LS : Type} `{TimerLaws TS timer_id timer_cb} `{LabelLaws LS} `{EnvLaws}.
Local Notation state := (state TS LS).
Local Notation M := (M state).
Implicit Types s : state.

(** The path [l] is [p], the reservations and the labels are as in [s0], [o] has
    gone out. *)
Record path_at s0 l (p : rsvp_psb) (o : list output) s : Prop := {
  pa_point : at_point s0 (st_labels s0) (<[l := p]> (psbs s0)) (rsbs s0) o s;
  pa_table : st_rsb s = st_rsb s0;
  pa_ok : table_ok (st_psb s);
}.

Lemma path_lookup s0 l p o s : path_at s0 l p o s → psbs s !! l = Some p.
Proof. intros [[_ -> _ _ _ _] _ _]. apply lookup_insert_eq. Qed.
Lemma path_still s0 l p o s s' : path_at s0 l p o s → still s s' → path_at s0 l p o s'.
Proof.
  intros [P E Hok] G. split; [by eapply at_still|..]; destruct G as (E1 & E2 & _); congruence.
Qed.

Lemma block_now_table_ok l p p' s s' :
  table_ok (st_psb s) → block_now l p' s s' → psbs s !! l = Some p → psb_key p' = psb_key p →
  table_ok (st_psb s').
Proof.
  intros Hok [B1 B2] Hp Hk. injection B2 as E _ _ _ _ _ _ _.
  assert (st_psb s' = table_update (st_psb s) l (λ _, p')) as ->.
  { unfold psbs in *. destruct (st_psb s') as [h b], (st_psb s) as [h0 b0]. cbn in *. subst.
    unfold table_update. cbn. f_equal. symmetry. by apply (alter_is_insert (λ _, p') _ _ p). }
  apply table_update_ok; [done|]. intros a Ha. unfold psbs in Hp. rewrite Hp in Ha.
  by injection Ha as <-.
Qed.

Lemma path_now s0 l p p' o o' s s' :
  path_at s0 l p o s → block_now l p' s s' → st_out s' = st_out s ++ o' → psb_key p' = psb_key p →
  path_at s0 l p' (o ++ o') s'.
Proof.
  intros P B O Hk.
  pose proof (block_now_table_ok _ _ _ _ _ (pa_ok _ _ _ _ _ P) B (path_lookup _ _ _ _ _ P) Hk).
  destruct P as [[P0 P1 P2 P3 P4 P5] E _], B as [B1 B2]. injection B2 as _ E1 E2 _ E3 _ _ _.
  split; [split|congruence|done].
  - congruence.
  - by rewrite B1, P1, insert_insert_eq.
  - rewrite <- P2. unfold rsbs. by rewrite E1.
  - congruence.
  - by rewrite O, P4, app_assoc.
  - by rewrite E1.
Qed.
Lemma after_path_get s0 l p o Q s :
  path_at s0 l p o s → Q p s → after (psb_get l) Q s.
Proof.
  intros [P _ _] HQ. eapply after_psb_get; [exact P|]. intros p' Hp. rewrite lookup_insert_eq in Hp.
  by injection Hp as <-.
Qed.
Lemma after_path_set s0 l p o f Q s :
  path_at s0 l p o s → psb_key (f p) = psb_key p → (∀ s', path_at s0 l (f p) o s' → Q () s') →
  after (psb_set l f) Q s.
Proof.
  intros P Hk HQ. apply after_wp. eapply wp_psb_set_exact; [by eapply path_lookup|].
  intros s' B O. apply HQ. rewrite <- (app_nil_r o). eapply path_now; [exact P|exact B| |exact Hk].
  by rewrite app_nil_r.
Qed.

(** ** The egress *)

(** The reservation that the egress makes for the path [p]. *)
Definition egress_rsb (k : rsvp_path_key) (l : loc) (p : rsvp_psb) : rsvp_rsb :=
  new_rsb k <| rsb_associated_psb := Some l |> <| rsb_refresh_ms := psb_refresh_ms p |>.


(** [s'] is what a PATH for the block [p] leaves at the egress: the period of
    an old reservation follows; else a new one gets a label and its RESV goes
    upstream, unless there is no memory for it. *)
Inductive egress_outcome s0 l (p : rsvp_psb) s' : Prop :=
| egress_refreshed lr r :
    psb_associated_rsb p = Some lr → rsbs s0 !! lr = Some r →
    at_point s0 (st_labels s0) (<[l := p]> (psbs s0))
      (<[lr := r <| rsb_refresh_ms := psb_refresh_ms p |>]> (rsbs s0)) [] s' →
    egress_outcome s0 l p s'
| egress_no_memory :
    psb_associated_rsb p = None → no_memory (dom (rsbs s0)) → path_at s0 l p [] s' → egress_outcome s0 l p s'
| egress_reserved lr r ls outs :
    psb_associated_rsb p = None → rsbs s0 !! lr = None →
    labelled (st_labels s0) (egress_rsb (psb_key p) l p) r ls → resv_sent (paired p lr) r outs →
    at_point s0 ls (<[l := paired p lr]> (psbs s0)) (<[lr := r]> (rsbs s0)) outs s' →
    egress_outcome s0 l p s'.

Lemma after_path_egress s0 l p info Q s :
  path_at s0 l p [] s → psb_key p = info_key info →
  table_find (st_rsb s0) (info_key info) = Some (psb_associated_rsb p) →
  (∀ s', egress_outcome s0 l p s' → Q () s') → after (handle_path_egress info l) Q s.
Proof.
  intros P Hk Hf HQ. unfold handle_path_egress, rsvp_rsb_find.
  apply after_bind, after_bind, after_gets, after_lift. rewrite (pa_table _ _ _ _ _ P), Hf.
  intros ? [= <-]. pose proof (pa_point _ _ _ _ _ P) as PP.
  destruct (psb_associated_rsb p) as [lr|] eqn:Ea.
  - apply after_bind. eapply after_path_get; [exact P|]. eapply after_rsb_set; [exact PP|done|].
    intros r s1 Hr P1. by eapply HQ, egress_refreshed.
  - apply after_bind, after_rsb_create; [apply PP| | |].
    { intros lx rx Hx. pose proof (ap_ok _ _ _ _ _ _ PP) as Hok. rewrite (pa_table _ _ _ _ _ P) in Hok.
      apply (proj1 (table_find_none (st_rsb s0) (info_key info) Hok) Hf lx rx).
      rewrite (ap_rsbs _ _ _ _ _ _ PP) in Hx. exact Hx. }
    { rewrite (ap_rsbs _ _ _ _ _ _ PP). intros Hmem s1 G1.
      apply after_ret, HQ, egress_no_memory; [done..|]. by eapply path_still. }
    intros lr s1 Hn P1 _. rewrite (ap_rsbs _ _ _ _ _ _ PP), (ap_psbs _ _ _ _ _ _ PP) in *.
    assert (at_point s0 (st_labels s0) (<[l := p]> (psbs s0)) (<[lr := new_rsb (info_key info)]> (rsbs s0)) [] s1) as P1'.
    { destruct PP as [E0 _ _ E3 E4 _], P1 as [Q0 Q1 Q2 Q3 Q4 Q5].
      split; [congruence|done|done|congruence| |done].
      by rewrite Q4, E4, !app_nil_r. }
    clear P1. apply after_bind. eapply after_psb_get; [exact P1'|]. intros p' Hp'.
    rewrite lookup_insert_eq in Hp'. injection Hp' as <-. apply after_bind.
    eapply after_rsb_set; [exact P1'|done|]. intros r s2 Hr P2. rewrite lookup_insert_eq in Hr.
    injection Hr as <-. rewrite insert_insert_eq in P2. apply after_bind.
    eapply after_psb_set; [exact P2|]. intros p' s3 Hp' P3. rewrite lookup_insert_eq in Hp'.
    injection Hp' as <-. rewrite insert_insert_eq in P3. apply after_bind, after_jittered.
    intros j s4 G4. apply (at_still _ _ _ _ _ _ _ P3) in G4. apply after_bind, after_timer_start.
    intros s5 G5. apply (at_still _ _ _ _ _ _ _ G4) in G5.
    eapply after_send_resv; [exact G5|by apply lookup_insert_eq|done|by apply lookup_insert_eq|].
    intros r ls s6 outs L Hs P6. rewrite insert_insert_eq in P6.
    eapply HQ, egress_reserved; [done|exact Hn| |exact Hs|exact P6]. by rewrite Hk.
Qed.

(** ** A transit router *)

(** The next bypass tunnel may be noted in the block. *)
Definition armed (p p' : rsvp_psb) : Prop :=
  p' = p <| psb_bypass_psb := psb_bypass_psb p' |> <| psb_bypass_tunnel_id := psb_bypass_tunnel_id p' |>.

Lemma armed_refl p : armed p p.
Proof. by destruct p. Qed.

Lemma after_frr_arm s0 l p o chain Q s :
  path_at s0 l p o s → (∀ p' s', armed p p' → path_at s0 l p' o s' → Q () s') →
  after (frr_arm l chain) Q s.
Proof.
  intros P HQ. induction chain as [|c chain IH]; cbn [frr_arm].
  { apply after_ret. eapply HQ; [apply armed_refl|exact P]. }
  pose proof (pa_point _ _ _ _ _ P) as PP. apply after_bind. eapply after_psb_get; [exact PP|].
  intros cp _. apply after_bind. eapply after_path_get; [exact P|].
  case_if; [exact IH|]. case_if; [exact IH|]. apply after_bind. unfold bypass_ready, rsvp_rsb_find.
  apply after_bind, after_bind, after_gets, after_lift. intros [b|] _; [|by apply after_ret].
  apply after_bind. eapply after_rsb_get; [exact PP|]. intros r _. apply after_ret.
  case_if; [exact IH|]. eapply after_path_set; [exact P|done|]. intros s1 P1. by eapply HQ; [|exact P1].
Qed.

Lemma after_frr_auto_associate s0 l p o Q s :
  path_at s0 l p o s → (∀ p' s', armed p p' → path_at s0 l p' o s' → Q () s') →
  after (rsvp_frr_auto_associate l) Q s.
Proof.
  intros P HQ. unfold rsvp_frr_auto_associate. apply after_bind. eapply after_path_get; [exact P|].
  case_if; [apply after_ret; eapply HQ; [apply armed_refl|exact P]|].
  unfold all_psbs. apply after_bind, after_gets. by eapply after_frr_arm.
Qed.

Lemma after_path_delete s0 l p o Q s :
  path_at s0 l p o s → psb_associated_rsb p = None → psbs s0 !! l = None →
  (∀ s', at_point s0 (st_labels s0) (psbs s0) (rsbs s0) o s' → Q () s') → after (rsvp_psb_delete l) Q s.
Proof.
  intros P Ha Hn HQ. unfold rsvp_psb_delete. apply after_bind. eapply after_path_get; [exact P|].
  apply after_bind, after_gets.
  destruct (table_remove_ok (st_psb s) l p) as (t & -> & Et & _); [apply P|by eapply path_lookup|].
  rewrite Ha. apply after_bind, after_modify, after_bind, after_timer_stop. intros s1 G1.
  apply after_bind, after_timer_stop. intros s2 G2. apply after_bind, after_ret.
  pose proof (still_then _ _ _ _ G1 G2) as (E1 & E2 & E3 & E0 & E4).
  apply after_bind, after_update. intros s3 (ts & _ & [= <-])%bind_Some.
  apply after_bind, after_update. intros s4 (ts' & _ & [= <-])%bind_Some.
  apply after_modify, HQ. destruct P as [[P0 P1 P2 P3 P4 P5] _ _]. split.
  - rewrite <- P0. cbn. by rewrite E0.
  - change (delete l (tb_heap (st_psb s2)) = psbs s0). rewrite E1. cbn.
    rewrite Et. change (tb_heap (st_psb s)) with (psbs s). by rewrite P1, delete_insert_id.
  - rewrite <- P2. unfold rsbs. cbn. by rewrite E2.
  - rewrite <- P3. exact E3.
  - rewrite <- P4. cbn. rewrite E4. cbn. by rewrite app_nil_r.
  - cbn. by rewrite E2.
Qed.

(** The explicit route may lose its first hop. *)
Definition popped (p p' : rsvp_psb) : Prop :=
  (psb_ero p' = psb_ero p ∨ psb_ero p' = tail (psb_ero p)) ∧ p' = p <| psb_ero := psb_ero p' |>.

(** [s'] is what a PATH for the block [p] leaves at a transit router: a message
    that came back to its source goes no further; without a route a PathErr
    answers and a new block goes; else the PATH goes on to the next hop, and a
    bypass tunnel that is ready may be noted. *)
Inductive transit_outcome s0 (info : rsvp_message_info) l (p : rsvp_psb) (is_new : bool) s' : Prop :=
| transit_looped n :
    env_is_local_addr n (snd_source_addr (key_sender (info_key info))) = true →
    path_at s0 l p [] s' → transit_outcome s0 info l p is_new s'
| transit_no_route p1 n la outs :
    popped p p1 → env_egress_if n (path_next_hop p1) < 0 →
    sent (path_err_message (info_key info) la RSVP_PROTO_ERR_ROUTING_PROBLEM 0)
      0 (info_src_ip info) false outs →
    (if is_new then at_point s0 (st_labels s0) (psbs s0) (rsbs s0) outs s' else path_at s0 l p1 outs s') →
    transit_outcome s0 info l p is_new s'
| transit_forwarded p1 p2 p3 outs :
    popped p p1 → path_sent_as p1 p2 outs → armed p2 p3 → path_at s0 l p3 outs s' →
    transit_outcome s0 info l p is_new s'.

Lemma after_path_transit s0 l p info is_new Q s :
  path_at s0 l p [] s →
  (is_new = true → psb_associated_rsb p = None ∧ psbs s0 !! l = None) →
  (∀ s', transit_outcome s0 info l p is_new s' → Q () s') →
  after (handle_path_transit info l is_new) Q s.
Proof.
  intros P Hnew HQ. unfold handle_path_transit, hal_netlink_is_local_addr.
  apply after_bind, after_host. intros n s1 G1. apply (path_still _ _ _ _ _ _ P) in G1.
  apply after_ret. destruct (env_is_local_addr n _) eqn:El.
  { by eapply after_ret, HQ, transit_looped. }
  apply after_bind, after_wp. eapply wp_resolve_exact; [by eapply path_lookup|].
  intros n2 d p1 s2 B O He Ep Enh.
  assert (path_at s0 l p1 [] s2) as P2.
  { eapply (path_now _ _ _ _ [] []); [exact G1|exact B|by rewrite app_nil_r|by rewrite Ep]. }
  destruct (env_egress_if n2 d <? 0) eqn:Ed; bools.
  - apply after_bind, after_wp, wp_send_path_err_exact. intros la s3 outs S3 Hs.
    assert (path_at s0 l p1 outs s3) as P3.
    { pose proof (said_grew _ _ _ S3) as G3. destruct P2 as [PP E2 Hok], G3 as (E1 & E3 & E4 & E0 & E5).
      split; [|congruence..]. eapply (at_grew _ _ _ _ []); [exact PP|by split_and!]. }
    unfold when. destruct is_new.
    + destruct Hnew as [Ha Hn]; [done|].
      eapply after_path_delete; [exact P3|by rewrite Ep|exact Hn|]. intros s4 P4.
      rewrite Enh in Ed. by eapply HQ, transit_no_route.
    + rewrite Enh in Ed. by eapply after_ret, HQ, transit_no_route.
  - apply after_bind, after_wp. eapply wp_send_path_exact; [by eapply path_lookup|].
    intros p2 s3 outs B3 O3 Hs.
    assert (path_at s0 l p2 outs s3) as P3.
    { eapply (path_now _ _ _ _ []); [exact P2|exact B3|exact O3|]. destruct Hs as (_ & -> & _). done. }
    apply after_bind. eapply after_path_get; [exact P3|]. unfold when. case_if.
    + eapply after_frr_auto_associate; [exact P3|]. intros p3 s4 A P4.
      by eapply HQ, transit_forwarded.
    + eapply after_ret, HQ, transit_forwarded; [done|exact Hs|apply armed_refl|done].
Qed.

(** ** The handler *)

(** The name of the message, if any and if there is memory for it. *)
Definition path_name (info : rsvp_message_info) (name : option (option (list Z))) : Prop :=
  match c_string (info_lsp_name info) with
  | [] => name = None
  | str => name = Some (Some str) ∨ name = Some None
  end.

(** The role of the router, by the address of the end of the tunnel. *)
Definition path_outcome s0 (info : rsvp_message_info) l (p : rsvp_psb) (is_new : bool) s' : Prop :=
  ∃ n, if env_is_local_addr n (sess_dest_addr (key_session (info_key info)))
       then egress_outcome s0 l p s' else transit_outcome s0 info l p is_new s'.

Lemma after_path_accepted s0 l p0 m info is_new Q s :
  path_at s0 l p0 [] s → psb_key p0 = info_key info →
  table_find (st_rsb s0) (info_key info) = Some (psb_associated_rsb p0) →
  (∀ name p, path_update m info name p0 = Some p → pshape p = pshape p0) →
  (is_new = true → psb_associated_rsb p0 = None ∧ psbs s0 !! l = None) →
  (∀ name p s', path_name info name → path_update m info name p0 = Some p →
     path_outcome s0 info l p is_new s' → Q () s') →
  after (handle_path_accepted m info l is_new) Q s.
Proof.
  intros P Hk Hf Hsh Hnew HQ. unfold handle_path_accepted.
  apply after_bind. eapply (after_mono _ (λ name s1, path_at s0 l p0 [] s1 ∧ path_name info name)).
  { unfold path_name. destruct (c_string _) as [|c str]; [by apply after_ret|].
    unfold strdup. apply after_bind, after_host. intros n s1 G1. apply after_ret, after_ret.
    split; [by eapply path_still|]. case_match; auto. }
  intros name s1 [P1 Hname]. apply after_bind. unfold psb_update. apply after_bind.
  eapply after_path_get; [exact P1|]. apply after_bind, after_lift. intros p Ep.
  pose proof (Hsh _ _ Ep) as [= Ek Ea _].
  eapply after_path_set; [exact P1|exact Ek|]. intros s2 P2. apply after_bind.
  eapply after_path_get; [exact P2|]. apply after_bind, after_lift. intros c _.
  apply after_bind, after_timer_rearm. intros s3 G3. apply (path_still _ _ _ _ _ _ P2) in G3.
  apply after_bind, after_timer_active. intros act. apply after_bind.
  eapply (after_mono _ (λ _, path_at s0 l p [])).
  { unfold when. case_if; [|by apply after_ret]. apply after_bind, after_jittered. intros j s4 G4.
    apply after_timer_start. intros s5 G5. eapply path_still; [|exact G5]. by eapply path_still. }
  intros [] s4 P4. apply after_bind. unfold hal_netlink_is_local_addr. apply after_host.
  intros n s5 G5. apply (path_still _ _ _ _ _ _ P4) in G5. apply after_ret.
  assert (∀ s', (if env_is_local_addr n (sess_dest_addr (key_session (info_key info)))
       then egress_outcome s0 l p s' else transit_outcome s0 info l p is_new s') → Q () s') as Hend.
  { intros s' Ho. eapply HQ; [exact Hname|exact Ep|by exists n]. }
  destruct (env_is_local_addr n _).
  - eapply after_path_egress; [exact G5|congruence|by rewrite Ea|exact Hend].
  - eapply after_path_transit; [exact G5|rewrite Ea; exact Hnew|exact Hend].
Qed.

(** A new path block. *)
Lemma after_psb_create s s1 k Q :
  table_ok (st_psb s) → table_ok (st_rsb s) → still s s1 →
  (∀ l p, psbs s !! l = Some p → psb_key p ≠ k) →
  (no_memory (dom (psbs s)) → ∀ s', still s s' → Q None s') →
  (∀ l s', psbs s !! l = None → path_at s l (new_psb k) [] s' → Q (Some l) s') →
  after (rsvp_psb_create k) Q s1.
Proof.
  intros Hp Hr G0 Hno Hnone Hsome. unfold rsvp_psb_create. apply after_host. intros n s2 G1.
  apply (grew_trans _ _ _ _ _ G0) in G1. pose proof (grew_psbs _ _ _ G1) as R1.
  apply after_bind, after_gets.
  change (tb_heap (st_psb s2)) with (psbs s2). rewrite R1.
  destruct (env_calloc n (dom (psbs s))) as [l|] eqn:Ec; [|apply after_ret, Hnone; [by exists n|done]].
  apply env_calloc_fresh, not_elem_of_dom in Ec. do 3 apply after_bind, after_modify.
  apply after_ret, Hsome; [done|].
  destruct G1 as (E1 & E2 & E3 & E0 & E4). split; [split| |]; unfold psbs, rsbs; cbn; try done;
    try (by rewrite E2).
  - by rewrite E1.
  - rewrite E1. by apply table_insert_ok.
Qed.

(** The block that a first PATH starts from. *)
Definition first_psb (k : rsvp_path_key) : rsvp_psb := new_psb k <| psb_refresh_ms := RSVP_REFRESH_MS |>.

Lemma handle_path_spec s m info ex :
  reachable s → msg_ok m info → period_sane m info → bandwidth_sane m info →
  table_find (st_psb s) (info_key info) = Some ex →
  rsvp_validate_path_message info (is_Some_b ex) = (RSVP_SUCCESS, 0, 0) →
  ∃ s', handle_path_message m info s = Some ((), s') ∧
    match ex with
    | Some l => ∃ p0 name p, psbs s !! l = Some p0 ∧ path_name info name
        ∧ path_update m info name p0 = Some p ∧ path_outcome s info l p false s'
    | None => (no_memory (dom (psbs s)) ∧ still s s')
        ∨ ∃ l name p, psbs s !! l = None ∧ path_name info name
          ∧ path_update m info name (first_psb (info_key info)) = Some p
          ∧ path_outcome s info l p true s'
    end.
Proof.
  intros Hi%reachable_inv Hm Hper Hbw Hf Hv.
  assert (is_Some (info_hop_v4 info)) as Hhop.
  { unfold rsvp_validate_path_message in Hv. destruct (info_hop_v4 info); [by eexists|done]. }
  pose proof (handle_path_message_safe true s m info Hi Hm Hper Hbw) as Hw.
  assert (∀ name p0 p, psb_good p0 → path_update m info name p0 = Some p → pshape p = pshape p0) as Hsh.
  { intros name p0 p Hg E. destruct (path_update_ok m info name p0) as (p' & E' & Hs & _); [done..|].
    rewrite E in E'. by injection E' as <-. }
  match goal with |- ∃ s', _ ∧ @?R s' => apply (wp_after _ _ (λ _, R)) in Hw end;
    [apply wp_run in Hw as ([] & s' & E & _ & HQ); by exists s'|].
  cbv beta. unfold handle_path_message, rsvp_psb_find.
  apply after_bind, after_bind, after_gets, after_lift. rewrite Hf. intros ? [= <-].
  rewrite Hv. pose proof (table_find_spec (st_psb s) (info_key info) (inv_psb _ _ Hi)) as (r & Er & Hr).
  rewrite Hf in Er. injection Er as <-. destruct ex as [l|].
  - destruct Hr as (p0 & Hp0 & Hk). change (psbs s !! l = Some p0) in Hp0.
    destruct (path_reservation s l p0 Hi Hp0) as [Hfr _]. change (psb_key p0 = info_key info) in Hk.
    rewrite Hk in Hfr. eapply (after_path_accepted s l p0); [|exact Hk|exact Hfr| |done|].
    + split; [|done|apply Hi]. rewrite insert_id by done. apply at_start, Hi.
    + intros name p. apply Hsh. by eapply inv_psb_good.
    + intros name p s' Hn Hp Ho. by exists p0, name, p.
  - apply after_bind. eapply after_psb_create; [apply Hi|apply Hi|by apply still_intro|exact Hr| |].
    { intros Hmem s1 G1. by apply after_ret; left. }
    intros l s2 Ec P2. apply after_bind. eapply after_path_set; [exact P2|done|]. intros s3 P3.
    fold (first_psb (info_key info)) in P3.
    eapply (after_path_accepted s l (first_psb (info_key info))); [exact P3|done| | |done|].
    + apply table_find_none; [apply Hi|]. intros lr r Er Ek.
      destruct (inv_assoc_rsb _ _ Hi lr r Er) as (lp & p' & _ & Hp' & _ & Ek').
      apply (Hr lp p' Hp'). exact (eq_trans Ek' Ek).
    + intros name p. apply Hsh.
      split; [by eapply msg_key_good|done|apply Nat.le_0_l|apply Nat.le_0_l|done].
    + intros name p s' Hn Hp Ho. right. by exists l, name, p.
Qed.


(** ** A tunnel of the operator *)

(** The block that [rsvp_initiate_path_with_ero] makes. *)
Definition tunnel_block (k : rsvp_path_key) (name : option (list Z)) (ero : list rsvp_ero_ipv4_subobj)
    (frr : bool) : rsvp_psb :=
  let p := new_psb k <| psb_refresh_ms := RSVP_REFRESH_MS |> <| psb_is_ingress := true |>
             <| psb_lsp_name := name |> <| psb_ero := take MAX_ERO_HOPS ero |> in
  if frr then p <| psb_frr_mode := RSVP_FRR_FACILITY |> <| psb_frr_bandwidth := 0 |> else p.

Lemma after_tunnel s src dest t name ero frr Q :
  Inv true s → let k := initiate_key src dest t (st_next_lsp_id s) in
  table_find (st_psb s) k = Some None →
  (no_memory (dom (psbs s)) → ∀ s', still s s' → Q () s') →
  (∀ l n p outs s', psbs s !! l = None → n = name ∨ n = None →
     path_sent_as (tunnel_block k n ero frr) p outs → path_at s l p outs s' → Q () s') →
  after (rsvp_initiate_path_with_ero src dest t name ero frr) Q s.
Proof.
  intros Hi k Hf Hnone Hsome. unfold rsvp_initiate_path_with_ero, take_lsp_id.
  apply after_bind, after_bind, after_gets, after_bind, after_modify, after_ret.
  match goal with |- after _ _ ?x => set (s1 := x) end.
  assert (still s s1) as G1 by (by apply still_intro). fold k.
  apply after_bind. unfold rsvp_psb_find. apply after_bind, after_gets, after_lift.
  change (st_psb s1) with (st_psb s). rewrite Hf. intros ? [= <-].
  apply after_bind. eapply after_psb_create; [apply Hi|apply Hi|exact G1| | |].
  { exact (proj1 (table_find_none _ _ (inv_psb _ _ Hi)) Hf). }
  { intros Hmem s2 G2. by apply after_ret, Hnone. }
  intros l s2 Hn P2. apply after_bind.
  eapply (after_mono _ (λ n s3, (n = name ∨ n = None) ∧ path_at s l (new_psb k) [] s3)).
  { unfold strdup_opt. destruct name as [str|]; [|apply after_ret; auto].
    unfold strdup. apply after_host. intros n s3 G3. apply after_ret.
    split; [case_match; auto|by eapply path_still]. }
  intros n s3 [Hname P3]. apply after_bind.
  eapply after_path_set; [exact P3|done|]. intros s4 P4. apply after_bind.
  eapply (after_mono _ (λ _, path_at s l (tunnel_block k n ero frr) [])).
  { unfold when, tunnel_block. destruct frr; [|by apply after_ret].
    eapply after_path_set; [exact P4|done|]. by intros s5 P5. }
  intros [] s5 P5. apply after_bind. unfold start_refresh. apply after_bind.
  eapply after_path_get; [exact P5|]. apply after_bind, after_jittered. intros j s6 G6.
  apply after_timer_start. intros s7 G7.
  assert (path_at s l (tunnel_block k n ero frr) [] s7) as P7
    by (eapply path_still; [|exact G7]; by eapply path_still).
  apply after_wp. eapply wp_send_path_exact; [by eapply path_lookup|].
  intros p s8 outs B O Hs. eapply (Hsome l n p outs); [done..|].
  eapply (path_now _ _ _ _ []); [exact P7|exact B|exact O|]. by destruct Hs as (_ & -> & _).
Qed.
End accepted_path.

(** ** Witness *)

