(* ===== verification/Network.v ===== *)
(** * Several routers (src/pi/rsvp_state_machine.c, rsvp_dispatcher.c)

    The set-up of a label switched path: the egress answers a PATH with a RESV,
    the RESV goes hop by hop to the ingress, and the entries that the routers
    install on its way carry unlabelled packets from the ingress to the egress.
    Each router is a run of the daemon on a host of its own; the packet that
    one of them sends is the one that the next receives. *)

From stdpp Require Import base numbers list option gmap sets.
From S2P Require Import Prelude Wire Protocol LabelMgr WheelTimer Timers Builder SendPacket Parser RoundTrip.
From S2P Require Import Interfaces StateDb Timing State Messages StateMachine Hello Invariant Signalling.
From S2P Require Import Rules SendRules Lifecycle Handlers HandlersResv Operations Commands.
From S2P Require Import HelloRules Shutdown Testbed Daemon Behaviour Accepted AcceptedPath.

(** The address and the interface in the HOP object of a message. *)
Definition announced (m : list Z) : option (Z * Z) :=
  match rsvp_parse_packet m (length m) with
  | Some (RSVP_SUCCESS, i) =>
      hop ← (o ← info_hop_v4 i; load_struct rsvp_hop_ipv4 m o);
      Some (hop_neighbor_addr hop, ntohl (hop_logical_interface hop))
  | _ => None
  end.

Lemma load_opt_some {T} `{Wire T} m o (x : T) :
  load_opt T m o = Some (Some x) → (p ← o; load_struct T m p) = Some x.
Proof.
  unfold load_opt. destruct o as [p|]; [|done]. cbn. destruct (load_struct T m p); [|done]. cbn.
  by intros [= ->].
Qed.

Section resv_announced.
Context (p : rsvp_psb) (r : rsvp_rsb) (la ifi src : Z) (m : list Z) (i : rsvp_message_info).

Lemma resv_announced : resv_read p r la ifi src m i → announced m = Some (la, ntohl (htonl ifi)).
Proof.
  intros [E _ _ Eh _ _ _ _]. unfold announced. rewrite E.
  by rewrite (load_opt_some _ _ _ Eh).
Qed.
End resv_announced.

(** ** One router *)

Section router.
Context {TS LS : Type} `{TimerLaws TS timer_id timer_cb} `{LabelLaws LS} {HE : Env} {HL : EnvLaws}.
Local Notation state := (state TS LS).
Implicit Types s : state.

Lemma resv_event_ok s p r la ifi src m i :
  resv_read p r la ifi src m i → refresh_ok (rsb_refresh_ms r) → bypass_ids s (psb_key p) →
  event_ok s (ReceivePacket m).
Proof.
  intros [E (Hb & _ & _ & o & hdr & Eo & Eh & Et) Ek _ (tv & Ev & Er) _ Ef _] Hr Hids. split.
  - split; [done|]. intros info Hp. rewrite E in Hp. injection Hp as <-. split.
    + intros o' tv' Eo' El. apply load_opt_some in Ev. rewrite Eo' in Ev.
      cbn [mbind option_bind] in Ev. rewrite El in Ev. injection Ev as ->. by rewrite Er.
    + intros o' fr Eo'. congruence.
  - intros info o' hdr' Hp Eo' Eh'. rewrite E in Hp. injection Hp as <-.
    rewrite Eo in Eo'. injection Eo' as <-. rewrite Eh in Eh'. injection Eh' as <-. rewrite Et, Ek.
    done.
Qed.

(** A packet of another router is parsed and handled. *)
Lemma packet_handled s m src ty i :
  rsvp_parse_packet m (length m) = Some (RSVP_SUCCESS, i) → envelope m src ty i →
  env_is_local_addr (st_clock s) src = false →
  run_event (ReceivePacket m) s
  = (if ty =? RSVP_MSG_PATH then handle_path_message m i
     else if ty =? RSVP_MSG_RESV then handle_resv_message m i
     else rsvp_handle_message m i) (s <| st_clock ::= Nat.succ |>).
Proof.
  intros E (_ & Hlen & Hsrc & o & hdr & Eo & Eh & Et) Hloc.
  cbn [run_event]. unfold receive_packet, sizeof_iphdr.
  rewrite (proj2 (Nat.leb_le 20 _) Hlen). unfold hal_netlink_is_local_addr, host, lift, gets, modify.
  unfold mbind, M_bind, mret, M_ret. cbn [mbind option_bind]. rewrite Hsrc. cbn [mbind option_bind].
  rewrite Hloc, E. cbn [mbind option_bind].
  assert (∀ (s1 : state), rsvp_handle_message m i s1
    = (if ty =? RSVP_MSG_PATH then handle_path_message m i
       else if ty =? RSVP_MSG_RESV then handle_resv_message m i else rsvp_handle_message m i) s1) as Hd; [|done].
  intros s1. assert (rsvp_handle_message m i s1 = rsvp_handle_message m i s1) as Hs by done.
  unfold rsvp_handle_message at 2 in Hs. unfold mbind at 1, M_bind at 1, lift at 1 in Hs.
  rewrite Eo in Hs. cbn [mbind option_bind] in Hs. rewrite Eh in Hs. cbn [mbind option_bind] in Hs.
  rewrite Et in Hs. repeat case_if; [exact Hs..|done].
Qed.

(** A reservation that a RESV can carry. *)
Record rsb_sendable (r : rsvp_rsb) : Prop := {
  rs_ttl : is_byte (rsb_ttl r);
  rs_refresh : refresh_ok (rsb_refresh_ms r);
  rs_style : 0 ≤ rsb_style r < 256;
  rs_label : 0 ≤ rsb_label_in r < 2 ^ 32;
}.

(** The labels of the reservations are those of the allocator. *)
Lemma label_bound s lr r : reachable s → rsbs s !! lr = Some r → 0 ≤ rsb_label_in r < 2 ^ 32.
Proof.
  intros Hi%reachable_inv Hr. destruct (decide (rsb_label_in r = 0)) as [->|Hn]; [lia|].
  destruct (inv_labels _ _ Hi) as [(HS & Hrel & Hheld & _) _].
  apply (lb_bound _ _ _ Hrel), Hheld. split; [done|]. by exists lr, r.
Qed.

(** The range of field [n] of a structure. *)
Ltac field_range n H :=
  lazymatch n with
  | O => apply Forall2_cons_1 in H as [H _]; exact H
  | S ?n => apply Forall2_cons_1 in H as [_ H]; field_range n H
  end.

Lemma hdr_ttl_byte (hdr : rsvp_common_hdr) : struct_ok hdr → is_byte (hdr_ttl hdr).
Proof. intros Hok. field_range 3%nat Hok. Qed.

(** [r] with another label, or none. *)
Definition relabelled (r r' : rsvp_rsb) : Prop := r' = r <| rsb_label_in := rsb_label_in r' |>.

Lemma relabelled_refl r : relabelled r r.
Proof. by destruct r. Qed.

Lemma resv_block_entry m i label hop r0 r r' p n :
  resv_block m i label hop r0 = Some r → relabelled r r' →
  entry n p r' = MplsInstall n label (ntohl (hop_logical_interface hop)) (hop_neighbor_addr hop)
                   (sess_dest_addr (key_session (psb_key p))).
Proof.
  unfold resv_block. intros (hdr & _ & Hb)%bind_Some E.
  apply bind_Some in Hb as (r1 & _ & [= <-]). unfold entry. rewrite E. by destruct hdr.
Qed.

(** The block of a first RESV can be carried on. *)
Lemma resv_block_sendable pD rD la ifi src m i k l p label hop r lr s :
  resv_read pD rD la ifi src m i → refresh_ok (rsb_refresh_ms rD) →
  resv_block m i label hop (first_rsb k l p) = Some r →
  reachable s → ∀ r', relabelled r r' → rsbs s !! lr = Some r' → rsb_sendable r' ∧ rsb_key r' = k.
Proof.
  intros [_ (Hb & _) _ _ (tv & Ev & Er) (st & Es & _) _ _] Href Hblk Hs r' E' Hr'.
  pose proof (label_bound _ _ _ Hs Hr') as Hl. unfold resv_block in Hblk.
  apply bind_Some in Hblk as (hdr & Eh & Hblk). apply bind_Some in Hblk as (r0 & Eu & [= Ek]).
  assert (∀ h, hdr = Some h → is_byte (hdr_ttl h)) as Ht.
  { intros h ->. apply load_opt_some, bind_Some in Eh as (o & _ & Eh).
    by apply hdr_ttl_byte, (load_struct_ok m o). }
  unfold resv_update in Eu. rewrite Ev in Eu. cbn [mbind option_bind] in Eu.
  apply bind_Some in Eu as (fs & _ & Eu). rewrite Es in Eu. injection Eu as <-.
  assert (0 ≤ Z.land (ntohl (sty_style st)) 255 < 256) as Hst
    by (rewrite land_255; by apply Z.mod_pos_bound).
  assert (is_byte (rsb_ttl r) ∧ rsb_refresh_ms r = ntohl (tv_refresh_ms tv)
    ∧ rsb_style r = Z.land (ntohl (sty_style st)) 255 ∧ rsb_key r = k) as (T & R & S & K).
  { subst r. destruct hdr as [hdr|], fs as [fs|]; (split; [|done]);
      first [by apply Ht|by split]. }
  rewrite Er in R. clear Ek. split; [|by rewrite E'].
  split; [by rewrite E'|rewrite E'; cbn; by rewrite R|rewrite E'; cbn; by rewrite S|done].
Qed.

(** *** The first RESV *)

(** The addresses of the host are addresses. *)
Definition addresses_ok : Prop := ∀ n i a, env_local_addr n i = Some a → 0 < a < 2 ^ 32.

(** The router has the path [k] in the block [l], and no reservation yet. *)
Record path_ready (k : rsvp_path_key) s l (p : rsvp_psb) : Prop := {
  py_reachable : reachable s;
  py_addresses : addresses_ok;
  py_sendable : key_sendable k;
  py_block : psbs s !! l = Some p;
  py_key : psb_key p = k;
  py_ordinary : ordinary p;
  py_first : psb_associated_rsb p = None;
  py_prev : 0 ≤ hop_neighbor_addr (psb_prev_hop p) < 2 ^ 32;
  py_blockade : table_find (st_bsb s) k = Some None;
  py_ids : bypass_ids s k;
}.

(** The first RESV for the path [k] arrives as the packet [m] in the state [s];
    the router ends in [s'] with a reservation: it had the memory and a label. *)
Record resv_arrives (k : rsvp_path_key) (m : list Z) s s' : Prop := {
  ra_foreign : ∀ src, load 4 m 12 = Some src → env_is_local_addr (st_clock s) src = false;
  ra_event : run_event (ReceivePacket m) s = Some ((), s');
  ra_reserved : ∃ lr, table_find (st_rsb s') k = Some (Some lr);
}.

(** A RESV that a router sends for its reservation [r]. *)
Definition resv_passed (p : rsvp_psb) (r : rsvp_rsb) (outs : list output) : Prop :=
  outs = [] ∨ rsb_label_in r ≠ 0
    ∧ ∃ la ifi m i, outs = [Packet m] ∧ resv_read p r la ifi la m i.

Lemma resv_sent_passed p r outs :
  addresses_ok → key_sendable (psb_key p) → 0 ≤ hop_neighbor_addr (psb_prev_hop p) < 2 ^ 32 →
  rsb_sendable r → resv_sent p r outs → resv_passed p r outs.
Proof.
  intros Ha Hk Hprev [Httl Href Hsty Hlab]. unfold resv_sent. case_if; [by left|]. bools.
  intros (merged & la & ifi & (n & c & _ & Ela) & [->|(m & Em & ->)]%sent_cases); [by left|]. right.
  split; [done|].
  assert (0 ≤ la < 2 ^ 32) as Hla.
  { subst la. case_if; [|lia]. destruct (env_local_addr c _) as [a|] eqn:E'; cbn [default]; [|lia].
    apply Ha in E'. unfold id. lia. }
  destruct (resv_message_read p r merged la ifi la (hop_neighbor_addr (psb_prev_hop p)))
    as (m' & i & Em' & Hr); [assumption..|].
  rewrite Em in Em'. injection Em' as <-. exists la, ifi, m, i. split; [reflexivity|assumption].
Qed.

(** The first RESV is accepted whenever the router has the path. *)
Lemma resv_accepted_anywhere k m s l p pD rD la ifi src i :
  reachable s → psbs s !! l = Some p → psb_key p = k → ordinary p →
  table_find (st_bsb s) k = Some None → bypass_ids s k →
  resv_read pD rD la ifi src m i → psb_key pD = k → refresh_ok (rsb_refresh_ms rD) →
  env_is_local_addr (st_clock s) src = false →
  ∃ s', run_event (ReceivePacket m) s = Some ((), s') ∧ reachable s'
    ∧ resv_done (s <| st_clock ::= Nat.succ |>) m i l p (rsb_label_in rD)
        (mk_rsvp_hop_ipv4 la (htonl ifi)) s'.
Proof.
  intros Hs Hp Hk Ho Hbsb Hids Hread HkD Href Hloc.
  pose proof (resv_event_ok s _ _ _ _ _ _ _ Hread Href) as Hev. rewrite HkD in Hev. specialize (Hev Hids).
  pose proof Hread as [E He Ek Eh _ _ _ (lb & El & Elb)].
  pose proof (packet_handled s m src _ i E He Hloc) as Erun.
  destruct (proj1 Hev) as [Hb Hsane]. destruct (Hsane i E) as [Hper _].
  destruct (handle_resv_spec (s <| st_clock ::= Nat.succ |>) m i l p
    (mk_rsvp_hop_ipv4 la (htonl ifi)) lb) as (s' & Er & Hd).
  - by apply reachable_host.
  - by apply parsed_msg_ok.
  - done.
  - by rewrite Ek, HkD.
  - done.
  - by rewrite Ek, HkD.
  - done.
  - by rewrite Ek, HkD.
  - by apply load_opt_some in El.
  - by apply load_opt_some in Eh.
  - apply (eq_trans Erun) in Er. rewrite Elb in Hd. exists s'. split_and!; [done| |done].
    by eapply reachable_event.
Qed.

(** What a router that took the first RESV does next: it forwards unlabelled
    packets at the ingress, labelled ones elsewhere, to the label and the hop
    of the RESV, and sends its own label to the previous hop. *)
Lemma resv_switched k m s l p s' pD rD la ifi src i :
  path_ready k s l p → resv_arrives k m s s' →
  resv_read pD rD la ifi src m i → psb_key pD = k → refresh_ok (rsb_refresh_ms rD) →
  let to n := MplsInstall n (rsb_label_in rD) (ntohl (htonl ifi)) la (sess_dest_addr (key_session k)) in
  ∃ lr r, rsbs s' !! lr = Some r ∧ rsb_key r = k ∧ rsb_sendable r ∧
    ((hop_neighbor_addr (psb_prev_hop p) = 0 ∧ st_out s' = st_out s ++ [to 0])
     ∨ (hop_neighbor_addr (psb_prev_hop p) ≠ 0
        ∧ ∃ outs, resv_passed (paired p lr) r outs ∧ st_out s' = st_out s ++ to (rsb_label_in r) :: outs)).
Proof.
  intros [Hs Haddr Hsk Hp Hk Ho Hfirst Hprev Hbsb Hids] [Hloc Hrun (lx & Hx)] Hread HkD Href to.
  pose proof Hread as [_ (_ & _ & Hsrc & _) _ _ _ _ _ _].
  destruct (resv_accepted_anywhere k m s l p pD rD la ifi src i) as (s2 & E2 & Hs' & Hd);
    [done..|by apply Hloc|]. rewrite Hrun in E2. injection E2 as <-.
  unfold resv_done in Hd. rewrite Hfirst in Hd.
  destruct (path_reservation s l p (reachable_inv _ Hs) Hp) as [Hnone _]. rewrite Hk, Hfirst in Hnone.
  pose proof (proj1 (table_find_none _ _ (inv_rsb _ _ (reachable_inv _ Hs))) Hnone) as Hno.
  destruct (proj1 (table_find_iff _ _ _ (inv_rsb _ _ (reachable_inv _ Hs'))) Hx) as (rx & Hrx & Hkx).
  assert (rsbs s' ≠ rsbs s) as Hne by (intros En; unfold rsbs in En; rewrite En in Hrx; by eapply Hno).
  destruct Hd as [(_ & _ & Er & _)|(lr & r & Hn & Hblk & Hout)].
  { destruct Hne. unfold rsbs. by rewrite Er. }
  assert (∀ r', relabelled r r' → rsbs s' !! lr = Some r' → rsb_sendable r' ∧ rsb_key r' = k) as Hsend
    by (rewrite <- Hk; by eapply resv_block_sendable).
  assert (∀ n r', relabelled r r' → entry n (paired p lr) r' = to n) as Hto.
  { intros n r' L. rewrite (resv_block_entry _ _ _ _ _ _ _ (paired p lr) n Hblk L). cbn. by rewrite Hk. }
  destruct Hout as [_ Hz P|r' ls outs _ Hz L%labelled_shape Hl Hsent P|r' ls outs [=]|ls la' outs _ _ _ _ _ P].
  - destruct P as [_ P1 P2 _ P4 _]. assert (rsbs s' !! lr = Some r) as Hr
      by (rewrite P2; apply lookup_insert_eq).
    rewrite Hto in P4 by apply relabelled_refl. destruct (Hsend r) as [Hsd Ekr]; [apply relabelled_refl|done|].
    exists lr, r. split_and!; [done..|]. by left.
  - destruct P as [_ P1 P2 _ P4 _]. assert (rsbs s' !! lr = Some r') as Hr
      by (rewrite P2; apply lookup_insert_eq).
    rewrite Hto in P4 by done. destruct (Hsend r') as [Hsd Ekr]; [done..|].
    exists lr, r'. split_and!; [done..|]. right. split; [done|]. exists outs. split; [|exact P4].
    eapply resv_sent_passed; [assumption|cbn; by rewrite Hk|assumption..].
  - destruct P as [_ _ P2 _ _ _]. exfalso. eapply (Hno lx rx); [|exact Hkx].
    change (rsbs s' !! lx = Some rx) in Hrx. rewrite P2 in Hrx.
    by apply lookup_delete_Some in Hrx as [_ Hd].
Qed.

(** *** The first PATH *)

Lemma path_event_ok s p la ifi src m i :
  path_read p la ifi src m i → refresh_ok (psb_refresh_ms p) → bandwidth_sane m i →
  event_ok s (ReceivePacket m).
Proof.
  intros [E (Hb & _ & _ & o & hdr & Eo & Eh & Et) _ _ (tv & Ev & Er) _ _ _ _] Hr Hbw. split.
  - split; [done|]. intros info Hp. rewrite E in Hp. injection Hp as <-. split; [|done].
    intros o' tv' Eo' El. apply load_opt_some in Ev. rewrite Eo' in Ev.
    cbn [mbind option_bind] in Ev. rewrite El in Ev. injection Ev as ->. by rewrite Er.
  - intros info o' hdr' Hp Eo' Eh'. rewrite E in Hp. injection Hp as <-.
    rewrite Eo in Eo'. injection Eo' as <-. rewrite Eh in Eh'. injection Eh' as <-. by rewrite Et.
Qed.

Lemma c_string_bytes b : bytes_ok b → bytes_ok (c_string b).
Proof. induction 1; cbn [c_string]; [constructor|]. case_if; by constructor. Qed.

Lemma path_name_bytes info name n :
  bytes_ok (info_lsp_name info) → path_name info name → name = Some n → bytes_ok (default [] n).
Proof.
  intros Hb%c_string_bytes Hn ->. unfold path_name in Hn.
  destruct (c_string (info_lsp_name info)) as [|c str]; [done|].
  destruct Hn as [[= ->]|[= ->]]; [done|constructor].
Qed.

(** What [path_update] copies or leaves alone. *)
Definition carried (p : rsvp_psb) :=
  (psb_key p, psb_ttl p, psb_lsp_name p, psb_ero p, psb_rro p, psb_associated_rsb p,
   psb_is_bypass_tunnel p, psb_is_mbb_pending p).

Lemma frr_update_carried fr p p' : frr_update fr p = Some p' → carried p' = carried p.
Proof.
  unfold frr_update. destruct fr as [fr|]; [|by intros [= <-]].
  repeat case_if; [by intros [= <-]| |by intros [= <-]..]. by intros (bw & _ & [= <-])%bind_Some.
Qed.

Lemma path_update_carried pU la ifi src m i k name p :
  path_read pU la ifi src m i → path_update m i name (first_psb k) = Some p →
  ∃ hdr, load_opt rsvp_common_hdr m (info_common_hdr i) = Some hdr
    ∧ carried p = (k, match hdr with Some hdr => hdr_ttl hdr | None => 0 end, default None name,
                   psb_ero pU, if (length (psb_rro pU) <? MAX_RRO_HOPS)%nat then path_rro pU la else [],
                   None, false, false)
    ∧ psb_prev_hop p = mk_rsvp_hop_ipv4 la (htonl ifi).
Proof.
  intros [_ _ _ Eh (tv & Ev & _) _ _ Ee Er] Hu. unfold path_update in Hu. rewrite Ev in Hu.
  cbn [mbind option_bind] in Hu. apply bind_Some in Hu as (hdr & Ehdr & Hu). exists hdr.
  split; [done|]. cbv zeta in Hu. apply bind_Some in Hu as (ero & Ee' & Hu).
  apply bind_Some in Hu as (rro & Er' & Hu).
  assert (ero = psb_ero pU) as ->.
  { enough (Some ero = Some (psb_ero pU)) by congruence. rewrite <- Ee, <- Ee'. by destruct hdr. }
  assert (rro = if (length (psb_rro pU) <? MAX_RRO_HOPS)%nat then path_rro pU la else []) as ->.
  { apply (inj Some). rewrite <- Er, <- Er'. by destruct hdr. }
  apply bind_Some in Hu as (ts & _ & Hu). cbv zeta in Hu. apply bind_Some in Hu as (sa & _ & Hu).
  cbv zeta in Hu. apply bind_Some in Hu as (fr & _ & Hu). apply bind_Some in Hu as (p1 & E1 & Hu).
  apply frr_update_carried in E1. cbv zeta in Hu. apply load_opt_some in Eh.
  apply bind_Some in Hu as (o & Eo & Hu). apply bind_Some in Hu as (hop & Ehop & [= <-]).
  rewrite Eo in Eh. cbn [mbind option_bind] in Eh. rewrite Ehop in Eh. injection Eh as ->.
  split; [|by destruct name].
  destruct hdr as [hdr|], ts as [ts|], sa as [sa|]; unfold carried in *; cbn in E1;
    injection E1 as ? ? ? ? ? ? ? ?; destruct name; cbn; congruence.
Qed.

Lemma first_path_sendable pU la ifi src m i name p :
  path_read pU la ifi src m i → path_sendable pU → 0 ≤ la < 2 ^ 32 →
  bytes_ok (info_lsp_name i) → path_name i name →
  path_update m i name (first_psb (psb_key pU)) = Some p → psb_good p →
  path_sendable p ∧ psb_key p = psb_key pU ∧ psb_prev_hop p = mk_rsvp_hop_ipv4 la (htonl ifi)
  ∧ ordinary p ∧ psb_associated_rsb p = None.
Proof.
  intros Hread [Hg Hk Httl Hn Hero Hrro] Hla Hname Hpn Hu Hgp.
  destruct (path_update_carried _ _ _ _ _ _ _ _ _ Hread Hu) as (hdr & Eh & E & Ehop).
  injection E as E1 E2 E3 E4 E5 E6 E7 E8. split_and!; [|done..]. split; [done|by rewrite E1| | | |].
  - rewrite E2. destruct hdr as [hdr|]; [|split; lia].
    apply load_opt_some, bind_Some in Eh as (o & _ & Eh).
    by apply hdr_ttl_byte, (load_struct_ok m o), Eh; destruct (pr_envelope _ _ _ _ _ _ Hread).
  - unfold name_bytes_ok. rewrite E3. destruct name as [n|]; [|constructor].
    by eapply path_name_bytes.
  - by rewrite E4.
  - rewrite E5. case_if; [by apply path_rro_ok|constructor].
Qed.

Lemma shorter_sendable p p' :
  (psb_ero p' = psb_ero p ∨ psb_ero p' = tail (psb_ero p)) →
  p' = p <| psb_ero := psb_ero p' |> <| psb_ifindex_out := psb_ifindex_out p' |> →
  path_sendable p → path_sendable p'.
Proof.
  intros He Ep [[G1 G2 G3 G4 G5] Hk Httl Hn Hero Hrro].
  assert (Forall hop_ok (psb_ero p') ∧ (length (psb_ero p') <= MAX_ERO_HOPS)%nat) as [F L].
  { destruct He as [-> | ->]; [done|]. destruct (psb_ero p); [done|]. apply Forall_cons in Hero as [_ ?].
    simpl in *. split; [done|lia]. }
  rewrite Ep. by split; [split|..].
Qed.
Lemma sent_as_sendable p p' outs : path_sent_as p p' outs → path_sendable p → path_sendable p'.
Proof. intros (He & Ep & _). by apply shorter_sendable. Qed.
Lemma popped_sendable p p' : popped p p' → path_sendable p → path_sendable p'.
Proof. intros [He Ep]. apply shorter_sendable; [done|]. rewrite Ep at 1. by rewrite Ep. Qed.

Lemma subobj_addr_bound h : hop_ok h → 0 ≤ subobj_addr h < 2 ^ 32.
Proof. intros [Hok _]. field_range 2%nat Hok. Qed.

Lemma key_addresses k : key_sendable k →
  0 ≤ sess_dest_addr (key_session k) < 2 ^ 32 ∧ 0 ≤ snd_source_addr (key_sender k) < 2 ^ 32.
Proof. intros [H1' _ H2']. split; [field_range 0%nat H1'|field_range 0%nat H2']. Qed.

Lemma next_hop_bound p : path_sendable p → 0 ≤ path_next_hop p < 2 ^ 32.
Proof.
  intros [_ Hk _ _ Hero _]. unfold path_next_hop. destruct (psb_ero p) as [|h ero].
  - by apply key_addresses.
  - apply Forall_cons in Hero as [Hh _]. by apply subobj_addr_bound.
Qed.

(** The first PATH for the path [k] arrives as the packet [m] in the state [s];
    the router ends in [s'] with a path block. *)
Record path_arrives (k : rsvp_path_key) (m : list Z) s s' : Prop := {
  pa_reachable : reachable s;
  pa_addresses : addresses_ok;
  pa_source : 0 < snd_source_addr (key_sender k);
  pa_first : table_find (st_psb s) k = Some None;
  pa_blockade : table_find (st_bsb s) k = Some None;
  pa_ids : bypass_ids s k;
  pa_bandwidth : ∀ i, rsvp_parse_packet m (length m) = Some (RSVP_SUCCESS, i) → bandwidth_sane m i;
  pa_foreign : ∀ src, load 4 m 12 = Some src → env_is_local_addr (st_clock s) src = false;
  pa_event : run_event (ReceivePacket m) s = Some ((), s');
  pa_kept : ∃ l, table_find (st_psb s') k = Some (Some l);
}.

(** The handler's result for such a PATH. *)
Lemma path_accepted_first k m s s' pU la ifi src i :
  path_arrives k m s s' → path_read pU la ifi src m i → path_sendable pU → psb_key pU = k →
  reachable s' ∧ bytes_ok (info_lsp_name i) ∧
  ∃ l name p, psbs s !! l = None ∧ path_name i name ∧ path_update m i name (first_psb k) = Some p
    ∧ psb_good p ∧ path_outcome (s <| st_clock ::= Nat.succ |>) i l p true s'.
Proof.
  intros [Hs _ _ Hfirst _ _ Hbw Hloc Hrun (lx & Hx)] Hread [Hg _ _ _ _ _] Hk.
  pose proof Hread as [E He Ek Eh _ Hsnd Hreq _ _]. pose proof He as (_ & _ & Hsrc & _).
  specialize (Hbw i E).
  pose proof (path_event_ok s _ _ _ _ _ _ Hread (pg_refresh _ Hg) Hbw) as Hev.
  pose proof (packet_handled s m src _ i E He (Hloc src Hsrc)) as Erun.
  destruct (proj1 Hev) as [Hb Hsane]. destruct (Hsane i E) as [Hper _].
  pose proof (parsed_msg_ok m i Hb E) as Hm.
  assert (reachable s') as Hs' by (by eapply reachable_event).
  split; [done|]. split; [by destruct (mo_info _ _ Hm) as (lo & hi & _ & []); auto|].
  rewrite Hk in Ek. destruct (handle_path_spec (s <| st_clock ::= Nat.succ |>) m i None) as (s2 & Er & Hd).
  - by apply reachable_host.
  - done.
  - done.
  - done.
  - by rewrite Ek.
  - apply load_opt_some in Eh. destruct Hsnd as [? Es], Hreq as [? El].
    unfold rsvp_validate_path_message. rewrite Es, El. by destruct (info_hop_v4 i).
  - apply (eq_trans Erun) in Er. rewrite Hrun in Er. injection Er as <-. rewrite Ek in Hd.
    destruct Hd as [(_ & Ep & _)|(l & name & p & Hn & Hpn & Hu & Hout)].
    { cbn in Ep. rewrite Ep in Hx. congruence. }
    exists l, name, p. split_and!; try done.
    destruct (path_update_ok m i name (first_psb k)) as (p' & E' & _ & Hgp & _); try done.
    + apply load_opt_some in Eh. destruct (info_hop_v4 i); [by eexists|done].
    + rewrite <- Ek. split; [by eapply msg_key_good|done|apply Nat.le_0_l|apply Nat.le_0_l|done].
    + rewrite Hu in E'. by injection E' as <-.
Qed.

(** The block that such a PATH leaves, whatever the role of the router. *)
Record path_noted (k : rsvp_path_key) s (up : rsvp_hop_ipv4) l (p : rsvp_psb) s' : Prop := {
  pn_reachable : reachable s';
  pn_block : psbs s' !! l = Some p;
  pn_key : psb_key p = k;
  pn_ordinary : ordinary p;
  pn_prev : psb_prev_hop p = up;
  pn_blockades : st_bsb s' = st_bsb s;
  pn_ids : bypass_ids s k → bypass_ids s' k;
}.

Lemma path_noted_intro k s up l p ls ps rs o s' :
  reachable s' → at_point (s <| st_clock ::= Nat.succ |>) ls ps rs o s' → ps = <[l := p]> (psbs s) →
  psb_key p = k → ordinary p → psb_prev_hop p = up → path_noted k s up l p s'.
Proof.
  intros Hs' [_ P1 _ P3 _ _] -> Hk Ho Hp. split; try done.
  - rewrite P1. apply lookup_insert_eq.
  - intros Hids l' p' Hl' Hb Ht. rewrite P1 in Hl'.
    apply lookup_insert_Some in Hl' as [[<- <-]|[_ Hl']]; [by destruct Ho; congruence|].
    by eapply Hids.
Qed.

(** A PATH that a transit router sends on. *)
Definition path_passed (k : rsvp_path_key) (outs : list output) : Prop :=
  outs = [] ∨ ∃ p la ifi m i, outs = [Packet m] ∧ path_read p la ifi la m i ∧ path_sendable p
    ∧ psb_key p = k ∧ 0 < la < 2 ^ 32.

Lemma path_sent_passed p p' outs :
  addresses_ok → 0 < snd_source_addr (key_sender (psb_key p)) →
  path_sent_as p p' outs → path_sendable p → path_passed (psb_key p) outs.
Proof.
  intros Ha Hsrc Hs Hp. pose proof (sent_as_sendable _ _ _ Hs Hp) as Hp'.
  destruct Hs as (_ & Ep & [(_ & -> & _)|(n & c & _ & _ & Hsent)]); [by left|].
  apply sent_cases in Hsent as [->|(m & Em & ->)]; [by left|]. right.
  set (la := default _ _) in *. assert (psb_key p' = psb_key p) as Ek by (by rewrite Ep).
  assert (0 < la < 2 ^ 32) as Hla.
  { unfold la. destruct (env_local_addr c _) as [a|] eqn:E; [by eapply Ha|]. cbn [default].
    pose proof (proj2 (key_addresses _ (ps_key _ Hp))). unfold id in *. lia. }
  destruct (path_message_read p' la (env_egress_if n (path_next_hop p')) la (path_next_hop p'))
    as (m' & i & Em' & Hr); [assumption|lia|lia|by apply next_hop_bound|].
  rewrite Em in Em'. injection Em' as <-.
  exists p', la, (env_egress_if n (path_next_hop p')), m, i. split_and!; [reflexivity|assumption..|apply Hla|apply Hla].
Qed.

Definition kept (p : rsvp_psb) :=
  (psb_key p, psb_prev_hop p, psb_associated_rsb p, psb_is_bypass_tunnel p, psb_is_mbb_pending p).

Lemma sent_as_kept p p' outs : path_sent_as p p' outs → kept p' = kept p.
Proof. intros (_ & -> & _). done. Qed.
Lemma popped_kept p p' : popped p p' → kept p' = kept p.
Proof. intros [_ ->]. done. Qed.
Lemma armed_kept p p' : armed p p' → kept p' = kept p.
Proof. intros ->. done. Qed.

Lemma path_block_new s s' k l :
  reachable s → reachable s' → table_find (st_psb s) k = Some None →
  table_find (st_psb s') k = Some (Some l) → psbs s' ≠ psbs s.
Proof.
  intros Hs%reachable_inv Hs'%reachable_inv Hf Hf' E.
  destruct (proj1 (table_find_iff _ _ _ (inv_psb _ _ Hs')) Hf') as (p & Hp & Hk).
  change (psbs s' !! l = Some p) in Hp. rewrite E in Hp.
  by eapply (proj1 (table_find_none _ _ (inv_psb _ _ Hs)) Hf).
Qed.

Lemma path_noted_ready k s up l p s' :
  addresses_ok → key_sendable k → table_find (st_bsb s) k = Some None → bypass_ids s k →
  0 ≤ hop_neighbor_addr up < 2 ^ 32 → psb_associated_rsb p = None →
  path_noted k s up l p s' → path_ready k s' l p.
Proof.
  intros Ha Hk Hb Hids Hup Hf [N1 N2 N3 N4 N5 N6 N7].
  split; [assumption..|rewrite N5; assumption|by rewrite N6|by apply N7].
Qed.

(** What a transit router does with the first PATH: it notes the upstream
    router in a block and sends the PATH on. *)
Lemma path_forwarded k m s s' pU la ifi src i :
  path_arrives k m s s' → path_read pU la ifi src m i → path_sendable pU → psb_key pU = k →
  0 ≤ la < 2 ^ 32 → (∀ n, env_is_local_addr n (sess_dest_addr (key_session k)) = false) →
  ∃ l p outs, path_ready k s' l p ∧ psb_prev_hop p = mk_rsvp_hop_ipv4 la (htonl ifi)
    ∧ st_out s' = st_out s ++ outs ∧ path_passed k outs.
Proof.
  intros Harr Hread Hsend Hk Hla Hlocal.
  destruct (path_accepted_first k m s s' pU la ifi src i)
    as (Hs' & Hname & l & name & p & _ & Hpn & Hu & Hgp & n & Hout); [done..|].
  destruct Harr as [Hs Haddr Hsrc Hfirst Hbsb Hids _ _ _ (lx & Hx)].
  pose proof (path_block_new s s' k lx Hs Hs' Hfirst Hx) as Hnew.
  rewrite (pr_key _ _ _ _ _ _ Hread), Hk, Hlocal in Hout. rewrite <- Hk in Hu.
  destruct (first_path_sendable _ _ _ _ _ _ _ _ Hread Hsend Hla Hname Hpn Hu Hgp)
    as (Hp & Ekp & Ehop & Hord & Hassoc). rewrite Hk in Ekp.
  destruct Hout as [? _ [P _ _]|? ? ? ? _ _ _ [_ P1 _ _ _ _]|p1 p2 p3 outs Hpop Hsent Harm [P _ _]].
  - exists l, p, []. split; [|split; [done|split; [apply P|by left]]].
    eapply (path_noted_ready k s); [assumption|by rewrite <- Hk; apply Hsend|..|by eapply path_noted_intro];
      assumption.
  - by destruct Hnew.
  - pose proof (popped_kept _ _ Hpop) as E1. pose proof (sent_as_kept _ _ _ Hsent) as E2.
    pose proof (armed_kept _ _ Harm) as E3. rewrite E2, E1 in E3.
    assert (psb_key p1 = k) as Ek1 by (injection E1; congruence).
    injection E3 as K1 K2 K3 K4 K5.
    assert (path_noted k s (mk_rsvp_hop_ipv4 la (htonl ifi)) l p3 s') as Hn.
    { eapply path_noted_intro; [done|exact P|done|congruence| |congruence].
      unfold ordinary. by rewrite K4, K5. }
    exists l, p3, outs. split; [|split; [congruence|split; [apply P|]]].
    { eapply (path_noted_ready k s); [assumption|by rewrite <- Hk; apply Hsend|..|exact Hn];
        [assumption..|congruence]. }
    rewrite <- Ek1.
    eapply path_sent_passed; [done|by rewrite Ek1|exact Hsent|by eapply popped_sendable].
Qed.

(** What the egress does with the first PATH: it makes a reservation with a
    label and answers with its RESV. *)
Lemma path_answered k m s s' pU la ifi src i :
  path_arrives k m s s' → path_read pU la ifi src m i → path_sendable pU → psb_key pU = k →
  0 ≤ la < 2 ^ 32 → (∀ n, env_is_local_addr n (sess_dest_addr (key_session k)) = true) →
  ∃ l p outs, path_noted k s (mk_rsvp_hop_ipv4 la (htonl ifi)) l p s'
    ∧ st_out s' = st_out s ++ outs
    ∧ (outs = [] ∨ ∃ lr r, rsbs s' !! lr = Some r ∧ rsb_sendable r ∧ rsb_key r = k
         ∧ resv_passed p r outs).
Proof.
  intros Harr Hread Hsend Hk Hla Hlocal.
  destruct (path_accepted_first k m s s' pU la ifi src i)
    as (Hs' & Hname & l & name & p & _ & Hpn & Hu & Hgp & n & Hout); [done..|].
  destruct Harr as [Hs Haddr Hsrc Hfirst _ _ _ _ _ _].
  rewrite (pr_key _ _ _ _ _ _ Hread), Hk, Hlocal in Hout. rewrite <- Hk in Hu.
  destruct (first_path_sendable _ _ _ _ _ _ _ _ Hread Hsend Hla Hname Hpn Hu Hgp)
    as (Hp & Ekp & Ehop & Hord & Hassoc). rewrite Hk in Ekp.
  destruct Hout as [lr r Ha|_ _ [P _ _]|lr r ls outs _ _ L%labelled_shape Hsent P]; [congruence|..].
  - exists l, p, []. split; [by eapply path_noted_intro|]. split; [apply P|by left].
  - exists l, (paired p lr), outs. split; [by eapply path_noted_intro|]. split; [apply P|right].
    assert (rsbs s' !! lr = Some r) as Hr by (rewrite (ap_rsbs _ _ _ _ _ _ P); apply lookup_insert_eq).
    pose proof (label_bound _ _ _ Hs' Hr) as Hl. pose proof L as E.
    assert (rsb_sendable r) as Hrs.
    { split; [rewrite E; split; cbn; lia|rewrite E; apply Hgp|rewrite E; cbn; lia|assumption]. }
    exists lr, r. split; [assumption|]. split; [assumption|]. split; [by rewrite E|].
    eapply resv_sent_passed; [assumption|apply Hp|cbn; rewrite Ehop; assumption|assumption..].
Qed.

(** *** The tunnel at the ingress *)

(** The operator sets the tunnel of key [k] up in the state [s]; the router
    ends in [s'] with a path block. *)
Record tunnel_starts (src dest t : Z) (name : option (list Z)) (ero : list rsvp_ero_ipv4_subobj)
    (frr : bool) s s' (k : rsvp_path_key) : Prop := {
  ts_reachable : reachable s;
  ts_addresses : addresses_ok;
  ts_key : k = initiate_key src dest t (st_next_lsp_id s);
  ts_src : 0 < src < 2 ^ 32;
  ts_dest : 0 ≤ dest < 2 ^ 32;
  ts_name : bytes_ok (default [] name);
  ts_ero : Forall hop_ok ero;
  ts_first : table_find (st_psb s) k = Some None;
  ts_blockade : table_find (st_bsb s) k = Some None;
  ts_ids : bypass_ids s k;
  ts_event : run_event (SetupTunnel src dest t name ero frr) s = Some ((), s');
  ts_kept : ∃ l, table_find (st_psb s') k = Some (Some l);
}.

Lemma initiate_key_sendable src dest t id :
  0 < src < 2 ^ 32 → 0 ≤ dest < 2 ^ 32 → key_sendable (initiate_key src dest t id).
Proof.
  intros Hs Hd. pose proof (htons_bound t). pose proof (htons_bound id).
  split; [struct_range|done|struct_range].
Qed.

Lemma tunnel_block_sendable k name ero frr :
  key_sendable k → key_good k → bytes_ok (default [] name) → Forall hop_ok ero →
  path_sendable (tunnel_block k name ero frr).
Proof.
  intros Hk Hg Hn He. assert (Forall hop_ok (take MAX_ERO_HOPS ero)) as Ht by (by apply Forall_take).
  assert (refresh_ok RSVP_REFRESH_MS) by done.
  assert (∀ p, psb_key p = k → psb_refresh_ms p = RSVP_REFRESH_MS → psb_ero p = take MAX_ERO_HOPS ero →
    psb_rro p = [] → psb_is_mbb_pending p = false → psb_ttl p = 0 → psb_lsp_name p = name →
    path_sendable p) as Hp.
  { intros p E1 E2 E3 E4 E5 E6 E7. split; rewrite ?E1, ?E3, ?E4, ?E6; try done.
    - split; rewrite ?E1, ?E2, ?E3, ?E4, ?E5; [done..|apply take_ero_ok|apply Nat.le_0_l|done].
    - unfold name_bytes_ok. by rewrite E7. }
  destruct frr; by apply Hp.
Qed.

Lemma tunnel_started src dest t name ero frr s s' k :
  tunnel_starts src dest t name ero frr s s' k →
  ∃ l p outs, path_ready k s' l p ∧ hop_neighbor_addr (psb_prev_hop p) = 0
    ∧ st_out s' = st_out s ++ outs ∧ path_passed k outs.
Proof.
  intros [Hs Haddr Hk Hsrc Hdest Hname Hero Hfirst Hbsb Hids Hrun (lx & Hx)].
  assert (reachable s') as Hs' by (by eapply reachable_event; [exact Hs| |exact Hrun]).
  pose proof (path_block_new s s' k lx Hs Hs' Hfirst Hx) as Hnew.
  assert (key_sendable k) as Hks by (subst k; by apply initiate_key_sendable).
  assert (after (rsvp_initiate_path_with_ero src dest t name ero frr) (λ _ s', psbs s' ≠ psbs s →
    reachable s' → ∃ l p outs, path_ready k s' l p ∧ hop_neighbor_addr (psb_prev_hop p) = 0
      ∧ st_out s' = st_out s ++ outs ∧ path_passed k outs) s) as Ha;
    [|exact (Ha () s' Hrun Hnew Hs')].
  pose proof (reachable_inv _ Hs) as Hi. clear s' Hrun Hx Hnew Hs'.
  eapply after_tunnel; [done|by rewrite <- Hk| |].
  { intros _ s' (E & _) Hne _. destruct Hne. unfold psbs. by rewrite E. }
  rewrite <- Hk. intros l n p outs s' _ Hn Hsent [P _ _] _ Hs'.
  assert (path_sendable (tunnel_block k n ero frr)) as Hb.
  { apply tunnel_block_sendable; [done|subst k; apply initiate_key_good| |done].
    destruct Hn as [-> | ->]; [done|constructor]. }
  pose proof (sent_as_kept _ _ _ Hsent) as Ek.
  assert (kept p = (k, zero_hop, None, false, false)) as Ekp by (rewrite Ek; by destruct frr).
  injection Ekp as K1 K2 K3 K4 K5.
  exists l, p, outs. split; [|split; [by rewrite K2|split; [apply P|]]].
  - destruct P as [_ P1 _ P3 _ _]. split; try assumption.
    + rewrite P1. apply lookup_insert_eq.
    + unfold ordinary. by rewrite K4, K5.
    + rewrite K2. cbn. lia.
    + by rewrite P3.
    + intros l' p' Hl' Hbp Ht. rewrite P1 in Hl'.
      apply lookup_insert_Some in Hl' as [[<- <-]|[_ Hl']]; [congruence|]. by eapply Hids.
  - assert (k = psb_key (tunnel_block k n ero frr)) as -> by (by destruct frr).
    eapply path_sent_passed; [done| |exact Hsent|exact Hb].
    assert (psb_key (tunnel_block k n ero frr) = k) as -> by (by destruct frr).
    subst k. cbn. lia.
Qed.
End router.

(** ** A chain of routers *)

Section network.
Context {TS LS : Type} `{TimerLaws TS timer_id timer_cb} `{LabelLaws LS}.
Local Notation state := (state TS LS).

(** A router on a host of its own: its states before the PATH, between PATH and
    RESV, and after the RESV; the address that it announces upstream, and its
    interface to the next router downstream. *)
Record router := mk_router {
  rt_host : Env;
  rt_laws : EnvLaws;
  rt_start : state;
  rt_path : state;
  rt_end : state;
  rt_addr : Z;
  rt_link : Z;
}.
Implicit Types h : router.

(** What went out between two states. *)
Definition outputs_of (s s' : state) : list output := drop (length (st_out s)) (st_out s').

Lemma outputs_of_app s s' outs : st_out s' = st_out s ++ outs → outputs_of s s' = outs.
Proof. intros E. unfold outputs_of. by rewrite E, drop_app_length. Qed.

(** The PATH [m] of the path [k] goes through the transit routers, the one next
    to the egress first in the list, and reaches the egress as [m']. *)
Inductive path_passes (k : rsvp_path_key) (m : list Z) : list router → list Z → Prop :=
| path_there : path_passes k m [] m
| path_hop rs m1 h m2 :
    path_passes k m rs m1 →
    path_arrives (HE := rt_host h) k m1 (rt_start h) (rt_path h) →
    (∀ n, env_is_local_addr (Env := rt_host h) n (sess_dest_addr (key_session k)) = false) →
    Packet m2 ∈ outputs_of (rt_start h) (rt_path h) →
    path_passes k m (h :: rs) m2.

(** The RESV [m] comes to [h]; the neighbour numbers the link as [h] does. *)
Record resv_comes (k : rsvp_path_key) (m : list Z) h : Prop := {
  rc_arrives : resv_arrives (HE := rt_host h) k m (rt_path h) (rt_end h);
  rc_link : ∃ a, announced m = Some (a, rt_link h);
}.

(** The RESV [m] goes back through the same routers and reaches the ingress as
    [m']. *)
Inductive resv_passes (k : rsvp_path_key) : list Z → list router → list Z → Prop :=
| resv_there m : resv_passes k m [] m
| resv_hop m h m1 rs m2 :
    resv_comes k m h →
    Packet m1 ∈ outputs_of (rt_path h) (rt_end h) → (∃ i, announced m1 = Some (rt_addr h, i)) →
    resv_passes k m1 rs m2 → resv_passes k m (h :: rs) m2.

Definition ready (k : rsvp_path_key) h : Prop :=
  ∃ l p, path_ready (HE := rt_host h) k (rt_path h) l p ∧ hop_neighbor_addr (psb_prev_hop p) ≠ 0.

Lemma path_passes_ready k m rs m' p la ifi i :
  path_passes k m rs m' →
  path_read p la ifi la m i → path_sendable p → psb_key p = k → 0 < la < 2 ^ 32 →
  Forall (ready k) rs
  ∧ ∃ p la ifi i, path_read p la ifi la m' i ∧ path_sendable p ∧ psb_key p = k ∧ 0 < la < 2 ^ 32.
Proof.
  intros Hp Hr Hs Hk Hla. induction Hp as [|rs m1 h m2 _ IH Harr Hloc Hin].
  - split; [constructor|]. exists p, la, ifi, i. split_and!; [assumption..|apply Hla|apply Hla].
  - destruct IH as (Hrs & p1 & la1 & ifi1 & i1 & Hr1 & Hs1 & Hk1 & Hla1).
    destruct (path_forwarded (HE := rt_host h) (HL := rt_laws h) k m1 (rt_start h) (rt_path h) p1 la1 ifi1 la1 i1)
      as (l & p2 & outs & Hready & Hprev & Hout & Hpass); [assumption..|lia|assumption|].
    split; [constructor; [|assumption]|].
    + exists l, p2. split; [assumption|]. rewrite Hprev. cbn. lia.
    + rewrite (outputs_of_app _ _ _ Hout) in Hin.
      destruct Hpass as [->|(p3 & la3 & ifi3 & m3 & i3 & -> & Hr3 & Hs3 & Hk3 & Hla3)]; [set_solver|].
      apply list_elem_of_singleton in Hin. injection Hin as ->. by exists p3, la3, ifi3, i3.
Qed.

(** *** Forwarding

    The forwarding table of a host is not part of the program: [fib outs n d]
    is what the requests [outs] make of a packet with label [n], 0 for none, to
    the address [d]: its new label, the interface and the next hop.  All that
    is used of it is that the last request holds. *)
Context (fib : list output → Z → Z → option (Z * Z * Z)).
Definition not_mpls (o : output) : Prop := match o with Packet _ => True | _ => False end.
Context (fib_last : ∀ outs n out ifi nh d rest,
  Forall not_mpls rest → fib (outs ++ MplsInstall n out ifi nh d :: rest) n d = Some (out, ifi, nh)).

(** A packet to [d] that enters the first of the routers with the label [n]:
    its label and next hop when it leaves the last.  A packet is lost when an
    entry names another interface than that of the link, or another address
    than that of the next router. *)
Fixpoint deliver (rs : list router) (n d : Z) : option (Z * Z) :=
  match rs with
  | [] => None
  | h :: rest =>
      '(out, ifi, nh) ← fib (st_out (rt_end h)) n d;
      if ifi =? rt_link h then
        match rest with
        | [] => Some (out, nh)
        | h' :: _ => if nh =? rt_addr h' then deliver rest out d else None
        end
      else None
  end.

(** The RESV [m] offers a label that leads through the routers [rs] to the
    label [n0] and the address [a0]. *)
Definition offers (k : rsvp_path_key) (n0 a0 : Z) (m : list Z) (rs : list router) : Prop :=
  ∃ p r la ifi i, resv_read p r la ifi la m i ∧ psb_key p = k ∧ refresh_ok (rsb_refresh_ms r)
    ∧ match rs with
      | [] => rsb_label_in r = n0 ∧ la = a0
      | h :: _ => rt_addr h = la ∧ deliver rs (rsb_label_in r) (sess_dest_addr (key_session k)) = Some (n0, a0)
      end.

(** The entry that a router installs for an offer leads on. *)
Lemma offer_leads k n0 a0 m rs h n outs outs' p r la ifi i :
  resv_read p r la ifi la m i →
  match rs with
  | [] => rsb_label_in r = n0 ∧ la = a0
  | h :: _ => rt_addr h = la ∧ deliver rs (rsb_label_in r) (sess_dest_addr (key_session k)) = Some (n0, a0)
  end →
  resv_comes k m h → Forall not_mpls outs' →
  st_out (rt_end h) = outs ++ MplsInstall n (rsb_label_in r) (ntohl (htonl ifi)) la
                                (sess_dest_addr (key_session k)) :: outs' →
  deliver (h :: rs) n (sess_dest_addr (key_session k)) = Some (n0, a0).
Proof.
  intros Hr Hrs [_ (a & Ha)] Ho Hout. rewrite (resv_announced _ _ _ _ _ _ _ Hr) in Ha.
  injection Ha as <- El. cbn [deliver]. rewrite Hout, fib_last by done. cbn [mbind option_bind].
  rewrite El, Z.eqb_refl. destruct rs as [|h' rs]; [by destruct Hrs as [-> ->]|].
  destruct Hrs as [-> Hd]. by rewrite Z.eqb_refl.
Qed.

Lemma resv_passes_offers k n0 a0 m rs m' acc :
  resv_passes k m rs m' → Forall (ready k) rs → offers k n0 a0 m acc →
  offers k n0 a0 m' (reverse rs ++ acc).
Proof.
  intros Hp. revert acc. induction Hp as [m|m h m1 rs m2 Hc Hin (i1 & Ha) _ IH]; intros acc Hrs Hoff.
  - exact Hoff.
  - apply Forall_cons in Hrs as [(l & p0 & Hready & Hprev) Hrs].
    rewrite reverse_cons, <- app_assoc. apply IH; [done|]. clear IH Hrs.
    destruct Hoff as (p & r & la & ifi & i & Hr & Hk & Href & Hacc).
    destruct (resv_switched (HE := rt_host h) (HL := rt_laws h) k m (rt_path h) l p0 (rt_end h) p r la ifi la i)
      as (lr & r' & Er & Ekr & Hs' & [[Hz _]|(_ & outs & Hpass & Hout)]); [assumption|apply Hc|assumption..| |].
    { by destruct Hprev. }
    rewrite (outputs_of_app _ _ _ Hout) in Hin.
    destruct Hpass as [->|(Hn & la' & ifi' & m' & i' & -> & Hr')]; [set_solver|].
    apply elem_of_cons in Hin as [[=]|Hin]. apply list_elem_of_singleton in Hin. injection Hin as ->.
    exists (paired p0 lr), r', la', ifi', i'. split; [exact Hr'|]. split; [apply Hready|].
    split; [apply Hs'|]. rewrite (resv_announced _ _ _ _ _ _ _ Hr') in Ha. injection Ha as Ea _.
    split; [by symmetry|]. eapply offer_leads; [exact Hr|exact Hacc|exact Hc| |exact Hout].
    by repeat constructor.
Qed.

(** The set-up of the tunnel [k]: the operator starts it at the ingress [g], the
    PATH goes through the routers [rs] (the last one first) to the egress [e],
    and the RESV of the egress goes back to the ingress. *)
Record tunnel_set_up (k : rsvp_path_key) (src dest t : Z) (name : option (list Z))
    (ero : list rsvp_ero_ipv4_subobj) (frr : bool) (g : router) (rs : list router) (e : router)
    (m0 m1 m2 m3 : list Z) : Prop := {
  su_starts : tunnel_starts (HE := rt_host g) src dest t name ero frr (rt_start g) (rt_path g) k;
  su_path : Packet m0 ∈ outputs_of (rt_start g) (rt_path g);
  su_down : path_passes k m0 rs m1;
  su_egress : path_arrives (HE := rt_host e) k m1 (rt_start e) (rt_path e);
  su_local : ∀ n, env_is_local_addr (Env := rt_host e) n (sess_dest_addr (key_session k)) = true;
  su_resv : Packet m2 ∈ outputs_of (rt_start e) (rt_path e);
  su_up : resv_passes k m2 rs m3;
  su_ingress : resv_comes k m3 g;
}.

Lemma tunnel_delivers k src dest t name ero frr g rs e m0 m1 m2 m3 :
  tunnel_set_up k src dest t name ero frr g rs e m0 m1 m2 m3 →
  ∃ lr r a i, rsbs (rt_path e) !! lr = Some r ∧ rsb_key r = k ∧ rsb_label_in r ≠ 0
    ∧ announced m2 = Some (a, i) ∧ outputs_of (rt_start e) (rt_path e) = [Packet m2]
    ∧ deliver (g :: reverse rs) 0 dest = Some (rsb_label_in r, a).
Proof.
  intros [Hg Hm0 Hdown He Hloc Hm2 Hup Hend].
  destruct (tunnel_started (HE := rt_host g) (HL := rt_laws g) _ _ _ _ _ _ _ _ _ Hg)
    as (lg & pg & og & Hready & Hprev & Hog & Hpass).
  assert (sess_dest_addr (key_session k) = dest) as Ed by (by rewrite (ts_key _ _ _ _ _ _ _ _ _ Hg)).
  rewrite (outputs_of_app _ _ _ Hog) in Hm0.
  destruct Hpass as [->|(p & la & ifi & m & i & -> & Hr & Hs & Hk & Hla)]; [set_solver|].
  apply list_elem_of_singleton in Hm0. injection Hm0 as ->.
  destruct (path_passes_ready k m rs m1 p la ifi i) as (Hrs & p1 & la1 & ifi1 & i1 & Hr1 & Hs1 & Hk1 & Hla1);
    [assumption..|].
  destruct (path_answered (HE := rt_host e) (HL := rt_laws e) k m1 (rt_start e) (rt_path e) p1 la1 ifi1 la1 i1)
    as (l & pe & outs & Hnoted & Hout & Hans); [assumption..|lia|assumption|].
  rewrite (outputs_of_app _ _ _ Hout) in Hm2.
  destruct Hans as [->|(lr & r & Er & Hrs' & Ek & Hpass)]; [set_solver|].
  destruct Hpass as [->|(Hn & la2 & ifi2 & m2' & i2 & -> & Hr2)]; [set_solver|].
  apply list_elem_of_singleton in Hm2. injection Hm2 as ->.
  exists lr, r, la2, (ntohl (htonl ifi2)). split_and!; [assumption..|by eapply resv_announced|by apply outputs_of_app|].
  assert (offers k (rsb_label_in r) la2 m2' []) as Hoff
    by (exists pe, r, la2, ifi2, i2; split; [exact Hr2|]; split; [apply Hnoted|]; split; [apply Hrs'|done]).
  apply (resv_passes_offers k _ _ _ _ _ _ Hup Hrs) in Hoff. rewrite app_nil_r in Hoff.
  destruct Hoff as (p3 & r3 & la3 & ifi3 & i3 & Hr3 & Hk3 & Href & Hacc).
  destruct (resv_switched (HE := rt_host g) (HL := rt_laws g) k m3 (rt_path g) lg pg (rt_end g) p3 r3 la3 ifi3 la3 i3)
    as (lr' & r' & _ & _ & _ & [[_ Hog']|[Hz _]]); [assumption|apply Hend|assumption..| |done].
  rewrite <- Ed. eapply offer_leads; [exact Hr3|exact Hacc|exact Hend| |exact Hog']. constructor.
Qed.

(** C7: a tunnel that has been set up carries packets, if every two neighbours
    number their link alike. The operator starts it at the ingress, the PATH
    goes through the transit routers to the egress, and the RESV goes back
    through the same routers to the ingress, each packet being the one that the
    router before sent, with no other event at a router between its PATH and
    its RESV. Then an unlabelled packet for the end of the tunnel, entering the
    ingress, is labelled there and switched at each transit router in turn, and
    leaves the last of them for the address that the egress announced, with the
    label that the reservation of the egress holds. The link numbers matter
    since an entry names the interface by the number that the neighbour gave
    it. The egress installs no entry for its label. *)
Theorem tunnel_carries_packets k src dest t name ero frr g rs e m0 m1 m2 m3 :
  tunnel_set_up k src dest t name ero frr g rs e m0 m1 m2 m3 →
  ∃ lr r a i, rsbs (rt_path e) !! lr = Some r ∧ rsb_key r = k ∧ rsb_label_in r ≠ 0
    ∧ announced m2 = Some (a, i) ∧ outputs_of (rt_start e) (rt_path e) = [Packet m2]
    ∧ deliver (g :: reverse rs) 0 dest = Some (rsb_label_in r, a).
Proof. apply tunnel_delivers. Qed.
End network.

(** ** Witness: three routers in a row

    The routers have the addresses 10, 20 and 30 and interface 1 for every
    link; the table of a host keeps the last entry of a label or address. *)

Definition node (a : Z) : Env := {|
  env_local_addr := λ _ _, Some a;
  env_egress_if := λ _ _, 1;
  env_is_local_addr := λ _ x, x =? a;
  env_rand := λ _, 5;
  env_rand_fuel := 1;
  env_calloc := λ _ D, Some (fresh D);
  env_strdup := λ _, true;
  env_send := λ _, (true, true);
  env_time := λ _, 1000;
|}.

Lemma node_laws a : @EnvLaws (node a).
Proof.
  split; simpl.
  - intros. lia.
  - intros. lia.
  - intros n. exists 0%nat. lia.
  - intros n D l [= <-]. apply is_fresh.
Qed.

Lemma node_addresses a : 0 < a < 2 ^ 32 → addresses_ok (HE := node a).
Proof. by intros Ha n i b [= <-]. Qed.

(** The table that keeps the last entry. *)
Definition entry_key (n d : Z) : Z * Z := if n =? 0 then (0, d) else (n, 0).
Definition programmed (t : gmap (Z * Z) (Z * Z * Z)) (o : output) : gmap (Z * Z) (Z * Z * Z) :=
  match o with
  | MplsInstall n out ifi nh d => <[entry_key n d := (out, ifi, nh)]> t
  | MplsRemove n d => delete (entry_key n (default 0 d)) t
  | Packet _ => t
  end.
Definition node_table (outs : list output) (n d : Z) : option (Z * Z * Z) :=
  foldl programmed ∅ outs !! entry_key n d.

Lemma node_table_last outs n out ifi nh d rest :
  Forall not_mpls rest →
  node_table (outs ++ MplsInstall n out ifi nh d :: rest) n d = Some (out, ifi, nh).
Proof.
  intros Hr. unfold node_table. rewrite foldl_app. cbn [foldl]. 
  assert (∀ t, foldl programmed t rest = t) as ->.
  { induction Hr as [|o rest Ho _ IH]; [done|]. intros t. cbn [foldl]. rewrite IH. by destruct o. }
  cbn [programmed]. apply lookup_insert_eq.
Qed.

(** The run of the router with address [a], and its last packet. *)
Definition ran (a : Z) (ev : event) (s : test_state) : test_state :=
  match run_event (H4 := node a) ev s with Some (_, s') => s' | None => s end.
Definition packet_out (s s' : test_state) : list Z :=
  match last (outputs_of s s') with Some (Packet m) => m | _ => [] end.

#[local] Instance output_eq_dec : EqDecision output.
Proof. solve_decision. Defined.

Lemma ran_spec a ev s :
  match run_event (H4 := node a) ev s with Some _ => true | None => false end = true →
  run_event (H4 := node a) ev s = Some ((), ran a ev s).
Proof. unfold ran. by destruct (run_event ev s) as [[[] ?]|]. Qed.
Lemma only_packet (s s' : test_state) :
  match outputs_of s s' with [Packet _] => true | _ => false end = true →
  Packet (packet_out s s') ∈ outputs_of s s'.
Proof.
  unfold packet_out. destruct (outputs_of s s') as [|[m| |] [|]]; [done| |done..]. by left.
Qed.

Definition chain_key : rsvp_path_key := initiate_key 10 30 1 (st_next_lsp_id test_start).
Definition ingress_path : test_state := ran 10 (SetupTunnel 10 30 1 None [] false) test_start.
Definition path_1 : list Z := packet_out test_start ingress_path.
Definition transit_path : test_state := ran 20 (ReceivePacket path_1) test_start.
Definition path_2 : list Z := packet_out test_start transit_path.
Definition egress_path : test_state := ran 30 (ReceivePacket path_2) test_start.
Definition resv_1 : list Z := packet_out test_start egress_path.
Definition transit_end : test_state := ran 20 (ReceivePacket resv_1) transit_path.
Definition resv_2 : list Z := packet_out transit_path transit_end.
Definition ingress_end : test_state := ran 10 (ReceivePacket resv_2) ingress_path.

Definition ingress_router := mk_router (node 10) (node_laws 10) test_start ingress_path ingress_end 10 1.
Definition transit_router := mk_router (node 20) (node_laws 20) test_start transit_path transit_end 20 1.
Definition egress_router := mk_router (node 30) (node_laws 30) test_start egress_path egress_path 30 1.

Lemma labels_switched :
  st_out ingress_end = [Packet path_1; MplsInstall 0 1000 1 20 30]
  ∧ st_out transit_end = [Packet path_2; MplsInstall 1000 1000 1 30 30; Packet resv_2].
Proof.
  split; by_run.
Qed.

(** The run of a router that starts with nothing. *)
Lemma start_blank k :
  table_find (st_psb test_start) k = Some None ∧ table_find (st_bsb test_start) k = Some None
  ∧ bypass_ids test_start k.
Proof.
  pose proof (reachable_inv _ test_start_reachable) as Hi.
  assert (psbs test_start = ∅) as Ep by (vm_cast_no_check (eq_refl (∅ : gmap loc rsvp_psb))).
  assert (bsbs test_start = ∅) as Eb by (vm_cast_no_check (eq_refl (∅ : gmap loc rsvp_bsb))).
  split_and!.
  - apply (table_find_none _ _ (inv_psb _ _ Hi)). intros l p Hp.
    change (psbs test_start !! l = Some p) in Hp. by rewrite Ep, lookup_empty in Hp.
  - apply (table_find_none _ _ (inv_bsb _ _ Hi)). intros l p Hp.
    change (bsbs test_start !! l = Some p) in Hp. by rewrite Eb, lookup_empty in Hp.
  - intros l p Hp. by rewrite Ep, lookup_empty in Hp.
Qed.

Lemma node_foreign a m (s : test_state) :
  match load 4 m 12 with Some src => negb (src =? a) | None => true end = true →
  ∀ src, load 4 m 12 = Some src → env_is_local_addr (Env := node a) (st_clock s) src = false.
Proof. intros Hc src E. rewrite E in Hc. by apply negb_true_iff. Qed.

Lemma node_reachable a : reachable (H4 := node a) test_start.
Proof. exact (@started_reachable _ _ _ _ _ _ _ _ (node a) (node_laws a) test_boot test_boot_ok). Qed.

Lemma node_arrives a m s' :
  0 < a < 2 ^ 32 → packet_check m = true →
  match load 4 m 12 with Some src => negb (src =? a) | None => true end = true →
  run_event (H4 := node a) (ReceivePacket m) test_start = Some ((), s') →
  is_Some_b (mjoin (table_find (st_psb s') chain_key)) = true →
  path_arrives (HE := node a) chain_key m test_start s'.
Proof.
  intros Ha [_ Hm]%packet_check_sane Hf Hrun Hk. destruct (start_blank chain_key) as (B1 & B2 & B3).
  split; [apply node_reachable|by apply node_addresses|reflexivity|exact B1|exact B2|exact B3|
    |by apply node_foreign|exact Hrun|].
  - intros i E. by apply Hm.
  - destruct (table_find (st_psb s') chain_key) as [[l|]|]; [exists l; reflexivity|discriminate Hk..].
Qed.

Lemma node_resv a m (s s' : test_state) :
  match load 4 m 12 with Some src => negb (src =? a) | None => true end = true →
  run_event (H4 := node a) (ReceivePacket m) s = Some ((), s') →
  is_Some_b (mjoin (table_find (st_rsb s') chain_key)) = true →
  resv_arrives (HE := node a) chain_key m s s'.
Proof.
  intros Hf Hrun Hk. split; [by apply node_foreign|exact Hrun|].
  destruct (table_find (st_rsb s') chain_key) as [[l|]|]; [exists l; reflexivity|discriminate Hk..].
Qed.

Lemma chain_starts :
  tunnel_starts (HE := node 10) 10 30 1 None [] false test_start ingress_path chain_key.
Proof.
  split.
  - apply node_reachable.
  - by apply node_addresses.
  - exact eq_refl.
  - done.
  - done.
  - apply Forall_nil_2.
  - apply Forall_nil_2.
  - apply (proj1 (start_blank chain_key)).
  - apply (proj1 (proj2 (start_blank chain_key))).
  - apply (proj2 (proj2 (start_blank chain_key))).
  - apply ran_spec. vm_cast_no_check (eq_refl true).
  - exists 1%positive. by_run.
Qed.

Lemma chain_path_1 : path_arrives (HE := node 20) chain_key path_1 test_start transit_path.
Proof.
  apply node_arrives; [lia|vm_cast_no_check (eq_refl true)..| |vm_cast_no_check (eq_refl true)].
  apply ran_spec. vm_cast_no_check (eq_refl true).
Qed.
Lemma chain_path_2 : path_arrives (HE := node 30) chain_key path_2 test_start egress_path.
Proof.
  apply node_arrives; [lia|vm_cast_no_check (eq_refl true)..| |vm_cast_no_check (eq_refl true)].
  apply ran_spec. vm_cast_no_check (eq_refl true).
Qed.
Lemma chain_resv_1 : resv_arrives (HE := node 20) chain_key resv_1 transit_path transit_end.
Proof.
  apply node_resv; [vm_cast_no_check (eq_refl true)| |vm_cast_no_check (eq_refl true)].
  apply ran_spec. vm_cast_no_check (eq_refl true).
Qed.
Lemma chain_resv_2 : resv_arrives (HE := node 10) chain_key resv_2 ingress_path ingress_end.
Proof.
  apply node_resv; [vm_cast_no_check (eq_refl true)| |vm_cast_no_check (eq_refl true)].
  apply ran_spec. vm_cast_no_check (eq_refl true).
Qed.

Lemma after_entry (s s' : test_state) o m :
  outputs_of s s' = [o; Packet m] → Packet m ∈ outputs_of s s'.
Proof. intros ->. right. by left. Qed.

Lemma tunnel_carries_packets_witness :
  ∃ lr r, rsbs egress_path !! lr = Some r ∧ rsb_key r = chain_key
    ∧ deliver node_table [ingress_router; transit_router] 0 30 = Some (rsb_label_in r, 30).
Proof.
  assert (tunnel_set_up chain_key 10 30 1 None [] false ingress_router [transit_router] egress_router
            path_1 path_2 resv_1 resv_2) as Hs.
  { split.
    - exact chain_starts.
    - apply (only_packet test_start ingress_path). vm_cast_no_check (eq_refl true).
    - eapply path_hop; [apply path_there|exact chain_path_1|reflexivity|].
      apply (only_packet test_start transit_path). vm_cast_no_check (eq_refl true).
    - exact chain_path_2.
    - reflexivity.
    - apply (only_packet test_start egress_path). vm_cast_no_check (eq_refl true).
    - eapply resv_hop; [split; [exact chain_resv_1|exists 30]| |exists 1|apply resv_there].
      + by_run.
      + apply (after_entry transit_path transit_end (MplsInstall 1000 1000 1 30 30)).
        by_run.
      + by_run.
    - split; [exact chain_resv_2|exists 20]. by_run. }
  destruct (tunnel_carries_packets node_table node_table_last _ _ _ _ _ _ _ _ _ _ _ _ _ _ Hs)
    as (lr & r & a & i & Er & Ek & _ & Ea & _ & Hd).
  unfold egress_router in Er. cbn [rt_path] in Er.
  exists lr, r. split; [exact Er|]. split; [exact Ek|].
  assert (announced resv_1 = Some (30, 1)) as Ea' by (by_run).
  rewrite Ea' in Ea. injection Ea as <- <-. exact Hd.
Defined.
