(* ===== verification/DisplayRules.v ===== *)
(** * The displays are right (the show commands)

    The arguments of every [printf] fit its format; the displays of the state
    blocks print every block once; and what [show mpls routes] makes of two
    addresses on one line. *)

From Stdlib Require Import String SpecFloat.
From stdpp Require Import base numbers list option gmap sets.
From S2P Require Import Prelude Wire Protocol LabelMgr WheelTimer Timers Builder SendPacket Parser.
From S2P Require Import Interfaces StateDb Timing State Messages StateMachine Hello Invariant.
From S2P Require Import Rules SendRules Testbed Daemon RsvpIf Scan Printf Netlink Display.

(** ** Formats and arguments *)

Definition arg_fits (v : conv) (a : arg) : bool :=
  match a with
  | ArgStr _ => cv_char v =? 115
  | ArgInt _ => (cv_char v =? 100) || (cv_char v =? 117)
  | ArgDouble _ => cv_char v =? 102
  end.
Fixpoint fits (ps : list piece) (args : list arg) : bool :=
  match ps, args with
  | [], _ => true
  | Text _ :: ps, _ => fits ps args
  | Conv v :: ps, a :: args => arg_fits v a && fits ps args
  | Conv _ :: _, [] => false
  end.

Lemma convert_fits v a : arg_fits v a = true → is_Some (convert v a).
Proof. destruct a; simpl; repeat case_if; intros; by eauto || done. Qed.

Lemma print_fits ps args : fits ps args = true → is_Some (print ps args).
Proof.
  revert args. induction ps as [|[c|v] ps IH]; intros args; simpl; [by eexists| |].
  - intros Hf. destruct (IH args Hf) as [s ->]. by eexists.
  - destruct args as [|a args]; [done|]. intros [Ha Hf]%andb_prop.
    destruct (convert_fits v a Ha) as [t ->]. destruct (IH args Hf) as [s ->]. by eexists.
Qed.

Lemma printf_fits f args : fits (pieces f) args = true → is_Some (printf f args).
Proof. apply print_fits. Qed.
Lemma printf_line_fits f args : fits (pieces f) args = true → is_Some (printf_line f args).
Proof. intros Hf. unfold printf_line. destruct (printf_fits f args Hf) as [s ->]. by eexists. Qed.
Lemma snprintf_fits n f args : fits (pieces f) args = true → is_Some (snprintf n f args).
Proof. intros Hf. unfold snprintf. destruct (printf_fits f args Hf) as [s ->]. by eexists. Qed.

(** Rewrites with the text of a [printf] of the goal, given a name. *)
Ltac printed t :=
  match goal with
  | |- context [printf_line ?f ?args] =>
      destruct (printf_line_fits f args) as [t ->]; [lazy; reflexivity|cbn [mbind option_bind]]
  end.

(** ** The loop over the blocks *)

Lemma omap_total {A B} (f : A → option B) (g : A → B) (l : list A) : (∀ a, f a = Some (g a)) → omap f l = g <$> l.
Proof. intros Hf. induction l as [|a l IH]; [done|]. simpl. rewrite Hf. f_equal. exact IH. Qed.

Section blocks.
Context {S : Type}.
Local Notation Mo := (M S).

Lemma dump_blocks_spec {A} (heap : gmap loc A) (get : loc → Mo A) line (f : A → option (list Z)) chain s :
  (∀ l a, heap !! l = Some a → get l s = Some (a, s) ∧ line a s = Some (f a, s)) →
  (∀ l, l ∈ chain → is_Some (heap !! l)) →
  ∃ blocks, chain = blocks.*1 ∧ (∀ x, x ∈ blocks → heap !! x.1 = Some x.2)
    ∧ dump_blocks get line chain s
      = Some ((mjoin (omap (f ∘ snd) blocks), Z.of_nat (length (omap (f ∘ snd) blocks))), s).
Proof.
  intros Hg. induction chain as [|l chain IH]; intros Hc.
  { exists []. split_and!; [done| |done]. by intros x ?%elem_of_nil. }
  destruct (Hc l) as [a Ha]; [left|].
  destruct IH as (blocks & -> & Hb & E); [intros; apply Hc; by right|].
  exists ((l, a) :: blocks). split; [done|]. split.
  { intros x [->|Hx]%elem_of_cons; [done|by apply Hb]. }
  cbn [dump_blocks]. unfold mbind, M_bind. destruct (Hg l a Ha) as [-> El].
  cbn [mbind option_bind]. rewrite El. cbn [mbind option_bind]. rewrite E.
  simpl. destruct (f a) as [t|]; [|done]. unfold mret, M_ret.
  set (n := length (omap _ _)). replace (1 + Z.of_nat n) with (Z.of_nat (Datatypes.S n)) by lia. reflexivity.
Qed.

(** Every block has a line. *)
Lemma dump_all_spec {A} (heap : gmap loc A) (get : loc → Mo A) line (g : A → list Z) chain s :
  (∀ l a, heap !! l = Some a → get l s = Some (a, s) ∧ line a s = Some (Some (g a), s)) →
  (∀ l, l ∈ chain → is_Some (heap !! l)) →
  ∃ blocks, chain = blocks.*1 ∧ (∀ x, x ∈ blocks → heap !! x.1 = Some x.2)
    ∧ dump_blocks get line chain s = Some ((mjoin (g ∘ snd <$> blocks), Z.of_nat (length blocks)), s).
Proof.
  intros Hg Hc. destruct (dump_blocks_spec heap get line (λ a, Some (g a)) chain s Hg Hc) as (blocks & ? & ? & ->).
  exists blocks. split_and!; [done..|].
  rewrite (omap_total _ (g ∘ snd)), length_fmap by done. done.
Qed.
End blocks.

(** ** Chains *)

(** The chains hold every block once. *)
Lemma buckets_blocks {A} `{Keyed A} (t : table A) blocks :
  table_ok t → mjoin (tb_buckets t) = blocks.*1 → (∀ x, x ∈ blocks → tb_heap t !! x.1 = Some x.2) →
  blocks ≡ₚ map_to_list (tb_heap t).
Proof.
  intros Hok Eb Hb. apply NoDup_Permutation.
  - apply (NoDup_fmap_1 fst). rewrite <- Eb. by apply buckets_nodup.
  - apply NoDup_map_to_list.
  - intros [l a]. rewrite elem_of_map_to_list. split; [by apply (Hb (l, a))|]. intros Ha.
    pose proof (tab_linked t Hok l a Ha) as Hin.
    assert (l ∈ blocks.*1) as ([l' a'] & -> & Hx)%list_elem_of_fmap
      by (rewrite <- Eb; apply elem_of_buckets; by eexists).
    pose proof (Hb _ Hx) as Ha'. simpl in *. by simplify_eq.
Qed.

Lemma buckets_live {A} `{Keyed A} (t : table A) l :
  table_ok t → l ∈ mjoin (tb_buckets t) → is_Some (tb_heap t !! l).
Proof. intros Hok [h Hl]%elem_of_buckets. destruct (tab_chain t Hok h l Hl) as (a & -> & _). by eexists. Qed.

Lemma dump_table_spec {S A} `{Keyed A} (t : table A) (get : loc → M S A) line (g : A → list Z) (s : S) :
  table_ok t → (∀ l a, tb_heap t !! l = Some a → get l s = Some (a, s) ∧ line a s = Some (Some (g a), s)) →
  ∃ blocks, blocks ≡ₚ map_to_list (tb_heap t)
    ∧ dump_blocks get line (mjoin (tb_buckets t)) s
      = Some ((mjoin (g ∘ snd <$> blocks), Z.of_nat (size (tb_heap t))), s).
Proof.
  intros Hok Hg. destruct (dump_all_spec (tb_heap t) get line g (mjoin (tb_buckets t)) s Hg) as (blocks & Eb & Hb & E).
  { intros l. by apply buckets_live. }
  pose proof (buckets_blocks t blocks Hok Eb Hb) as Hperm. exists blocks. split; [exact Hperm|].
  by rewrite E, (Permutation_length Hperm), length_map_to_list.
Qed.

(** ** The lines *)

Definition psb_text (p : rsvp_psb) : list Z :=
  let session := key_session (psb_key p) in
  str "PSB: Tunnel ID " ++ show_int (int32 (ntohs (sess_tunnel_id session)))
  ++ str ", Dest: " ++ inet_ntop (sess_dest_addr session)
  ++ str ", Sender: " ++ inet_ntop (snd_source_addr (key_sender (psb_key p)))
  ++ str ", LSP Name: " ++ default (str "N/A") (psb_lsp_name p) ++ [10].

Definition rsb_text (r : rsvp_rsb) : list Z :=
  let session := key_session (rsb_key r) in
  str "RSB: Tunnel ID " ++ show_int (int32 (ntohs (sess_tunnel_id session)))
  ++ str ", Dest: " ++ inet_ntop (sess_dest_addr session)
  ++ str ", Sender: " ++ inet_ntop (snd_source_addr (key_sender (rsb_key r)))
  ++ str ", Label In: " ++ show_nat (rsb_label_in r mod 2 ^ 32)
  ++ str ", Label Out: " ++ show_nat (rsb_label_out r mod 2 ^ 32) ++ [10].

(** A field of [w] columns. *)
Definition column (w : nat) (s : list Z) : list Z := s ++ replicate (w - length s) 32.

Definition frr_text (p : rsvp_psb) (bypass_label : Z) : list Z :=
  column 12 (show_nat (ntohs (sess_tunnel_id (key_session (psb_key p))) mod 2 ^ 32)) ++ [32]
  ++ column 8 (show_nat (ntohs (snd_lsp_id (key_sender (psb_key p))) mod 2 ^ 32)) ++ [32]
  ++ column 8 (if decide (psb_frr_mode p = RSVP_FRR_FACILITY) then str "facility" else str "1-to-1") ++ [32]
  ++ column 10 (show_nat (psb_ifindex_out p mod 2 ^ 32)) ++ [32]
  ++ column 8 (if psb_frr_active p then str "ACTIVE"
               else match psb_bypass_psb p with Some _ => str "armed" | None => str "pending" end) ++ [32]
  ++ column 14 (show_nat (psb_bypass_tunnel_id p mod 2 ^ 32)) ++ [32]
  ++ column 10 (show_nat (bypass_label mod 2 ^ 32)) ++ [10].

Section dumps.
Context {TS LS : Type} `{TimerLaws TS timer_id timer_cb} `{LabelLaws LS} `{EnvLaws}.
Local Notation state := (state TS LS).
Implicit Types s : state.

Lemma psb_line_text (p : rsvp_psb) s : psb_line p s = Some (Some (psb_text p), s).
Proof.
  unfold psb_line, psb_text. cbv zeta. generalize (ntohs (sess_tunnel_id (key_session (psb_key p)))).
  generalize (inet_ntop (sess_dest_addr (key_session (psb_key p)))).
  generalize (inet_ntop (snd_source_addr (key_sender (psb_key p)))).
  generalize (default (str "N/A") (psb_lsp_name p)). intros a b c d.
  unfold lift, mbind, M_bind. run_printf.
Qed.

Lemma rsb_line_text (r : rsvp_rsb) s : rsb_line r s = Some (Some (rsb_text r), s).
Proof.
  unfold rsb_line, rsb_text. cbv zeta. generalize (ntohs (sess_tunnel_id (key_session (rsb_key r)))).
  generalize (inet_ntop (sess_dest_addr (key_session (rsb_key r)))).
  generalize (inet_ntop (snd_source_addr (key_sender (rsb_key r)))). generalize (rsb_label_in r), (rsb_label_out r).
  intros a b c d e. unfold lift, mbind, M_bind. run_printf.
Qed.

Definition frr_shown (p : rsvp_psb) : bool :=
  negb (psb_is_bypass_tunnel p) && negb (bool_decide (psb_frr_mode p = RSVP_FRR_NONE)).

(** What the column of the bypass label shows. *)
Definition bypass_label_is s (p : rsvp_psb) (n : Z) : Prop :=
  match psb_bypass_psb p with
  | None => n = 0
  | Some b => ∃ q, psbs s !! b = Some q ∧ psb_is_bypass_tunnel q = true
      ∧ ((∃ l r, rsbs s !! l = Some r ∧ rsb_key r = psb_key q ∧ n = rsb_label_out r)
         ∨ (n = 0 ∧ ∀ l r, rsbs s !! l = Some r → rsb_key r ≠ psb_key q))
  end.

Lemma frr_bypass_label_spec s l p :
  Inv true s → psbs s !! l = Some p → ∃ n, frr_bypass_label p s = Some (n, s) ∧ bypass_label_is s p n.
Proof.
  intros Hi Hp. unfold frr_bypass_label, bypass_label_is.
  destruct (psb_bypass_psb p) as [b|] eqn:Eb; [|by exists 0].
  destruct (inv_bypass _ _ Hi eq_refl l p b Hp Eb) as (q & Eq & Hq).
  unfold mbind, M_bind, psb_get, gets, lift, mbind, M_bind. cbn [mbind option_bind].
  change (tb_heap (st_psb s) !! b) with (psbs s !! b). rewrite Eq. cbn [mbind option_bind].
  unfold rsvp_rsb_find, gets, lift, mbind, M_bind.
  destruct (table_find_spec (st_rsb s) (psb_key q) (inv_rsb _ _ Hi)) as (r & Er & Hr).
  cbn [mbind option_bind]. rewrite Er. cbn [mbind option_bind]. destruct r as [lr|].
  - destruct Hr as (rb & Erb & Hk). unfold rsb_get, gets, lift, mbind, M_bind. cbn [mbind option_bind].
    rewrite Erb. cbn [mbind option_bind]. eexists. split; [reflexivity|]. exists q. split_and!; [done..|].
    left. by exists lr, rb.
  - exists 0. split; [done|]. exists q. split_and!; [done..|]. by right.
Qed.

Lemma frr_line_text s l p :
  Inv true s → psbs s !! l = Some p →
  ∃ n, bypass_label_is s p n ∧ frr_bypass_label p s = Some (n, s)
    ∧ frr_line p s = Some (if frr_shown p then Some (frr_text p n) else None, s).
Proof.
  intros Hi Hp. destruct (frr_bypass_label_spec s l p Hi Hp) as (n & E & Hn). exists n.
  split; [done|]. split; [done|].
  unfold frr_line, frr_shown. destruct (psb_is_bypass_tunnel p); [done|].
  destruct (bool_decide (psb_frr_mode p = RSVP_FRR_NONE)); [done|]. cbn [negb andb].
  unfold mbind, M_bind. rewrite E. cbn [mbind option_bind].
  replace (frr_text p n) with
    (column 12 (show_nat (ntohs (sess_tunnel_id (key_session (psb_key p))) mod 2 ^ 32)) ++ [32]
     ++ column 8 (show_nat (ntohs (snd_lsp_id (key_sender (psb_key p))) mod 2 ^ 32)) ++ [32]
     ++ column 8 (str (if bool_decide (psb_frr_mode p = RSVP_FRR_FACILITY) then "facility" else "1-to-1")) ++ [32]
     ++ column 10 (show_nat (psb_ifindex_out p mod 2 ^ 32)) ++ [32] ++ column 8 (str (frr_status p)) ++ [32]
     ++ column 14 (show_nat (psb_bypass_tunnel_id p mod 2 ^ 32)) ++ [32]
     ++ column 10 (show_nat (n mod 2 ^ 32)) ++ [10]).
  2:{ unfold frr_text, frr_status. rewrite bool_decide_decide. by repeat case_match. }
  generalize (str (if bool_decide (psb_frr_mode p = RSVP_FRR_FACILITY) then "facility" else "1-to-1")).
  generalize (str (frr_status p)), (ntohs (sess_tunnel_id (key_session (psb_key p)))).
  generalize (ntohs (snd_lsp_id (key_sender (psb_key p)))), (psb_ifindex_out p), (psb_bypass_tunnel_id p).
  intros a b c d e f. unfold lift, mbind, M_bind, column. run_printf.
Qed.

Definition psb_title : list Z := str "--- Path State Blocks (PSBs) ---" ++ [10].
Definition rsb_title : list Z := str "--- Reservation State Blocks (RSBs) ---" ++ [10].
Definition total_line (what : string) (n : nat) : list Z :=
  str what ++ show_int (int32 (Z.of_nat n)) ++ [10].
Arguments total_line what%_string_scope n.

Lemma total_line_text n :
  printf_line "Total PSBs: %d" [ArgInt (Z.of_nat n)] = Some (total_line "Total PSBs: " n)
  ∧ printf_line "Total RSBs: %d" [ArgInt (Z.of_nat n)] = Some (total_line "Total RSBs: " n).
Proof. unfold total_line. generalize (Z.of_nat n). intros m. split; run_printf. Qed.

Lemma psb_dump_spec s :
  Inv true s →
  ∃ blocks, blocks ≡ₚ map_to_list (psbs s)
    ∧ rsvp_psb_dump s = Some (psb_title ++ mjoin (psb_text ∘ snd <$> blocks)
                              ++ total_line "Total PSBs: " (size (psbs s)), s).
Proof.
  intros Hi.
  destruct (dump_table_spec (st_psb s) psb_get psb_line psb_text s (inv_psb _ _ Hi)) as (blocks & Hperm & E).
  { intros l p Hp. split; [|apply psb_line_text]. unfold psb_get, gets, lift, mbind, M_bind.
    cbn [mbind option_bind]. by rewrite Hp. }
  exists blocks. split; [exact Hperm|]. unfold rsvp_psb_dump, mbind, M_bind, lift, gets.
  assert (printf_line "--- Path State Blocks (PSBs) ---" [] = Some psb_title) as -> by (vm_compute; reflexivity).
  cbn [mbind option_bind]. rewrite E. cbn [mbind option_bind].
  by rewrite (proj1 (total_line_text _)).
Qed.

Lemma rsb_dump_spec s :
  Inv true s →
  ∃ blocks, blocks ≡ₚ map_to_list (rsbs s)
    ∧ rsvp_rsb_dump s = Some (rsb_title ++ mjoin (rsb_text ∘ snd <$> blocks)
                              ++ total_line "Total RSBs: " (size (rsbs s)), s).
Proof.
  intros Hi.
  destruct (dump_table_spec (st_rsb s) rsb_get rsb_line rsb_text s (inv_rsb _ _ Hi)) as (blocks & Hperm & E).
  { intros l r Hr. split; [|apply rsb_line_text]. unfold rsb_get, gets, lift, mbind, M_bind.
    cbn [mbind option_bind]. by rewrite Hr. }
  exists blocks. split; [exact Hperm|]. unfold rsvp_rsb_dump, mbind, M_bind, lift, gets.
  assert (printf_line "--- Reservation State Blocks (RSBs) ---" [] = Some rsb_title) as -> by (vm_compute; reflexivity).
  cbn [mbind option_bind]. rewrite E. cbn [mbind option_bind].
  by rewrite (proj2 (total_line_text _)).
Qed.

Definition frr_heading : list Z := default [] frr_titles.
Definition no_frr : list Z := str "No FRR-protected LSPs." ++ [10].

(** The line of a path, if it has one, with this bypass label. *)
Definition frr_row (label : rsvp_psb → Z) (p : rsvp_psb) : option (list Z) :=
  if frr_shown p then Some (frr_text p (label p)) else None.

Lemma frr_dump_spec s :
  Inv true s →
  ∃ blocks label, blocks ≡ₚ map_to_list (psbs s)
    ∧ (∀ l p, psbs s !! l = Some p → bypass_label_is s p (label p))
    ∧ rsvp_frr_dump s
      = Some (frr_heading ++ mjoin (omap (frr_row label ∘ snd) blocks)
              ++ (if forallb (negb ∘ frr_shown ∘ snd) blocks then no_frr else []), s).
Proof.
  intros Hi. pose proof (inv_psb _ _ Hi) as Hok.
  set (label p := match frr_bypass_label p s with Some (n, _) => n | None => 0 end).
  destruct (dump_blocks_spec (psbs s) psb_get frr_line (frr_row label) (mjoin (tb_buckets (st_psb s))) s)
    as (blocks & Eb & Hb & E).
  { intros l p Hp. split.
    - unfold psb_get, gets, lift, mbind, M_bind. cbn [mbind option_bind].
      change (tb_heap (st_psb s) !! l) with (psbs s !! l). by rewrite Hp.
    - destruct (frr_line_text s l p Hi Hp) as (n & _ & En & ->). unfold frr_row, label. by rewrite En. }
  { intros l. by apply buckets_live. }
  exists blocks, label. split; [by apply buckets_blocks|]. split.
  { intros l p Hp. destruct (frr_line_text s l p Hi Hp) as (n & Hn & En & _). unfold label. by rewrite En. }
  unfold rsvp_frr_dump, all_psbs, mbind, M_bind, lift, gets.
  assert (frr_titles = Some frr_heading) as -> by (vm_compute; reflexivity).
  cbn [mbind option_bind]. rewrite E. cbn [mbind option_bind].
  assert (printf_line "No FRR-protected LSPs." [] = Some no_frr) as -> by (vm_compute; reflexivity).
  assert ((Z.of_nat (length (omap (frr_row label ∘ snd) blocks)) =? 0) = forallb (negb ∘ frr_shown ∘ snd) blocks) as ->.
  { clear. induction blocks as [|[l p] blocks IH]; [done|]. simpl. unfold frr_row at 1.
    destruct (frr_shown p); [done|exact IH]. }
  by case_if.
Qed.

(** ** Tables *)

Lemma dump_entries_total {A} active (line : A → option (list Z)) l :
  (∀ a, is_Some (line a)) → is_Some (dump_entries active line l).
Proof.
  intros Hl. induction l as [|a l [t IH]]; [by eexists|]. simpl.
  destruct (Hl a) as [u Hu]. destruct (active a); rewrite ?Hu; simpl; rewrite IH; by eexists.
Qed.

Context `{TermEnv}.

Lemma format_bps_total bps n : is_Some (format_bps bps n).
Proof. unfold format_bps. repeat case_if; apply snprintf_fits; lazy; reflexivity. Qed.

Ltac bps :=
  match goal with
  | |- context [format_bps ?x ?n] =>
      destruct (format_bps_total x n) as [? ->]; cbn [mbind option_bind]
  end.

Lemma hello_dump_total nbors count : is_Some (rsvp_hello_dump nbors count).
Proof.
  unfold rsvp_hello_dump. case_if; [by apply printf_line_fits; lazy|].
  destruct nbor_titles as [t|] eqn:Et; [|exfalso; revert Et; vm_compute; discriminate]. cbn [mbind option_bind].
  destruct (dump_entries_total nb_active nbor_line (take count nbors)) as [u ->]; [|by eexists].
  intros n. unfold nbor_line. apply printf_line_fits. lazy. reflexivity.
Qed.

Lemma if_dump_total t : is_Some (rsvp_if_dump t).
Proof.
  unfold rsvp_if_dump. case_if; [by apply printf_line_fits; lazy|].
  destruct if_titles as [u|] eqn:Et; [|exfalso; revert Et; vm_compute; discriminate]. cbn [mbind option_bind].
  destruct (dump_entries_total if_active if_line (take (g_if_count t) (g_if_table t))) as [v ->]; [|by eexists].
  intros e. unfold if_line. do 2 bps. apply printf_line_fits. lazy. reflexivity.
Qed.

Lemma dump_priorities_total p l : is_Some (dump_priorities p l).
Proof.
  revert p. induction l as [|r l IH]; intros p; [by eexists|]. cbn [dump_priorities].
  bps. printed u. destruct (IH (S p)) as [v ->]. by eexists.
Qed.

Lemma if_dump_one_total name t : is_Some (rsvp_if_dump_one name t).
Proof.
  unfold rsvp_if_dump_one. destruct (_ ≫= _) as [e|]; [|apply printf_line_fits; lazy; reflexivity].
  printed t1. printed t2. printed t3. printed t4. bps. printed t5. bps. printed t6. printed t7.
  destruct (dump_priorities_total 0 (take RSVP_NUM_PRIORITIES (if_reserved_bw e))) as [t8 ->].
  cbn [mbind option_bind]. bps. printed t9. by eexists.
Qed.

Lemma mpls_dump_total routes : is_Some (hal_mpls_dump routes).
Proof.
  unfold hal_mpls_dump. printed t1.
  destruct (dump_entries_total mr_active route_line routes) as [u ->].
  { intros r. unfold route_line, inet_ntoa_pair. case_if; apply printf_line_fits; lazy; reflexivity. }
  cbn [mbind option_bind]. printed t2. by eexists.
Qed.
End dumps.

(** ** Properties *)

(** C39: the displays show the state as it is: in every reachable state [show
    psb] and [show rsb] print one line for each path block and each
    reservation, with its tunnel, addresses and name or labels, and the number
    of blocks; [show rsvp frr] prints one line for each protected path that is
    not a bypass tunnel, with its status and the outgoing label of the
    reservation of its bypass, or says that there is none; every pointer they
    follow is live, and the state stays as it is. *)
Theorem show_blocks_listed {TS LS : Type} `{TimerLaws TS timer_id timer_cb} `{LabelLaws LS} `{EnvLaws}
    (s : state TS LS) :
  reachable s →
  (∃ blocks, blocks ≡ₚ map_to_list (psbs s)
     ∧ rsvp_psb_dump s = Some (psb_title ++ mjoin (psb_text ∘ snd <$> blocks)
                               ++ total_line "Total PSBs: " (size (psbs s)), s))
  ∧ (∃ blocks, blocks ≡ₚ map_to_list (rsbs s)
     ∧ rsvp_rsb_dump s = Some (rsb_title ++ mjoin (rsb_text ∘ snd <$> blocks)
                               ++ total_line "Total RSBs: " (size (rsbs s)), s))
  ∧ ∃ blocks label, blocks ≡ₚ map_to_list (psbs s)
     ∧ (∀ l p, psbs s !! l = Some p → bypass_label_is s p (label p))
     ∧ rsvp_frr_dump s
       = Some (frr_heading ++ mjoin (omap (frr_row label ∘ snd) blocks)
               ++ (if forallb (negb ∘ frr_shown ∘ snd) blocks then no_frr else []), s).
Proof.
  intros Hi%reachable_inv. split; [by apply psb_dump_spec|]. split; [by apply rsb_dump_spec|].
  by apply frr_dump_spec.
Qed.

(** Both addresses of a push on the line of [show mpls routes] are the same,
    whatever the order in which the arguments are evaluated: one of them is
    wrong whenever the next hop is not the destination. *)
Theorem push_route_one_address `{TermEnv} r :
  mr_in_label r = 0 →
  ∃ x, route_line r
       = Some (str "In-Label: Push (0), Dest: " ++ x ++ str ", Out-Label: " ++ show_nat (mr_out_label r mod 2 ^ 32)
               ++ str ", Interface: " ++ show_int (int32 (mr_ifindex r)) ++ str ", Next-Hop: " ++ x ++ [10])
    ∧ (0 ≤ mr_dest_addr r < 2 ^ 32 → 0 ≤ mr_next_hop r < 2 ^ 32 → mr_dest_addr r ≠ mr_next_hop r →
       x ≠ inet_ntop (mr_dest_addr r) ∨ x ≠ inet_ntop (mr_next_hop r)).
Proof.
  intros Hl. unfold route_line, inet_ntoa_pair. rewrite Hl, Z.eqb_refl.
  set (a := if args_right_to_left then mr_dest_addr r else mr_next_hop r).
  exists (inet_ntop a). split.
  - generalize (inet_ntop a), (mr_out_label r), (mr_ifindex r). intros x y z. run_printf.
  - intros Hd Hn Hne. subst a. destruct args_right_to_left.
    + right. intros E. by apply Hne, inet_ntop_inj.
    + left. intros E. apply Hne. symmetry. by apply inet_ntop_inj.
Qed.

(** ** Examples *)

Lemma show_blocks_listed_witness :
  ∃ blocks, blocks ≡ₚ map_to_list (psbs test_lsp)
    ∧ rsvp_psb_dump test_lsp = Some (psb_title ++ mjoin (psb_text ∘ snd <$> blocks)
                                     ++ total_line "Total PSBs: " (size (psbs test_lsp)), test_lsp).
Proof. apply (show_blocks_listed test_lsp test_lsp_reachable). Defined.

#[export] Instance test_term_env : TermEnv :=
  {| local_time := λ t, str "2024-01-01 00:00:00"; args_right_to_left := true |}.

Example bps_examples :
  format_bps (dbl 2500000) 32 = Some (str "2.50 Mbps") ∧ format_bps (dbl 999) 32 = Some (str "999 bps")
  ∧ format_bps (ddiv (dbl 5) (dbl 2)) 32 = Some (str "2 bps").
Proof. vm_compute. done. Qed.

(** A push over the next hop 10.0.0.2 to 192.168.0.9. *)
Example push_example :
  route_line (mk_mpls_route 0 17 3 33554442 151038144 true)
  = Some (str "In-Label: Push (0), Dest: 192.168.0.9, Out-Label: 17, Interface: 3, Next-Hop: 192.168.0.9" ++ [10]).
Proof. vm_compute. reflexivity. Qed.
