(* ===== verification/Cli.v ===== *)
(** * Command line (src/pi/rsvp_cli.c)

    One line of input: what it asks for ([cli_parse], every test of the text in
    the order of the source), what is then done and what is printed
    ([cli_run]).  A word that does not fit the buffer it is read into is
    [None]. *)

From Stdlib Require Import String SpecFloat.
From stdpp Require Import base numbers list option gmap.
From S2P Require Import Prelude Wire Protocol LabelMgr WheelTimer Timers Builder SendPacket Parser.
From S2P Require Import Interfaces StateDb Timing State Messages StateMachine Hello RsvpIf Scan Printf Display.

(** The address parser of <arpa/inet.h>. *)
Class InetEnv := { inet_pton : list Z → option Z }.

(** ** Text *)

(** The displays. *)
Inductive display :=
| ShowPsb | ShowRsb | ShowRoutes | ShowNeighbors | ShowInterfaces | ShowInterface (name : list Z) | ShowFrr.

(** [CmdSay]: a reply and nothing else; the other commands keep what their
    replies repeat. *)
Inductive cli_command :=
| CmdSay (text : list Z)
| CmdShow (d : display)
| CmdRsvpEnable (if_name : list Z)
| CmdRsvpDisable (if_name : list Z)
| CmdNeighbor (if_name nbor_str : list Z) (nbor_addr : Z)
| CmdBandwidth (if_name : list Z) (mbps : double)
| CmdReservable (if_name : list Z) (mbps : double)
| CmdHelloInterval (if_name : list Z) (ms : Z)
| CmdFrrRevert (ifidx : Z)
| CmdMbb (tunnel_id old_id new_id : Z)
| CmdDelete (tunnel_id lsp_id : Z)
| CmdSetup (src dest : Z) (dest_str : list Z) (tunnel_id : Z) (name : list Z).

(** <netinet/in.h>: the size of [nbor_str]. *)
Definition INET_ADDRSTRLEN : nat := 16.

(** The cast to [uint16_t]. *)
Definition u16 (n : Z) : Z := n mod 2 ^ 16.

(** [strncmp(buf, p, |p|) == 0]. *)
Definition starts_with (p : string) (buf : list Z) : bool :=
  bool_decide (take (length (str p)) buf = str p).
Arguments starts_with p%_string_scope buf.
Definition is_str (p : string) (s : list Z) : bool := bool_decide (s = str p).
Arguments is_str p%_string_scope s.

(** The bytes before the first NUL. *)
Fixpoint c_str (buf : list Z) : list Z :=
  match buf with
  | c :: buf => if c =? 0 then [] else c :: c_str buf
  | [] => []
  end.

(** The loop that cuts white space off the end. *)
Definition is_trailing (c : Z) : bool := (c =? 10) || (c =? 13) || (c =? 32) || (c =? 9).
Fixpoint strip_front (buf : list Z) : list Z :=
  match buf with
  | c :: buf' => if is_trailing c then strip_front buf' else buf
  | [] => []
  end.
Definition strip (buf : list Z) : list Z := rev (strip_front (rev buf)).

(** A reply of one line, and of several. *)
Definition say (f : string) (args : list arg) : option cli_command := CmdSay <$> printf_line f args.
Arguments say f%_string_scope args.
Fixpoint say_lines (l : list string) : option (list Z) :=
  match l with
  | [] => Some []
  | f :: l => t ← printf_line f []; rest ← say_lines l; Some (t ++ rest)
  end.
Arguments say_lines l%_string_scope.

Definition interface_usage : list string :=
  ["  interface <name> rsvp enable|disable"; "  interface <name> rsvp neighbor <ip>";
   "  interface <name> bandwidth <Mbps>"; "  interface <name> reservable-bandwidth <Mbps>";
   "  interface <name> hello-interval <ms>"]%string.
Definition commands_usage : list string :=
  ["Available commands:"; "  show psb"; "  show rsb"; "  show mpls routes"; "  show rsvp neighbors";
   "  show rsvp interfaces"; "  show rsvp interface <name>"; "  interface <name> rsvp enable|disable";
   "  interface <name> rsvp neighbor <ip>"; "  interface <name> bandwidth <Mbps>";
   "  interface <name> reservable-bandwidth <Mbps>"; "  interface <name> hello-interval <ms>";
   "  show rsvp frr"; "  rsvp frr revert <ifindex>"; "  rsvp mbb <tunnel_id> <old_lsp_id> <new_lsp_id>";
   "  setup tunnel <src_ip> <dest_ip> <tunnel_id> <name>"; "  delete tunnel <tunnel_id> <lsp_id>"]%string.

Section parse.
Context `{ScanEnv, InetEnv}.

(** [interface <name> rsvp ...] *)
Definition parse_interface_rsvp (args : list Z) : option cli_command :=
  match sscanf args "%15s rsvp %15s" with
  | [VStr if_name; VStr action] =>
      if is_str "enable" action then Some (CmdRsvpEnable if_name)
      else if is_str "disable" action then Some (CmdRsvpDisable if_name)
      else if is_str "neighbor" action then
        let vs := sscanf args "%15s rsvp neighbor %45s" in
        match vs with
        | [VStr if_name; VStr nbor_str] =>
            if (length nbor_str <? INET_ADDRSTRLEN)%nat then
              match inet_pton nbor_str with
              | Some addr => Some (CmdNeighbor if_name nbor_str addr)
              | None => say "Invalid IP address: %s" [ArgStr nbor_str]
              end
            else None
        | _ => say "Usage: interface <name> rsvp neighbor <ip>" []
        end
      else say "Usage: interface <name> rsvp enable|disable|neighbor <ip>" []
  | _ => say "Usage: interface <name> rsvp enable|disable|neighbor <ip>" []
  end.

(** [interface <name> <subcommand>] *)
Definition parse_interface (args : list Z) : option cli_command :=
  match sscanf args "%15s %63s" with
  | [VStr _; VStr subcmd] =>
      if is_str "rsvp" subcmd then parse_interface_rsvp args
      else if is_str "bandwidth" subcmd then
        match sscanf args "%15s bandwidth %lf" with
        | [VStr if_name; VDouble mbps] => Some (CmdBandwidth if_name mbps)
        | _ => say "Usage: interface <name> bandwidth <Mbps>" []
        end
      else if is_str "reservable-bandwidth" subcmd then
        match sscanf args "%15s reservable-bandwidth %lf" with
        | [VStr if_name; VDouble mbps] => Some (CmdReservable if_name mbps)
        | _ => say "Usage: interface <name> reservable-bandwidth <Mbps>" []
        end
      else if is_str "hello-interval" subcmd then
        match sscanf args "%15s hello-interval %u" with
        | [VStr if_name; VUint ms] =>
            if 0 <? ms then Some (CmdHelloInterval if_name ms)
            else say "Usage: interface <name> hello-interval <ms>" []
        | _ => say "Usage: interface <name> hello-interval <ms>" []
        end
      else
        t ← printf_line "Unknown sub-command: %s" [ArgStr subcmd];
        usage ← say_lines interface_usage;
        Some (CmdSay (t ++ usage))
  | _ => say "Usage: interface <name> <subcommand>" []
  end.

Definition cli_parse (buf : list Z) : option cli_command :=
  if is_str "show psb" buf then Some (CmdShow ShowPsb)
  else if is_str "show rsb" buf then Some (CmdShow ShowRsb)
  else if is_str "show mpls routes" buf then Some (CmdShow ShowRoutes)
  else if is_str "show rsvp neighbors" buf then Some (CmdShow ShowNeighbors)
  else if is_str "show rsvp interfaces" buf then Some (CmdShow ShowInterfaces)
  else if starts_with "show rsvp interface " buf then Some (CmdShow (ShowInterface (drop 20 buf)))
  else if starts_with "interface " buf then parse_interface (drop 10 buf)
  else if is_str "show rsvp frr" buf then Some (CmdShow ShowFrr)
  else if starts_with "rsvp frr revert " buf then
    match sscanf (drop 16 buf) "%u" with
    | [VUint ifidx] => Some (CmdFrrRevert ifidx)
    | _ => say "Usage: rsvp frr revert <ifindex>" []
    end
  else if starts_with "rsvp mbb " buf then
    match sscanf (drop 9 buf) "%u %u %u" with
    | [VUint tunnel_id; VUint old_id; VUint new_id] => Some (CmdMbb tunnel_id old_id new_id)
    | _ => say "Usage: rsvp mbb <tunnel_id> <old_lsp_id> <new_lsp_id>" []
    end
  else if starts_with "delete tunnel " buf then
    match sscanf (drop 14 buf) "%u %u" with
    | [VUint tunnel_id; VUint lsp_id] => Some (CmdDelete (u16 tunnel_id) (u16 lsp_id))
    | _ => say "Usage: delete tunnel <tunnel_id> <lsp_id>" []
    end
  else if starts_with "setup tunnel " buf then
    match sscanf (drop 13 buf) "%31s %31s %u %31s" with
    | [VStr src_str; VStr dest_str; VUint tunnel_id; VStr name] =>
        match inet_pton src_str, inet_pton dest_str with
        | Some src, Some dest => Some (CmdSetup src dest dest_str tunnel_id name)
        | _, _ => say "Invalid IP addresses." []
        end
    | _ => say "Usage: setup tunnel <src_ip> <dest_ip> <tunnel_id> <name>" []
    end
  else if (0 <? length buf)%nat then
    t ← printf_line "Unknown command: %s" [ArgStr buf];
    usage ← say_lines commands_usage;
    Some (CmdSay (t ++ usage))
  else Some (CmdSay []).
End parse.

(** ** Commands *)

(** [mbps * 1e6] *)
Definition dmul (x y : double) : double := SFmul 53 1024 x y.
Definition mega : double := binary_normalize 53 1024 1000000 0 false.

(** The daemon and its interface table. *)
Record cli_state (D : Type) := mk_cli_state { cs_daemon : D; cs_ifs : if_table }.
Arguments mk_cli_state {D}.
Arguments cs_daemon {D}.
Arguments cs_ifs {D}.

Section run.
Context {TS LS : Type} `{TimerSys TS timer_id timer_cb} `{LabelSys LS} `{Env} `{IfEnv} `{TermEnv}.
Local Notation state := (state TS LS).
Local Notation M := (M state).

Definition cli_show (d : display) (t : if_table) : M (list Z) :=
  match d with
  | ShowPsb => rsvp_psb_dump
  | ShowRsb => rsvp_rsb_dump
  | ShowRoutes => out ← gets st_out; lift (hal_mpls_dump (routes_after out))
  | ShowNeighbors =>
      nbors ← gets st_neighbors; count ← gets st_nbor_count;
      lift (rsvp_hello_dump nbors count)
  | ShowInterfaces => lift (rsvp_if_dump t)
  | ShowInterface name => lift (rsvp_if_dump_one name t)
  | ShowFrr => rsvp_frr_dump
  end.

(** [interface <name> rsvp neighbor <ip>] *)
Definition cli_neighbor (if_name nbor_str : list Z) (nbor_addr : Z) (t : if_table) : M (list Z) :=
  let iface := rsvp_if_get_by_name t if_name ≫= (g_if_table t !!.) in
  let idx := match iface with Some e => if_ifindex e | None => 0 end in
  '(_, local_addr) ← hal_netlink_get_local_addr idx 0;
  n ← rsvp_hello_add_neighbor nbor_addr local_addr idx;
  match n with
  | Some i =>
      n ← nbor_get i;
      lift (printf_line "Tracking RSVP neighbor %s on %s — Hello interval %u ms"
        [ArgStr nbor_str; ArgStr if_name; ArgInt (nb_hello_interval_ms n)])
  | None => mret []
  end.

(** The reply to [rsvp mbb]. *)
Definition mbb_reply (tunnel_id old_id new_id : Z) (rc : rsvp_error_t) : option (list Z) :=
  match rc with
  | RSVP_SUCCESS =>
      printf_line "MBB: Signaling new LSPID %u for TunnelID %u — old LSPID %u stays active until RESV arrives."
        [ArgInt new_id; ArgInt tunnel_id; ArgInt old_id]
  | RSVP_ERR_NOT_FOUND =>
      printf_line "MBB error: PSB [TunnelID %u, LSPID %u] not found." [ArgInt tunnel_id; ArgInt old_id]
  | RSVP_ERR_ALREADY_EXISTS =>
      printf_line "MBB error: LSPID %u already exists for TunnelID %u." [ArgInt new_id; ArgInt tunnel_id]
  | RSVP_ERR_INVALID_PARAM =>
      printf_line "MBB error: This node is not the ingress for TunnelID %u LSPID %u."
        [ArgInt tunnel_id; ArgInt old_id]
  | rc => printf_line "MBB error: rc=%d" [ArgInt (error_code rc)]
  end.

(** What a command does to the daemon and to the interface table, and what it
    prints; at most one of them changes. *)
Definition cli_daemon (c : cli_command) (t : if_table) : M (list Z) :=
  match c with
  | CmdSay text => mret text
  | CmdShow d => cli_show d t
  | CmdNeighbor name nbor_str addr => cli_neighbor name nbor_str addr t
  | CmdFrrRevert i => rsvp_frr_revert i ;; mret []
  | CmdMbb t old new =>
      rc ← rsvp_mbb_start (u16 t) (u16 old) (u16 new) [];
      lift (mbb_reply t old new rc)
  | CmdDelete t i => rsvp_teardown_path t i ;; mret []
  | CmdSetup src dest dest_str t name =>
      text ← lift (printf_line "Initiating tunnel %u to %s..." [ArgInt t; ArgStr dest_str]);
      rsvp_initiate_path src dest (u16 t) (Some name) ;; mret text
  | _ => mret []
  end.

Definition cli_interfaces (c : cli_command) (t : if_table) : option (list Z * if_table) :=
  match c with
  | CmdRsvpEnable name =>
      match rsvp_if_enable name t with
      | (Some _, t) => text ← printf_line "RSVP enabled on %s" [ArgStr name]; Some (text, t)
      | (None, t) => Some ([], t)
      end
  | CmdRsvpDisable name =>
      text ← printf_line "RSVP disabled on %s" [ArgStr name];
      Some (text, rsvp_if_disable name t)
  | CmdBandwidth name mbps =>
      text ← printf_line "Interface %s: total/reservable bandwidth set to %.2f Mbps" [ArgStr name; ArgDouble mbps];
      Some (text, rsvp_if_set_bandwidth name (dmul mbps mega) (dmul mbps mega) t)
  | CmdReservable name mbps =>
      let iface := rsvp_if_get_by_name t name ≫= (g_if_table t !!.) in
      let total := match iface with Some e => if_total_bw e | None => dmul mbps mega end in
      text ← printf_line "Interface %s: reservable bandwidth set to %.2f Mbps" [ArgStr name; ArgDouble mbps];
      Some (text, rsvp_if_set_bandwidth name total (dmul mbps mega) t)
  | CmdHelloInterval name ms =>
      match rsvp_if_enable name t with
      | (Some i, t) =>
          text ← printf_line "Interface %s: Hello interval set to %u ms" [ArgStr name; ArgInt ms];
          Some (text, if_update i (λ e, e <| if_hello_interval_ms := ms |>) t)
      | (None, t) => Some ([], t)
      end
  | _ => Some ([], t)
  end.

Definition cli_run (c : cli_command) (cs : cli_state state) : option (list Z * cli_state state) :=
  '(text, d) ← cli_daemon c (cs_ifs cs) (cs_daemon cs);
  '(more, ifs) ← cli_interfaces c (cs_ifs cs);
  Some (text ++ more, mk_cli_state d ifs).

Definition rsvp_cli_print_prompt : list Z := str "rsvp-te> ".

(** [input] is what [read] gives: [None] for an error and no bytes at the end
    of the input.  The result is the return code, what is printed and the
    state. *)
Definition rsvp_cli_handle_input `{ScanEnv, InetEnv} (input : option (list Z)) (cs : cli_state state) :
    option (Z * list Z * cli_state state) :=
  match input with
  | None | Some [] => Some (-1, [], cs)
  | Some buf =>
      c ← cli_parse (c_str (strip buf));
      '(text, cs) ← cli_run c cs;
      Some (0, text ++ rsvp_cli_print_prompt, cs)
  end.
End run.
