(* ===== verification/CliRules.v ===== *)
(** * The command line: every line completes (src/pi/rsvp_cli.c)

    A command is an event of the daemon or an operation on the interface table,
    so the theorems about both carry over to lines of text; the commands an
    operator types are read back exactly; and the one word the source reads
    without room for it. *)

From Stdlib Require Import String SpecFloat.
From stdpp Require Import base numbers list option gmap.
From S2P Require Import Prelude Wire Protocol LabelMgr WheelTimer Timers Builder SendPacket Parser.
From S2P Require Import Interfaces StateDb Timing State Messages StateMachine Hello Invariant.
From S2P Require Import Rules SendRules Lifecycle Handlers HandlersResv Operations Commands.
From S2P Require Import HelloRules Shutdown Testbed Daemon RsvpIf Scan Printf Display DisplayRules Cli.

(** ** Names are short enough *)

Lemma sscanf_word `{ScanEnv} f s n f' w vs :
  format f = Word n :: f' → sscanf s f = VStr w :: vs → (length w <= n)%nat.
Proof.
  unfold sscanf. intros -> Hs. simpl in Hs. pose proof (scan_word_length n (skip_space s)) as Hl.
  destruct (scan_word n (skip_space s)) as [[|c u] rest]; [done|]. by injection Hs as <- _.
Qed.

(** The names a command holds are 15 bytes long at most. *)
Definition command_ok (c : cli_command) : Prop :=
  match c with
  | CmdRsvpEnable n | CmdRsvpDisable n | CmdNeighbor n _ _ | CmdBandwidth n _ | CmdReservable n _
  | CmdHelloInterval n _ => name_ok n
  | _ => True
  end.

Lemma name_word n : (length n <= 15)%nat → name_ok n.
Proof. unfold name_ok, IF_NAMESIZE. lia. Qed.

Lemma format_name `{ScanEnv} f s w vs :
  head (format f) = Some (Word 15) → sscanf s f = VStr w :: vs → name_ok w.
Proof.
  intros Hf Hs. destruct (format f) as [|d f'] eqn:E; [discriminate Hf|]. injection Hf as ->.
  by eapply name_word, sscanf_word.
Qed.

Lemma say_ok f args c : say f args = Some c → command_ok c.
Proof. unfold say. by intros (t & _ & ->)%fmap_Some. Qed.

Lemma say_total f args : say f args = None → fits (pieces f) args = true → False.
Proof. unfold say. intros Hs Hf. destruct (printf_line_fits f args Hf) as [t Et]. by rewrite Et in Hs. Qed.

Lemma parse_interface_rsvp_ok `{ScanEnv, InetEnv} args c :
  parse_interface_rsvp args = Some c → command_ok c.
Proof.
  unfold parse_interface_rsvp. intros Hp.
  destruct (sscanf args "%15s rsvp %15s") as [|[n| |] [|[act| |] [|]]] eqn:E;
    try (by eapply say_ok).
  apply (format_name "%15s rsvp %15s" _ _ _ ltac:(vm_compute; reflexivity)) in E.
  destruct (is_str "enable" act); [by injection Hp as <-|].
  destruct (is_str "disable" act); [by injection Hp as <-|].
  destruct (is_str "neighbor" act); [|by eapply say_ok].
  destruct (sscanf args "%15s rsvp neighbor %45s") as [|[m| |] [|[w| |] [|]]] eqn:E';
    try (by eapply say_ok).
  apply (format_name "%15s rsvp neighbor %45s" _ _ _ ltac:(vm_compute; reflexivity)) in E'.
  destruct (_ <? _)%nat; [|done]. destruct (inet_pton w); [by injection Hp as <-|by eapply say_ok].
Qed.

Lemma parse_interface_ok `{ScanEnv, InetEnv} args c : parse_interface args = Some c → command_ok c.
Proof.
  unfold parse_interface. intros Hp.
  destruct (sscanf args "%15s %63s") as [|[n| |] [|[sub| |] [|]]]; try (by eapply say_ok).
  destruct (is_str "rsvp" sub); [by apply parse_interface_rsvp_ok in Hp|].
  destruct (is_str "bandwidth" sub); [|destruct (is_str "reservable-bandwidth" sub);
    [|destruct (is_str "hello-interval" sub)]].
  - destruct (sscanf args "%15s bandwidth %lf") as [|[m| |] [|[| |x] [|]]] eqn:E; try (by eapply say_ok).
    injection Hp as <-.
    by apply (format_name "%15s bandwidth %lf" _ _ _ ltac:(vm_compute; reflexivity)) in E.
  - destruct (sscanf args "%15s reservable-bandwidth %lf") as [|[m| |] [|[| |x] [|]]] eqn:E; try (by eapply say_ok).
    injection Hp as <-.
    by apply (format_name "%15s reservable-bandwidth %lf" _ _ _ ltac:(vm_compute; reflexivity)) in E.
  - destruct (sscanf args "%15s hello-interval %u") as [|[m| |] [|[|ms|] [|]]] eqn:E; try (by eapply say_ok).
    apply (format_name "%15s hello-interval %u" _ _ _ ltac:(vm_compute; reflexivity)) in E.
    destruct (0 <? ms); [by injection Hp as <-|by eapply say_ok].
  - apply bind_Some in Hp as (t & _ & Hp). by apply bind_Some in Hp as (u & _ & [= <-]).
Qed.

Lemma cli_parse_ok `{ScanEnv, InetEnv} buf c : cli_parse buf = Some c → command_ok c.
Proof.
  unfold cli_parse. intros Hp.
  repeat match type of Hp with
  | (if starts_with "interface " _ then _ else _) = _ =>
      destruct (starts_with "interface " buf); [by apply parse_interface_ok in Hp|]
  | (if (0 <? length buf)%nat then _ else _) = _ => destruct (0 <? length buf)%nat; [|by injection Hp as <-]
  | (if ?b then _ else _) = _ =>
      destruct b; [repeat case_match; first [by injection Hp as <-|by eapply say_ok]|]
  end.
  apply bind_Some in Hp as (t & _ & Hp). by apply bind_Some in Hp as (u & _ & [= <-]).
Qed.

(** ** Commands complete *)

(** The result of an operation does not matter to the state. *)
Lemma wp_dropped {S A} (m : M S A) (Q : S → Prop) s : wp (m ;; mret ()) (λ _, Q) s → wp m (λ _, Q) s.
Proof. unfold wp, mbind, M_bind. by destruct (m s) as [[a s']|]. Qed.
Lemma wp_both {S A} (m : M S A) (Q R : A → S → Prop) s :
  wp m Q s → wp m R s → wp m (λ a s', Q a s' ∧ R a s') s.
Proof. unfold wp. by destruct (m s) as [[a s']|]. Qed.

Section complete.
Context {TS LS : Type} `{TimerLaws TS timer_id timer_cb} `{LabelLaws LS} `{EnvLaws} `{IfEnv} `{TermEnv}.
Local Notation state := (state TS LS).
Implicit Types s : state.

(** The bypass tunnels are not torn down. *)
Definition cli_ok s (c : cli_command) : Prop :=
  match c with
  | CmdDelete t i => spares_bypass s (λ k, tunnel_of k = t ∧ lsp_of k = i)
  | _ => True
  end.

Lemma wp_event s e :
  reachable s → event_ok s e → wp (run_event e) (λ _ s', reachable s') s.
Proof.
  intros Hr Hok. destruct (reachable_progress s e Hr Hok) as (s' & E & Hr').
  apply wp_run. by exists (), s'.
Qed.

(** A display leaves the state alone. *)
Lemma cli_show_total d t s : reachable s → ∃ text, cli_show d t s = Some (text, s).
Proof.
  intros Hi%reachable_inv. destruct d; simpl.
  - destruct (psb_dump_spec s Hi) as (blocks & _ & ->). by eexists.
  - destruct (rsb_dump_spec s Hi) as (blocks & _ & ->). by eexists.
  - unfold mbind, M_bind, gets, lift. cbn [mbind option_bind].
    destruct (mpls_dump_total (routes_after (st_out s))) as [text ->]. by eexists.
  - unfold mbind, M_bind, gets, lift. cbn [mbind option_bind].
    destruct (hello_dump_total (st_neighbors s) (st_nbor_count s)) as [text ->]. by eexists.
  - unfold lift. destruct (if_dump_total t) as [text ->]. by eexists.
  - unfold lift. destruct (if_dump_one_total name t) as [text ->]. by eexists.
  - destruct (frr_dump_spec s Hi) as (blocks & label & _ & _ & ->). by eexists.
Qed.

Lemma mbb_reply_total t o n rc : is_Some (mbb_reply t o n rc).
Proof. unfold mbb_reply. destruct rc; apply printf_line_fits; lazy; reflexivity. Qed.

Lemma cli_neighbor_completes name str_ a t s :
  reachable s → wp (cli_neighbor name str_ a t) (λ _ s', reachable s') s.
Proof.
  intros Hr. unfold cli_neighbor. apply wp_bind. unfold hal_netlink_get_local_addr, host.
  apply wp_bind, wp_bind, wp_gets, wp_bind, wp_modify, wp_ret, wp_ret.
  assert (reachable (s <| st_clock ::= Nat.succ |>)) as Hr1 by (by apply reachable_host).
  set (s1 := s <| st_clock ::= Nat.succ |>) in *.
  set (local := match env_local_addr _ _ with Some a => (0, a) | None => (-1, 0) end).
  destruct local as [rc l]. apply wp_bind.
  set (idx := match _ with Some e => if_ifindex e | None => 0 end).
  assert (wp (rsvp_hello_add_neighbor a l idx)
            (λ r s', (∀ i, r = Some i → ∃ n, st_neighbors s' !! i = Some n) ∧ reachable s') s1) as Hw.
  { apply (wp_both _ (λ r s', ∀ i, r = Some i → ∃ n, st_neighbors s' !! i = Some n) (λ _ s', reachable s')).
    - apply (wp_add_neighbor true); [by apply reachable_inv|done|].
      intros i s' Hi Hc j [= <-]. destruct (inv_nbors _ _ Hi) as [Hl Hn _ _]. apply lookup_lt_is_Some_2. lia.
    - apply wp_dropped. by apply (wp_event s1 (AddNeighbor a l idx)). }
  eapply wp_mono; [exact Hw|]. intros [i|] s' [Hn Hr']; [|by apply wp_ret].
  destruct (Hn i eq_refl) as [n En]. apply wp_bind. unfold nbor_get. apply wp_bind, wp_gets.
  eapply wp_lift; [exact En|].
  destruct (printf_line_fits "Tracking RSVP neighbor %s on %s — Hello interval %u ms"
    [ArgStr str_; ArgStr name; ArgInt (nb_hello_interval_ms n)]) as [text Et]; [lazy; reflexivity|].
  eapply wp_lift; [exact Et|done].
Qed.

Lemma cli_daemon_completes c t s :
  reachable s → cli_ok s c → wp (cli_daemon c t) (λ _ s', reachable s') s.
Proof.
  intros Hr Hok. destruct c as [u|d|n|n|n v a|n x|n x|n ms|i|tu o n|tu i|src dest v tu n]; cbn [cli_daemon];
    try by apply wp_ret.
  - destruct (cli_show_total d t s Hr) as [text E]. unfold wp. by rewrite E.
  - by apply cli_neighbor_completes.
  - apply wp_bind. eapply wp_mono; [by apply (wp_event s (FrrRevert i))|]. intros [] s' Hs'. by apply wp_ret.
  - apply wp_bind. eapply wp_mono; [apply wp_dropped, (wp_event s (StartMbb (u16 tu) (u16 o) (u16 n) [])); done|].
    intros rc s' Hs'. destruct (mbb_reply_total tu o n rc) as [text E]. by eapply wp_lift.
  - apply wp_bind. eapply wp_mono; [by apply (wp_event s (DeleteTunnel tu i))|]. intros [] s' Hs'. by apply wp_ret.
  - apply wp_bind.
    destruct (printf_line_fits "Initiating tunnel %u to %s..." [ArgInt tu; ArgStr v]) as [text Et];
      [lazy; reflexivity|]. eapply wp_lift; [exact Et|]. apply wp_bind.
    eapply wp_mono; [by apply (wp_event s (SetupTunnel src dest (u16 tu) (Some n) [] false))|].
    intros [] s' Hs'. by apply wp_ret.
Qed.

Lemma cli_interfaces_ok c t :
  if_table_ok t → command_ok c → ∃ text t', cli_interfaces c t = Some (text, t') ∧ if_table_ok t'.
Proof.
  intros Ht Hc. destruct c as [u|d|n|n|n v a|n x|n x|n ms|i|tu o n|tu i|src dest v tu n]; cbn [cli_interfaces];
    try by eexists _, t.
  - pose proof (run_if_op_ok t (Enable n) Ht Hc) as Hok. simpl in Hok.
    destruct (rsvp_if_enable n t) as [[i|] t']; [printed text|]; by eexists _, t'.
  - printed text. eexists _, _. split; [done|]. by apply (run_if_op_ok t (Disable n)).
  - printed text. eexists _, _. split; [done|]. by apply (run_if_op_ok t (SetBandwidth n _ _)).
  - printed text. eexists _, _. split; [done|]. by apply (run_if_op_ok t (SetBandwidth n _ _)).
  - pose proof (rsvp_if_enable_spec t n Ht Hc) as Hs.
    destruct (rsvp_if_enable n t) as [[i|] t']; [|destruct Hs as [-> _]; by eexists _, t].
    printed text. eexists _, _. split; [done|].
    apply if_update_ok; [tauto|]. intros e Ee. destruct Hs as [Ht' _].
    by destruct (it_entries t' Ht' i e Ee).
Qed.
End complete.

(** ** Lines with a given start *)

(** Decides the tests of a text that starts with a literal. *)
Ltac text_tests :=
  repeat match goal with
  | |- context [if ?b then _ else _] =>
      first [ replace b with false by (vm_compute; reflexivity)
            | replace b with true by (vm_compute; reflexivity) ]
  end.

Section lines.
Context `{ScanEnv, InetEnv}.

Lemma parse_delete rest :
  cli_parse (str "delete tunnel " ++ rest)
  = match sscanf rest "%u %u" with
    | [VUint tunnel_id; VUint lsp_id] => Some (CmdDelete (u16 tunnel_id) (u16 lsp_id))
    | _ => say "Usage: delete tunnel <tunnel_id> <lsp_id>" []
    end.
Proof. unfold cli_parse. text_tests. done. Qed.

Lemma parse_mbb rest :
  cli_parse (str "rsvp mbb " ++ rest)
  = match sscanf rest "%u %u %u" with
    | [VUint tunnel_id; VUint old_id; VUint new_id] => Some (CmdMbb tunnel_id old_id new_id)
    | _ => say "Usage: rsvp mbb <tunnel_id> <old_lsp_id> <new_lsp_id>" []
    end.
Proof. unfold cli_parse. text_tests. done. Qed.

Lemma parse_setup rest :
  cli_parse (str "setup tunnel " ++ rest)
  = match sscanf rest "%31s %31s %u %31s" with
    | [VStr src_str; VStr dest_str; VUint tunnel_id; VStr name] =>
        match inet_pton src_str, inet_pton dest_str with
        | Some src, Some dest => Some (CmdSetup src dest dest_str tunnel_id name)
        | _, _ => say "Invalid IP addresses." []
        end
    | _ => say "Usage: setup tunnel <src_ip> <dest_ip> <tunnel_id> <name>" []
    end.
Proof. unfold cli_parse. text_tests. done. Qed.

Lemma parse_interface_line rest :
  cli_parse (str "interface " ++ rest) = parse_interface rest.
Proof. unfold cli_parse. text_tests. done. Qed.

Lemma scan_Word f w s rest :
  word_ok w s → ends rest → scan (Word w :: f) (s ++ rest) = VStr s :: scan f rest.
Proof.
  intros Hw He. simpl. rewrite scan_word_ok by done. by destruct s, Hw.
Qed.
Lemma scan_Word_end f w s : word_ok w s → scan (Word w :: f) s = VStr s :: scan f [].
Proof. intros Hw. rewrite <- (app_nil_r s) at 1. apply scan_Word; [done|apply ends_nil]. Qed.
Lemma scan_Uint f n rest :
  0 ≤ n < 2 ^ 32 → ends rest → scan (Uint :: f) (show_uint n ++ rest) = VUint n :: scan f rest.
Proof. intros Hn He. cbn [scan]. by rewrite scan_uint_show. Qed.
Lemma scan_Space f s : scan (Space :: f) (32 :: s) = scan (Space :: f) s.
Proof. done. Qed.
(** A space before a conversion adds nothing: each skips white space itself. *)
Lemma skip_space_twice s : skip_space (skip_space s) = skip_space s.
Proof.
  induction s as [|c s IH]; simpl; [done|]. destruct (isspace c) eqn:E; [done|]. simpl. by rewrite E.
Qed.
Lemma scan_Space_Word f w s : scan (Space :: Word w :: f) s = scan (Word w :: f) s.
Proof. simpl. by rewrite skip_space_twice. Qed.
Lemma scan_Space_Uint f s : scan (Space :: Uint :: f) s = scan (Uint :: f) s.
Proof. simpl. by rewrite skip_space_twice. Qed.

Definition lits (p : string) : list directive := Lit <$> str p.
Lemma scan_lits p f s : scan (lits p ++ f) (str p ++ s) = scan f s.
Proof.
  unfold lits. induction (str p) as [|c l IH]; [done|]. simpl. by rewrite Z.eqb_refl.
Qed.
(** A space of the format before a literal word of the text. *)
Lemma scan_Space_text f p s :
  match str p with c :: _ => isspace c = false | [] => False end →
  scan (Space :: f) (32 :: str p ++ s) = scan f (str p ++ s).
Proof. destruct (str p) as [|c l]; [done|]. intros Hc. simpl. by rewrite Hc. Qed.

Lemma scan_skip_Word f w s : scan (Word w :: f) (32 :: s) = scan (Word w :: f) s.
Proof. done. Qed.
Lemma scan_skip_Uint f s : scan (Uint :: f) (32 :: s) = scan (Uint :: f) s.
Proof. done. Qed.

Lemma u16_small n : 0 ≤ n < 2 ^ 16 → u16 n = n.
Proof. apply Z.mod_small. Qed.


(** The two scans of [interface <name> rsvp neighbor <word>]. *)
Lemma scan_rsvp f name rest :
  word_ok 15 name →
  scan (Word 15 :: Space :: lits "rsvp" ++ f) (name ++ 32 :: str "rsvp" ++ rest)
  = VStr name :: scan f rest.
Proof.
  intros Hn. by rewrite scan_Word, scan_Space_text, scan_lits by (done || apply ends_space).
Qed.

Lemma str_word w p :
  match str p with [] => False | _ => True end → (length (str p) <= w)%nat →
  forallb (λ c, negb (isspace c)) (str p) = true → word_ok w (str p).
Proof.
  intros H1 H2 H3. split; [by destruct (str p)|]. split; [done|].
  apply Forall_forall. intros c Hc%list_elem_of_In.
  rewrite forallb_forall in H3. by apply negb_true_iff, H3.
Qed.

Lemma parse_neighbor name w :
  word_ok 15 name → word_ok 45 w →
  cli_parse (str "interface " ++ name ++ 32 :: str "rsvp" ++ 32 :: str "neighbor" ++ 32 :: w)
  = if (length w <? INET_ADDRSTRLEN)%nat
    then match inet_pton w with
         | Some addr => Some (CmdNeighbor name w addr)
         | None => say "Invalid IP address: %s" [ArgStr w]
         end
    else None.
Proof.
  intros Hn Hw. rewrite parse_interface_line. unfold parse_interface, parse_interface_rsvp, sscanf.
  replace (format "%15s %63s") with [Word 15; Space; Word 63] by (vm_compute; reflexivity).
  replace (format "%15s rsvp %15s") with (Word 15 :: Space :: lits "rsvp" ++ [Space; Word 15])
    by (vm_compute; reflexivity).
  replace (format "%15s rsvp neighbor %45s")
    with (Word 15 :: Space :: lits "rsvp" ++ (Space :: lits "neighbor" ++ [Space; Word 45]))
    by (vm_compute; reflexivity).
  rewrite !scan_rsvp by done.
  rewrite scan_Word, scan_Space_Word, scan_skip_Word, (scan_Word _ 63)
    by (done || apply ends_space || (apply str_word; vm_compute; done || lia)).
  rewrite scan_Space_Word, scan_skip_Word, (scan_Word _ 15)
    by (apply ends_space || (apply str_word; vm_compute; done || lia)).
  rewrite scan_Space_text, scan_lits, scan_Space_Word, scan_skip_Word, scan_Word_end by done.
  cbn [scan]. text_tests. done.
Qed.

(** The word after [rsvp neighbor] is read with [%45s] into the 16 bytes of
    [nbor_str]: the line is handled exactly when the word is shorter than 16
    bytes; and only [interface] lines can overflow. *)
Theorem cli_neighbor_overflow name w buf :
  word_ok 15 name → word_ok 45 w →
  (cli_parse (str "interface " ++ name ++ 32 :: str "rsvp" ++ 32 :: str "neighbor" ++ 32 :: w) = None
     ↔ (INET_ADDRSTRLEN <= length w)%nat)
  ∧ (cli_parse buf = None → starts_with "interface " buf = true).
Proof.
  intros Hn Hw. rewrite parse_neighbor by done. split.
  - case_if; bools; [|by split]. split; [|lia]. destruct (inet_pton w); [done|].
    intros Hc. exfalso. by apply (say_total _ _ Hc).
  - unfold cli_parse. intros Hp.
    repeat match type of Hp with
    | (if starts_with "interface " _ then _ else _) = _ =>
        destruct (starts_with "interface " buf); [done|]
    | (if (0 <? length buf)%nat then _ else _) = _ => destruct (0 <? length buf)%nat; [|done]
    | (if ?b then _ else _) = _ => destruct b; [repeat case_match; first [done|by exfalso; apply (say_total _ _ Hp)]|]
    end.
    destruct (printf_line_fits "Unknown command: %s" [ArgStr buf]) as [t Et]; [lazy; reflexivity|].
    rewrite Et in Hp. cbn [mbind option_bind] in Hp.
    destruct (say_lines commands_usage) as [u|] eqn:Eu; [done|]. exfalso. revert Eu. vm_compute. done.
Qed.
End lines.

(** ** Every line *)

Section properties.
Context {TS LS : Type} `{TimerLaws TS timer_id timer_cb} `{LabelLaws LS} `{EnvLaws} `{IfEnv}.
Context `{ScanEnv, InetEnv, TermEnv}.
Local Notation state := (state TS LS).

Definition line_command (input : option (list Z)) : option cli_command :=
  match input with
  | None | Some [] => Some (CmdSay [])
  | Some buf => cli_parse (c_str (strip buf))
  end.

Lemma cli_input_safe (cs : cli_state state) input c :
  reachable (cs_daemon cs) → if_table_ok (cs_ifs cs) →
  line_command input = Some c → cli_ok (cs_daemon cs) c →
  ∃ rc text cs', rsvp_cli_handle_input input cs = Some (rc, text, cs')
    ∧ reachable (cs_daemon cs') ∧ if_table_ok (cs_ifs cs')
    ∧ (rc = -1 ↔ input = None ∨ input = Some []) ∧ (rc = -1 → cs' = cs).
Proof.
  intros Hr Ht Hc Hok. unfold rsvp_cli_handle_input.
  destruct input as [[|b buf]|]; [by exists (-1), [], cs; naive_solver| |by exists (-1), [], cs; naive_solver].
  unfold line_command in Hc. rewrite Hc. simpl. unfold cli_run.
  destruct (proj1 (wp_run _ _ _) (cli_daemon_completes c (cs_ifs cs) (cs_daemon cs) Hr Hok))
    as (text & d & E & Hr').
  rewrite E. cbn [mbind option_bind].
  destruct (cli_interfaces_ok c (cs_ifs cs) Ht) as (more & ifs & E2 & Hifs); [by eapply cli_parse_ok|].
  rewrite E2. cbn [mbind option_bind]. eexists 0, _, _. split; [done|]. simpl. split; [done|].
  split; [done|naive_solver].
Qed.

(** C37: every line of the terminal, of whatever bytes, that has no neighbour
    word too long for its buffer (16 bytes; then [line_command] is None) and
    does not delete a bypass tunnel, is handled to the end and leaves the
    daemon in a reachable state and the interface table well formed; the return
    code is -1 exactly at the end of the input or after an error, and then
    nothing has changed. *)
Theorem cli_line_completes (cs : cli_state state) input c :
  reachable (cs_daemon cs) → if_table_ok (cs_ifs cs) →
  line_command input = Some c → cli_ok (cs_daemon cs) c →
  ∃ rc text cs', rsvp_cli_handle_input input cs = Some (rc, text, cs')
    ∧ reachable (cs_daemon cs') ∧ if_table_ok (cs_ifs cs')
    ∧ (rc = -1 ↔ input = None ∨ input = Some []) ∧ (rc = -1 → cs' = cs).
Proof. apply cli_input_safe. Qed.
End properties.

(** ** Examples *)

#[export] Existing Instance test_if_env.
#[export] Instance test_scan_env : ScanEnv := {| scan_double := λ s, Some (dzero, []) |}.
(** An address parser that knows two names. *)
#[export] Instance test_inet_env : InetEnv :=
  {| inet_pton := λ s, if is_str "me" s then Some 77 else if is_str "you" s then Some 88 else None |}.


Lemma cli_neighbor_overflow_witness :
  cli_parse (str "interface eth0 rsvp neighbor 255.255.255.255x") = None
  ∧ cli_parse (str "interface eth0 rsvp neighbor 255.255.255.255") ≠ None.
Proof.
  split; [|vm_compute; discriminate].
  apply (cli_neighbor_overflow (str "eth0") (str "255.255.255.255x") []);
    [apply str_word; vm_compute; done || lia..|].
  vm_compute. lia.
Defined.

Lemma cli_line_completes_witness :
  ∃ rc text cs', rsvp_cli_handle_input (Some (str "setup tunnel me you 7 x" ++ [10]))
      (mk_cli_state test_start test_table) = Some (rc, text, cs') ∧ reachable (cs_daemon cs').
Proof.
  edestruct (cli_line_completes (mk_cli_state test_start test_table)
    (Some (str "setup tunnel me you 7 x" ++ [10])) (CmdSetup 77 88 (str "you") 7 (str "x")))
    as (rc & text & cs' & E & Hr & _);
    [exact test_start_reachable|exact test_table_ok|vm_compute; reflexivity|exact I|].
  exists rc, text, cs'. split; [exact E|exact Hr].
Defined.
