(* ===== verification/NetlinkRules.v ===== *)
(** * The netlink layer is right (src/pd/hal_netlink_linux.c)

    The walks over received buffers end and stay inside them; the requests,
    walked by the same macros, hold exactly the attributes meant; the address
    cache is a map; and the route cache lists only labels that are in use. *)

From stdpp Require Import base numbers list option gmap sets.
From S2P Require Import Prelude Wire LabelMgr WheelTimer Timers Interfaces StateDb State Invariant.
From S2P Require Import Testbed Daemon Netlink Display.

Lemma align4_bound n : n ≤ align4 n < n + 4.
Proof. unfold align4. dlia. Qed.

(** ** Walks *)

(** A body that cannot fail and keeps [I], for data at most 4 bytes past the
    end of the message. *)
Lemma rta_for_safe {St} (I : St → Prop) body fuel m o len st :
  (∀ rta data st, I st → (data + 4 <= length m)%nat → ∃ st', body rta data st = Some st' ∧ I st') →
  len < Z.of_nat fuel → Z.of_nat o + len + 4 ≤ Z.of_nat (length m) → I st →
  ∃ st', rta_for body fuel m o len st = Some st' ∧ I st'.
Proof.
  intros Hbody. revert o len st. induction fuel as [|fuel IH]; intros o len st Hf Hlen Hi; simpl.
  - case_if; [by exists st|lia].
  - case_if; [by exists st|]. bools.
    destruct (load_struct_is_Some (T := rtattr) m o) as [rta ->]; [unfold sizeof; simpl; lia|]. simpl.
    case_if; [by exists st|]. bools.
    destruct (Hbody rta (o + 4)%nat st) as (st' & -> & Hi'); [done|lia|]. simpl.
    pose proof (align4_bound (rta_len rta)). apply IH; [lia|lia|done].
Qed.

Lemma nlmsg_for_safe {St} (I : St → Prop) body fuel m o len st :
  (∀ nh o st, I st → 16 ≤ nlmsg_len nh → Z.of_nat o + nlmsg_len nh + 12 ≤ Z.of_nat (length m) →
     ∃ r, body nh o st = Some r ∧ match r with Continue st' | Break st' => I st' end) →
  len < Z.of_nat fuel + 16 → Z.of_nat o + len + 12 ≤ Z.of_nat (length m) → I st →
  ∃ st', nlmsg_for body fuel m o len st = Some st' ∧ I st'.
Proof.
  intros Hbody. revert o len st. induction fuel as [|fuel IH]; intros o len st Hf Hlen Hi; simpl.
  - case_if; [by exists st|lia].
  - case_if; [by exists st|]. bools.
    destruct (load_struct_is_Some (T := nlmsghdr) m o) as [nh ->]; [unfold sizeof; simpl; lia|]. simpl.
    case_if; [by exists st|]. bools.
    destruct (Hbody nh o st) as (r & -> & Hr); [done|lia|lia|]. simpl.
    destruct r as [st'|st']; [|by exists st'].
    pose proof (align4_bound (nlmsg_len nh)). apply IH; [lia|lia|done].
Qed.

Lemma payload_for_safe {St} (I : St → Prop) body m nh o n st :
  (∀ rta data st, I st → (data + 4 <= length m)%nat → ∃ st', body rta data st = Some st' ∧ I st') →
  16 ≤ nlmsg_len nh → Z.of_nat o + nlmsg_len nh + 12 ≤ Z.of_nat (length m) → I st →
  ∃ st', payload_for body m nh o n st = Some st' ∧ I st'.
Proof. intros. unfold payload_for. apply (rta_for_safe I); [done|lia|lia|done]. Qed.

(** ** The address cache *)

(** The address of an interface. *)
Definition iface_addr (ifaces : list interface) (ifindex : Z) : option Z :=
  (λ x, if_addr x.2) <$> list_find (λ i, if_in_use i = true ∧ if_index i = ifindex) ifaces.

(** An interface has one slot. *)
Definition ifaces_ok (ifaces : list interface) : Prop :=
  length ifaces = MAX_INTERFACES
  ∧ ∀ i j a b, ifaces !! i = Some a → ifaces !! j = Some b → if_in_use a = true →
      if_in_use b = true → if_index a = if_index b → i = j.

Lemma iface_addr_Some ifaces ifindex addr :
  ifaces_ok ifaces →
  iface_addr ifaces ifindex = Some addr ↔ ∃ i, ifaces !! i = Some (mk_interface ifindex addr true).
Proof.
  intros [_ Hu]. unfold iface_addr. split.
  - intros ([i e] & (Hi & [Hus Hix] & _)%list_find_Some & ->)%fmap_Some. exists i.
    simpl. destruct e. simpl in *. by subst.
  - intros [i Hi].
    destruct (list_find _ ifaces) as [[j e]|] eqn:E.
    + apply list_find_Some in E as (Hj & [Hus Hix] & _). simpl.
      assert (i = j) as <- by (by eapply Hu). rewrite Hi in Hj. by injection Hj as <-.
    + apply list_find_None in E. by destruct (Forall_lookup_1 _ _ _ _ E Hi).
Qed.

Lemma find_iface_slot_Some ifaces ifindex i :
  ifaces_ok ifaces → find_iface_slot ifaces ifindex = Some i →
  ∃ e, ifaces !! i = Some e
    ∧ (if_in_use e = true → if_index e = ifindex)
    ∧ ∀ j f, ifaces !! j = Some f → if_in_use f = true → if_index f = ifindex → j = i.
Proof.
  intros [_ Hu]. unfold find_iface_slot. destruct (list_find _ ifaces) as [[i' e]|] eqn:E.
  - intros [= <-]. apply list_find_Some in E as (Hi & [Hus Hix] & _). exists e.
    split_and!; [done..|]. intros j f Hj Hf Hx. by eapply Hu; [..|rewrite Hx].
  - intros ([i' e] & (Hi & Hus & _)%list_find_Some & ->)%fmap_Some. exists e.
    split_and!; [done|by rewrite Hus|]. intros j f Hj Hf Hx. apply list_find_None in E.
    by destruct (Forall_lookup_1 _ _ _ _ E Hj).
Qed.

Lemma insert_iface_ok ifaces i e x :
  ifaces_ok ifaces → ifaces !! i = Some e →
  (if_in_use x = true → ∀ j f, ifaces !! j = Some f → if_in_use f = true → if_index f = if_index x → j = i) →
  ifaces_ok (<[i := x]> ifaces).
Proof.
  intros [Hl Hu] Hi Hx. split; [by rewrite length_insert|].
  intros j k a b. rewrite !list_lookup_insert_Some.
  intros [(-> & <- & _)|[? Hj]] [(-> & <- & _)|[? Hk]]; eauto.
  intros. symmetry. by eapply Hx.
Qed.

Lemma newaddr_spec ifaces ifindex addr :
  ifaces_ok ifaces →
  ifaces_ok (newaddr ifindex addr ifaces)
  ∧ ∀ k, iface_addr (newaddr ifindex addr ifaces) k =
      if decide (k = ifindex ∧ is_Some (find_iface_slot ifaces ifindex)) then Some addr
      else iface_addr ifaces k.
Proof.
  intros Hok. unfold newaddr. destruct (find_iface_slot ifaces ifindex) as [i|] eqn:E.
  - destruct (find_iface_slot_Some _ _ _ Hok E) as (e & Hi & Hus & Hone).
    assert (ifaces_ok (<[i := mk_interface ifindex addr true]> ifaces)) as Hok'.
    { eapply insert_iface_ok; [done..|]. intros _ j f. apply Hone. }
    split; [done|]. intros k. apply option_eq. intros a.
    rewrite iface_addr_Some by done. setoid_rewrite list_lookup_insert_Some.
    case_decide as Hd.
    + destruct Hd as [-> _]. split.
      * intros [j [(-> & [= ->] & _)|[Hne Hj]]]; [done|]. by destruct Hne; symmetry; eapply Hone.
      * intros [= ->]. exists i. left. split_and!; [done..|]. by eapply lookup_lt_Some.
    + rewrite iface_addr_Some by done. split.
      * intros [j [(-> & [= -> ->] & _)|[_ Hj]]]; [destruct Hd; eauto|eauto].
      * intros [j Hj]. exists j. right. split; [|done]. intros <-. rewrite Hi in Hj.
        injection Hj as ->. destruct Hd. split; [by apply Hus|by eexists].
  - split; [done|]. intros k. rewrite decide_False; [done|]. by intros [_ [? ?]].
Qed.

Lemma deladdr_spec ifaces ifindex addr :
  ifaces_ok ifaces →
  ifaces_ok (deladdr ifindex addr ifaces)
  ∧ ∀ k, iface_addr (deladdr ifindex addr ifaces) k =
      if decide (k = ifindex ∧ iface_addr ifaces k = Some addr) then None else iface_addr ifaces k.
Proof.
  intros Hok. unfold deladdr. destruct (list_find _ ifaces) as [[i e]|] eqn:E.
  - apply list_find_Some in E as (Hi & (Hus & Hix & Had) & _).
    assert (ifaces_ok (<[i := mk_interface (if_index e) (if_addr e) false]> ifaces)) as Hok'.
    { by eapply insert_iface_ok. }
    assert (e = mk_interface ifindex addr true) as -> by (destruct e; simpl in *; by subst).
    split; [done|]. intros k. apply option_eq. intros a.
    rewrite iface_addr_Some by done. setoid_rewrite list_lookup_insert_Some. simpl.
    case_decide as Hd.
    + destruct Hd as [-> _]. split; [|done].
      intros [j [(_ & [=] & _)|[Hne Hj]]]. destruct Hne. symmetry. by eapply Hok.
    + rewrite iface_addr_Some by done. split.
      * intros [j [(_ & [=] & _)|[_ Hj]]]. eauto.
      * intros [j Hj]. exists j. right. split; [|done]. intros <-. rewrite Hi in Hj.
        injection Hj as -> ->. destruct Hd. split; [done|]. apply iface_addr_Some; eauto.
  - split; [done|]. intros k. rewrite decide_False; [done|]. intros [-> Ha].
    apply iface_addr_Some in Ha as [i Hi]; [|done]. apply list_find_None in E.
    by destruct (Forall_lookup_1 _ _ _ _ E Hi).
Qed.

(** ** Received messages *)

Lemma newaddr_attr_safe m ifa rta data ifaces :
  (ifa + 8 <= length m)%nat → (data + 4 <= length m)%nat → ifaces_ok ifaces →
  ∃ ifaces', newaddr_attr m ifa rta data ifaces = Some ifaces' ∧ ifaces_ok ifaces'.
Proof.
  intros Hifa Hdata Hok. unfold newaddr_attr. case_if; [|eauto].
  destruct (load_struct_is_Some (T := ifaddrmsg) m ifa) as [msg ->]; [unfold sizeof; simpl; lia|].
  simpl. destruct (find_iface_slot ifaces (ifa_index msg)) eqn:Es; [|eauto].
  destruct (load_is_Some 4 m data) as [a ->]; [lia|]. simpl. eexists. split; [done|].
  by apply newaddr_spec.
Qed.

Lemma deladdr_attr_safe m ifa rta data ifaces :
  (ifa + 8 <= length m)%nat → (data + 4 <= length m)%nat → ifaces_ok ifaces →
  ∃ ifaces', deladdr_attr m ifa rta data ifaces = Some ifaces' ∧ ifaces_ok ifaces'.
Proof.
  intros Hifa Hdata Hok. unfold deladdr_attr. case_if; [|eauto].
  destruct (load_is_Some 4 m data) as [a ->]; [lia|].
  destruct (load_struct_is_Some (T := ifaddrmsg) m ifa) as [msg ->]; [unfold sizeof; simpl; lia|].
  simpl. eexists. split; [done|]. by apply deladdr_spec.
Qed.

Lemma process_msg_safe m nh o ifaces :
  ifaces_ok ifaces → 16 ≤ nlmsg_len nh → Z.of_nat o + nlmsg_len nh + 12 ≤ Z.of_nat (length m) →
  ∃ r, process_msg m nh o ifaces = Some r ∧ match r with Continue st | Break st => ifaces_ok st end.
Proof.
  intros Hok H16 Hlen. unfold process_msg.
  assert (∀ body, (∀ rta data st, ifaces_ok st → (data + 4 <= length m)%nat →
      ∃ st', body rta data st = Some st' ∧ ifaces_ok st') →
    ∃ r, Continue <$> payload_for body m nh o 8 ifaces = Some r
      ∧ match r with Continue st | Break st => ifaces_ok st end) as Hpay.
  { intros body Hb. destruct (payload_for_safe ifaces_ok body m nh o 8 ifaces) as (st & -> & Hst);
      [done..|]. by exists (Continue st). }
  repeat case_if; try (eexists; split; [done|]; simpl; done).
  - apply Hpay. intros. apply newaddr_attr_safe; [lia|done..].
  - apply Hpay. intros. apply deladdr_attr_safe; [lia|done..].
  - destruct (load_is_Some 4 m (o + 16 + 8)) as [v ->]; [lia|]. by exists (Continue ifaces).
Qed.

Lemma dump_msg_safe m nh o ifaces b :
  ifaces_ok ifaces → 16 ≤ nlmsg_len nh → Z.of_nat o + nlmsg_len nh + 12 ≤ Z.of_nat (length m) →
  ∃ r, dump_msg m nh o (ifaces, b) = Some r ∧ match r with Continue st | Break st => ifaces_ok st.1 end.
Proof.
  intros Hok H16 Hlen. unfold dump_msg.
  repeat case_if; try (eexists; split; [done|]; simpl; done).
  destruct (payload_for_safe ifaces_ok (newaddr_attr m (o + 16)) m nh o 8 ifaces) as (st & -> & Hst);
    [intros; apply newaddr_attr_safe; [lia|done..]|done..|].
  by exists (Continue (st, false)).
Qed.

Lemma route_msg_safe m nh o st :
  16 ≤ nlmsg_len nh → Z.of_nat o + nlmsg_len nh + 12 ≤ Z.of_nat (length m) →
  ∃ r, route_msg m nh o st = Some r
    ∧ match r with Continue st' => st'.2 = None | Break st' => ∃ i, st'.2 = Some i ∧ -1 ≤ i end.
Proof.
  intros H16 Hlen. destruct st as [e r]. unfold route_msg. case_if.
  { eexists. split; [done|]. simpl. exists (-1). split; [done|lia]. }
  case_if; [|by eexists]. 
  destruct (payload_for_safe (λ _, True) (route_attr m) m nh o 12 e) as (e' & -> & _); [|done..|].
  - intros rta data e' _ Hd. unfold route_attr.
    destruct (load_is_Some 4 m data) as [v ->]; [lia|]. repeat case_if; eauto.
  - simpl. case_if; bools; eexists; (split; [done|]); simpl; [|done]. eauto with lia.
Qed.

(** Received buffers have room for 12 bytes more than was received; the
    buffers of the source have 4096 and 8192 bytes. *)
Definition received_ok (r : list Z * Z) : Prop := r.2 + 12 ≤ Z.of_nat (length r.1).

Lemma netlink_dump_safe received ifaces :
  Forall received_ok received → ifaces_ok ifaces →
  ∃ ifaces', netlink_dump received ifaces = Some ifaces' ∧ ifaces_ok ifaces'.
Proof.
  intros Hr. revert ifaces. induction Hr as [|[m len] rs Hm _ IH]; intros ifaces Hok; simpl; [eauto|].
  destruct (nlmsg_for_safe (λ st, ifaces_ok st.1) (dump_msg m) (Z.to_nat len) m 0 len (ifaces, false))
    as ([ifaces' d] & -> & Hok'); [|lia|unfold received_ok in Hm; simpl in Hm; lia|done|].
  { intros nh o [st b] Hst. by apply dump_msg_safe. }
  simpl. destruct d; [eauto|]. by apply IH.
Qed.

Lemma process_safe ifaces r :
  ifaces_ok ifaces → received_ok r →
  ∃ ifaces', hal_netlink_process (Some r) ifaces = Some ifaces' ∧ ifaces_ok ifaces'.
Proof.
  intros Hok Hr. destruct r as [m len]. unfold received_ok in Hr. simpl in *.
  apply (nlmsg_for_safe ifaces_ok); [|lia|lia|done]. intros nh o st Hst. by apply process_msg_safe.
Qed.

(** C34: whatever the kernel's messages contain, as long as 12 bytes of the
    buffer were left unused, the three walks over them end and read nothing
    outside the buffer, the address cache keeps one slot per interface, and the
    route lookup answers -1 or an interface. (The program offers the whole
    buffer to [recv], so that a message that fills it with a short attribute at
    its end is read past it.) *)
Theorem netlink_receive_safe ifaces r dump dest reply :
  ifaces_ok ifaces → received_ok r → Forall received_ok dump → received_ok reply →
  (∃ ifaces', hal_netlink_process (Some r) ifaces = Some ifaces' ∧ ifaces_ok ifaces')
  ∧ (∃ ifaces', netlink_dump dump ifaces = Some ifaces' ∧ ifaces_ok ifaces')
  ∧ ∃ ifindex next_hop, parse_route_reply dest reply.1 reply.2 = Some (ifindex, next_hop)
      ∧ -1 ≤ ifindex.
Proof.
  intros Hok Hr Hdump Hreply. split; [by apply process_safe|split; [by apply netlink_dump_safe|]].
  - destruct reply as [m len]. unfold received_ok in Hreply. simpl in *. unfold parse_route_reply.
    destruct (nlmsg_for_safe (λ st, ∀ i, st.2 = Some i → -1 ≤ i) (route_msg m) (Z.to_nat len) m 0 len
      (mk_egress (-1) dest, None)) as ([e i] & -> & Hi); [|lia|lia|done|].
    + intros nh o st _ H16 Hlen. destruct (route_msg_safe m nh o st H16 Hlen) as (c & -> & Hc).
      exists c. split; [done|]. destruct c as [st'|st'].
      * intros i. by rewrite Hc.
      * destruct Hc as (i & Ei & Hi). intros j. rewrite Ei. by intros [= <-].
    + simpl. do 2 eexists. split; [done|]. destruct i; simpl in *; [by apply Hi|lia].
Qed.

(** C36: the address cache is the map of the interfaces to their addresses: a
    new address of an interface replaces the old one as long as there is room,
    a deleted one is forgotten if it is the current one, and nothing else
    changes. *)
Theorem iface_cache_is_map ifaces ifindex addr :
  ifaces_ok ifaces →
  ifaces_ok (newaddr ifindex addr ifaces) ∧ ifaces_ok (deladdr ifindex addr ifaces)
  ∧ (∀ k, iface_addr (newaddr ifindex addr ifaces) k =
       if decide (k = ifindex ∧ is_Some (find_iface_slot ifaces ifindex)) then Some addr
       else iface_addr ifaces k)
  ∧ (∀ k, iface_addr (deladdr ifindex addr ifaces) k =
       if decide (k = ifindex ∧ iface_addr ifaces k = Some addr) then None else iface_addr ifaces k)
  ∧ (find_iface_slot ifaces ifindex = None →
       iface_addr ifaces ifindex = None ∧ Forall (λ i, if_in_use i = true) ifaces).
Proof.
  intros Hok. split; [by apply newaddr_spec|]. split; [by apply deladdr_spec|].
  split; [by apply newaddr_spec|]. split; [by apply deladdr_spec|].
  unfold find_iface_slot, iface_addr. destruct (list_find _ ifaces) as [[]|]; [done|].
  intros Hn%fmap_None%list_find_None. split; [done|].
  eapply Forall_impl; [exact Hn|]. intros i. apply not_false_is_true.
Qed.

(** ** Requests *)

(** The attributes of a route request, as the kernel walks them. *)
Definition attributes (m : list Z) : option (list (Z * list Z)) :=
  nh ← load_struct nlmsghdr m 0;
  if nlmsg_len nh =? Z.of_nat (length m) then
    payload_for (λ rta data acc,
      Some (acc ++ [(rta_type rta, take (Z.to_nat (rta_len rta) - 4) (drop data m))])) m nh 0 12 []
  else None.

Lemma le_bytes_4 x : ∃ a b c d, le_bytes 4 x = [a; b; c; d].
Proof. by do 4 eexists. Qed.

Lemma header_bytes t f q pid :
  store_struct (mk_nlmsghdr 28 t f q pid)
  = le_bytes 4 28 ++ le_bytes 2 t ++ le_bytes 2 f ++ le_bytes 4 q ++ le_bytes 4 pid ++ [].
Proof. done. Qed.

Ltac as_bytes x :=
  let a := fresh "a" in let b := fresh "b" in let c := fresh "c" in let d := fresh "d" in
  let E := fresh "E" in
  destruct (le_bytes_4 x) as (a & b & c & d & E); rewrite E; clear E.

(** The gateway of a request: [rtvia] or an address, left out when null. *)
Definition via_attr (type : Z) (prefix : list Z) (next_hop : option Z) : list (Z * list Z) :=
  match next_hop with
  | Some nh => if nh =? 0 then [] else [(type, prefix ++ le_bytes 4 nh)]
  | None => []
  end.

Lemma label_entry_round_trip label :
  0 ≤ label < 2 ^ 20 → Z.shiftr (ntohl (le_value (le_bytes 4 (label_entry label)))) 12 = label.
Proof.
  intros Hl. unfold label_entry. rewrite le_value_bytes. change (256 ^ Z.of_nat 4) with (2 ^ 32).
  rewrite Z.mod_small by apply htonl_bound. rewrite Z.shiftl_mul_pow2 by lia.
  rewrite (Z.mod_small (label * 2 ^ 12)) by lia. change (Z.shiftl 1 8) with 256.
  rewrite <- (Z.shiftl_mul_pow2 label 12) by lia.
  rewrite lor_shiftl_add by lia.
  rewrite htonl_ntohl by lia. rewrite Z.shiftr_div_pow2 by lia.
  replace (label * 2 ^ 12 + 256) with (256 + label * 2 ^ 12) by lia.
  by rewrite Z.div_add by lia.
Qed.

(** C35: the requests round-trip: walked the way netlink messages are walked, the
    request that installs a swap holds the incoming label, the interface, the
    outgoing label unless it is 0 (a pop) and the next hop unless it is null;
    those that remove hold the label or the address; and the labels are read
    back from the 20 bits they are written to. *)
Theorem mpls_requests_round_trip in_label out_label ifindex next_hop dest pid :
  (∃ m, mpls_install_request in_label out_label ifindex next_hop pid = Some m
     ∧ attributes m = Some ([(RTA_DST, le_bytes 4 (label_entry in_label)); (RTA_OIF, le_bytes 4 ifindex)]
         ++ (if out_label =? 0 then [] else [(RTA_NEWDST, le_bytes 4 (label_entry out_label))])
         ++ via_attr RTA_VIA (le_bytes 2 AF_INET) next_hop))
  ∧ (∃ m, mpls_remove_request in_label pid = Some m
     ∧ attributes m = Some [(RTA_DST, le_bytes 4 (label_entry in_label))])
  ∧ (∃ m, ip_remove_request dest pid = Some m ∧ attributes m = Some [(RTA_DST, le_bytes 4 dest)])
  ∧ (0 ≤ in_label < 2 ^ 20 →
       Z.shiftr (ntohl (le_value (le_bytes 4 (label_entry in_label)))) 12 = in_label).
Proof.
  split; [|split; [|split]].
  - unfold mpls_install_request, new_request. rewrite header_bytes.
    as_bytes pid. as_bytes (label_entry in_label). as_bytes ifindex.
    destruct next_hop as [nh|]; cbn [via_attr]; [destruct (nh =? 0); [|as_bytes nh]|];
      destruct (out_label =? 0); try (as_bytes (label_entry out_label));
      (eexists; split; [vm_compute; reflexivity|vm_compute; reflexivity]).
  - unfold mpls_remove_request, new_request. rewrite header_bytes.
    as_bytes pid. as_bytes (label_entry in_label).
    eexists; split; [vm_compute; reflexivity|vm_compute; reflexivity].
  - unfold ip_remove_request, new_request. rewrite header_bytes. as_bytes pid. as_bytes dest.
    eexists; split; [vm_compute; reflexivity|vm_compute; reflexivity].
  - apply label_entry_round_trip.
Qed.

(** Attribute types of <linux/rtnetlink.h>, whose enumeration the macros of the
    source shadow. *)
Definition kernel_RTA_ENCAP_TYPE : Z := 21.
Definition kernel_RTA_ENCAP : Z := 22.

(** The request of an ingress push holds the destination, the interface and
    the gateway, but the encapsulation under the wrong types: the number 1 (the
    MPLS encapsulation type) is sent as the kernel's RTA_ENCAP, and the nested
    label as the kernel's RTA_ENCAP_TYPE. *)
Theorem encap_attributes_swapped out_label ifindex next_hop dest pid :
  ∃ m, mpls_push_request out_label ifindex next_hop dest pid = Some m
    ∧ attributes m = Some ([(RTA_DST, le_bytes 4 dest); (RTA_OIF, le_bytes 4 ifindex)]
        ++ via_attr RTA_GATEWAY [] next_hop
        ++ [(kernel_RTA_ENCAP, le_bytes 2 LWTUNNEL_ENCAP_MPLS);
            (kernel_RTA_ENCAP_TYPE,
             store_struct (mk_rtattr 8 MPLS_IPTUNNEL_DST) ++ le_bytes 4 (label_entry out_label))]).
Proof.
  unfold mpls_push_request, new_request, add_encap. rewrite header_bytes.
  as_bytes pid. as_bytes dest. as_bytes ifindex. as_bytes (label_entry out_label).
  destruct next_hop as [nh|]; cbn [via_attr]; [destruct (nh =? 0); [|as_bytes nh]|];
    (eexists; split; [vm_compute; reflexivity|vm_compute; reflexivity]).
Qed.

(** ** The route cache *)

(** Every route in use has a label of [tbl], or is a push. *)
Definition routes_within (tbl : gset Z) (rs : list mpls_route) : Prop :=
  Forall (λ r, mr_active r = true → mr_in_label r ≠ 0 → mr_in_label r ∈ tbl) rs.

Lemma routes_install_within tbl in_label out_label ifindex nh dest rs :
  routes_within tbl rs →
  routes_within ({[in_label]} ∪ tbl) (routes_install in_label out_label ifindex nh dest rs).
Proof.
  unfold routes_within. induction 1 as [|r rs Hr Hrs IH]; simpl; [constructor|].
  assert (Forall (λ r, mr_active r = true → mr_in_label r ≠ 0 → mr_in_label r ∈ {[in_label]} ∪ tbl) rs)
    as Hrs' by (eapply Forall_impl; [exact Hrs|]; simpl; set_solver).
  case_if; constructor; simpl; try done; set_solver.
Qed.

Lemma routes_remove_within tbl in_label dest rs :
  routes_within tbl rs → routes_within (tbl ∖ {[in_label]}) (route_remove in_label dest <$> rs).
Proof.
  unfold routes_within. intros Hrs. apply Forall_fmap. eapply Forall_impl; [exact Hrs|].
  intros r Hr. simpl. unfold route_remove. destruct (_ && _) eqn:E; [intros [=]|]. intros Ha Hn.
  rewrite Ha in E. simpl in E. destruct (decide (mr_in_label r = in_label)) as [<-|];
    [|set_solver].
  by rewrite (proj2 (Z.eqb_neq _ 0) Hn), Z.eqb_refl in E.
Qed.

Lemma routes_after_within outs tbl rs :
  routes_within tbl rs → routes_within (foldl mpls_step tbl outs) (foldl route_step rs outs).
Proof.
  revert tbl rs. induction outs as [|o outs IH]; intros tbl rs Hrs; simpl; [done|].
  apply IH. destruct o as [p|l1 l2 i n d|l d]; simpl; [done| |].
  - by apply routes_install_within.
  - by apply routes_remove_within.
Qed.

Lemma routes_after_labels outs r :
  r ∈ routes_after outs → mr_active r = true → mr_in_label r ≠ 0 → mr_in_label r ∈ mpls_labels outs.
Proof.
  intros Hr. assert (routes_within (mpls_labels outs) (routes_after outs)) as Hw.
  { apply routes_after_within. unfold routes_within. by apply Forall_replicate. }
  unfold routes_within in Hw. rewrite Forall_forall in Hw. by apply Hw.
Qed.

Definition active_routes (in_label : Z) (rs : list mpls_route) : list mpls_route :=
  filter (λ r, mr_active r = true ∧ mr_in_label r = in_label) rs.

(** The cache shows duplicates: after two installations, the removal of the
    first and a new installation of the second label, the cache holds two
    routes for that label, the old one as well, and both go away only with its
    removal. *)
Theorem route_cache_duplicates :
  let outs := [MplsInstall 1000 500 2 88 88; MplsInstall 1001 501 2 88 88; MplsRemove 1000 None;
               MplsInstall 1001 502 3 99 88] in
  mr_out_label <$> active_routes 1001 (routes_after outs) = [502; 501]
  ∧ active_routes 1001 (routes_after (outs ++ [MplsRemove 1001 None])) = [].
Proof. cbv zeta. split; vm_compute; reflexivity. Qed.

(** C33: the cache and the daemon agree on labels: in every reachable state
    each route in use with a nonzero incoming label, as the cache holds it
    after the requests so far, has a live reservation with that label. Nothing
    is said of push routes, whose incoming label is 0. *)
Theorem cached_routes_live {TS LS : Type} `{TimerLaws TS timer_id timer_cb} `{LabelLaws LS} `{EnvLaws}
    (s : state TS LS) (r : mpls_route) :
  reachable s → r ∈ routes_after (st_out s) → mr_active r = true → mr_in_label r ≠ 0 →
  ∃ l b, rsbs s !! l = Some b ∧ rsb_label_in b = mr_in_label r.
Proof.
  intros Hi%reachable_inv Hr Ha Hn. destruct (inv_labels _ _ Hi) as [(HS & _ & Hheld & Hout) _].
  pose proof (routes_after_labels _ _ Hr Ha Hn) as Hl.
  by apply Hout, Hheld in Hl as (_ & l & b & Eb & El); [eauto|].
Qed.

(** ** Examples *)

Definition no_interfaces : list interface := replicate MAX_INTERFACES no_interface.

Lemma no_interfaces_ok : ifaces_ok no_interfaces.
Proof.
  split; [reflexivity|].
  intros i j a b [-> _]%(lookup_replicate_1 MAX_INTERFACES) _ Ha. discriminate Ha.
Qed.

(** Interface 3 gets the address 167772161: RTM_NEWADDR in a buffer of 4096. *)
Definition newaddr_message : list Z :=
  store_struct (mk_nlmsghdr 32 RTM_NEWADDR 0 1 0) ++ store_struct (mk_ifaddrmsg AF_INET 24 0 0 3)
  ++ store_struct (mk_rtattr 8 IFA_LOCAL) ++ le_bytes 4 167772161 ++ replicate 4064 0.

Lemma netlink_receive_safe_witness :
  ∃ ifaces, hal_netlink_process (Some (newaddr_message, 32)) no_interfaces = Some ifaces
    ∧ ifaces_ok ifaces ∧ iface_addr ifaces 3 = Some 167772161.
Proof.
  assert (received_ok (newaddr_message, 32)) as Hr by (vm_compute; discriminate).
  destruct (netlink_receive_safe no_interfaces (newaddr_message, 32) [(newaddr_message, 32)] 5
    (newaddr_message, 32) no_interfaces_ok Hr (Forall_cons_2 _ _ _ Hr (Forall_nil_2 _)) Hr)
    as [(ifaces & E & Hok) _].
  exists ifaces. split; [exact E|]. split; [exact Hok|].
  assert (option_map (λ i, iface_addr i 3)
            (hal_netlink_process (Some (newaddr_message, 32)) no_interfaces)
          = Some (Some 167772161)) as Hv by (vm_compute; reflexivity).
  rewrite E in Hv. injection Hv as Hv. exact Hv.
Defined.

Lemma iface_cache_is_map_witness :
  iface_addr (newaddr 3 7 no_interfaces) 3 = Some 7 ∧ iface_addr (newaddr 3 7 no_interfaces) 4 = None.
Proof.
  destruct (iface_cache_is_map no_interfaces 3 7 no_interfaces_ok) as (_ & _ & Hn & _).
  split; rewrite Hn; vm_compute; reflexivity.
Defined.

Lemma active_routes_elem l rs r :
  r ∈ active_routes l rs ↔ r ∈ rs ∧ mr_active r = true ∧ mr_in_label r = l.
Proof. unfold active_routes. rewrite list_elem_of_filter. tauto. Qed.

Lemma test_lsp_routed :
  ∃ r, r ∈ routes_after (st_out test_lsp) ∧ mr_active r = true ∧ mr_in_label r = 1000.
Proof.
  assert (match active_routes 1000 (routes_after (st_out test_lsp)) with [] => false | _ => true end
          = true) as Hr by (vm_cast_no_check (eq_refl true)).
  destruct (active_routes _ _) as [|r rs] eqn:E; [discriminate Hr|]. exists r.
  apply active_routes_elem. rewrite E. left.
Qed.

Lemma cached_routes_live_witness :
  ∃ l b, rsbs test_lsp !! l = Some b ∧ rsb_label_in b = 1000.
Proof.
  destruct test_lsp_routed as (r & Hr & Ha & Hl). rewrite <- Hl.
  apply (cached_routes_live test_lsp r test_lsp_reachable Hr Ha). rewrite Hl. discriminate.
Defined.
