(* ===== verification/HalTimer.v ===== *)
(** * The timer of the platform (src/pd/hal_timer_linux.c)

    One timerfd: a delay in milliseconds becomes seconds and nanoseconds.  The
    kernel's side is what [timerfd_settime] asks of its argument, and when the
    timer fires.  Nothing in the daemon calls these functions: it uses the
    timer wheel. *)

From stdpp Require Import base numbers list option.
From S2P Require Import Prelude.

Record itimerspec := mk_itimerspec {
  it_value_sec : Z;
  it_value_nsec : Z;
  it_interval_sec : Z;
  it_interval_nsec : Z;
}.

(** [timerfd_settime] rejects nanoseconds out of range, a zero value disarms
    the timer, and otherwise it fires once the value, in nanoseconds, is over. *)
Inductive settime_result := Rejected | Disarmed | FiresAfter (ns : Z).
Definition timerfd_settime (v : itimerspec) : settime_result :=
  if negb ((0 <=? it_value_sec v) && (0 <=? it_value_nsec v) && (it_value_nsec v <? 10 ^ 9)) then Rejected
  else if (it_value_sec v =? 0) && (it_value_nsec v =? 0) then Disarmed
  else FiresAfter (it_value_sec v * 10 ^ 9 + it_value_nsec v).

(** The state is [central_tfd]; [fd] is the answer of [timerfd_create]. *)
Definition hal_timer_init (fd : Z) : Z * Z :=
  let central_tfd := fd in if central_tfd <? 0 then (-1, central_tfd) else (central_tfd, central_tfd).

(** The argument of [timerfd_settime], if it is called; [uint32_t] arithmetic. *)
Definition hal_timer_set (central_tfd timeout_ms : Z) : option itimerspec :=
  if central_tfd <? 0 then None
  else Some (mk_itimerspec (timeout_ms / 1000) (timeout_ms mod 1000 * 1000000 mod 2 ^ 32) 0 0).

Definition hal_timer_clear (central_tfd : Z) : option itimerspec :=
  if central_tfd <? 0 then None else Some (mk_itimerspec 0 0 0 0).

(** Every delay of a [uint32_t] is accepted and comes out exactly, as a timer
    that fires once; the delay 0 is the one exception: it disarms the timer
    like [hal_timer_clear] instead of firing at once. *)
Theorem hal_timer_exact fd timeout_ms :
  0 ≤ fd → 0 ≤ timeout_ms < 2 ^ 32 →
  ∃ v, hal_timer_set fd timeout_ms = Some v ∧ it_interval_sec v = 0 ∧ it_interval_nsec v = 0
    ∧ timerfd_settime v = (if timeout_ms =? 0 then Disarmed else FiresAfter (timeout_ms * 10 ^ 6))
    ∧ (hal_timer_clear fd = Some v ↔ timeout_ms = 0).
Proof.
  intros Hf Ht. unfold hal_timer_set, hal_timer_clear. rewrite (proj2 (Z.ltb_ge _ _)) by done.
  eexists. split; [reflexivity|]. split; [done|]. split; [done|].
  assert (0 ≤ timeout_ms mod 1000 < 1000) as Hm by (by apply Z.mod_pos_bound).
  rewrite (Z.mod_small (timeout_ms mod 1000 * 1000000)) by lia.
  pose proof (Z.div_mod timeout_ms 1000 ltac:(done)) as Hd.
  assert (0 ≤ timeout_ms / 1000) by (apply Z.div_pos; lia).
  unfold timerfd_settime. cbn [it_value_sec it_value_nsec].
  change (10 ^ 9) with 1000000000. change (10 ^ 6) with 1000000. split.
  - rewrite !(proj2 (Z.leb_le _ _)), (proj2 (Z.ltb_lt _ _)) by lia. cbn [andb negb].
    destruct (Z.eqb_spec timeout_ms 0) as [->|Hne]; [done|].
    destruct (Z.eqb_spec (timeout_ms / 1000) 0) as [E1|]; [|cbn [andb]; f_equal; lia].
    destruct (Z.eqb_spec (timeout_ms mod 1000 * 1000000) 0); [lia|]. cbn [andb]. f_equal. lia.
  - split; [intros [= E1 E2]; lia|by intros ->].
Qed.

Lemma hal_timer_exact_witness :
  ∃ v, hal_timer_set 3 1500 = Some v ∧ timerfd_settime v = FiresAfter 1500000000.
Proof.
  destruct (hal_timer_exact 3 1500) as (v & E & _ & _ & Ev & _); [lia..|]. exists v. split; [exact E|exact Ev].
Defined.
