(* ===== verification/Log.v ===== *)
(** * Logging (src/common/rsvp_log.c)

    The logger that is compiled in with RSVP_LOGGING_ENABLED: the level, the
    destination, and the cached time stamp.  The text of a message is an
    argument; [local_time] is [localtime_r] with [strftime]. *)

From Stdlib Require Import String.
From stdpp Require Import base numbers list option.
From S2P Require Import Prelude RsvpIf Scan Printf Display.

Inductive rsvp_log_level_t := LOG_LEVEL_DEBUG | LOG_LEVEL_INFO | LOG_LEVEL_WARN | LOG_LEVEL_ERROR.
Definition level_num (l : rsvp_log_level_t) : Z :=
  match l with LOG_LEVEL_DEBUG => 0 | LOG_LEVEL_INFO => 1 | LOG_LEVEL_WARN => 2 | LOG_LEVEL_ERROR => 3 end.
#[export] Instance rsvp_log_level_t_eq_dec : EqDecision rsvp_log_level_t.
Proof. solve_decision. Defined.

(** The static variables, what has been written to the log file, to the
    standard output and to the standard error, and how much of the first two
    has been flushed. *)
Record logger := mk_logger {
  lg_level : rsvp_log_level_t;
  lg_open : bool;
  lg_last_t : Z;
  lg_time_buf : list Z;
  lg_file : list Z;
  lg_stdout : list Z;
  lg_stderr : list Z;
  lg_flushed : nat * nat;
}.
#[export] Instance logger_settable : Settable logger :=
  λ g, mk_logger (lg_level g) (lg_open g) (lg_last_t g) (lg_time_buf g) (lg_file g) (lg_stdout g)
         (lg_stderr g) (lg_flushed g).

Definition logger0 : logger := mk_logger LOG_LEVEL_DEBUG false 0 [] [] [] [] (0, 0)%nat.

(** [opened]: the answer of [fopen]. *)
Definition rsvp_log_init (log_file : option (list Z)) (opened : bool) (g : logger) : option logger :=
  match log_file with
  | None => Some g
  | Some name =>
      if opened then Some (g <| lg_open := true |>)
      else t ← printf_line "Failed to open log file: %s" [ArgStr name];
           Some (g <| lg_open := false |> <| lg_stderr ::= λ s, s ++ t |>)
  end.

(** [fclose] flushes. *)
Definition rsvp_log_close (g : logger) : logger :=
  if lg_open g then g <| lg_open := false |> <| lg_flushed ::= λ f, (length (lg_file g), f.2) |> else g.

Definition rsvp_set_log_level (level : rsvp_log_level_t) (g : logger) : logger := g <| lg_level := level |>.

Definition level_str (l : rsvp_log_level_t) : string :=
  match l with
  | LOG_LEVEL_DEBUG => "DEBUG" | LOG_LEVEL_INFO => "INFO"
  | LOG_LEVEL_WARN => "WARN" | LOG_LEVEL_ERROR => "ERROR"
  end.

Section log.
Context `{TermEnv}.
Implicit Types g : logger.

(** The time stamp is formatted again when the second has changed. *)
Definition stamp (now : Z) g : logger :=
  if now =? lg_last_t g then g
  else g <| lg_time_buf := local_time now |> <| lg_last_t := now |>.

Definition log_line g (level : rsvp_log_level_t) (func : list Z) (line : Z) (msg : list Z) : option (list Z) :=
  prefix ← printf "[%s] [%s] %s:%d: "
    [ArgStr (lg_time_buf g); ArgStr (str (level_str level)); ArgStr func; ArgInt line];
  Some (prefix ++ msg ++ [10]).

(** [fprintf] and [fflush] on the stream the log goes to. *)
Definition write_out (t : list Z) g : logger :=
  if lg_open g then g <| lg_file ::= λ s, s ++ t |> else g <| lg_stdout ::= λ s, s ++ t |>.
Definition flush_out g : logger :=
  if lg_open g then g <| lg_flushed ::= λ f, (length (lg_file g), f.2) |>
  else g <| lg_flushed ::= λ f, (f.1, length (lg_stdout g)) |>.

Definition rsvp_log (level : rsvp_log_level_t) (func : list Z) (line : Z) (msg : list Z) (now : Z) g :
    option logger :=
  if level_num level <? level_num (lg_level g) then Some g
  else
    let g := stamp now g in
    t ← log_line g level func line msg;
    let g := write_out t g in
    let g := if level_num LOG_LEVEL_WARN <=? level_num level then flush_out g else g in
    Some (if bool_decide (level = LOG_LEVEL_ERROR) then g <| lg_stderr ::= λ s, s ++ t |> else g).

(** The stamp in the buffer is the one of the second it was made in. *)
Definition stamp_ok g : Prop := lg_last_t g ≠ 0 → lg_time_buf g = local_time (lg_last_t g).

(** The line of a message. *)
Definition log_text (now : Z) (level : rsvp_log_level_t) (func : list Z) (line : Z) (msg : list Z) : list Z :=
  [91] ++ local_time now ++ str "] [" ++ str (level_str level) ++ str "] " ++ func ++ [58]
  ++ show_int (int32 line) ++ str ": " ++ msg ++ [10].

(** A message below the level leaves no trace; any other adds exactly its line,
    with the time of the call although the stamp is cached, to the log file or,
    without one, to the standard output, flushed at once from the level WARN
    on, and an error to the standard error as well. *)
Theorem rsvp_log_writes level func line msg now g :
  stamp_ok g → now ≠ 0 →
  ∃ g', rsvp_log level func line msg now g = Some g' ∧ stamp_ok g'
    ∧ let text := if level_num level <? level_num (lg_level g) then []
                  else log_text now level func line msg in
      lg_file g' = lg_file g ++ (if lg_open g then text else [])
      ∧ lg_stdout g' = lg_stdout g ++ (if lg_open g then [] else text)
      ∧ lg_stderr g' = lg_stderr g ++ (if decide (level = LOG_LEVEL_ERROR) then text else [])
      ∧ (level = LOG_LEVEL_WARN ∨ level = LOG_LEVEL_ERROR →
         level_num level <? level_num (lg_level g) = false →
         if lg_open g then (lg_flushed g').1 = length (lg_file g') else (lg_flushed g').2 = length (lg_stdout g')).
Proof.
  intros Hs Hn. unfold rsvp_log. case_if.
  { exists g. split; [done|]. split; [done|]. cbv zeta. repeat case_match; rewrite ?app_nil_r; split_and!; congruence. }
  assert (stamp_ok (stamp now g) ∧ lg_time_buf (stamp now g) = local_time now) as [Hs' Et].
  { unfold stamp. destruct (Z.eqb_spec now (lg_last_t g)) as [->|]; [by rewrite Hs|]. by split. }
  assert (lg_open (stamp now g) = lg_open g ∧ lg_file (stamp now g) = lg_file g
    ∧ lg_stdout (stamp now g) = lg_stdout g ∧ lg_stderr (stamp now g) = lg_stderr g) as (Eo & Ef & Eout & Eerr)
    by (unfold stamp; by case_if).
  set (g1 := stamp now g) in *.
  assert (log_line g1 level func line msg = Some (log_text now level func line msg)) as ->.
  { unfold log_line, log_text. rewrite Et. generalize (local_time now), (str (level_str level)). intros a b.
    run_printf. }
  cbn [mbind option_bind]. set (t := log_text _ _ _ _ _). clearbody g1 t. eexists. split; [reflexivity|].
  unfold write_out, flush_out. rewrite Eo.
  destruct (lg_open g), level; cbn -[decide]; rewrite ?Eo; cbn -[decide]; cbv zeta; rewrite ?app_nil_r; unfold stamp_ok in *; cbn in *;
    rewrite ?Ef, ?Eout, ?Eerr in *; split_and!; (done || (intros [?|?]; done)).
Qed.
End log.
