(* ===== verification/EventLoop.v ===== *)
(** * The event loop and the program (src/pi/rsvp_dispatcher.c, src/main.c)

    [rsvp_dispatcher_run] waits with [poll] on the terminal, the raw socket,
    the netlink socket and the timer pipe, and handles each descriptor that is
    ready.  What [poll] and the reads give is the input of the model, one
    [loop_input] for each call of [poll]; the timer threads may run before
    every descriptor.  [main] is the start, the loop and the shutdown. *)

From Stdlib Require Import String.
From stdpp Require Import base numbers list option gmap sets.
From S2P Require Import Prelude Wire Protocol LabelMgr WheelTimer Timers Builder SendPacket Parser.
From S2P Require Import Interfaces StateDb Timing State Messages StateMachine Hello Invariant.
From S2P Require Import Rules SendRules Lifecycle Handlers HandlersResv Operations Commands.
From S2P Require Import HelloRules Shutdown Testbed Daemon PipeRules RsvpIf Scan Printf Display DisplayRules.
From S2P Require Import Cli CliRules.
From S2P Require Netlink NetlinkRules.

(** ** Constants of <poll.h>, <errno.h> and <unistd.h> *)

Definition STDIN_FILENO : Z := 0.
Definition POLLIN : Z := 1.
Definition POLLERR : Z := 8.
Definition POLLHUP : Z := 16.
Definition POLLNVAL : Z := 32.
Definition EINTR : Z := 4.
Definition MAX_FDS : nat := 64.
Definition MAX_RSVP_PACKET_SIZE : nat := Z.to_nat 4096.
Definition EXIT_SUCCESS : Z := 0.
Definition EXIT_FAILURE : Z := 1.

(** One descriptor after [poll]: [revents], what [read] or [recvfrom] gives
    ([None]: an error), what the netlink socket gives, and what the timer
    threads do before it is looked at. *)
Record fd_event {TS : Type} := mk_fd_event {
  ev_revents : Z;
  ev_read : option (list Z);
  ev_netlink : option (list Z * Z);
  ev_threads : TS → TS;
}.
Arguments fd_event : clear implicits.
Arguments mk_fd_event {TS}.

(** One round: whether a signal has cleared [g_running], and the result of
    [poll], an error number or an event for each descriptor. *)
Record loop_input {TS : Type} := mk_loop_input {
  li_stop : bool;
  li_poll : Z + (Z → fd_event TS);
}.
Arguments loop_input : clear implicits.
Arguments mk_loop_input {TS}.

(** The daemon with its interface table, the address cache, [poll_stdin], the
    descriptors, and what has been printed on the terminal. *)
Record loop_state {D : Type} := mk_loop_state {
  lp_cli : cli_state D;
  lp_ifaces : list Netlink.interface;
  lp_stdin : bool;
  lp_raw : Z;
  lp_netlink : Z;
  lp_pipe : Z;
  lp_stdout : list Z;
}.
Arguments loop_state : clear implicits.
Arguments mk_loop_state {D}.
#[export] Instance loop_state_settable D : Settable (loop_state D) :=
  λ s, mk_loop_state (lp_cli s) (lp_ifaces s) (lp_stdin s) (lp_raw s) (lp_netlink s) (lp_pipe s)
         (lp_stdout s).

(** How the loop goes on: waiting for the next input, or ended. *)
Inductive outcome {D : Type} := Waiting (s : loop_state D) | Stopped (s : loop_state D) | PollFailed (s : loop_state D).
Arguments outcome : clear implicits.

Section loop.
Context {TS LS : Type} `{TimerSys TS timer_id timer_cb, TimerInit TS} `{LabelSys LS, LabelInit LS}.
Context `{Env} `{IfEnv}.
Context `{ScanEnv, InetEnv, TermEnv}.
Local Notation state := (state TS LS).
Implicit Types ls : loop_state state.

Definition lp_daemon ls : state := cs_daemon (lp_cli ls).
Definition set_daemon (d : state) ls : loop_state state :=
  ls <| lp_cli ::= λ cs, mk_cli_state d (cs_ifs cs) |>.

(** A function of the daemon run on the state of the loop. *)
Definition on_daemon (m : M state ()) ls : option (loop_state state) :=
  '(_, d) ← m (lp_daemon ls); Some (set_daemon d ls).

(** [rsvp_timer_get_fds]: the read end of the pipe, if there is room. *)
Definition rsvp_timer_get_fds (timer_pipe : Z) (max_fds : nat) : list Z :=
  if (0 <=? timer_pipe) && (0 <? max_fds)%nat then [timer_pipe] else [].

(** The array [fds] of a round. *)
Definition poll_fds ls : list Z :=
  let fds := (if lp_stdin ls then [STDIN_FILENO] else []) ++ [lp_raw ls] ++ [lp_netlink ls] in
  fds ++ rsvp_timer_get_fds (lp_pipe ls) (MAX_FDS - length fds).

(** The branch for the raw socket. *)
Definition receive (bytes : option (list Z)) : M state () :=
  match bytes with
  | Some (b :: bs) => receive_packet (take MAX_RSVP_PACKET_SIZE (b :: bs))
  | _ => mret ()
  end.

(** The body of the loop over the descriptors. *)
Definition handle_fd (fd : Z) (ev : fd_event TS) ls : option (loop_state state) :=
  if negb (Z.land (ev_revents ev) (Z.lor POLLERR (Z.lor POLLHUP POLLNVAL)) =? 0) then
    Some (if fd =? STDIN_FILENO then ls <| lp_stdin := false |> else ls)
  else if negb (Z.land (ev_revents ev) POLLIN =? 0) then
    if fd =? STDIN_FILENO then
      '(rc, text, cs) ← rsvp_cli_handle_input (take 255 <$> ev_read ev) (lp_cli ls);
      let ls := ls <| lp_cli := cs |> <| lp_stdout ::= λ t, t ++ text |> in
      Some (if rc <? 0 then ls <| lp_stdin := false |> else ls)
    else if fd =? lp_raw ls then on_daemon (receive (ev_read ev)) ls
    else if fd =? lp_netlink ls then
      ifaces ← Netlink.hal_netlink_process (ev_netlink ev) (lp_ifaces ls);
      Some (ls <| lp_ifaces := ifaces |>)
    else if fd =? lp_pipe ls then on_daemon rsvp_timer_handle_exp ls
    else Some ls
  else Some ls.

(** What the timer threads did in the meantime. *)
Definition let_threads (ev : fd_event TS) ls : loop_state state :=
  set_daemon (lp_daemon ls <| st_timers ::= ev_threads ev |>) ls.

Fixpoint handle_fds (evs : Z → fd_event TS) (fds : list Z) ls : option (loop_state state) :=
  match fds with
  | [] => Some ls
  | fd :: fds =>
      ls ← handle_fd fd (evs fd) (let_threads (evs fd) ls);
      handle_fds evs fds ls
  end.

Fixpoint dispatch_loop (inputs : list (loop_input TS)) ls : option (outcome state) :=
  match inputs with
  | [] => Some (Waiting ls)
  | i :: inputs =>
      if li_stop i then Some (Stopped ls)
      else match li_poll i with
           | inl errno => if errno =? EINTR then dispatch_loop inputs ls else Some (PollFailed ls)
           | inr evs => ls ← handle_fds evs (poll_fds ls) ls; dispatch_loop inputs ls
           end
  end.

(** The start of [rsvp_dispatcher_run]: the terminal is taken up, with a prompt. *)
Definition loop_start ls : loop_state state :=
  ls <| lp_stdin := true |> <| lp_stdout ::= λ t, t ++ rsvp_cli_print_prompt |>.

Definition rsvp_dispatcher_run (inputs : list (loop_input TS)) ls : option (outcome state) :=
  if lp_raw ls <? 0 then Some (Stopped ls) else dispatch_loop inputs (loop_start ls).

(** ** The start *)

(** What the host answers at the start: the memory for the labels, the read end
    of the timer pipe (negative: [pipe] fails), the allocations and threads of
    the wheel; then the raw socket, the two options, and the answers to
    [hal_netlink_init]. *)
Record init_answers := mk_init_answers {
  ia_calloc : bool;
  ia_pipe : Z;
  ia_wheel : bool;
  ia_socket : Z;
  ia_hdrincl : bool;
  ia_router_alert : bool;
  ia_netlink : Z;            (** the netlink socket *)
  ia_pid : Z;
  ia_bind : bool;
  ia_send : bool;
  ia_dump : list (list Z * Z);
}.

(** The return code and [rsvp_raw_sock], [netlink_sock] and the cache. *)
Definition rsvp_dispatcher_init (a : init_answers) ls : option (Z * loop_state state) :=
  let ls := ls <| lp_raw := ia_socket a |> in
  if ia_socket a <? 0 then Some (-1, ls)
  else if negb (ia_hdrincl a) then Some (-1, ls <| lp_raw := -1 |>)
  else
    '(rc, _, ifaces) ← Netlink.hal_netlink_init (ia_pid a) (0 <=? ia_netlink a) (ia_bind a) (ia_send a)
                         (ia_dump a) (lp_ifaces ls);
    let ls := ls <| lp_ifaces := ifaces |> <| lp_netlink := ia_netlink a |> in
    if rc <? 0 then Some (-1, ls) else Some (0, ls).

(** ** The program *)

Inductive run := Exited (code : Z) (s : loop_state state) | Runs (s : loop_state state).

(** The calls of [main] before [rsvp_dispatcher_init].  Where [rsvp_timer_init]
    calls [exit] the result is the code that makes [main] return failure. *)
Definition main_init (a : init_answers) ls : option (Z * loop_state state) :=
  '(_, d) ← rsvp_state_db_init (lp_daemon ls);
  let d := d <| st_labels ::= lb_init (ia_calloc a) 1000 20000 |> in
  let ls := set_daemon d ls in
  match ti_init (0 <=? ia_pipe a) (ia_wheel a) (st_timers d) with
  | None => Some (-1, ls)
  | Some ts =>
      let d := d <| st_timers := ts |> in
      let ifs := rsvp_if_init (cs_ifs (lp_cli ls)) in
      '(_, d) ← rsvp_hello_init d;
      Some (0, ls <| lp_pipe := ia_pipe a |> <| lp_cli := mk_cli_state d ifs |>)
  end.

(** The end of [main]. *)
Definition main_shutdown ls : option (loop_state state) :=
  '(_, d) ← rsvp_state_machine_shutdown (lp_daemon ls);
  '(_, d) ← rsvp_hello_shutdown d;
  let ifs := rsvp_if_shutdown (cs_ifs (lp_cli ls)) in
  '(_, d) ← rsvp_state_db_cleanup d;
  Some (ls <| lp_cli := mk_cli_state d ifs |>).

(** [main] up to the loop. *)
Definition main_start (a : init_answers) ls : option (Z * loop_state state) :=
  '(rc, ls) ← main_init a ls;
  if rc <? 0 then Some (rc, ls) else rsvp_dispatcher_init a ls.

Definition main (a : init_answers) (inputs : list (loop_input TS)) ls : option run :=
  '(rc, ls) ← main_start a ls;
  if rc <? 0 then Some (Exited EXIT_FAILURE ls)
  else
    o ← rsvp_dispatcher_run inputs ls;
    match o with
    | Waiting ls => Some (Runs ls)
    | Stopped ls | PollFailed ls => ls ← main_shutdown ls; Some (Exited EXIT_SUCCESS ls)
    end.
End loop.

(** ** What the rounds may bring *)

Section rules.
Context {TS LS : Type} `{TimerLaws TS timer_id timer_cb, !TimerPipeLaws TS timer_id timer_cb}.
Context `{!TimerInit TS, !TimerInitLaws TS timer_id timer_cb}.
Context `{LabelLaws LS, !LabelInit LS, !LabelInitLaws LS} `{EnvLaws} `{IfEnv} `{ScanEnv, InetEnv, TermEnv}.
Local Notation state := (state TS LS).
Implicit Types ls : loop_state state.

Record loop_ok ls : Prop := {
  lk_daemon : reachable (lp_daemon ls);
  lk_ifs : if_table_ok (cs_ifs (lp_cli ls));
  lk_ifaces : NetlinkRules.ifaces_ok (lp_ifaces ls);
}.

(** An event that the theorems about its handler allow, by its descriptor. *)
Record fd_ok (fd : Z) (ev : fd_event TS) ls : Prop := {
  fo_threads : timers_progress (st_timers (lp_daemon ls)) (ev_threads ev (st_timers (lp_daemon ls)));
  fo_stdin : fd = STDIN_FILENO →
    ∃ c, line_command (take 255 <$> ev_read ev) = Some c ∧ cli_ok (lp_daemon (let_threads ev ls)) c;
  fo_raw : fd = lp_raw ls → ∀ b bs, ev_read ev = Some (b :: bs) →
    event_ok (lp_daemon (let_threads ev ls)) (ReceivePacket (take MAX_RSVP_PACKET_SIZE (b :: bs)));
  fo_netlink : ∀ r, ev_netlink ev = Some r → NetlinkRules.received_ok r;
  fo_pipe : fd = lp_pipe ls →
    messages_ok (unread (lp_daemon (let_threads ev ls))) (lp_daemon (let_threads ev ls));
}.

Fixpoint fds_ok (evs : Z → fd_event TS) (fds : list Z) ls : Prop :=
  match fds with
  | [] => True
  | fd :: fds =>
      fd_ok fd (evs fd) ls
      ∧ ∀ ls', handle_fd fd (evs fd) (let_threads (evs fd) ls) = Some ls' → fds_ok evs fds ls'
  end.

Fixpoint inputs_ok (inputs : list (loop_input TS)) ls : Prop :=
  match inputs with
  | [] => True
  | i :: inputs =>
      li_stop i = true
      ∨ match li_poll i with
        | inl errno => errno = EINTR → inputs_ok inputs ls
        | inr evs => fds_ok evs (poll_fds ls) ls
            ∧ ∀ ls', handle_fds evs (poll_fds ls) ls = Some ls' → inputs_ok inputs ls'
        end
  end.

(** What a handler leaves alone. *)
Definition same_fds ls ls' : Prop :=
  lp_raw ls' = lp_raw ls ∧ lp_netlink ls' = lp_netlink ls ∧ lp_pipe ls' = lp_pipe ls
  ∧ (lp_stdin ls' = true → lp_stdin ls = true).

Lemma same_fds_refl ls : same_fds ls ls.
Proof. done. Qed.

Lemma same_fds_trans ls1 ls2 ls3 : same_fds ls1 ls2 → same_fds ls2 ls3 → same_fds ls1 ls3.
Proof. intros (?&?&?&?) (?&?&?&?). split_and!; (congruence || auto). Qed.

Lemma let_threads_ok fd ev ls : loop_ok ls → fd_ok fd ev ls → loop_ok (let_threads ev ls).
Proof.
  intros [Hd Hi Hc] Ho. split; [|done..]. unfold let_threads, set_daemon, lp_daemon. simpl.
  apply (reachable_timers (lp_daemon ls)); [done|apply Ho].
Qed.

Lemma on_daemon_ok (m : M state ()) ls :
  loop_ok ls → (∃ d, m (lp_daemon ls) = Some ((), d) ∧ reachable d) →
  ∃ ls', on_daemon m ls = Some ls' ∧ loop_ok ls' ∧ same_fds ls ls'.
Proof.
  intros [Hd Hi Hc] (d & E & Hr). unfold on_daemon. rewrite E. simpl. eexists. split; [reflexivity|].
  by split.
Qed.

Lemma receive_event b bs :
  receive (Some (b :: bs)) = run_event (ReceivePacket (take MAX_RSVP_PACKET_SIZE (b :: bs))) :> M state ().
Proof. unfold receive, run_event. reflexivity. Qed.

Lemma receive_ok bytes (s : state) :
  reachable s →
  (∀ b bs, bytes = Some (b :: bs) → event_ok s (ReceivePacket (take MAX_RSVP_PACKET_SIZE (b :: bs)))) →
  ∃ d, receive bytes s = Some ((), d) ∧ reachable d.
Proof.
  intros Hr Hok. destruct bytes as [[|b bs]|]; [by exists s| |by exists s].
  rewrite receive_event. by apply reachable_progress, Hok.
Qed.

(** The terminal is given up. *)
Lemma hang_up_ok (b : bool) ls ls' :
  loop_ok ls' → same_fds ls ls' →
  loop_ok (if b then ls' <| lp_stdin := false |> else ls')
  ∧ same_fds ls (if b then ls' <| lp_stdin := false |> else ls').
Proof. intros [] (?&?&?&?). by destruct b. Qed.

Lemma handle_fd_ok fd ev ls :
  loop_ok ls → fd_ok fd ev ls →
  ∃ ls', handle_fd fd ev (let_threads ev ls) = Some ls' ∧ loop_ok ls' ∧ same_fds ls ls'.
Proof.
  intros Hl Ho. pose proof (let_threads_ok fd ev ls Hl Ho) as Hl1.
  assert (same_fds ls (let_threads ev ls)) as Hs by done.
  set (ls1 := let_threads ev ls) in *. unfold handle_fd.
  case_if; [eexists; (split; [reflexivity|]); by apply hang_up_ok|].
  case_if; [|by exists ls1]. destruct (Z.eqb_spec fd STDIN_FILENO) as [Ef|].
  - destruct (fo_stdin _ _ _ Ho Ef) as (c & Ec & Hc).
    destruct (cli_input_safe (lp_cli ls1) _ c (lk_daemon _ Hl1) (lk_ifs _ Hl1) Ec Hc)
      as (rc & text & cs & -> & Hr & Hi & _). cbn [mbind option_bind]. cbv zeta.
    eexists. split; [reflexivity|]. apply hang_up_ok; [by split; [..|apply Hl1]|done].
  - destruct (Z.eqb_spec fd (lp_raw ls1)) as [Er|].
    { destruct (on_daemon_ok (receive (ev_read ev)) ls1 Hl1) as (ls2 & E2 & Hl2 & Hs2).
      - apply receive_ok; [apply Hl1|]. by apply (fo_raw _ _ _ Ho).
      - exists ls2. split_and!; [done..|]. by eapply same_fds_trans. }
    destruct (fd =? lp_netlink ls1).
    { destruct (ev_netlink ev) as [r|] eqn:En.
      - destruct (NetlinkRules.process_safe (lp_ifaces ls1) r (lk_ifaces _ Hl1)) as (i & -> & Hi);
          [by eapply fo_netlink|]. simpl. eexists. split; [reflexivity|].
        split; [split; [apply Hl1|apply Hl1|exact Hi]|done].
      - simpl. eexists. split; [reflexivity|]. split; [split; apply Hl1|done]. }
    destruct (Z.eqb_spec fd (lp_pipe ls1)) as [Ep|]; [|by exists ls1].
    destruct (on_daemon_ok rsvp_timer_handle_exp ls1 Hl1) as (ls2 & E2 & Hl2 & Hs2).
    + destruct (timer_handle_exp_spec (lp_daemon ls1)) as (d & Ed & Hr & _);
        [apply Hl1|by apply (fo_pipe _ _ _ Ho)|]. eauto.
    + exists ls2. split_and!; [done..|]. by eapply same_fds_trans.
Qed.

Lemma handle_fds_ok evs fds ls :
  loop_ok ls → fds_ok evs fds ls →
  ∃ ls', handle_fds evs fds ls = Some ls' ∧ loop_ok ls' ∧ same_fds ls ls'.
Proof.
  revert ls. induction fds as [|fd fds IH]; intros ls Hl Ho; simpl; [by exists ls|].
  destruct Ho as [Ho Hrest]. destruct (handle_fd_ok fd (evs fd) ls Hl Ho) as (ls1 & E & Hl1 & Hs1).
  rewrite E. simpl. destruct (IH ls1 Hl1 (Hrest ls1 E)) as (ls2 & -> & Hl2 & Hs2).
  exists ls2. split_and!; [done..|]. by eapply same_fds_trans.
Qed.

Definition outcome_state (o : outcome state) : loop_state state :=
  match o with Waiting ls | Stopped ls | PollFailed ls => ls end.

Lemma outcome_ok o ls :
  loop_ok ls → outcome_state o = ls →
  ∃ o', Some o = Some o' ∧ loop_ok (outcome_state o') ∧ same_fds ls (outcome_state o').
Proof. intros Hl <-. exists o. split_and!; [done..|apply same_fds_refl]. Qed.

Lemma dispatch_loop_ok inputs ls :
  loop_ok ls → inputs_ok inputs ls →
  ∃ o, dispatch_loop inputs ls = Some o ∧ loop_ok (outcome_state o) ∧ same_fds ls (outcome_state o).
Proof.
  revert ls. induction inputs as [|i inputs IH]; intros ls Hl Ho; simpl; [by apply outcome_ok|].
  destruct (li_stop i) eqn:Es; [by apply outcome_ok|]. destruct Ho as [Ho|Ho]; [congruence|].
  destruct (li_poll i) as [errno|evs].
  - destruct (Z.eqb_spec errno EINTR); [by apply IH; auto|by apply outcome_ok].
  - destruct Ho as [Ho Hrest]. destruct (handle_fds_ok evs _ ls Hl Ho) as (ls1 & E & Hl1 & Hs1).
    rewrite E. simpl. destruct (IH ls1 Hl1 (Hrest ls1 E)) as (o & -> & Hlo & Hso).
    exists o. split_and!; [done..|]. by eapply same_fds_trans.
Qed.

(** ** The start and the end *)

(** The timers cannot be started; a socket cannot be opened or set up. *)
Definition timers_fail (a : init_answers) : bool := negb ((0 <=? ia_pipe a) && ia_wheel a).
Definition sockets_fail (a : init_answers) : bool :=
  (ia_socket a <? 0) || negb (ia_hdrincl a) || (ia_netlink a <? 0) || negb (ia_bind a).
Definition init_fails (a : init_answers) : bool := timers_fail a || sockets_fail a.

(** The daemon before [main]: its static memory is zero, and nothing has gone
    out. *)
Record static_zero (s : state) : Prop := {
  sz_psb : st_psb s = empty_table;
  sz_rsb : st_rsb s = empty_table;
  sz_bsb : st_bsb s = empty_table;
  sz_timers : ti_blank (st_timers s) timer_static;
  sz_nbors : st_neighbors s = replicate RSVP_MAX_NEIGHBORS zero_neighbor;
  sz_count : st_nbor_count s = 0%nat;
  sz_out : st_out s = [];
}.

Lemma dispatcher_init_ok a ls :
  loop_ok ls → Forall NetlinkRules.received_ok (ia_dump a) →
  ∃ rc ls', rsvp_dispatcher_init a ls = Some (rc, ls') ∧ loop_ok ls'
    ∧ rc = (if sockets_fail a then -1 else 0) ∧ (rc = 0 → 0 ≤ lp_raw ls').
Proof.
  intros Hl Hd. unfold rsvp_dispatcher_init, sockets_fail.
  destruct (ia_socket a <? 0) eqn:Es; simpl; [eexists _, _; split; [reflexivity|]; by destruct Hl|]. bools.
  destruct (ia_hdrincl a); simpl; [|eexists _, _; split; [reflexivity|]; by destruct Hl].
  unfold Netlink.hal_netlink_init.
  assert ((0 <=? ia_netlink a) = negb (ia_netlink a <? 0)) as ->
    by (rewrite Z.leb_antisym; done).
  destruct (ia_netlink a <? 0); simpl; [eexists _, _; split; [reflexivity|]; by destruct Hl|].
  destruct (ia_bind a); simpl; [|eexists _, _; split; [reflexivity|]; by destruct Hl].
  destruct (ia_send a); simpl; [|eexists _, _; split; [reflexivity|]; by destruct Hl].
  destruct (NetlinkRules.netlink_dump_safe (ia_dump a) (lp_ifaces ls) Hd (lk_ifaces _ Hl)) as (i & -> & Hi).
  simpl. eexists _, _. split; [reflexivity|]. by destruct Hl.
Qed.

Lemma main_init_ok a ls :
  static_zero (lp_daemon ls) → NetlinkRules.ifaces_ok (lp_ifaces ls) →
  ∃ ls', main_init a ls = Some (if timers_fail a then -1 else 0, ls')
    ∧ (timers_fail a = false → loop_ok ls').
Proof.
  intros [Z1 Z2 Z3 Z4 Z5 Z6 Z7] Hi. unfold main_init, rsvp_state_db_init, modify.
  cbn [mbind option_bind]. cbv beta iota zeta.
  pose proof (ti_init_law (st_timers (lp_daemon ls)) timer_static (0 <=? ia_pipe a) (ia_wheel a) Z4) as Ht.
  unfold timers_fail. destruct ((0 <=? ia_pipe a) && ia_wheel a).
  - destruct Ht as (ts & E & Hok & Hview).
    assert (boot (lp_daemon ls <| st_labels ::= lb_init (ia_calloc a) 1000 20000 |>
                    <| st_timers := ts |>)) as Hb.
    { split; try done. apply lb_init_law; lia. }
    destruct (proj1 (wp_run _ _ _) (daemon_init_safe _ Hb)) as ([] & d' & E' & _).
    pose proof (reachable_init _ _ Hb E') as Hr. unfold daemon_init, mbind, M_bind in E'.
    unfold rsvp_state_db_init, modify in E'. cbn in E'. cbn. rewrite E. cbn [mbind option_bind].
    cbv beta iota zeta. cbn. rewrite E'. cbn [mbind option_bind].
    eexists. split; [reflexivity|]. intros _. by split; [|apply if_init_ok|].
  - cbn. rewrite Ht. eexists. split; [reflexivity|]. intros [=].
Qed.

Lemma main_start_ok a ls :
  static_zero (lp_daemon ls) → NetlinkRules.ifaces_ok (lp_ifaces ls) →
  Forall NetlinkRules.received_ok (ia_dump a) →
  ∃ rc ls', main_start a ls = Some (rc, ls') ∧ rc = (if init_fails a then -1 else 0)
    ∧ (rc = 0 → loop_ok ls' ∧ 0 ≤ lp_raw ls').
Proof.
  intros Hb Hi Hd. destruct (main_init_ok a ls Hb Hi) as (ls1 & E & Hl1).
  unfold main_start, init_fails. rewrite E. cbn [mbind option_bind]. cbv beta iota.
  destruct (timers_fail a); [by eexists _, _|].
  destruct (dispatcher_init_ok a ls1) as (rc & ls2 & -> & Hl2 & -> & Hraw); [by apply Hl1|done|].
  eexists _, _. split; [reflexivity|]. split; [done|]. auto.
Qed.

(** Everything is given back. *)
Record released ls : Prop := {
  rl_psbs : psbs (lp_daemon ls) = ∅;
  rl_rsbs : rsbs (lp_daemon ls) = ∅;
  rl_bsbs : bsbs (lp_daemon ls) = ∅;
  rl_labels : lb_rel (st_labels (lp_daemon ls)) ∅;
  rl_routes : ∀ n, n ∈ mpls_labels (st_out (lp_daemon ls)) → n = 0;
  rl_timers : ∀ t b cb, ti_view (st_timers (lp_daemon ls)) !! t = Some (b, cb) → b = false;
  rl_ifs : g_if_count (cs_ifs (lp_cli ls)) = 0%nat;
}.

Lemma main_shutdown_ok ls :
  loop_ok ls → ∃ ls', main_shutdown ls = Some ls' ∧ released ls'.
Proof.
  intros [Hr _ _]. destruct (daemon_shutdown_spec _ Hr) as (d & E & Hd).
  unfold daemon_shutdown, mbind, M_bind in E. unfold main_shutdown.
  destruct (rsvp_state_machine_shutdown (lp_daemon ls)) as [[[] d1]|]; [|done]. simpl in E.
  cbn [mbind option_bind].
  destruct (rsvp_hello_shutdown d1) as [[[] d2]|]; [|done]. simpl in E. cbn [mbind option_bind].
  rewrite E. cbn [mbind option_bind]. eexists. split; [reflexivity|].
  destruct Hd as (?&?&?&?&?&?). by split.
Qed.

(** ** Properties *)

(** C2: the event loop is safe for ever: from a consistent start, for any
    sequence of results of [poll] (readable descriptors, hang-ups, errors,
    interrupted calls, signals) and of what the descriptors deliver within
    [inputs_ok], every round handles its descriptors to the end, and the
    daemon, the interface table and the address cache are consistent after
    each; the loop ends only by a signal or a failure of [poll] other than
    EINTR, and the terminal, once given up, is not read again. [inputs_ok] asks
    of a line of the terminal that it holds no word too long for its buffer and
    deletes no bypass tunnel; of a packet what [event_ok] asks of it (C1); of a
    netlink message that 12 bytes of the buffer are left unused; of the
    messages in the timer pipe that none is of a freed timer or of the lifetime
    of a bypass tunnel; and of the timer threads that no expiration is on its
    way when a descriptor is handled. *)
Theorem event_loop_safe inputs ls :
  loop_ok ls → inputs_ok inputs ls →
  ∃ o, dispatch_loop inputs ls = Some o ∧ loop_ok (outcome_state o) ∧ same_fds ls (outcome_state o)
    ∧ ((∀ i, i ∈ inputs → li_stop i = false ∧ (∀ errno, li_poll i = inl errno → errno = EINTR)) →
       o = Waiting (outcome_state o)).
Proof.
  intros Hl Ho. destruct (dispatch_loop_ok inputs ls Hl Ho) as (o & E & Hlo & Hso).
  exists o. split_and!; [done..|]. intros Hi. clear Hl Ho Hlo Hso. revert ls E.
  induction inputs as [|i inputs IH]; intros ls; simpl; [by intros [= <-]|].
  destruct (Hi i) as [-> He]; [left|]. destruct (li_poll i) as [errno|evs].
  - rewrite (He errno eq_refl). apply IH. intros j Hj. apply Hi. by right.
  - destruct (handle_fds evs (poll_fds ls) ls) as [ls1|]; [|done]. simpl. apply IH.
    intros j Hj. apply Hi. by right.
Qed.

(** C3: the program runs to its end: from zeroed static memory, [main] exits
    with EXIT_FAILURE exactly when the timer pipe or the timer wheel cannot be
    made, or a socket cannot be opened or set up; otherwise, for inputs within
    [inputs_ok] (see C2; the first netlink dump too leaves 12 bytes of its
    buffer unused), it goes into the loop, and when a signal or a failure of
    [poll] ends that, it exits with EXIT_SUCCESS, having given back every
    block, label, forwarding entry of a nonzero label, timer and interface.
    Entries for unlabelled packets (label 0) may remain, see C6. *)
Theorem main_completes a inputs ls :
  static_zero (lp_daemon ls) → NetlinkRules.ifaces_ok (lp_ifaces ls) →
  Forall NetlinkRules.received_ok (ia_dump a) →
  (∀ ls', main_start a ls = Some (0, ls') → inputs_ok inputs (loop_start ls')) →
  ∃ r, main a inputs ls = Some r ∧
    match r with
    | Exited code ls' =>
        (init_fails a = true ∧ code = EXIT_FAILURE)
        ∨ (init_fails a = false ∧ code = EXIT_SUCCESS ∧ released ls')
    | Runs ls' => init_fails a = false ∧ loop_ok ls'
    end.
Proof.
  intros Hb Hi Hd Hin. destruct (main_start_ok a ls Hb Hi Hd) as (rc & ls1 & E & Erc & Hok).
  unfold main. rewrite E. cbn [mbind option_bind]. destruct (init_fails a); subst rc.
  { eexists. split; [reflexivity|]. by left. }
  destruct (Hok eq_refl) as [Hl1 Hraw].
  change (0 <? 0) with false. cbn iota. unfold rsvp_dispatcher_run.
  rewrite (proj2 (Z.ltb_ge _ _)) by auto.
  destruct (dispatch_loop_ok inputs (loop_start ls1)) as (o & -> & Hlo & _);
    [by destruct Hl1|by apply Hin|]. cbn [mbind option_bind].
  destruct o as [ls2|ls2|ls2]; simpl in Hlo; [by exists (Runs ls2)|..];
    destruct (main_shutdown_ok ls2 Hlo) as (ls3 & -> & Hrel); simpl;
    (eexists; split; [reflexivity|]; by right).
Qed.

(** What comes with a hang-up or an error is never read: a line that is
    readable together with POLLHUP (the last line of a pipe whose writer has
    gone) is dropped and the terminal given up, and a descriptor that reports
    an error is left as it is in every round, whatever could be read from it. *)
Theorem hang_up_discards_input fd ev ls :
  Z.land (ev_revents ev) (Z.lor POLLERR (Z.lor POLLHUP POLLNVAL)) ≠ 0 →
  handle_fd fd ev ls = Some (if fd =? STDIN_FILENO then ls <| lp_stdin := false |> else ls).
Proof. intros He. unfold handle_fd. by rewrite (proj2 (Z.eqb_neq _ _) He). Qed.

Local Notation keep := (keeps (unread (TS := TS) (LS := LS))).

Lemma keep_dump_blocks {A} (get : loc → M state A) line chain :
  (∀ l, keep (get l)) → (∀ a, keep (line a)) → keep (dump_blocks get line chain).
Proof.
  intros Hg Hl. induction chain as [|l chain IH]; simpl; [apply keeps_ret|].
  apply keeps_bind; [done|]. intros a. apply keeps_bind; [done|]. intros u.
  apply keeps_bind; [done|]. intros [? ?]. apply keeps_ret.
Qed.
Lemma keep_cli_show d t : keep (cli_show d t).
Proof.
  destruct d; simpl; keep_walk; apply keep_dump_blocks; intros; unfold psb_line, rsb_line, frr_line; keep_walk.
Qed.
Lemma keep_cli_daemon c t : keep (cli_daemon c t).
Proof. destruct c; simpl; try apply keep_cli_show; keep_walk. Qed.

(** A descriptor with the number of the terminal is taken for it: when the
    daemon is started with standard input closed and the timer pipe gets
    number 0, no round ever runs an expired timer: the number of messages in
    the pipe changes only by what the timer threads add. *)
Theorem low_descriptor_no_timers fd ev ls ls' :
  lp_pipe ls = STDIN_FILENO → handle_fd fd ev ls = Some ls' → unread (lp_daemon ls') = unread (lp_daemon ls).
Proof.
  intros Hp. unfold handle_fd. destruct (negb _) at 1; [intros [= <-]; by case_if|].
  destruct (negb (Z.land (ev_revents ev) POLLIN =? 0)); [|by intros [= <-]].
  destruct (Z.eqb_spec fd STDIN_FILENO) as [->|Hfd].
  - intros ([[rc text] cs] & E & [= <-])%bind_Some. assert (unread (cs_daemon cs) = unread (lp_daemon ls)) as Hu.
    { unfold rsvp_cli_handle_input in E. destruct (take 255 <$> ev_read ev) as [[|b buf]|];
        [by injection E as <- <- <-| |by injection E as <- <- <-].
      apply bind_Some in E as (c & _ & E). apply bind_Some in E as ([t cs1] & E & [= <- <- <-]).
      unfold cli_run in E. apply bind_Some in E as ([t1 d] & E & Er).
      apply bind_Some in Er as ([t2 ifs] & _ & [= <- <-]). simpl.
      by rewrite (keep_cli_daemon _ _ _ _ _ E). }
    by case_if.
  - destruct (fd =? lp_raw ls).
    { unfold on_daemon. intros ([[] d] & E & [= <-])%bind_Some. unfold lp_daemon at 1. simpl.
      unfold receive in E. destruct (ev_read ev) as [[|b bs]|]; [by injection E as <-| |by injection E as <-].
      by rewrite (keep_receive_packet _ _ _ _ E). }
    destruct (fd =? lp_netlink ls); [by intros (i & _ & [= <-])%bind_Some|].
    rewrite Hp, (proj2 (Z.eqb_neq _ _) Hfd). by intros [= <-].
Qed.
End rules.

(** ** Witnesses *)

Notation test_loop := (loop_state test_state).
(** The timers of the neighbours in zeroed static memory. *)
Definition blank_timers : rsvp_timers timer_id timer_cb :=
  foldr timer_alloc rsvp_timers_zero static_timers.
Definition test_zero : test_state :=
  test_boot <| st_timers := blank_timers |> <| st_labels := label_mgr_start |>.

Lemma blank_all_spec (l : list timer_id) :
  timers_blank (λ t, t ∈ l) (foldr timer_alloc (rsvp_timers_zero (K := timer_cb)) l).
Proof.
  induction l as [|t' l [IH1 IH2]]; split; intros t x; simpl.
  - rewrite lookup_empty, elem_of_nil. naive_solver.
  - rewrite lookup_empty, elem_of_nil. naive_solver.
  - rewrite lookup_insert_Some, elem_of_cons, IH1. destruct (decide (t' = t)); naive_solver.
  - rewrite lookup_insert_Some, elem_of_cons, IH2. destruct (decide (t' = t)); naive_solver.
Qed.

Lemma test_static_zero : static_zero test_zero.
Proof.
  split; try reflexivity.
  destruct (blank_all_spec static_timers) as [Hm Hn].
  change (timers_blank timer_static blank_timers).
  split; intros t x; [rewrite <- elem_of_static; apply Hm|rewrite <- elem_of_static; apply Hn].
Qed.

Definition test_ls0 : test_loop :=
  mk_loop_state (mk_cli_state test_zero test_table) NetlinkRules.no_interfaces false (-1) (-1) (-1) [].
Definition test_answers : init_answers := mk_init_answers true 5 true 3 true true 4 100 true true [].

Definition quiet_threads (ts : rsvp_timers timer_id timer_cb) : rsvp_timers timer_id timer_cb := ts.
(** The terminal has a line, the raw socket a PATH; then a signal. *)
Definition test_events (fd : Z) : fd_event (rsvp_timers timer_id timer_cb) :=
  mk_fd_event (if (fd =? 0) || (fd =? 3) then POLLIN else 0)
    (if fd =? 0 then Some (str "setup tunnel me you 7 x" ++ [10])
     else if fd =? 3 then Some (path_packet test_key 66) else None) None quiet_threads.
Definition test_inputs : list (loop_input (rsvp_timers timer_id timer_cb)) :=
  [mk_loop_input false (inl EINTR); mk_loop_input false (inr test_events); mk_loop_input true (inl 0)].

(** Both are handled, and the program exits. *)
Example main_runs :
  match main test_answers test_inputs test_ls0 with
  | Some (Exited code ls) => (code =? EXIT_SUCCESS) && negb (bool_decide (st_out (lp_daemon ls) = []))
  | _ => false
  end = true.
Proof. vm_cast_no_check (eq_refl true). Qed.

(** A check that inputs are as [inputs_ok] wants them, when the timer threads do
    nothing. *)
Definition fd_check (fd : Z) (ev : fd_event (rsvp_timers timer_id timer_cb)) (ls : test_loop) : bool :=
  no_bypass (lp_daemon ls)
  && (negb (fd =? STDIN_FILENO) || match line_command (take 255 <$> ev_read ev) with Some _ => true | None => false end)
  && (negb (fd =? lp_raw ls) || match ev_read ev with
                                | Some (b :: bs) => packet_check (take MAX_RSVP_PACKET_SIZE (b :: bs))
                                | _ => true
                                end)
  && match ev_netlink ev with None => true | Some _ => false end
  && (negb (fd =? lp_pipe ls) || (unread (lp_daemon ls) =? 0)%nat).

Fixpoint fds_check (evs : Z → fd_event (rsvp_timers timer_id timer_cb)) (fds : list Z) (ls : test_loop) : bool :=
  match fds with
  | [] => true
  | fd :: fds =>
      fd_check fd (evs fd) ls
      && match handle_fd fd (evs fd) (let_threads (evs fd) ls) with
         | Some ls' => fds_check evs fds ls'
         | None => true
         end
  end.

Fixpoint inputs_check (inputs : list (loop_input (rsvp_timers timer_id timer_cb))) (ls : test_loop) : bool :=
  match inputs with
  | [] => true
  | i :: inputs =>
      li_stop i
      || match li_poll i with
         | inl errno => inputs_check inputs ls
         | inr evs => fds_check evs (poll_fds ls) ls
             && match handle_fds evs (poll_fds ls) ls with
                | Some ls' => inputs_check inputs ls'
                | None => true
                end
         end
  end.

Definition quiet (i : loop_input (rsvp_timers timer_id timer_cb)) : Prop :=
  match li_poll i with inl _ => True | inr evs => ∀ fd, ev_threads (evs fd) = quiet_threads end.

Lemma quiet_state ev (ls : test_loop) : ev_threads ev = quiet_threads → lp_daemon (let_threads ev ls) = lp_daemon ls.
Proof.
  intros E. unfold let_threads, set_daemon, lp_daemon. simpl. rewrite E. by destruct (cs_daemon (lp_cli ls)).
Qed.

Lemma fd_check_ok fd ev (ls : test_loop) :
  loop_ok ls → ev_threads ev = quiet_threads → fd_check fd ev ls = true → fd_ok fd ev ls.
Proof.
  intros Hl Hq [[[[Hc Hin]%andb_prop Hraw]%andb_prop Hnl]%andb_prop Hpipe]%andb_prop.
  pose proof (quiet_state ev ls Hq) as Es. pose proof (lk_daemon _ Hl) as Hr.
  split; rewrite ?Es.
  - rewrite Hq. split; [|by left]. apply (ti_inv_ok _ (inv_timers _ _ (reachable_inv _ Hr))).
  - intros ->. destruct (line_command _) as [c|]; [|discriminate]. exists c. split; [done|].
    destruct c; try done. by apply no_bypass_spares.
  - intros ->. rewrite Z.eqb_refl in Hraw. cbn [negb orb] in Hraw. intros b bs Eb. rewrite Eb in Hraw.
    refine (event_check_ok (lp_daemon ls) (ReceivePacket (take MAX_RSVP_PACKET_SIZE (b :: bs))) _ _);
      [by apply reachable_inv|]. unfold event_check. rewrite Hc. exact Hraw.
  - intros r Er. by rewrite Er in *.
  - intros ->. rewrite Z.eqb_refl in Hpipe. cbn [negb orb] in Hpipe. apply Nat.eqb_eq in Hpipe. by rewrite Hpipe.
Qed.

Lemma fds_check_ok evs fds (ls : test_loop) :
  loop_ok ls → (∀ fd, ev_threads (evs fd) = quiet_threads) → fds_check evs fds ls = true → fds_ok evs fds ls.
Proof.
  revert ls. induction fds as [|fd fds IH]; intros ls Hl Hq; simpl; [done|].
  intros [Hc Hrest]%andb_prop. pose proof (fd_check_ok fd (evs fd) ls Hl (Hq fd) Hc) as Ho.
  split; [done|]. intros ls' E. destruct (handle_fd_ok fd (evs fd) ls Hl Ho) as (ls1 & E1 & Hl1 & _).
  rewrite E in E1. injection E1 as <-. apply IH; [done..|]. by rewrite E in Hrest.
Qed.

Lemma inputs_check_ok inputs (ls : test_loop) :
  loop_ok ls → Forall quiet inputs → inputs_check inputs ls = true → inputs_ok inputs ls.
Proof.
  intros Hl Hq. revert ls Hl. induction Hq as [|i inputs Hi _ IH]; intros ls Hl; simpl; [done|].
  intros [->|Hc]%orb_prop; [by left|right]. unfold quiet in Hi.
  destruct (li_poll i) as [errno|evs]; [intros _; by apply IH|].
  apply andb_prop in Hc as [Hc Hrest]. pose proof (fds_check_ok evs _ ls Hl Hi Hc) as Ho.
  split; [done|]. intros ls' E. destruct (handle_fds_ok evs _ ls Hl Ho) as (ls1 & E1 & Hl1 & _).
  rewrite E in E1. injection E1 as <-. apply IH; [done|]. by rewrite E in Hrest.
Qed.

Lemma test_main_start :
  ∃ ls, main_start test_answers test_ls0 = Some (0, ls) ∧ loop_ok ls
    ∧ inputs_check test_inputs (loop_start ls) = true.
Proof.
  destruct (main_start_ok test_answers test_ls0) as (rc & ls & E & Erc & Hl);
    [exact test_static_zero|exact NetlinkRules.no_interfaces_ok|by constructor|].
  assert (match main_start test_answers test_ls0 with
          | Some (_, ls) => inputs_check test_inputs (loop_start ls)
          | None => false end = true) as Hc by (vm_cast_no_check (eq_refl true)).
  rewrite E in Hc. change (init_fails test_answers) with false in Erc. subst rc.
  exists ls. split; [exact E|]. split; [exact (proj1 (Hl eq_refl))|exact Hc].
Qed.

Lemma test_inputs_quiet : Forall quiet test_inputs.
Proof. by repeat constructor. Qed.

Lemma loop_ok_start (ls : test_loop) : loop_ok ls → loop_ok (loop_start ls).
Proof. by intros []. Qed.

Lemma event_loop_safe_witness :
  ∃ ls o, main_start test_answers test_ls0 = Some (0, ls)
    ∧ dispatch_loop test_inputs (loop_start ls) = Some o ∧ loop_ok (outcome_state o).
Proof.
  destruct test_main_start as (ls & E & Hl & Hc).
  pose proof (loop_ok_start ls Hl) as Hl1.
  destruct (event_loop_safe test_inputs (loop_start ls) Hl1
    (inputs_check_ok _ _ Hl1 test_inputs_quiet Hc)) as (o & Eo & Ho & _).
  exists ls, o. split; [exact E|]. split; [exact Eo|exact Ho].
Defined.

Lemma main_completes_witness :
  ∃ ls, main test_answers test_inputs test_ls0 = Some (Exited EXIT_SUCCESS ls) ∧ released ls.
Proof.
  destruct (main_completes test_answers test_inputs test_ls0) as (r & E & Hr);
    [exact test_static_zero|exact NetlinkRules.no_interfaces_ok|by constructor| |].
  - intros ls E. destruct test_main_start as (ls1 & E1 & Hl & Hc). rewrite E in E1. injection E1 as <-.
    exact (inputs_check_ok _ _ (loop_ok_start ls Hl) test_inputs_quiet Hc).
  - pose proof main_runs as Hm. rewrite E in Hm. destruct r as [code ls|]; [|discriminate Hm].
    destruct Hr as [[Hf _]|(_ & -> & Hrel)]; [discriminate Hf|]. exists ls. split; [exact E|exact Hrel].
Defined.

Lemma hang_up_discards_input_witness :
  handle_fd 0 (mk_fd_event (POLLIN + POLLHUP) (Some (str "show psb")) None quiet_threads) test_ls0
  = Some (test_ls0 <| lp_stdin := false |>).
Proof. apply (hang_up_discards_input 0). discriminate. Defined.

Lemma terminal_read_fails (ls : test_loop) :
  handle_fd 0 (mk_fd_event POLLIN None None quiet_threads) ls = Some (ls <| lp_stdin := false |>).
Proof. destruct ls as [[]]. unfold handle_fd. simpl. unfold set_field. simpl. by rewrite app_nil_r. Qed.

Lemma low_descriptor_no_timers_witness :
  ∃ ls, let ls0 := test_ls0 <| lp_pipe := 0 |> in
    handle_fd 0 (mk_fd_event POLLIN None None quiet_threads) ls0 = Some ls
    ∧ unread (lp_daemon ls) = unread (lp_daemon ls0).
Proof.
  pose proof (terminal_read_fails (test_ls0 <| lp_pipe := 0 |>)) as E.
  eexists. split; [exact E|]. refine (low_descriptor_no_timers 0 _ _ _ _ E). reflexivity.
Defined.
