(* ===== verification/UnitTests.v ===== *)
(** * The unit tests of the repository, run on the model (src/tests/)

    test_label_mgr.c, test_builder.c, test_parser.c, test_if.c and
    test_state_db.c, test by test.  A test gives the list of the outcomes of
    its assertions; a read through NULL or outside a buffer stops the run.
    Every assertion of the five programs holds of the model. *)

From Stdlib Require Import String SpecFloat.
From stdpp Require Import base numbers list option gmap sets.
From S2P Require Import Prelude Wire Protocol LabelMgr WheelTimer Timers Builder SendPacket Parser.
From S2P Require Import Interfaces StateDb Timing State Messages StateMachine Hello.
From S2P Require Import RsvpIf Scan Printf.

(** A test on the state [S] of the unit under test. *)
Notation test S := (M S (list bool)).

(** The tests of a program in order; a crash ends it. *)
Fixpoint run_tests {S} (ts : list (test S)) (s : S) : list (option (list bool)) :=
  match ts with
  | [] => []
  | t :: ts =>
      match t s with
      | Some (r, s) => Some r :: run_tests ts s
      | None => [None]
      end
  end.
(** No test crashes and no assertion fails. *)
Definition all_pass (rs : list (option (list bool))) : bool :=
  forallb (λ r, match r with Some l => forallb (λ b : bool, b) l | None => false end) rs.

(** ASSERT_NE, ASSERT_NOTNULL. *)
Definition ne (a b : Z) : bool := negb (a =? b).
Definition found {A} (o : option A) : bool := match o with Some _ => true | None => false end.
(** [inet_aton] of a dotted address. *)
Definition ia (a b c d : Z) : Z := a + b * 2 ^ 8 + c * 2 ^ 16 + d * 2 ^ 24.

(** ** test_label_mgr.c *)

Module LabelTests.
Definition init (min max : Z) : M label_mgr () := modify (label_mgr_init true min max).
Definition alloc : M label_mgr Z := label_mgr_alloc.
Definition free (label : Z) : M label_mgr () := update (λ s, label_mgr_free s label).

Definition test_alloc_returns_value_in_range : test label_mgr :=
  init 1000 2000 ;;
  label ← alloc;
  mret [1000 <=? label; label <=? 2000].

Definition test_alloc_sequential_unique : test label_mgr :=
  init 100 200 ;;
  a ← alloc; b ← alloc;
  mret [ne a 0; ne b 0; ne a b].

Definition test_free_and_realloc : test label_mgr :=
  init 500 600 ;;
  first ← alloc; second ← alloc;
  free first ;;
  reused ← alloc;
  mret [ne first 0; ne second 0; ne reused 0].

Definition test_pool_exhaustion_returns_zero : test label_mgr :=
  init 10 12 ;;
  l1 ← alloc; l2 ← alloc; l3 ← alloc; overflow ← alloc;
  mret [ne l1 0; ne l2 0; ne l3 0; overflow =? 0].

Definition test_free_does_not_crash_on_out_of_range : test label_mgr :=
  init 1000 2000 ;;
  free 0 ;; free 9999 ;;
  l ← alloc;
  mret [ne l 0].

Definition test_reinit_resets_pool : test label_mgr :=
  init 1 3 ;;
  alloc ;; alloc ;; alloc ;;
  l ← alloc;
  init 1 3 ;;
  l' ← alloc;
  mret [l =? 0; ne l' 0].

Definition test_label_mgr : list (test label_mgr) :=
  [test_alloc_returns_value_in_range; test_alloc_sequential_unique; test_free_and_realloc;
   test_pool_exhaustion_returns_zero; test_free_does_not_crash_on_out_of_range;
   test_reinit_resets_pool].
End LabelTests.

(** ** test_builder.c

    The builder keeps no state between the tests. *)

Module BuilderTests.
(** The buffer after [rsvp_builder_finalize], with the length it returns. *)
Definition finish (b : rsvp_builder) : nat * list Z :=
  let '(len, b) := rsvp_builder_finalize b in (len, b_buffer b).
Definition hdr_of (buf : list Z) : M () rsvp_common_hdr := lift (load_struct rsvp_common_hdr buf 0).

Definition build_minimal_path (size : nat) : rsvp_builder :=
  let dest := ia 192 168 1 1 in
  rsvp_builder_init size RSVP_MSG_PATH
  ▷ (λ b, rsvp_builder_add_session_ipv4 b dest 42 dest)
  ▷ (λ b, rsvp_builder_add_hop_ipv4 b (ia 10 0 0 1) 1)
  ▷ (λ b, rsvp_builder_add_label_request b 2048).

Definition test_init_msg_type : test () :=
  let '(len, buf) := finish (rsvp_builder_init 256 RSVP_MSG_PATH) in
  hdr ← hdr_of buf;
  mret [(0 <? len)%nat; hdr_msg_type hdr =? RSVP_MSG_PATH].

Definition test_finalize_sets_length : test () :=
  let '(len, buf) := finish (build_minimal_path 256) in
  hdr ← hdr_of buf;
  mret [ntohs (hdr_length hdr) =? Z.of_nat len].

Definition test_checksum_nonzero : test () :=
  hdr ← hdr_of (finish (build_minimal_path 256)).2;
  mret [ne (hdr_checksum hdr) 0].

Definition test_version_is_one : test () :=
  hdr ← hdr_of (finish (rsvp_builder_init 128 RSVP_MSG_RESV)).2;
  mret [Z.land (Z.shiftr (hdr_ver_flags hdr) 4) 15 =? 1].

Definition test_add_session_encodes_tunnel_id : test () :=
  let dest := ia 10 1 2 3 in
  let buf := (finish (rsvp_builder_init 256 RSVP_MSG_PATH
                      ▷ (λ b, rsvp_builder_add_session_ipv4 b dest 77 dest))).2 in
  sess ← lift (load_struct rsvp_session_ipv4 buf (sizeof rsvp_common_hdr + 4));
  mret [ntohs (sess_tunnel_id sess) =? 77; sess_dest_addr sess =? dest].

(** The scan of the tests for an object of class [class]: its first byte. *)
Fixpoint scan_object (fuel : nat) (buf : list Z) (class : Z) (p last : nat) : option nat :=
  match fuel with
  | O => None
  | S fuel =>
      if (p + 4 <? last)%nat then
        obj_len ← load 2 buf p; obj_class ← load 1 buf (p + 2);
        if obj_class =? class then Some p
        else if ntohs obj_len <? 4 then None
        else scan_object fuel buf class (p + Z.to_nat (ntohs obj_len)) last
      else None
  end.
Definition find_object (buf : list Z) (class : Z) : option nat :=
  hdr ← load_struct rsvp_common_hdr buf 0;
  scan_object (length buf) buf class (sizeof rsvp_common_hdr) (Z.to_nat (ntohs (hdr_length hdr))).

Definition test_add_hop_encodes_address : test () :=
  let dest := ia 10 0 0 2 in let hop := ia 172 16 0 1 in
  let buf := (finish (rsvp_builder_init 256 RSVP_MSG_PATH
                      ▷ (λ b, rsvp_builder_add_session_ipv4 b dest 1 dest)
                      ▷ (λ b, rsvp_builder_add_hop_ipv4 b hop 3))).2 in
  match find_object buf RSVP_CLASS_HOP with
  | Some p => h ← lift (load_struct rsvp_hop_ipv4 buf (p + 4)); mret [hop_neighbor_addr h =? hop; true]
  | None => mret [false]
  end.

Definition test_add_label_encodes_value : test () :=
  let dest := ia 10 0 0 2 in
  let buf := (finish (rsvp_builder_init 256 RSVP_MSG_RESV
                      ▷ (λ b, rsvp_builder_add_session_ipv4 b dest 5 dest)
                      ▷ (λ b, rsvp_builder_add_label_ipv4 b 12345))).2 in
  match find_object buf RSVP_CLASS_LABEL with
  | Some p => label ← lift (load 4 buf (p + 4)); mret [ntohl label =? 12345; true]
  | None => mret [false]
  end.

Definition test_add_hello_encodes_instances : test () :=
  let buf := (finish (rsvp_builder_init 128 RSVP_MSG_HELLO
    ▷ (λ b, rsvp_builder_add_hello b 2864434397 287454020 RSVP_HELLO_CTYPE_REQUEST))).2 in
  ho ← lift (load_struct rsvp_hello_obj buf (sizeof rsvp_common_hdr + 4));
  mret [ntohl (hello_src_instance ho) =? 2864434397; ntohl (hello_dst_instance ho) =? 287454020].

Definition test_hello_ctype_set_correctly : test () :=
  let buf := (finish (rsvp_builder_init 128 RSVP_MSG_HELLO
    ▷ (λ b, rsvp_builder_add_hello b 1 2 RSVP_HELLO_CTYPE_ACK))).2 in
  class ← lift (load 1 buf (sizeof rsvp_common_hdr + 2));
  c_type ← lift (load 1 buf (sizeof rsvp_common_hdr + 3));
  mret [class =? RSVP_CLASS_HELLO; c_type =? RSVP_HELLO_CTYPE_ACK].

Definition test_buffer_overflow_returns_error : test () :=
  let addr := ia 1 2 3 4 in
  let '(rc, _) := rsvp_builder_add_session_ipv4 (rsvp_builder_init 8 RSVP_MSG_PATH) addr 1 addr in
  mret [ne rc 0].

Definition test_resv_msg_type : test () :=
  hdr ← hdr_of (finish (rsvp_builder_init 64 RSVP_MSG_RESV)).2;
  mret [hdr_msg_type hdr =? RSVP_MSG_RESV].

Definition test_pathtear_msg_type : test () :=
  hdr ← hdr_of (finish (rsvp_builder_init 64 RSVP_MSG_PATHTEAR)).2;
  mret [hdr_msg_type hdr =? RSVP_MSG_PATHTEAR].

Definition test_builder : list (test ()) :=
  [test_init_msg_type; test_finalize_sets_length; test_checksum_nonzero; test_version_is_one;
   test_add_session_encodes_tunnel_id; test_add_hop_encodes_address; test_add_label_encodes_value;
   test_add_hello_encodes_instances; test_hello_ctype_set_correctly;
   test_buffer_overflow_returns_error; test_resv_msg_type; test_pathtear_msg_type].
End BuilderTests.

(** ** test_parser.c

    The program does not compile: [hop_obj], [label_obj] and [ero_count] are no
    members of [struct rsvp_message_info], nor are [l_type], [address] and
    [prefix] members of [struct rsvp_ero_ipv4_subobj].  The members that hold
    these contents ([hop_v4], [label], [ero_len]; [type], [addr], [prefix_len])
    are read in their place. *)

Module ParserTests.
Definition wrap_in_ip (rsvp : list Z) (src dst : Z) : list Z :=
  [69; 0] ++ le_bytes 2 (htons (Z.of_nat (20 + length rsvp))) ++ [0; 0; 0; 0; 0; 46; 0; 0]
  ++ le_bytes 4 src ++ le_bytes 4 dst ++ rsvp.
Definition finished (b : rsvp_builder) : list Z :=
  let '(n, b) := rsvp_builder_finalize b in take n (b_buffer b).
Definition add_sender (class addr lsp_id : Z) (b : rsvp_builder) :=
  rsvp_builder_add_obj b class 7 (store_struct (mk_rsvp_sender_ipv4 addr 0 (htons lsp_id))).

(** The packet of a message and what the parser makes of it. *)
Definition parse (b : rsvp_builder) (src dst : Z) : M () (list Z * rsvp_error_t * rsvp_message_info) :=
  let pkt := wrap_in_ip (finished b) src dst in
  '(rc, info) ← lift (rsvp_parse_packet pkt (length pkt));
  mret (pkt, rc, info).
Definition is_success (rc : rsvp_error_t) : bool := bool_decide (rc = RSVP_SUCCESS).
(** [*p] for a pointer into the packet. *)
Definition deref (T : Type) `{Wire T} (pkt : list Z) (p : option nat) : M () T :=
  lift (o ← p; load_struct T pkt o).

Definition test_parse_valid_path : test () :=
  let src := ia 10 0 0 1 in let dst := ia 10 0 0 2 in
  '(pkt, rc, info) ← parse (rsvp_builder_init 256 RSVP_MSG_PATH
    ▷ (λ b, rsvp_builder_add_session_ipv4 b dst 99 dst)
    ▷ add_sender RSVP_CLASS_SENDER_TEMPLATE src 1
    ▷ (λ b, rsvp_builder_add_hop_ipv4 b src 1)
    ▷ (λ b, rsvp_builder_add_label_request b 2048)) src dst;
  hdr ← deref rsvp_common_hdr pkt (info_common_hdr info);
  let key := info_key info in
  mret [is_success rc; found (info_common_hdr info); hdr_msg_type hdr =? RSVP_MSG_PATH;
        ntohs (sess_tunnel_id (key_session key)) =? 99; snd_source_addr (key_sender key) =? src;
        ntohs (snd_lsp_id (key_sender key)) =? 1; found (info_hop_v4 info);
        found (info_label_req info)].

Definition test_parse_hello_request : test () :=
  '(pkt, rc, info) ← parse (rsvp_builder_init 64 RSVP_MSG_HELLO
    ▷ (λ b, rsvp_builder_add_hello b 3735928559 0 RSVP_HELLO_CTYPE_REQUEST))
    (ia 10 0 0 1) (ia 10 0 0 2);
  hdr ← deref rsvp_common_hdr pkt (info_common_hdr info);
  ho ← deref rsvp_hello_obj pkt (info_hello_obj info);
  mret [is_success rc; hdr_msg_type hdr =? RSVP_MSG_HELLO; found (info_hello_obj info);
        info_hello_ctype info =? RSVP_HELLO_CTYPE_REQUEST;
        ntohl (hello_src_instance ho) =? 3735928559].

Definition test_parse_hello_ack : test () :=
  '(pkt, _, info) ← parse (rsvp_builder_init 64 RSVP_MSG_HELLO
    ▷ (λ b, rsvp_builder_add_hello b 305419896 2882400001 RSVP_HELLO_CTYPE_ACK))
    (ia 10 0 0 1) (ia 10 0 0 2);
  ho ← deref rsvp_hello_obj pkt (info_hello_obj info);
  mret [info_hello_ctype info =? RSVP_HELLO_CTYPE_ACK; ntohl (hello_dst_instance ho) =? 2882400001].

Definition test_parse_resv : test () :=
  let src := ia 10 0 0 2 in let dst := ia 10 0 0 1 in
  '(pkt, rc, info) ← parse (rsvp_builder_init 256 RSVP_MSG_RESV
    ▷ (λ b, rsvp_builder_add_session_ipv4 b dst 7 dst)
    ▷ (λ b, rsvp_builder_add_hop_ipv4 b src 2)
    ▷ (λ b, rsvp_builder_add_style b RSVP_STYLE_FF)
    ▷ add_sender RSVP_CLASS_FILTER_SPEC dst 1
    ▷ (λ b, rsvp_builder_add_label_ipv4 b 5000)) src dst;
  hdr ← deref rsvp_common_hdr pkt (info_common_hdr info);
  mret [is_success rc; hdr_msg_type hdr =? RSVP_MSG_RESV; found (info_label info)].

Definition test_parse_pathtear : test () :=
  let src := ia 10 0 0 1 in let dst := ia 10 0 0 2 in
  '(pkt, rc, info) ← parse (rsvp_builder_init 256 RSVP_MSG_PATHTEAR
    ▷ (λ b, rsvp_builder_add_session_ipv4 b dst 3 dst)
    ▷ (λ b, rsvp_builder_add_hop_ipv4 b src 1)
    ▷ add_sender RSVP_CLASS_SENDER_TEMPLATE src 1) src dst;
  hdr ← deref rsvp_common_hdr pkt (info_common_hdr info);
  mret [is_success rc; hdr_msg_type hdr =? RSVP_MSG_PATHTEAR].

Definition test_parse_ero_single_hop : test () :=
  let src := ia 10 0 0 1 in let dst := ia 10 0 0 5 in let hop := ia 10 0 0 2 in
  '(pkt, rc, info) ← parse (rsvp_builder_init 256 RSVP_MSG_PATH
    ▷ (λ b, rsvp_builder_add_session_ipv4 b dst 10 dst)
    ▷ add_sender RSVP_CLASS_SENDER_TEMPLATE src 1
    ▷ (λ b, rsvp_builder_add_hop_ipv4 b src 1)
    ▷ (λ b, rsvp_builder_add_label_request b 2048)
    ▷ (λ b, rsvp_builder_add_ero b [mk_rsvp_ero_ipv4_subobj 1 8 hop 32 0])) src dst;
  first ← deref rsvp_ero_ipv4_subobj pkt (info_ero info);
  mret [(0 <? info_ero_len info)%nat; subobj_addr first =? hop].

Definition test_parse_truncated_rejected : test () :=
  let src := ia 10 0 0 1 in let dst := ia 10 0 0 2 in
  let buf := finished (rsvp_builder_init 256 RSVP_MSG_PATH
    ▷ (λ b, rsvp_builder_add_session_ipv4 b dst 1 dst)) in
  '(rc, _) ← lift (rsvp_parse_packet (wrap_in_ip buf src dst) 4);
  mret [negb (is_success rc)].

Definition test_parse_src_ip_captured : test () :=
  let src := ia 172 16 0 10 in
  '(_, _, info) ← parse (rsvp_builder_init 128 RSVP_MSG_HELLO
    ▷ (λ b, rsvp_builder_add_hello b 1 0 RSVP_HELLO_CTYPE_REQUEST)) src (ia 172 16 0 20);
  mret [info_src_ip info =? src].

Definition test_parser : list (test ()) :=
  [test_parse_valid_path; test_parse_hello_request; test_parse_hello_ack; test_parse_resv;
   test_parse_pathtear; test_parse_ero_single_hop; test_parse_truncated_rejected;
   test_parse_src_ip_captured].
End ParserTests.

(** ** test_if.c *)

Module IfTests.
(** The host knows none of the names. *)
#[local] Instance no_interfaces : IfEnv := {| if_nametoindex := λ _ _, 0 |}.

(** A constant of the program, [n] a whole number of bits per second. *)
Definition bps (n : Z) : double := binary_normalize 53 1024 n 0 false.
Definition deq (x y : double) : bool := SFeqb x y.

Definition enable (name : string) : M if_table (option nat) :=
  λ t, Some (rsvp_if_enable (str name) t).
Definition disable (name : string) : M if_table () := modify (rsvp_if_disable (str name)).
Definition set_bandwidth (name : string) (total reservable : Z) : M if_table () :=
  modify (rsvp_if_set_bandwidth (str name) (bps total) (bps reservable)).
Definition reserve_bw (ifindex : Z) (priority : nat) (bw : Z) : M if_table () :=
  modify (rsvp_if_reserve_bw ifindex priority (bps bw)).
Definition release_bw (ifindex : Z) (priority : nat) (bw : Z) : M if_table () :=
  modify (rsvp_if_release_bw ifindex priority (bps bw)).
Definition get_by_name (name : string) : M if_table (option nat) :=
  gets (λ t, rsvp_if_get_by_name t (str name)).
(** The entry behind a pointer, and a store to its interface number. *)
Definition entry (p : option nat) : M if_table rsvp_if :=
  i ← lift p; e ← gets (λ t, g_if_table t !! i); lift e.
Definition set_ifindex (p : option nat) (n : Z) : M if_table () :=
  i ← lift p; modify (if_update i (λ e, e <| if_ifindex := n |>)).
Definition reserved (e : rsvp_if) (priority : nat) : M if_table double :=
  lift (if_reserved_bw e !! priority).

Definition test_enable_creates_entry : test if_table :=
  modify rsvp_if_init ;;
  iface ← enable "eth0";
  e ← entry iface;
  modify rsvp_if_shutdown ;;
  mret [found iface; if_rsvp_enabled e; bool_decide (if_name e = str "eth0")].

Definition test_enable_idempotent : test if_table :=
  modify rsvp_if_init ;;
  a ← enable "eth1"; b ← enable "eth1";
  modify rsvp_if_shutdown ;;
  mret [bool_decide (a = b)].

Definition test_disable_clears_flag : test if_table :=
  modify rsvp_if_init ;;
  enable "eth2" ;; disable "eth2" ;;
  iface ← get_by_name "eth2";
  e ← entry iface;
  modify rsvp_if_shutdown ;;
  mret [found iface; negb (if_rsvp_enabled e)].

Definition test_get_by_name_nonexistent : test if_table :=
  modify rsvp_if_init ;;
  iface ← get_by_name "nonexistent0";
  modify rsvp_if_shutdown ;;
  mret [negb (found iface)].

Definition test_set_bandwidth_stored : test if_table :=
  modify rsvp_if_init ;;
  enable "eth3" ;; set_bandwidth "eth3" 1000000000 800000000 ;;
  iface ← get_by_name "eth3";
  e ← entry iface;
  modify rsvp_if_shutdown ;;
  mret [found iface; deq (if_total_bw e) (bps 1000000000); deq (if_reservable_bw e) (bps 800000000)].

Definition test_reserve_increases_reserved : test if_table :=
  modify rsvp_if_init ;;
  iface ← enable "eth4";
  set_ifindex iface 10 ;; set_bandwidth "eth4" 1000000000 1000000000 ;;
  reserve_bw 10 0 100000000 ;;
  e ← entry iface; first ← reserved e 0;
  reserve_bw 10 0 50000000 ;;
  e ← entry iface; second ← reserved e 0;
  modify rsvp_if_shutdown ;;
  mret [deq first (bps 100000000); deq second (bps 150000000)].

Definition test_release_decreases_reserved : test if_table :=
  modify rsvp_if_init ;;
  iface ← enable "eth5";
  set_ifindex iface 11 ;; set_bandwidth "eth5" 1000000000 1000000000 ;;
  reserve_bw 11 1 200000000 ;; release_bw 11 1 200000000 ;;
  e ← entry iface; r ← reserved e 1;
  modify rsvp_if_shutdown ;;
  mret [deq r dzero].

Definition test_available_bw_unreserved : test if_table :=
  modify rsvp_if_init ;;
  iface ← enable "eth6";
  set_ifindex iface 12 ;; set_bandwidth "eth6" 1000000000 1000000000 ;;
  avail ← gets (rsvp_if_available_bw 12 7);
  modify rsvp_if_shutdown ;;
  mret [deq avail (bps 1000000000)].

Definition test_available_bw_after_reservation : test if_table :=
  modify rsvp_if_init ;;
  iface ← enable "eth7";
  set_ifindex iface 13 ;; set_bandwidth "eth7" 1000000000 1000000000 ;;
  reserve_bw 13 0 300000000 ;; reserve_bw 13 4 100000000 ;;
  avail ← gets (rsvp_if_available_bw 13 7);
  modify rsvp_if_shutdown ;;
  mret [deq avail (bps 600000000)].

Definition test_table_full_returns_null : test if_table :=
  modify rsvp_if_init ;;
  iter (λ i, name ← lift (snprintf 16%nat "eth%d" [ArgInt i]);
             modify (snd ∘ rsvp_if_enable name)) (Z.of_nat <$> seq 0 RSVP_MAX_IF) ;;
  overflow ← enable "overflow0";
  modify rsvp_if_shutdown ;;
  mret [negb (found overflow)].

Definition test_disable_nonexistent_no_crash : test if_table :=
  modify rsvp_if_init ;;
  disable "ghost0" ;;
  modify rsvp_if_shutdown ;;
  mret [true].

Definition test_if : list (test if_table) :=
  [test_enable_creates_entry; test_enable_idempotent; test_disable_clears_flag;
   test_get_by_name_nonexistent; test_set_bandwidth_stored; test_reserve_increases_reserved;
   test_release_decreases_reserved; test_available_bw_unreserved;
   test_available_bw_after_reservation; test_table_full_returns_null;
   test_disable_nonexistent_no_crash].
End IfTests.

(** ** test_state_db.c

    No wheel has been created: the timer functions return at once. *)

Definition no_wheel : TimerSys () timer_id timer_cb := {|
  ti_start ts _ _ _ _ := Some ts;
  ti_stop ts _ := Some ts;
  ti_reset ts _ _ := Some (false, ts);
  ti_active _ _ := Some false;
  ti_alloc _ ts := ts;
  ti_free _ ts := Some ts;
  ti_read _ := None;
  ti_expired _ := 0%nat;
|}.

(** The state of the programs that link no wheel, and the host of mocks.c:
    [hal_netlink_is_local_addr] gives [mock_is_local], every route goes over
    the interface 5, allocations and sends succeed. *)
Notation mock_state := (state () label_mgr).
Definition mock_env (mock_is_local : bool) : Env := {|
  env_local_addr := λ _ _, Some (ia 10 0 0 1);
  env_egress_if := λ _ _, 5;
  env_is_local_addr := λ _ _, mock_is_local;
  env_rand := λ n, Z.of_nat n + 1;
  env_rand_fuel := 1;
  env_calloc := λ _ D, Some (fresh D);
  env_strdup := λ _, true;
  env_send := λ _, (true, true);
  env_time := λ _, 1000;
|}.
Definition mock_start : mock_state :=
  mk_state empty_table empty_table empty_table () label_mgr_start 1
    (replicate RSVP_MAX_NEIGHBORS zero_neighbor) 0 0 [].

(** The path blocks met by the walk over the 1024 buckets. *)
Definition count_psbs (P : rsvp_psb → bool) : M mock_state nat :=
  gets (λ s, length (List.filter P
    (omap (λ l, tb_heap (st_psb s) !! l) (mjoin (tb_buckets (st_psb s)))))).

Module StateDbTests.
#[local] Existing Instance no_wheel.
#[local] Instance host_env : Env := mock_env true.

Definition make_key (dest tunnel_id src lsp_id : Z) : rsvp_path_key :=
  mk_rsvp_path_key (mk_rsvp_session_ipv4 dest 0 (htons tunnel_id) 0)
    (mk_rsvp_sender_ipv4 src 0 (htons lsp_id)).

Definition test_psb_create_and_find : test mock_state :=
  rsvp_state_db_init ;;
  let k := make_key (ia 10 0 0 2) 10 (ia 10 0 0 1) 1 in
  psb ← rsvp_psb_create k;
  f ← rsvp_psb_find k;
  l ← lift f; p ← psb_get l;
  rsvp_state_db_cleanup ;;
  mret [found psb; found f; bool_decide (f = psb);
        ntohs (sess_tunnel_id (key_session (psb_key p))) =? 10].

Definition test_psb_find_nonexistent : test mock_state :=
  rsvp_state_db_init ;;
  f ← rsvp_psb_find (make_key (ia 10 0 0 3) 99 (ia 10 0 0 1) 1);
  rsvp_state_db_cleanup ;;
  mret [negb (found f)].

Definition test_psb_delete : test mock_state :=
  rsvp_state_db_init ;;
  let k := make_key (ia 10 0 0 4) 20 (ia 10 0 0 1) 2 in
  rsvp_psb_create k ;;
  psb ← rsvp_psb_find k;
  l ← lift psb; rsvp_psb_delete l ;;
  after ← rsvp_psb_find k;
  rsvp_state_db_cleanup ;;
  mret [found psb; negb (found after)].

Definition test_psb_find_by_id : test mock_state :=
  rsvp_state_db_init ;;
  rsvp_psb_create (make_key (ia 10 0 0 5) 30 (ia 10 0 0 1) 5) ;;
  f ← rsvp_psb_find_by_id 30 5;
  l ← lift f; p ← psb_get l;
  no_ids ← rsvp_psb_find_by_id 30 999;
  no_tunnel ← rsvp_psb_find_by_id 777 5;
  rsvp_state_db_cleanup ;;
  mret [found f; ntohs (snd_lsp_id (key_sender (psb_key p))) =? 5; negb (found no_ids);
        negb (found no_tunnel)].

Definition test_psb_multiple_entries : test mock_state :=
  rsvp_state_db_init ;;
  let k n := make_key (ia 10 0 0 2) n (ia 10 0 0 1) 1 in
  rsvp_psb_create (k 1) ;; rsvp_psb_create (k 2) ;; rsvp_psb_create (k 3) ;;
  f1 ← rsvp_psb_find (k 1); f2 ← rsvp_psb_find (k 2); f3 ← rsvp_psb_find (k 3);
  l ← lift f2; rsvp_psb_delete l ;;
  g1 ← rsvp_psb_find (k 1); g2 ← rsvp_psb_find (k 2); g3 ← rsvp_psb_find (k 3);
  rsvp_state_db_cleanup ;;
  mret [found f1; found f2; found f3; found g1; negb (found g2); found g3].

Definition test_psb_bucket_iterator : test mock_state :=
  rsvp_state_db_init ;;
  iter (λ i, rsvp_psb_create (make_key (ia 10 0 i 2) (100 + i) (ia 10 0 0 1) (i + 1)) ;; mret ())
    [0; 1; 2; 3; 4] ;;
  n ← count_psbs (λ _, true);
  rsvp_state_db_cleanup ;;
  mret [(n =? 5)%nat].

Definition test_rsb_create_find_delete : test mock_state :=
  rsvp_state_db_init ;;
  let k := make_key (ia 10 0 0 2) 50 (ia 10 0 0 1) 1 in
  rsb ← rsvp_rsb_create k;
  f ← rsvp_rsb_find k;
  l ← lift rsb; rsvp_rsb_delete l ;;
  after ← rsvp_rsb_find k;
  rsvp_state_db_cleanup ;;
  mret [found rsb; found f; negb (found after)].

Definition test_rsb_find_nonexistent : test mock_state :=
  rsvp_state_db_init ;;
  f ← rsvp_rsb_find (make_key (ia 10 0 0 6) 60 (ia 10 0 0 1) 7);
  rsvp_state_db_cleanup ;;
  mret [negb (found f)].

Definition test_bsb_create_find_delete : test mock_state :=
  rsvp_state_db_init ;;
  let k := make_key (ia 10 0 0 7) 70 (ia 10 0 0 1) 3 in
  bsb ← rsvp_bsb_create k;
  f ← rsvp_bsb_find k;
  l ← lift bsb; rsvp_bsb_delete l ;;
  after ← rsvp_bsb_find k;
  rsvp_state_db_cleanup ;;
  mret [found bsb; found f; negb (found after)].

Definition test_state_db : list (test mock_state) :=
  [test_psb_create_and_find; test_psb_find_nonexistent; test_psb_delete; test_psb_find_by_id;
   test_psb_multiple_entries; test_psb_bucket_iterator; test_rsb_create_find_delete;
   test_rsb_find_nonexistent; test_bsb_create_find_delete].
End StateDbTests.

(** ** The verdicts *)

Lemma label_tests_pass : all_pass (run_tests LabelTests.test_label_mgr label_mgr_start) = true.
Proof. vm_compute. reflexivity. Qed.

Lemma builder_tests_pass : all_pass (run_tests BuilderTests.test_builder ()) = true.
Proof. vm_compute. reflexivity. Qed.

Lemma parser_tests_pass : all_pass (run_tests ParserTests.test_parser ()) = true.
Proof. vm_compute. reflexivity. Qed.

Lemma if_tests_pass : all_pass (run_tests IfTests.test_if (mk_if_table [] 0 0)) = true.
Proof. vm_compute. reflexivity. Qed.

Lemma state_db_tests_pass : all_pass (run_tests StateDbTests.test_state_db mock_start) = true.
Proof. vm_compute. reflexivity. Qed.
