(* ===== verification/FlowTests.v ===== *)
(** * The functional tests of the repository, run on the model (src/tests/)

    test_state_machine.c, test_mbb_frr.c and test_hello.c, test by test, with
    the stubs of mocks.c for the host.  A test gives the list of the outcomes
    of its assertions; a read through NULL stops the run.  The test programs
    never call [rsvp_timer_init], so that every timer function returns at once.
    The verdicts at the end say which assertions hold. *)

From Stdlib Require Import String.
From stdpp Require Import base numbers list option gmap sets.
From S2P Require Import Prelude Wire Protocol LabelMgr WheelTimer Timers Builder SendPacket Parser.
From S2P Require Import Interfaces StateDb Timing State Messages StateMachine Hello Scan Printf Display.
From S2P Require Import UnitTests.
Import ParserTests.

(** ** The stubs (mocks.c) *)

#[local] Existing Instance no_wheel.

Section tests.
Variable mock_is_local : bool.

#[local] Instance host_env : Env := mock_env mock_is_local.

(** The counters are read off the output. *)
Definition mock_reset : M mock_state () := modify (λ s, s <| st_out := [] |>).
Definition count (P : output → bool) : M mock_state nat :=
  gets (λ s, length (List.filter P (st_out s))).
Definition mock_pkt_count := count (λ o, match o with Packet _ => true | _ => false end).
Definition mock_mpls_install_calls := count (λ o, match o with MplsInstall _ _ _ _ _ => true | _ => false end).
Definition mock_mpls_remove_calls := count (λ o, match o with MplsRemove _ _ => true | _ => false end).

(** ** Helpers of the tests *)

Definition fake_ip (src dst : Z) : list Z :=
  [69; 0; 0; 0; 0; 0; 0; 0; 0; 46; 0; 0] ++ le_bytes 4 src ++ le_bytes 4 dst.

(** [parse_rsvp] and [rsvp_handle_message]. *)
Definition inject (rsvp : list Z) (src dst : Z) : M mock_state rsvp_error_t :=
  let pkt := fake_ip src dst ++ rsvp in
  '(rc, info) ← lift (rsvp_parse_packet pkt (length pkt));
  rsvp_handle_message pkt info ;; mret rc.

Definition build_path (src dst tunnel_id lsp_id : Z) : list Z :=
  finished (rsvp_builder_init 256 RSVP_MSG_PATH
    ▷ (λ b, rsvp_builder_add_session_ipv4 b dst tunnel_id dst)
    ▷ add_sender RSVP_CLASS_SENDER_TEMPLATE src lsp_id
    ▷ (λ b, rsvp_builder_add_hop_ipv4 b src 1)
    ▷ (λ b, rsvp_builder_add_label_request b 2048)).

Definition build_resv (src dst tunnel_id lsp_id label : Z) : list Z :=
  finished (rsvp_builder_init 256 RSVP_MSG_RESV
    ▷ (λ b, rsvp_builder_add_session_ipv4 b dst tunnel_id dst)
    ▷ (λ b, rsvp_builder_add_hop_ipv4 b src 2)
    ▷ (λ b, rsvp_builder_add_style b RSVP_STYLE_FF)
    ▷ add_sender RSVP_CLASS_FILTER_SPEC dst lsp_id
    ▷ (λ b, rsvp_builder_add_label_ipv4 b label)).

Definition set_up : M mock_state () :=
  rsvp_state_db_init ;;
  modify (λ s, s <| st_labels ::= label_mgr_init true 1000 2000 |>) ;; mock_reset.

Definition test_key (src dst tunnel_id lsp_id : Z) : rsvp_path_key :=
  mk_rsvp_path_key (mk_rsvp_session_ipv4 dst 0 (htons tunnel_id) 0)
    (mk_rsvp_sender_ipv4 src 0 (htons lsp_id)).
Definition path_key (src dst tunnel_id lsp_id : Z) : rsvp_path_key :=
  mk_rsvp_path_key (mk_rsvp_session_ipv4 dst 0 (htons tunnel_id) dst)
    (mk_rsvp_sender_ipv4 src 0 (htons lsp_id)).

Definition some_calls (n : nat) : bool := (0 <? n)%nat.

(** ** test_state_machine.c *)

Definition test_path_at_egress_creates_psb_and_sends_resv : test mock_state :=
  set_up ;;
  let src := ia 10 0 0 1 in let dst := ia 10 0 0 2 in
  rc ← inject (build_path src dst 11 1) src dst;
  psb ← rsvp_psb_find (test_key src dst 11 1);
  n ← mock_pkt_count;
  rsvp_state_db_cleanup ;;
  mret [bool_decide (rc = RSVP_SUCCESS); found psb; some_calls n].

Definition test_path_at_transit_creates_psb_and_forwards : test mock_state :=
  set_up ;;
  let src := ia 10 0 0 1 in let dst := ia 10 0 0 5 in
  inject (build_path src dst 12 1) src dst ;;
  psb ← rsvp_psb_find (test_key src dst 12 1);
  n ← mock_pkt_count;
  rsvp_state_db_cleanup ;;
  mret [found psb; some_calls n].

Definition test_path_refresh_does_not_duplicate_psb : test mock_state :=
  set_up ;;
  let src := ia 10 0 0 1 in let dst := ia 10 0 0 3 in
  inject (build_path src dst 13 1) src dst ;;
  inject (build_path src dst 13 1) src dst ;;
  n ← count_psbs (λ p, ntohs (sess_tunnel_id (key_session (psb_key p))) =? 13);
  rsvp_state_db_cleanup ;;
  mret [(n =? 1)%nat].

Definition test_resv_at_ingress_installs_mpls : test mock_state :=
  set_up ;;
  let src := ia 10 0 0 1 in let dst := ia 10 0 0 2 in
  rsvp_initiate_path src dst 14 (Some (str "test_ingress_resv")) ;;
  psb ← rsvp_psb_find_by_id 14 1;
  mock_reset ;;
  inject (build_resv dst src 14 1 5000) dst src ;;
  n ← mock_mpls_install_calls;
  rsvp_state_db_cleanup ;;
  mret [found psb; some_calls n].

Definition test_resv_at_transit_allocates_label_and_propagates : test mock_state :=
  set_up ;;
  let src := ia 10 0 0 1 in let dst := ia 10 0 0 5 in let downstream := ia 10 0 0 4 in
  inject (build_path src dst 15 1) src dst ;;
  mock_reset ;;
  inject (build_resv downstream src 15 1 7000) downstream src ;;
  installs ← mock_mpls_install_calls;
  n ← mock_pkt_count;
  rsvp_state_db_cleanup ;;
  mret [some_calls installs; some_calls n].

Definition test_pathtear_removes_psb : test mock_state :=
  set_up ;;
  let src := ia 10 0 0 1 in let dst := ia 10 0 0 5 in
  inject (build_path src dst 16 1) src dst ;;
  before ← rsvp_psb_find (path_key src dst 16 1);
  inject (finished (rsvp_builder_init 256 RSVP_MSG_PATHTEAR
    ▷ (λ b, rsvp_builder_add_session_ipv4 b dst 16 dst)
    ▷ (λ b, rsvp_builder_add_hop_ipv4 b src 1)
    ▷ add_sender RSVP_CLASS_SENDER_TEMPLATE src 1)) src dst ;;
  after ← rsvp_psb_find (path_key src dst 16 1);
  rsvp_state_db_cleanup ;;
  mret [found before; negb (found after)].

Definition test_resvtear_removes_rsb : test mock_state :=
  set_up ;;
  let src := ia 10 0 0 1 in let dst := ia 10 0 0 5 in let downstream := ia 10 0 0 4 in
  inject (build_path src dst 17 1) src dst ;;
  inject (build_resv downstream src 17 1 8000) downstream src ;;
  before ← rsvp_rsb_find (path_key src dst 17 1);
  inject (finished (rsvp_builder_init 256 RSVP_MSG_RESVTEAR
    ▷ (λ b, rsvp_builder_add_session_ipv4 b dst 17 dst)
    ▷ (λ b, rsvp_builder_add_hop_ipv4 b downstream 2)
    ▷ (λ b, rsvp_builder_add_style b RSVP_STYLE_FF)
    ▷ add_sender RSVP_CLASS_FILTER_SPEC dst 1)) downstream src ;;
  after ← rsvp_rsb_find (path_key src dst 17 1);
  removes ← mock_mpls_remove_calls;
  rsvp_state_db_cleanup ;;
  mret [found before; negb (found after); some_calls removes].

Definition test_initiate_path_creates_psb : test mock_state :=
  set_up ;;
  rsvp_initiate_path (ia 10 0 0 1) (ia 10 0 0 9) 18 (Some (str "smoke_test")) ;;
  psb ← rsvp_psb_find_by_id 18 1;
  l ← lift psb; p ← psb_get l;
  n ← mock_pkt_count;
  rsvp_state_db_cleanup ;;
  mret [found psb; psb_is_ingress p; some_calls n].

Definition test_teardown_path_sends_pathtear : test mock_state :=
  set_up ;;
  rsvp_initiate_path (ia 10 0 0 1) (ia 10 0 0 9) 19 (Some (str "teardown_test")) ;;
  mock_reset ;;
  rsvp_teardown_path 19 1 ;;
  n ← mock_pkt_count;
  psb ← rsvp_psb_find_by_id 19 1;
  rsvp_state_db_cleanup ;;
  mret [some_calls n; negb (found psb)].

(** ** test_mbb_frr.c *)

Definition is_rc (rc want : rsvp_error_t) : bool := bool_decide (rc = want).
(** A path found by its ids, read through the pointer. *)
Definition psb_by_id (tunnel_id lsp_id : Z) : M mock_state rsvp_psb :=
  psb ← rsvp_psb_find_by_id tunnel_id lsp_id; l ← lift psb; psb_get l.

Definition test_mbb_start_missing_old_psb : test mock_state :=
  set_up ;;
  rc ← rsvp_mbb_start 200 1 2 [];
  rsvp_state_db_cleanup ;;
  mret [is_rc rc RSVP_ERR_NOT_FOUND].

Definition test_mbb_start_non_ingress_psb_rejected : test mock_state :=
  set_up ;;
  let src := ia 10 0 0 1 in let dst := ia 10 0 0 5 in
  inject (build_path src dst 201 1) src dst ;;
  rc ← rsvp_mbb_start 201 1 2 [];
  rsvp_state_db_cleanup ;;
  mret [is_rc rc RSVP_ERR_INVALID_PARAM].

Definition test_mbb_start_creates_new_psb : test mock_state :=
  set_up ;;
  rsvp_initiate_path (ia 10 0 0 1) (ia 10 0 0 9) 202 (Some (str "mbb_test")) ;;
  rc ← rsvp_mbb_start 202 1 2 [];
  new_psb ← rsvp_psb_find_by_id 202 2;
  p ← psb_by_id 202 2;
  rsvp_state_db_cleanup ;;
  mret [is_rc rc RSVP_SUCCESS; found new_psb; psb_is_mbb_pending p; psb_mbb_old_lsp_id p =? 1].

Definition test_mbb_start_old_psb_still_active : test mock_state :=
  set_up ;;
  rsvp_initiate_path (ia 10 0 0 1) (ia 10 0 0 9) 203 (Some (str "mbb_old_active")) ;;
  rsvp_mbb_start 203 1 2 [] ;;
  old_psb ← rsvp_psb_find_by_id 203 1;
  new_psb ← rsvp_psb_find_by_id 203 2;
  rsvp_state_db_cleanup ;;
  mret [found old_psb; found new_psb].

Definition test_mbb_start_duplicate_new_lsp_id : test mock_state :=
  set_up ;;
  rsvp_initiate_path (ia 10 0 0 1) (ia 10 0 0 9) 204 (Some (str "mbb_dup")) ;;
  rsvp_mbb_start 204 1 2 [] ;;
  rc ← rsvp_mbb_start 204 1 2 [];
  rsvp_state_db_cleanup ;;
  mret [is_rc rc RSVP_ERR_ALREADY_EXISTS].

Definition test_mbb_complete_on_first_resv : test mock_state :=
  set_up ;;
  let src := ia 10 0 0 1 in let dst := ia 10 0 0 9 in
  rsvp_initiate_path src dst 205 (Some (str "mbb_complete")) ;;
  rsvp_mbb_start 205 1 2 [] ;;
  old_psb ← rsvp_psb_find_by_id 205 1;
  new_psb ← rsvp_psb_find_by_id 205 2;
  inject (build_resv dst src 205 2 9000) dst src ;;
  after ← rsvp_psb_find_by_id 205 1;
  rsvp_state_db_cleanup ;;
  mret [found old_psb; found new_psb; negb (found after)].

(** The smoke tests: the assertion holds when it is reached. *)
Definition test_frr_revert_no_active_frr_no_crash : test mock_state :=
  set_up ;; rsvp_frr_revert 5 ;; rsvp_state_db_cleanup ;; mret [true].
Definition test_frr_trigger_no_active_lsps_no_crash : test mock_state :=
  set_up ;; rsvp_frr_trigger 5 ;; rsvp_state_db_cleanup ;; mret [true].
Definition test_frr_dump_no_crash : test mock_state :=
  set_up ;; rsvp_frr_dump ;; rsvp_state_db_cleanup ;; mret [true].

Definition test_frr_enable_protection_missing_psb : test mock_state :=
  set_up ;;
  rc ← rsvp_frr_enable_protection 999 1 RSVP_FRR_FACILITY 888;
  rsvp_state_db_cleanup ;;
  mret [is_rc rc RSVP_ERR_NOT_FOUND].

Definition test_frr_enable_protection_without_bypass_rsb : test mock_state :=
  set_up ;;
  let src := ia 10 0 0 1 in let dst := ia 10 0 0 5 in
  rsvp_initiate_path src dst 300 (Some (str "primary")) ;;
  byp ← rsvp_psb_create (test_key src (ia 10 0 0 6) 301 1);
  l ← lift byp; psb_set l (λ p, p <| psb_is_bypass_tunnel := true |>) ;;
  rc ← rsvp_frr_enable_protection 300 1 RSVP_FRR_FACILITY 301;
  rsvp_state_db_cleanup ;;
  mret [is_rc rc RSVP_ERR_FRR_NOT_CONFIGURED].

(** ** test_hello.c

    test_restart_detection_triggers_frr is left out: it counts the calls of a
    stub that replaces [rsvp_frr_trigger], which the model calls directly. *)

Definition nbor_by_addr (addr : Z) : M mock_state rsvp_neighbor :=
  n ← rsvp_hello_find_neighbor addr; i ← lift n; nbor_get i.
Definition local : Z := ia 10 0 0 1.

Definition test_add_neighbor_creates_entry : test mock_state :=
  rsvp_hello_init ;;
  n ← rsvp_hello_add_neighbor (ia 10 0 0 2) local 1;
  i ← lift n; e ← nbor_get i;
  rsvp_hello_shutdown ;;
  mret [found n; nb_addr e =? ia 10 0 0 2; nb_ifindex e =? 1; bool_decide (nb_state e = RSVP_NBOR_IDLE)].

Definition test_add_neighbor_idempotent : test mock_state :=
  rsvp_hello_init ;;
  a ← rsvp_hello_add_neighbor (ia 10 0 0 3) local 2;
  b ← rsvp_hello_add_neighbor (ia 10 0 0 3) local 2;
  rsvp_hello_shutdown ;;
  mret [bool_decide (a = b)].

Definition test_find_returns_null_for_unknown : test mock_state :=
  rsvp_hello_init ;;
  n ← rsvp_hello_find_neighbor (ia 192 168 1 99);
  rsvp_hello_shutdown ;;
  mret [negb (found n)].

Definition test_recv_request_transitions_to_up : test mock_state :=
  rsvp_hello_init ;; mock_reset ;;
  rsvp_hello_add_neighbor (ia 10 0 0 4) local 3 ;;
  rsvp_hello_recv (ia 10 0 0 4) 2882343476 0 RSVP_HELLO_CTYPE_REQUEST ;;
  n ← rsvp_hello_find_neighbor (ia 10 0 0 4);
  e ← nbor_by_addr (ia 10 0 0 4);
  rsvp_hello_shutdown ;;
  mret [found n; bool_decide (nb_state e = RSVP_NBOR_UP); nb_dst_instance e =? 2882343476].

Definition test_recv_request_sends_ack : test mock_state :=
  rsvp_hello_init ;; mock_reset ;;
  rsvp_hello_add_neighbor (ia 10 0 0 5) local 4 ;;
  before ← mock_pkt_count;
  rsvp_hello_recv (ia 10 0 0 5) 286331153 0 RSVP_HELLO_CTYPE_REQUEST ;;
  n ← mock_pkt_count;
  rsvp_hello_shutdown ;;
  mret [(before <? n)%nat].

Definition test_recv_ack_transitions_to_up : test mock_state :=
  rsvp_hello_init ;; mock_reset ;;
  n ← rsvp_hello_add_neighbor (ia 10 0 0 6) local 5;
  i ← lift n; e ← nbor_get i;
  rsvp_hello_recv (ia 10 0 0 6) 3735879681 (nb_src_instance e) RSVP_HELLO_CTYPE_ACK ;;
  e ← nbor_by_addr (ia 10 0 0 6);
  rsvp_hello_shutdown ;;
  mret [bool_decide (nb_state e = RSVP_NBOR_UP)].

Definition test_recv_increments_hellos_rcvd : test mock_state :=
  rsvp_hello_init ;; mock_reset ;;
  rsvp_hello_add_neighbor (ia 10 0 0 7) local 6 ;;
  rsvp_hello_recv (ia 10 0 0 7) 305397761 0 RSVP_HELLO_CTYPE_REQUEST ;;
  rsvp_hello_recv (ia 10 0 0 7) 305397761 0 RSVP_HELLO_CTYPE_REQUEST ;;
  e ← nbor_by_addr (ia 10 0 0 7);
  rsvp_hello_shutdown ;;
  mret [2 <=? nb_hellos_rcvd e].

Definition test_autocreate_on_unknown_src : test mock_state :=
  rsvp_hello_init ;; mock_reset ;;
  rsvp_hello_recv (ia 10 10 10 10) 3405691582 0 RSVP_HELLO_CTYPE_REQUEST ;;
  n ← rsvp_hello_find_neighbor (ia 10 10 10 10);
  rsvp_hello_shutdown ;;
  mret [found n].

Definition test_src_instance_nonzero_after_add : test mock_state :=
  rsvp_hello_init ;;
  n ← rsvp_hello_add_neighbor (ia 10 0 0 9) local 8;
  i ← lift n; e ← nbor_get i;
  rsvp_hello_shutdown ;;
  mret [negb (nb_src_instance e =? 0)].
End tests.

(** ** The runs *)

Definition test_state_machine : list (test mock_state) :=
  [test_path_at_egress_creates_psb_and_sends_resv true;
   test_path_at_transit_creates_psb_and_forwards false;
   test_path_refresh_does_not_duplicate_psb false;
   test_resv_at_ingress_installs_mpls false;
   test_resv_at_transit_allocates_label_and_propagates false;
   test_pathtear_removes_psb false;
   test_resvtear_removes_rsb false;
   test_initiate_path_creates_psb false;
   test_teardown_path_sends_pathtear false].
Definition test_mbb_frr : list (test mock_state) :=
  [test_mbb_start_missing_old_psb true;
   test_mbb_start_non_ingress_psb_rejected false;
   test_mbb_start_creates_new_psb false;
   test_mbb_start_old_psb_still_active false;
   test_mbb_start_duplicate_new_lsp_id false;
   test_mbb_complete_on_first_resv false;
   test_frr_revert_no_active_frr_no_crash false;
   test_frr_enable_protection_missing_psb;
   test_frr_dump_no_crash;
   test_frr_trigger_no_active_lsps_no_crash false;
   test_frr_enable_protection_without_bypass_rsb false].
Definition test_hello : list (test mock_state) :=
  [test_add_neighbor_creates_entry true;
   test_add_neighbor_idempotent true;
   test_find_returns_null_for_unknown;
   test_recv_request_transitions_to_up true;
   test_recv_request_sends_ack true;
   test_recv_ack_transitions_to_up true;
   test_recv_increments_hellos_rcvd true;
   test_autocreate_on_unknown_src true;
   test_src_instance_nonzero_after_add true].

(** The verdicts of test_state_machine.  The paths of the messages carry their
    destination as extended tunnel id, and the keys the tests look up do not:
    no block is found under them (tests 1 and 2).  The RESV of the tests names
    the sender as destination of its session, so it meets no path block and
    installs nothing (tests 4, 5 and 7); the packet that test 5 counts is a
    RESV_ERR.  The counter of the LSP ids is never
    reset: in test 8 the new path has LSP id 2, [rsvp_psb_find_by_id] of LSP
    id 1 gives NULL, and the test reads through it. *)
Lemma test_state_machine_run : run_tests test_state_machine mock_start =
  [Some [true; false; true]; Some [false; true]; Some [true]; Some [true; false];
   Some [false; true]; Some [true; true]; Some [false; true; false]; None].
Proof. vm_compute. reflexivity. Qed.

(** The verdicts of test_mbb_frr.  Only the first initiated path of the program
    has the LSP id 1 the tests name: the make-before-break of the later ones
    finds no incumbent (tests 4 to 6), and so does the protection of test 11. *)
Lemma test_mbb_frr_run : run_tests test_mbb_frr mock_start =
  [Some [true]; Some [true]; Some [true; true; true; true]; Some [false; true];
   Some [false]; Some [false; false; true]; Some [true]; Some [true]; Some [true];
   Some [true]; Some [false]].
Proof. vm_compute. reflexivity. Qed.

(** Every assertion of test_hello holds. *)
Lemma test_hello_passes : run_tests test_hello mock_start =
  [Some [true; true; true; true]; Some [true]; Some [true]; Some [true; true; true];
   Some [true]; Some [true]; Some [true]; Some [true]; Some [true]].
Proof. vm_compute. reflexivity. Qed.
